(* ===== verification/_CoqProject ===== *)
-Q . S2P
Prelude.v
Alloc.v
Bump.v
LinkedList.v
FixedSizeBlock.v
Format.v
Vga.v
Ata.v
Drive.v
Fat32.v
Fat32Spec.v
Fat32Write.v
Fat32Record.v
Fat32Create.v
Fat32Examples.v
Stack.v
Keyboard.v
Executor.v
Code.v
SimpleExecutor.v
Memory.v
InitHeap.v
Interrupts.v
Gdt.v
Locks.v
Serial.v
TestRunner.v
TestSuite.v
World.v
Tasks.v
Kernel.v
Preempt.v
KernelRun.v
Boot.v
BootExamples.v
