(* ===== verification/Prelude.v ===== *)
(** * Rusty OS: a verification development

    Rusty OS is a small x86-64 kernel in Rust (crate [rusty_os], sources under
    [src/src/]).  This library models its components as executable Rocq
    definitions and proves what makes them correct.

    ** The program and the files that model it

    - Heap allocators ([allocator.rs], [allocator/*.rs]).  [Alloc] has
      [Layout], [align_up], the interface [GlobalAlloc] and the contract
      [AllocSpec] a client relies on; [Bump], [LinkedList] and
      [FixedSizeBlock] model the three allocators, each in a Module named
      after its Rust type with the state as a Record [t] and [new], [init],
      [alloc] and [dealloc] as in the source ([Dummy] is in [Alloc]).  The
      kernel uses
      [FixedSizeBlockAllocator]; its fallback, the crate
      [linked_list_allocator], is the class [FallbackHeap] with the contract
      [FallbackHeapSpec], which the repository's own linked-list allocator is
      shown to satisfy.
    - Console ([vga_buffer.rs]).  [Vga] models the 25 x 80 buffer and the
      [Writer] that scrolls it.
    - Disk ([ata.rs]).  [Ata] models the driver's statics, its command
      sequences, the futures [SectorRead] and [SectorWrite] and the interrupt
      handler.  The device is the class [PortDevice]; [AtaDeviceSpec] states
      what the ATA standard promises for a PIO read.  [Drive] is a concrete
      drive that keeps those promises.
    - File system ([fs/fat32.rs]).  [Fat32] models the boot sector, directory
      entries and every operation of [Fat32], over the sector interface
      [SectorIO] of this file.  [Fat32Spec] defines the abstract view of a
      volume (geometry, FAT, chains, slots) and has the read operations,
      [Fat32Write] the FAT updates and directory slots, [Fat32Record] the
      directory records and data chunks, [Fat32Create] [create_file];
      [Fat32Examples] runs them on volumes in memory.
    - [Stack] puts the file system on the ATA driver.
    - Keyboard ([task/keyboard.rs]).  [Keyboard] models the scancode queue,
      [add_scancode], the stream's [poll_next] (as one function and access by
      access) and the loop of [print_keypresses].
    - Tasks ([task/mod.rs], [task/executor.rs], [task/simple_executor.rs]).
      [Executor] models the executor over futures that are a parameter, and in
      its Module [Sleep] the instructions of [sleep_if_idle];
      [SimpleExecutor] the round-robin executor.
    - Memory ([memory.rs], [init_heap] of [allocator.rs]).  [Memory] models
      the frame allocators and [translate_addr], [InitHeap] the mapping of the
      heap's pages.
    - Interrupts ([interrupts.rs]).  [Interrupts] models the vectors, the
      descriptor table and the handlers, over the console, the keyboard's
      statics and the ATA driver.

    - Segment tables ([gdt.rs]).  [Gdt] models the double-fault stack, the
      descriptor table and [init], and the processor's delivery of exceptions
      through them.
    - Locks.  [Locks] reduces the kernel's operations and handlers to their
      accesses to the spin locks ([Locked], [WRITER], [SERIAL1], [PICS]) and
      to the interrupt flag, on a processor that is interrupted between any
      two of them.  Whether a waker called by a handler can be the last
      reference to its memory is a parameter.
    - Tests ([serial.rs], [lib.rs]).  [Serial] models the serial port,
      [TestRunner] the test runner, [TestSuite] the crate's own test cases.
    - The kernel ([main.rs], [init] of [lib.rs]).  [Code] has programs as
      sequences of accesses to a shared state, with interrupts between them;
      [World] computations on the state that handlers and tasks share, with
      what they leave on the console; [Tasks] the three [async] functions that
      [kernel_main] spawns, as state machines between their [await]s whose
      code is such a program, with the messages of the driver; [Kernel] the
      executor with these tasks and the interrupts that wake them; [Preempt]
      [run_ready_tasks] one access at a time, interrupted in the middle of
      polls; [KernelRun] rounds of [Executor::run] with interrupts between
      them; [Boot] [kernel_main] from its first statement, with interrupts
      between its statements and what it allocates charged to the heap;
      [BootExamples] boots a machine.  [Format] is the part of [core::fmt] the
      messages use.

    The components meet in type classes: [AllocSpec] between an allocator and
    its clients, [FallbackHeapSpec] between the block allocator and its
    fallback, [SectorReadSpec] and [SectorWriteSpec] between the file system
    and a driver, [AtaDeviceSpec] between the driver and the drive,
    [FrameAllocatorSpec] and [MapperSpec] between [init_heap] and what it
    calls, [PagingSpec] for the fields of addresses and entries, [GdtSpec],
    [PicSpec] and [VirtAddrSpec] for the crates [x86_64] and [pic8259],
    [SerialPortSpec] for [uart_16550], [Future] between the executor and its
    tasks.  Clients are proved against the class, implementations discharge it
    by instances.

    ** How the code is modelled

    A computation is [io S A], a function from a state to a state and an
    [outcome]: [Ok], [Err] (the [Err] of a [Result<_, &str>]), [Panic] or
    [Hang] (a future that is never completed).  [runs m s o Q] is total
    correctness: from [s], [m] ends with outcome [o] in a state satisfying
    [Q].  Integers are [Z] with their width ([in_width]); arithmetic that can
    overflow goes through [arith], which panics or wraps with the build
    profile ([Profile]), so that theorems hold for both profiles unless they
    name one.  Indexing is bounds-checked.  Memory that a Rust reference
    points into, such as the free lists of the allocators, is a map from
    addresses that live blocks may overwrite ([ga_scribble]).  Loops are
    recursion on the data they run over.

    Fuel and bounds: [find_region] gets one more unit of fuel than there are
    nodes in memory and never runs out of it ([linked_list_alloc_refines]);
    [follow_cluster_chain] has the source's own bound of 10000 iterations;
    [await] allows eight interrupts for a transfer that needs one, and the
    theorems about it either reach the result or stop for lack of an
    interrupt, never for lack of fuel; [run_ready_tasks] gets more fuel than
    there are queued tasks and wakeups to come, and then returns
    ([run_ready_tasks_drains]); in [kernel_main_session] four units serve the
    three tasks, and [POLL_FUEL] one poll of the keyboard task, whose queue
    holds at most a hundred scancodes.  [Preempt] needs no fuel: an iteration
    of the keyboard task's loop is a step of the machine.

    ** What the theorems show

    - Allocators: along every sequence of allocations, deallocations and
      writes by clients, live blocks are aligned, inside the heap and
      disjoint and no call panics; the linked-list search refines first fit;
      freed blocks are reused; front padding is lost.
    - Console: [write_string] refines a terminal with unbounded history,
      never leaves the buffer, and [println!] shows its line.
    - Disk: a read delivers the requested sector; no interleaving of the
      interrupt handler with [poll] loses a wakeup; which sector a command
      addresses; what goes wrong with writes, errors and the request queue.
    - File system: chains are followed to their end or reported; listing and
      reading return what is on disk; allocation takes the lowest free
      cluster; the FAT copies stay equal; a created file is listed and read
      back and leaves other files alone; where [create_file] loses data or
      clusters.
    - Keyboard: in every interleaving with the interrupt handler scancodes
      are delivered in order and the task never sleeps over input; typed keys
      appear on the console.
    - Tasks: spawned tasks are polled, the run loop drains its queue, and the
      processor halts only with nothing to run.
    - Memory: frames are usable and handed out once; the heap is mapped page
      by page to frames of its own; translation agrees with the processor.
    - Interrupts: every sequence of hardware requests is handled without a
      panic, acknowledged in order, and delivers its scancodes.
    - Faults: with the tables [gdt::init] loads no exception ends in a triple
      fault, and an overflowed stack ends in the double-fault handler.
    - Locks: code that passes the lock discipline never deadlocks; the
      kernel's code passes it exactly if handlers do not free memory.
    - Tests: the runner reports what happened, and the crate's tests pass.
    - The kernel: from power on, [kernel_main] boots whatever timer and
      keyboard interrupts arrive and its allocations keep the heap's
      invariant; a session shows the boot messages, the sector on the disk and
      what is typed, in order; interrupts at any point of the polls do not
      make the kernel panic as long as the executor gets to empty its queue,
      and a burst of 101 key presses within a poll does.

    ** What is not modelled

    The effect of a lock on the data it guards (a component's call is one
    step of the others, except for the interleavings of [Ata], [Keyboard],
    [Executor], [Locks] and [Preempt]; in [KernelRun] and [Boot] interrupts
    arrive between rounds and between statements; a [println!], which disables
    interrupts, and the copy of the sector buffer are single accesses);
    allocations after the boot (the wakers, their map and the scancode queue,
    made by the first polls); the diagnostic output of the file system and of
    sector writes; the trait of
    [block_device.rs] (no implementor), the integration tests of [src/tests/]
    and the empty files of [shell/]. *)

From stdpp Require Export prelude gmap strings functions list.

#[global] Open Scope Z_scope.

(** ** Outcomes of Rust computations

    [Ok] and [Err] are the two constructors of the source's
    [Result<_, &'static str>]; a function that returns a plain value uses
    [Ok] only.  [Panic] is a Rust panic (the target is built with
    [panic-strategy = abort]) and [Hang] a future that never becomes ready. *)
Inductive outcome (A : Type) : Type :=
  | Ok (a : A)
  | Err (e : string)
  | Panic
  | Hang.
Arguments Ok {A} a.
Arguments Err {A} e.
Arguments Panic {A}.
Arguments Hang {A}.

#[global] Instance outcome_ret : MRet outcome := λ A a, Ok a.
#[global] Instance outcome_bind : MBind outcome := λ A B k m,
  match m with
  | Ok a => k a
  | Err e => Err e
  | Panic => Panic
  | Hang => Hang
  end.

Lemma ok_bind {A B} (a : A) (k : A → outcome B) : (Ok a ≫= k) = k a.
Proof. done. Qed.

#[global] Instance outcome_eq_dec {A} `{EqDecision A} : EqDecision (outcome A).
Proof. solve_decision. Defined.

(** ** Stateful computations

    The state survives an error return, so that what a failing operation
    leaves behind can be stated. *)
Definition io (S A : Type) : Type := S → S * outcome A.

#[global] Instance io_ret {S} : MRet (io S) := λ A a s, (s, Ok a).
#[global] Instance io_bind {S} : MBind (io S) := λ A B k m s,
  match m s with
  | (s', Ok a) => k a s'
  | (s', Err e) => (s', Err e)
  | (s', Panic) => (s', Panic)
  | (s', Hang) => (s', Hang)
  end.

Definition lift {S A} (o : outcome A) : io S A := λ s, (s, o).
Definition get {S} : io S S := λ s, (s, Ok s).
Definition put {S} (s : S) : io S unit := λ _, (s, Ok tt).
Definition io_err {S A} (e : string) : io S A := lift (Err e).

(** A [for] loop over the elements of a range or a slice. *)
Fixpoint for_each {S A} (l : list A) (body : A → io S unit) : io S unit :=
  match l with
  | [] => mret tt
  | a :: l => _ ← body a; for_each l body
  end.

(** A loop that accumulates a value. *)
Fixpoint fold_io {S A B} (f : B → A → io S B) (b : B) (l : list A) : io S B :=
  match l with
  | [] => mret b
  | a :: l => b ← f b a; fold_io f b l
  end.

(** [runs m s o Q]: from [s] the computation [m] ends with outcome [o] in a
    state satisfying [Q]; a total-correctness triple, since the outcome is
    given. *)
Definition runs {S A} (m : io S A) (s : S) (o : outcome A) (Q : S → Prop) : Prop :=
  ∃ s', m s = (s', o) ∧ Q s'.

Lemma runs_ret {S A} (a : A) (s : S) (Q : S → Prop) :
  Q s → runs (mret a) s (Ok a) Q.
Proof. intros HQ. by exists s. Qed.

Lemma runs_lift {S A} (o : outcome A) (s : S) (Q : S → Prop) :
  Q s → runs (lift o) s o Q.
Proof. intros HQ. by exists s. Qed.

Lemma runs_bind {S A B} (m : io S A) (k : A → io S B) s a o (R Q : S → Prop) :
  runs m s (Ok a) R →
  (∀ s', R s' → runs (k a) s' o Q) →
  runs (m ≫= k) s o Q.
Proof.
  intros (s' & Hm & HR) Hk. destruct (Hk s' HR) as (s'' & Hs'' & HQ).
  exists s''. unfold mbind, io_bind. by rewrite Hm.
Qed.

Lemma runs_bind_lift {S A B} (a : A) (k : A → io S B) s o (Q : S → Prop) :
  runs (k a) s o Q → runs (lift (Ok a) ≫= k) s o Q.
Proof. done. Qed.

Lemma runs_bind_err {S A B} (m : io S A) (k : A → io S B) s e (Q : S → Prop) :
  runs m s (Err e) Q → runs (m ≫= k) s (Err e) Q.
Proof.
  intros (s' & Hm & HQ). exists s'. unfold mbind, io_bind. by rewrite Hm.
Qed.

Lemma runs_bind_hang {S A B} (m : io S A) (k : A → io S B) s (Q : S → Prop) :
  runs m s Hang Q → runs (m ≫= k) s Hang Q.
Proof.
  intros (s' & Hm & HQ). exists s'. unfold mbind, io_bind. by rewrite Hm.
Qed.

Lemma runs_mono {S A} (m : io S A) s o (R Q : S → Prop) :
  runs m s o R → (∀ s', R s' → Q s') → runs m s o Q.
Proof. intros (s' & ? & ?) HRQ. exists s'. eauto. Qed.

Lemma runs_det {S A} (m : io S A) s o1 o2 (Q1 Q2 : S → Prop) :
  runs m s o1 Q1 → runs m s o2 Q2 → o1 = o2.
Proof. intros (?&?&?) (?&?&?). congruence. Qed.

(** A loop whose body maps the state by [f] maps it by the fold of [f]. *)
Lemma for_each_foldl {S A} (P : S → Prop) (f : S → A → S) (body : A → io S unit) l s :
  P s → (∀ s a, P s → a ∈ l → body a s = (f s a, Ok tt) ∧ P (f s a)) →
  for_each l body s = (foldl f s l, Ok tt) ∧ P (foldl f s l).
Proof.
  revert s. induction l as [|a l IH]; intros s Hs Hb; [done|].
  destruct (Hb s a Hs) as [Heq HP]; [left|]. simpl. unfold mbind, io_bind.
  rewrite Heq. apply IH; [done|]. intros s' a' ??. apply Hb; [done|by right].
Qed.

Lemma for_each_app {S A} (l1 l2 : list A) (body : A → io S unit) s :
  for_each (l1 ++ l2) body s = (_ ← for_each l1 body; for_each l2 body) s.
Proof.
  revert s. induction l1 as [|a l1 IH]; intros s; [done|]. simpl. unfold mbind, io_bind in *.
  destruct (body a s) as [s1 []]; [apply IH|done..].
Qed.

Lemma bind_assoc {A B C} (f : A → list B) (g : B → list C) l :
  (l ≫= f) ≫= g = l ≫= (λ a, f a ≫= g).
Proof. induction l as [|a l IH]; [done|]. simpl. rewrite bind_app. f_equal. apply IH. Qed.

Lemma bind_fmap {A B C} (f : A → B) (g : B → list C) l :
  (f <$> l) ≫= g = l ≫= g ∘ f.
Proof. induction l as [|a l IH]; [done|]. simpl. f_equal. apply IH. Qed.

Lemma filter_fmap_bind {A B} (P : B → Prop) `{!∀ x, Decision (P x)} (f : A → B) l :
  filter P (f <$> l) = l ≫= λ a, if decide (P (f a)) then [f a] else [].
Proof.
  induction l as [|a l IH]; [done|]. rewrite fmap_cons, filter_cons.
  cbn. case_decide; simpl; [f_equal|]; apply IH.
Qed.

Lemma filter_ext_in {A} (P Q : A → Prop) `{!∀ x, Decision (P x), !∀ x, Decision (Q x)} (l : list A) :
  (∀ x, x ∈ l → P x ↔ Q x) → filter P l = filter Q l.
Proof.
  induction l as [|a l IH]; intros HPQ; [done|]. rewrite !filter_cons.
  rewrite IH by (intros; apply HPQ; by right).
  pose proof (HPQ a ltac:(left)). repeat case_decide; tauto.
Qed.

Lemma filter_all {A} (P : A → Prop) `{!∀ x, Decision (P x)} (l : list A) : Forall P l → filter P l = l.
Proof. induction 1; [done|]. rewrite filter_cons_True by done. by f_equal. Qed.

Lemma filter_none {A} (P : A → Prop) `{!∀ x, Decision (P x)} (l : list A) :
  Forall (λ x, ¬ P x) l → filter P l = [].
Proof. induction 1; [done|]. by rewrite filter_cons_False. Qed.

(** A loop that appends [g a] to its accumulator for every element. *)
Lemma fold_io_append {S A B} (P : S → Prop) (g : A → list B)
    (f : list B → A → io S (list B)) l acc s :
  P s →
  (∀ acc a s, a ∈ l → P s → runs (f acc a) s (Ok (acc ++ g a)) P) →
  runs (fold_io f acc l) s (Ok (acc ++ (l ≫= g))) P.
Proof.
  revert acc s. induction l as [|a l IH]; intros acc s Hs Hf; simpl.
  - rewrite app_nil_r. by apply runs_ret.
  - eapply runs_bind; [apply Hf; [left|done]|]. intros s' Hs'.
    rewrite app_assoc. apply IH; [done|]. intros. apply Hf; [by right|done].
Qed.

Lemma fold_io_app {S A B} (f : B → A → io S B) b b' l1 l2 s o (R Q : S → Prop) :
  runs (fold_io f b l1) s (Ok b') R →
  (∀ s', R s' → runs (fold_io f b' l2) s' o Q) →
  runs (fold_io f b (l1 ++ l2)) s o Q.
Proof.
  revert b s. induction l1 as [|a l1 IH]; intros b s Hl1 Hl2; simpl in *.
  - destruct Hl1 as (s' & Heq & HR). inversion Heq; subst. by apply Hl2.
  - destruct Hl1 as (s' & Heq & HR). unfold mbind, io_bind in Heq.
    destruct (f b a s) as [s1 [b1|e| |]] eqn:Hf; try done.
    eapply (runs_bind _ _ _ b1 _ (λ s', s' = s1)); [by exists s1|].
    intros ? ->. apply IH; [|done]. by exists s'.
Qed.

(** ** Machine integers

    An unsigned [w]-bit integer is a [Z] in [0, 2^w).  Arithmetic that leaves
    the range panics when the crate is built with overflow checks
    ([cargo build], [cargo test]) and wraps around otherwise
    ([cargo build --release]); every definition with such arithmetic takes the
    build profile as an implicit argument. *)
Class Profile : Type := overflow_checks : bool.

Definition debug : Profile := true.
Definition release : Profile := false.

Definition in_width (w z : Z) : Prop := 0 ≤ z < 2 ^ w.
#[global] Instance in_width_dec w z : Decision (in_width w z).
Proof. unfold in_width. apply _. Defined.

Abbreviation is_u8 := (in_width 8).
Abbreviation is_u16 := (in_width 16).
Abbreviation is_u32 := (in_width 32).
Abbreviation is_u64 := (in_width 64).
Abbreviation is_usize := (in_width 64).

Definition wrap (w z : Z) : Z := z mod 2 ^ w.

(** The result of an arithmetic operation whose exact value is [z]. *)
Definition arith `{Profile} (w z : Z) : outcome Z :=
  if decide (in_width w z) then Ok z
  else if overflow_checks then Panic else Ok (wrap w z).

Definition add_w `{Profile} (w a b : Z) : outcome Z := arith w (a + b).
Definition sub_w `{Profile} (w a b : Z) : outcome Z := arith w (a - b).
Definition mul_w `{Profile} (w a b : Z) : outcome Z := arith w (a * b).

(** [checked_add] of the integer types: [None] on overflow, in every build. *)
Definition checked_add (w a b : Z) : option Z :=
  if decide (in_width w (a + b)) then Some (a + b) else None.

Lemma arith_ok `{Profile} w z : in_width w z → arith w z = Ok z.
Proof. intros. unfold arith. by rewrite decide_True. Qed.

Lemma arith_overflow `{Profile} w z :
  ¬ in_width w z → arith w z = if overflow_checks then Panic else Ok (wrap w z).
Proof. intros. unfold arith. by rewrite decide_False. Qed.

Lemma wrap_small w z : in_width w z → wrap w z = z.
Proof. intros. by apply Z.mod_small. Qed.

Lemma wrap_in_width w z : 0 ≤ w → in_width w (wrap w z).
Proof. intros. apply Z.mod_pos_bound. lia. Qed.

(** [lia] on goals about fixed-width ranges. *)
Ltac width := unfold in_width in *; change (2 ^ 8) with 256 in *;
  change (2 ^ 16) with 65536 in *; change (2 ^ 28) with 268435456 in *;
  change (2 ^ 32) with 4294967296 in *;
  change (2 ^ 62) with 4611686018427387904 in *;
  change (2 ^ 63) with 9223372036854775808 in *;
  change (2 ^ 64) with 18446744073709551616 in *; lia.

(** ** Arrays and slices *)

(** Indexing panics out of range. *)
Definition idx {A} (l : list A) (i : nat) : outcome A :=
  match l !! i with Some x => Ok x | None => Panic end.

(** [&l[a..a+n]], when in range. *)
Definition slice {A} (a n : nat) (l : list A) : list A := take n (drop a l).

Lemma idx_ok {A} (l : list A) i x : l !! i = Some x → idx l i = Ok x.
Proof. intros Hi. unfold idx. by rewrite Hi. Qed.

Lemma idx_total {A} `{Inhabited A} (l : list A) i :
  (i < length l)%nat → idx l i = Ok (l !!! i).
Proof. intros Hi. apply idx_ok. by apply list_lookup_lookup_total_lt. Qed.

Lemma length_slice {A} a n (l : list A) :
  (a + n ≤ length l)%nat → length (slice a n l) = n.
Proof. intros. unfold slice. rewrite length_take, length_drop. lia. Qed.

Lemma lookup_slice {A} a n (l : list A) i :
  (i < n)%nat → slice a n l !! i = l !! (a + i)%nat.
Proof. intros. unfold slice. rewrite lookup_take_lt by done. apply lookup_drop. Qed.

Lemma slice_lookup_total `{Inhabited A} a n (l : list A) i :
  (i < n)%nat → slice a n l !!! i = l !!! (a + i)%nat.
Proof. intros. rewrite !list_lookup_total_alt. by rewrite lookup_slice. Qed.

Lemma Forall_slice {A} (P : A → Prop) a n l : Forall P l → Forall P (slice a n l).
Proof. intros. by apply Forall_take, Forall_drop. Qed.

Lemma slice_inserts_same {A} a (k l : list A) :
  (a + length k ≤ length l)%nat → slice a (length k) (list_inserts a k l) = k.
Proof.
  intros Hle. apply list_eq. intros i. destruct (decide (i < length k)%nat).
  - rewrite lookup_slice by done. rewrite list_lookup_inserts by lia. f_equal; lia.
  - rewrite !lookup_ge_None_2; [done|lia|].
    unfold slice. rewrite length_take. lia.
Qed.

Lemma slice_inserts_other {A} a b n (k l : list A) :
  (b + n ≤ a)%nat ∨ (a + length k ≤ b)%nat →
  slice b n (list_inserts a k l) = slice b n l.
Proof.
  intros Hor. apply list_eq. intros i. destruct (decide (i < n)%nat).
  - rewrite !lookup_slice by done. destruct Hor.
    + by rewrite list_lookup_inserts_lt by lia.
    + by rewrite list_lookup_inserts_ge by lia.
  - rewrite !lookup_ge_None_2; [done|..]; unfold slice; rewrite length_take; lia.
Qed.

(** One step of a loop that overwrites [D] with [R] from left to right. *)
Lemma insert_take_drop {A} `{Inhabited A} k (R D : list A) :
  (k < length R)%nat → (k < length D)%nat →
  <[k := R !!! k]> (take k R ++ drop k D) = take (S k) R ++ drop (S k) D.
Proof.
  intros HR HD. rewrite insert_app_r_alt by (rewrite length_take; lia).
  rewrite length_take, Nat.min_l, Nat.sub_diag by lia.
  destruct (lookup_lt_is_Some_2 D k HD) as [d Hd].
  rewrite (drop_S _ _ _ Hd). simpl.
  erewrite take_S_r by by apply list_lookup_lookup_total_lt.
  by rewrite <-app_assoc.
Qed.

(** ** Little-endian encoding: [from_le_bytes] and [to_le_bytes] *)

Fixpoint from_le_bytes (bs : list Z) : Z :=
  match bs with
  | [] => 0
  | b :: bs => b + 256 * from_le_bytes bs
  end.

Fixpoint to_le_bytes (n : nat) (z : Z) : list Z :=
  match n with
  | O => []
  | S n => z mod 256 :: to_le_bytes n (z / 256)
  end.

Lemma length_to_le_bytes n z : length (to_le_bytes n z) = n.
Proof. revert z. induction n; intros; simpl; [done|]. by rewrite IHn. Qed.

Lemma to_le_bytes_u8 n z : Forall is_u8 (to_le_bytes n z).
Proof.
  revert z. induction n; intros; simpl; constructor; [|done].
  apply (wrap_in_width 8). lia.
Qed.

Lemma from_le_bytes_bound bs :
  Forall is_u8 bs → 0 ≤ from_le_bytes bs < 256 ^ Z.of_nat (length bs).
Proof.
  induction 1 as [|b bs Hb Hbs IH]; [done|]. simpl length.
  rewrite Nat2Z.inj_succ, Z.pow_succ_r by lia. simpl. width.
Qed.

Lemma from_to_le_bytes n z :
  from_le_bytes (to_le_bytes n z) = z mod 256 ^ Z.of_nat n.
Proof.
  revert z. induction n as [|n IH]; intros z; simpl from_le_bytes.
  - by rewrite Z.mod_1_r.
  - rewrite IH, Nat2Z.inj_succ, Z.pow_succ_r by lia.
    rewrite Z.rem_mul_r by lia. done.
Qed.

Lemma to_from_le_bytes bs :
  Forall is_u8 bs → to_le_bytes (length bs) (from_le_bytes bs) = bs.
Proof.
  induction 1 as [|b bs Hb Hbs IH]; [done|]. simpl.
  rewrite (Z.add_comm b), (Z.mul_comm 256), Z.div_add_l, (Z.div_small b) by width.
  rewrite Z.add_comm, Z_mod_plus_full, Z.add_0_r, IH.
  by rewrite Z.mod_small by width.
Qed.

(** The reads [u16::from_le_bytes([s[o], s[o+1]])] and the four-byte form. *)
Definition u16_at (s : list Z) (o : nat) : outcome Z :=
  b0 ← idx s o; b1 ← idx s (o + 1); Ok (from_le_bytes [b0; b1]).

Definition u32_at (s : list Z) (o : nat) : outcome Z :=
  b0 ← idx s o; b1 ← idx s (o + 1); b2 ← idx s (o + 2); b3 ← idx s (o + 3);
  Ok (from_le_bytes [b0; b1; b2; b3]).

(** The value those reads return in range. *)
Definition le_field (o n : nat) (s : list Z) : Z := from_le_bytes (slice o n s).

Lemma slice_cons {A} `{Inhabited A} o n (s : list A) :
  (o < length s)%nat → slice o (S n) s = (s !!! o) :: slice (S o) n s.
Proof.
  intros Ho. unfold slice. erewrite drop_S; [done|].
  by apply list_lookup_lookup_total_lt.
Qed.

Lemma u16_at_ok s o : (o + 2 ≤ length s)%nat → u16_at s o = Ok (le_field o 2 s).
Proof.
  intros. unfold u16_at, le_field. rewrite !idx_total by lia.
  do 2 rewrite slice_cons by lia. by rewrite Nat.add_1_r.
Qed.

Lemma u32_at_ok s o : (o + 4 ≤ length s)%nat → u32_at s o = Ok (le_field o 4 s).
Proof.
  intros. unfold u32_at, le_field. rewrite !idx_total by lia.
  do 4 rewrite slice_cons by lia.
  by rewrite (Nat.add_comm o 1), (Nat.add_comm o 2), (Nat.add_comm o 3).
Qed.

Lemma le_field_bound o n s :
  Forall is_u8 s → (o + n ≤ length s)%nat → 0 ≤ le_field o n s < 256 ^ Z.of_nat n.
Proof.
  intros Hs Hle. unfold le_field.
  rewrite <-(length_slice o n s Hle) at 3. by apply from_le_bytes_bound, Forall_slice.
Qed.

(** ** Disks

    A disk maps a logical block address to the 512 bytes of its sector. *)

Abbreviation disk := (Z → list Z).

Definition sector_ok (s : list Z) : Prop := length s = 512%nat ∧ Forall is_u8 s.

Definition disk_ok (k : disk) : Prop := ∀ lba, sector_ok (k lba).

Lemma disk_ok_insert k lba s : disk_ok k → sector_ok s → disk_ok (<[lba := s]> k).
Proof.
  intros Hk Hs lba'. destruct (decide (lba = lba')) as [->|Hne].
  - by rewrite fn_lookup_insert.
  - by rewrite fn_lookup_insert_ne.
Qed.

(** What the file system needs of a driver: reading and writing a sector. *)
Class SectorIO (S : Type) : Type := {
  sector_read : Z → io S (list Z);
  sector_write : Z → list Z → io S unit;
}.

(** [disk_repr s k]: in state [s] the disk behind the driver holds [k]. *)
Class SectorReadSpec (S : Type) `{SectorIO S} : Type := {
  disk_repr : S → disk → Prop;
  sector_count : Z;
  disk_repr_ok s k : disk_repr s k → disk_ok k;
  sector_read_spec s k lba :
    disk_repr s k → 0 ≤ lba < sector_count →
    runs (sector_read lba) s (Ok (k lba)) (λ s', disk_repr s' k);
}.

Class SectorWriteSpec (S : Type) `{SectorReadSpec S} : Prop := {
  sector_write_spec s k lba data :
    disk_repr s k → 0 ≤ lba < sector_count → sector_ok data →
    runs (sector_write lba data) s (Ok tt) (λ s', disk_repr s' (<[lba := data]> k));
}.
