(* ===== verification/Alloc.v ===== *)
(** * The allocator interface ([src/allocator.rs])

    [Layout] and its checks (from [core::alloc]), [align_up], the heap
    constants, and the contract of the [GlobalAlloc] trait: the class
    [GlobalAlloc] holds the two methods, the class [AllocSpec] what an
    implementation promises its clients.  [client_step] is a client that
    allocates, frees and writes into its blocks in any order; whatever
    implements [AllocSpec] keeps the client's blocks aligned, inside the heap
    and pairwise disjoint ([client_reach_inv], [ga_inv_live]). *)

From S2P Require Import Prelude.

(** ** Layouts *)

Record Layout : Type := MkLayout { l_size : Z; l_align : Z }.

#[global] Instance Layout_eq_dec : EqDecision Layout.
Proof. solve_decision. Defined.

Definition isize_max : Z := 2 ^ 63 - 1.

(** Alignments are powers of two. *)
Definition pow2 (a : Z) : Prop := ∃ k, 0 ≤ k ∧ a = 2 ^ k.

(** The least multiple of [align] that is at least [n]. *)
Definition round_up (n align : Z) : Z := (n + align - 1) / align * align.

(** What [Layout::from_size_align] checks, beyond the power of two. *)
Definition layout_fits (size align : Z) : bool :=
  bool_decide (0 ≤ size) && bool_decide (round_up size align ≤ isize_max).

Definition layout_ok (l : Layout) : Prop :=
  pow2 (l_align l) ∧ layout_fits (l_size l) (l_align l) = true.

(** [GlobalAlloc::alloc] may only be called with a non-zero size. *)
Definition request_ok (l : Layout) : Prop := layout_ok l ∧ 0 < l_size l.

(** ** [align_up] *)

Section align_up.
Context `{Profile}.

Definition align_up (addr align : Z) : outcome Z :=
  let remainder := addr mod align in
  if decide (remainder = 0) then Ok addr
  else (a ← sub_w 64 addr remainder; add_w 64 a align).

End align_up.

(** The heap of [init_heap]. *)
Definition HEAP_START : Z := 0x444444440000.
Definition HEAP_SIZE : Z := 100 * 1024.

(** ** The [GlobalAlloc] trait *)

Class GlobalAlloc (A : Type) : Type := {
  ga_alloc : Layout → io A Z;
  ga_dealloc : Z → Layout → io A unit;
}.

Definition null : Z := 0.

(** ** Regions: a start address and a size in bytes *)

Abbreviation region := (Z * Z)%type.

Definition disjoint_regions (r1 r2 : region) : Prop :=
  r1.1 + r1.2 ≤ r2.1 ∨ r2.1 + r2.2 ≤ r1.1.

Definition inside (hs he : Z) (r : region) : Prop := hs ≤ r.1 ∧ r.1 + r.2 ≤ he.

(** Pairwise disjoint regions. *)
Fixpoint separate (l : list region) : Prop :=
  match l with
  | [] => True
  | r :: l => Forall (disjoint_regions r) l ∧ separate l
  end.

(** A block a client holds: the pointer it got and the layout it asked for. *)
Record block : Type := Block { b_ptr : Z; b_layout : Layout }.

Definition block_region (b : block) : region := (b_ptr b, l_size (b_layout b)).

Definition block_ok (hs he : Z) (b : block) : Prop :=
  b_ptr b ≠ null ∧ (l_align (b_layout b) | b_ptr b) ∧ inside hs he (block_region b).

(** What the blocks held at one time satisfy. *)
Definition live_ok (hs he : Z) (live : list block) : Prop :=
  Forall (block_ok hs he) live ∧ separate (block_region <$> live).

(** ** The contract

    [ga_inv a live]: allocator state [a] is consistent with the blocks [live]
    being in use.  [ga_scribble b a a']: the client may have stored anything
    in the block [b], which changes the memory the allocator's own data lives
    in from [a] to [a'].  [ga_accepts]: the layouts that do not make [alloc]
    panic. *)
Class AllocSpec (A : Type) `{GlobalAlloc A} (hs he : Z) : Type := {
  ga_inv : A → list block → Prop;
  ga_scribble : block → A → A → Prop;
  ga_accepts : Layout → Prop;
  ga_inv_live a live : ga_inv a live → live_ok hs he live;
  ga_alloc_spec a live l :
    ga_inv a live → request_ok l → ga_accepts l →
    ∃ a' p, ga_alloc l a = (a', Ok p) ∧
      ((p = null ∧ ga_inv a' live) ∨ (p ≠ null ∧ ga_inv a' (Block p l :: live)));
  ga_dealloc_spec a live1 b live2 :
    ga_inv a (live1 ++ b :: live2) →
    ∃ a', ga_dealloc (b_ptr b) (b_layout b) a = (a', Ok tt) ∧
      ga_inv a' (live1 ++ live2);
  ga_scribble_spec a a' b live :
    ga_inv a live → b ∈ live → ga_scribble b a a' → ga_inv a' live;
}.

Section client.
Context {A : Type} `{AllocSpec A hs he}.

Inductive client_step : A * list block → A * list block → Prop :=
  | client_alloc a a' live l p :
      request_ok l → ga_accepts l → ga_alloc l a = (a', Ok p) → p ≠ null →
      client_step (a, live) (a', Block p l :: live)
  | client_alloc_fails a a' live l :
      request_ok l → ga_accepts l → ga_alloc l a = (a', Ok null) →
      client_step (a, live) (a', live)
  | client_dealloc a a' live1 b live2 :
      ga_dealloc (b_ptr b) (b_layout b) a = (a', Ok tt) →
      client_step (a, live1 ++ b :: live2) (a', live1 ++ live2)
  | client_write a a' live b :
      b ∈ live → ga_scribble b a a' →
      client_step (a, live) (a', live).

(** Neither method panics, whatever request comes next. *)
Definition no_panic (a : A) (live : list block) : Prop :=
  (∀ l, request_ok l → ga_accepts l → ∃ a' p, ga_alloc l a = (a', Ok p)) ∧
  (∀ b, b ∈ live → ∃ a', ga_dealloc (b_ptr b) (b_layout b) a = (a', Ok tt)).

End client.

(** ** Lemmas on regions *)

#[global] Instance disjoint_regions_sym : Symmetric disjoint_regions.
Proof. unfold disjoint_regions. intros r1 r2 ?. tauto. Qed.

#[global] Instance separate_perm : Proper ((≡ₚ) ==> iff) separate.
Proof.
  intros l1 l2 Hl. induction Hl as [|r l1 l2 Hl IH|r1 r2 l|]; simpl.
  - done.
  - assert (Forall (disjoint_regions r) l1 ↔ Forall (disjoint_regions r) l2)
      by by apply Forall_Permutation.
    tauto.
  - rewrite !Forall_cons. split; intros ((?&?)&?&?); split_and!; auto; by symmetry.
  - by etrans.
Qed.

Lemma separate_app l1 l2 :
  separate (l1 ++ l2) ↔
  separate l1 ∧ separate l2 ∧ Forall (λ r, Forall (disjoint_regions r) l2) l1.
Proof.
  induction l1 as [|r l1 IH]; simpl.
  - split; [intros; by repeat constructor|tauto].
  - rewrite IH, Forall_app, Forall_cons. tauto.
Qed.

(** A part of a region is disjoint from what the region is disjoint from. *)
Lemma disjoint_regions_shrink r r' s :
  r'.1 ≤ r.1 → r.1 + r.2 ≤ r'.1 + r'.2 →
  disjoint_regions r' s → disjoint_regions r s.
Proof. unfold disjoint_regions. lia. Qed.

(** [r] shrinks to [f r] in every element. *)
Lemma separate_shrink {B} (f g : B → region) (l : list B) :
  Forall (λ b, (g b).1 ≤ (f b).1 ∧ (f b).1 + (f b).2 ≤ (g b).1 + (g b).2) l →
  separate (g <$> l) → separate (f <$> l).
Proof.
  induction l as [|b l IH]; simpl; [done|].
  rewrite Forall_cons. intros [Hb Hl] [Hd Hs]. split; [|auto].
  rewrite Forall_fmap in Hd |- *. rewrite Forall_forall in Hl, Hd |- *.
  intros c Hc. specialize (Hl c Hc). specialize (Hd c Hc).
  simpl in *. unfold disjoint_regions in *. lia.
Qed.

#[global] Instance live_ok_perm hs he : Proper ((≡ₚ) ==> iff) (live_ok hs he).
Proof. intros l1 l2 Hp. unfold live_ok. by rewrite Hp. Qed.

Lemma live_ok_cons hs he b live :
  live_ok hs he (b :: live) ↔
  block_ok hs he b ∧ live_ok hs he live ∧
  Forall (λ c, disjoint_regions (block_region b) (block_region c)) live.
Proof. unfold live_ok. simpl. rewrite Forall_cons, Forall_fmap. tauto. Qed.

Lemma live_ok_app hs he live1 live2 :
  live_ok hs he (live1 ++ live2) → live_ok hs he live1 ∧ live_ok hs he live2.
Proof.
  unfold live_ok. rewrite fmap_app, separate_app, Forall_app. tauto.
Qed.

(** A block's address is not the address of another live block. *)
Lemma live_ok_fresh hs he b live :
  live_ok hs he (b :: live) → 0 < l_size (b_layout b) →
  Forall (λ c, 0 < l_size (b_layout c)) live → b_ptr b ∉ b_ptr <$> live.
Proof.
  intros (_ & _ & Hd)%live_ok_cons Hb Hl (c & Heq & Hc)%list_elem_of_fmap.
  rewrite Forall_forall in Hd. rewrite Forall_forall in Hl.
  specialize (Hd c Hc). specialize (Hl c Hc).
  unfold disjoint_regions, block_region in Hd. simpl in Hd. lia.
Qed.

(** ** Lemmas on alignment *)

Lemma pow2_pos a : pow2 a → 0 < a.
Proof. intros (k & ? & ->). lia. Qed.

Lemma pow2_divide a b : pow2 a → pow2 b → a ≤ b → (a | b).
Proof.
  intros (i & Hi & ->) (j & Hj & ->) Hle.
  apply Z.pow_le_mono_r_iff in Hle; [|lia..].
  exists (2 ^ (j - i)). rewrite <-Z.pow_add_r by lia. f_equal. lia.
Qed.

Lemma pow2_max a b : pow2 a → pow2 b → pow2 (a `max` b).
Proof. intros. destruct (Z.max_spec a b) as [[_ ->]|[_ ->]]; done. Qed.

Lemma round_up_bounds n a : 0 < a → n ≤ round_up n a < n + a.
Proof. intros. unfold round_up. pose proof (Z.mod_pos_bound (n + a - 1) a).
  pose proof (Z.div_mod (n + a - 1) a). lia. Qed.

Lemma round_up_divide n a : (a | round_up n a).
Proof. apply Z.divide_factor_r. Qed.

Lemma round_up_least n a m : 0 < a → (a | m) → n ≤ m → round_up n a ≤ m.
Proof.
  intros Ha [q ->] Hle. unfold round_up. apply Z.mul_le_mono_nonneg_r; [lia|].
  apply Z.lt_succ_r, Z.div_lt_upper_bound; lia.
Qed.

Lemma round_up_eq n a m : 0 < a → (a | m) → n ≤ m < n + a → round_up n a = m.
Proof.
  intros Ha Hm Hb. pose proof (round_up_least n a m Ha Hm).
  pose proof (round_up_bounds n a Ha). destruct Hm as [q ->].
  destruct (round_up_divide n a) as [r Hr]. rewrite Hr in *.
  assert (q = r) by nia. by subst.
Qed.

Section align_up_lemmas.
Context `{Profile}.

(** [align_up] returns the least multiple of [align] above [addr], and
    overflows when that is not representable. *)
Lemma align_up_arith addr align :
  is_usize addr → 0 < align → align_up addr align = arith 64 (round_up addr align).
Proof.
  intros Ha Hal. unfold align_up.
  pose proof (Z.mod_pos_bound addr align Hal).
  pose proof (Z.div_mod addr align) as Hdm.
  pose proof (Z.mod_le addr align ltac:(width) Hal).
  case_decide as Hrem.
  - assert (round_up addr align = addr) as ->.
    { apply round_up_eq; [done| |lia]. by apply Z.mod_divide; [lia|]. }
    by rewrite arith_ok.
  - assert (round_up addr align = addr - addr mod align + align) as ->.
    { apply round_up_eq; [done| |lia].
      exists (addr / align + 1). lia. }
    unfold sub_w, add_w. by rewrite (arith_ok 64 (addr - addr mod align)) by width.
Qed.

Lemma align_up_ok addr align :
  is_usize addr → 0 < align → is_usize (round_up addr align) →
  align_up addr align = Ok (round_up addr align).
Proof. intros. by rewrite align_up_arith, arith_ok. Qed.

Lemma round_up_mask n align :
  pow2 align → Z.land (n + align - 1) (Z.lnot (align - 1)) = round_up n align.
Proof.
  intros (k & Hk & ->). unfold round_up.
  rewrite <-Z.ldiff_land. replace (2 ^ k - 1) with (Z.ones k) by (rewrite Z.ones_equiv; lia).
  by rewrite Z.ldiff_ones_r, Z.shiftl_mul_pow2, Z.shiftr_div_pow2 by done.
Qed.

(** C30. align_up is the usual mask formula: for every address and every power of
    two it gives (addr + align - 1) with the low bits cleared, computed in
    unbounded integers, and where that does not fit 64 bits it overflows: a
    panic with overflow checks, and the wrapped value, 0, without. *)
Theorem align_up_mask addr align :
  is_usize addr → pow2 align → is_usize align →
  let up := Z.land (addr + align - 1) (Z.lnot (align - 1)) in
  align_up addr align = arith 64 up ∧
  (is_usize up → align_up addr align = Ok up) ∧
  (¬ is_usize up → align_up addr align = if overflow_checks then Panic else Ok 0).
Proof.
  intros Ha Hp Hal. pose proof Hp as (k & Hk & Heq). cbv zeta. rewrite round_up_mask by done.
  assert (0 < align) by (rewrite Heq; lia).
  split_and!; [by apply align_up_arith|by apply align_up_ok|]. intros Hov.
  assert (round_up addr align = 2 ^ 64) as Hr.
  { pose proof (round_up_bounds addr align ltac:(done)).
    apply Z.le_antisymm; [|unfold in_width in *; lia].
    apply round_up_least; [done| |unfold in_width in Ha; lia]. exists (2 ^ (64 - k)).
    rewrite Heq, <-Z.pow_add_r; [f_equal; lia| |done].
    unfold in_width in Hal. rewrite Heq in Hal. apply proj2, Z.pow_lt_mono_r_iff in Hal; lia. }
  rewrite align_up_arith, Hr, arith_overflow by (done || unfold in_width; lia). done.
Qed.

Lemma align_up_aligned addr align :
  0 < align → (align | addr) → align_up addr align = Ok addr.
Proof.
  intros ? Hd. unfold align_up. rewrite decide_True; [done|].
  by apply Z.mod_divide; [lia|].
Qed.

End align_up_lemmas.

Lemma layout_ok_facts l :
  layout_ok l →
  0 < l_align l ∧ 0 ≤ l_size l ∧ l_size l ≤ isize_max ∧
  round_up (l_size l) (l_align l) ≤ isize_max.
Proof.
  intros [Hp Hf]. unfold layout_fits in Hf.
  apply andb_prop in Hf as [H1 H2].
  apply bool_decide_eq_true in H1, H2. apply pow2_pos in Hp as Hpos.
  pose proof (round_up_bounds (l_size l) (l_align l) Hpos). lia.
Qed.

(** A non-empty layout has an alignment of at most 2^62. *)
Lemma request_align_bound l : request_ok l → l_align l ≤ 2 ^ 62.
Proof.
  intros [Hok Hsz]. destruct (layout_ok_facts l Hok) as (Hal & _ & _ & Hr).
  destruct Hok as [(k & Hk & Heq) _].
  assert (l_align l ≤ round_up (l_size l) (l_align l)) as Hle.
  { pose proof (round_up_bounds (l_size l) (l_align l) Hal).
    apply Z.divide_pos_le; [lia|apply round_up_divide]. }
  rewrite Heq in *. apply Z.pow_le_mono_r; [lia|].
  assert (2 ^ k < 2 ^ 63) as Hlt by (unfold isize_max in Hr; lia).
  apply Z.pow_lt_mono_r_iff in Hlt; lia.
Qed.

(** ** The client's theorems *)

Section client_lemmas.
Context {A : Type} `{AllocSpec A hs he}.

Lemma client_step_inv a live a' live' :
  ga_inv a live → client_step (a, live) (a', live') → ga_inv a' live'.
Proof.
  intros Hinv Hstep. inversion Hstep; simplify_eq.
  - destruct (ga_alloc_spec a live l) as (a'' & p' & Heq & [[? ?]|[? ?]]);
      try done; congruence.
  - destruct (ga_alloc_spec a live' l) as (a'' & p' & Heq & [[? ?]|[? ?]]);
      try done; congruence.
  - destruct (ga_dealloc_spec a live1 b live2) as (a'' & Heq & ?); [done|].
    congruence.
  - by eapply ga_scribble_spec.
Qed.

Lemma ga_inv_no_panic a live : ga_inv a live → no_panic a live.
Proof.
  intros Hinv. split.
  - intros l Hl Hacc. destruct (ga_alloc_spec a live l) as (? & ? & ? & _); eauto.
  - intros b Hb. apply list_elem_of_split in Hb as (l1 & l2 & ->).
    destruct (ga_dealloc_spec a l1 b l2) as (? & ? & _); eauto.
Qed.

Lemma client_reach_inv a0 a live :
  ga_inv a0 [] → rtc client_step (a0, []) (a, live) → ga_inv a live.
Proof.
  intros Hinit Hsteps. remember (a0, []) as x0. remember (a, live) as x.
  assert (ga_inv x0.1 x0.2) as Hx0 by by subst.
  assert (ga_inv x.1 x.2) as Hx; [|by subst].
  clear Heqx0 Heqx Hinit. induction Hsteps as [|x [y1 y2] z Hxy Hyz IH]; [done|].
  apply IH. simpl. destruct x. by eapply client_step_inv.
Qed.

End client_lemmas.

#[global] Hint Resolve pow2_pos : core.

(** ** [Dummy]

    The allocator that never allocates keeps the contract trivially: no block is
    ever live. *)

Module Dummy.

#[export] Instance Dummy_alloc : GlobalAlloc unit := {|
  ga_alloc _ := mret null;
  ga_dealloc _ _ := lift Panic;
|}.

#[export] Instance dummy_alloc_spec hs he : AllocSpec unit hs he.
Proof.
  refine {| ga_inv _ live := live = []; ga_scribble _ _ _ := False; ga_accepts _ := True |}.
  - by intros _ _ ->.
  - intros [] _ l -> _ _. exists tt, null. split; [done|by left].
  - intros a [|b' live1] b live2; [done|]. by intros [=].
  - intros a a' b live -> Hb. by apply not_elem_of_nil in Hb.
Defined.

End Dummy.

(** ** Witness *)

Lemma align_up_mask_witness :
  @align_up debug 0x1001 16 = Ok 0x1010 ∧ @align_up release (2 ^ 64 - 1) 8 = Ok 0.
Proof.
  split.
  - apply (@align_up_mask debug 0x1001 16); [done|by exists 4|done|done].
  - apply (@align_up_mask release (2 ^ 64 - 1) 8); [done|by exists 3|done|].
    vm_compute. by intros [_ ?].
Defined.
