(* ===== verification/Bump.v ===== *)
(** * The bump allocator ([src/allocator/bump.rs])

    The four-field state and its operations, as an instance of the
    [GlobalAlloc] contract: the counter is the number of live blocks, every
    live block lies below [next], and [next] returns to the start of the heap
    when the last block is freed. *)

From S2P Require Import Prelude Alloc.

Module BumpAllocator.

Record t : Type := Mk {
  heap_start : Z;
  heap_end : Z;
  next : Z;
  allocations : Z;
}.

Definition new : t := Mk 0 0 0 0.

Section ops.
Context `{Profile}.

Definition init (start size : Z) : io t unit :=
  b ← get;
  e ← lift (add_w 64 start size);
  put (Mk start e start (allocations b)).

Definition alloc (layout : Layout) : io t Z :=
  bump ← get;
  alloc_start ← lift (align_up (next bump) (l_align layout));
  match checked_add 64 alloc_start (l_size layout) with
  | None => mret null
  | Some alloc_end =>
    if decide (alloc_end > heap_end bump) then mret null
    else
      _ ← put (Mk (heap_start bump) (heap_end bump) alloc_end (allocations bump));
      n ← lift (add_w 64 (allocations bump) 1);
      _ ← put (Mk (heap_start bump) (heap_end bump) alloc_end n);
      mret alloc_start
  end.

Definition dealloc (_ptr : Z) (_layout : Layout) : io t unit :=
  bump ← get;
  n ← lift (sub_w 64 (allocations bump) 1);
  put (Mk (heap_start bump) (heap_end bump)
          (if decide (n = 0) then heap_start bump else next bump) n).

#[global] Instance bump_global_alloc : GlobalAlloc t :=
  {| ga_alloc := alloc; ga_dealloc := dealloc |}.

End ops.

(** ** The invariant *)

Definition total_size (live : list block) : Z :=
  foldr (λ b n, l_size (b_layout b) + n) 0 live.

Record inv (hs he : Z) (a : t) (live : list block) : Prop := {
  inv_bounds : 0 < hs ∧ hs ≤ next a ≤ he ∧ he ≤ 2 ^ 63;
  inv_start : heap_start a = hs;
  inv_end : heap_end a = he;
  inv_count : allocations a = Z.of_nat (length live);
  inv_sizes : Forall (λ b, 0 < l_size (b_layout b)) live;
  inv_blocks : Forall (block_ok hs (next a)) live;
  inv_separate : separate (block_region <$> live);
  inv_total : total_size live ≤ next a - hs;
  inv_reset : live = [] → next a = hs;
}.

Lemma block_ok_mono hs he he' b : block_ok hs he b → he ≤ he' → block_ok hs he' b.
Proof. intros (? & ? & ? & ?) ?. split_and!; [done..|]. split; lia. Qed.

Lemma total_size_count live :
  Forall (λ b, 0 < l_size (b_layout b)) live → Z.of_nat (length live) ≤ total_size live.
Proof. induction 1; simpl length; simpl total_size; lia. Qed.

Lemma total_size_perm live live' : live ≡ₚ live' → total_size live = total_size live'.
Proof. induction 1; simpl; lia. Qed.

Lemma inv_perm hs he a live live' : live ≡ₚ live' → inv hs he a live → inv hs he a live'.
Proof.
  intros Hp [Hb Hs He Hc Hsz Hbl Hsep Htot Hreset]. split; try done.
  - by rewrite <-Hp.
  - by rewrite <-Hp.
  - by rewrite <-Hp.
  - by rewrite <-Hp.
  - by rewrite <-(total_size_perm _ _ Hp).
  - intros ->. apply Permutation_nil_r in Hp as ->. auto.
Qed.

Section proofs.
Context `{Profile}.

Lemma bump_alloc_inv hs he a live l :
  inv hs he a live → request_ok l →
  ∃ a' p, alloc l a = (a', Ok p) ∧
    ((p = null ∧ inv hs he a' live) ∨ (p ≠ null ∧ inv hs he a' (Block p l :: live))).
Proof.
  intros [Hb Hs He Hc Hsz Hbl Hsep Htot Hreset] Hreq.
  pose proof (request_align_bound l Hreq). destruct Hreq as [Hl Hpos].
  destruct (layout_ok_facts l Hl) as (Hal & _ & Hmax & _).
  set (p := round_up (next a) (l_align l)).
  pose proof (round_up_bounds (next a) (l_align l) Hal).
  pose proof (total_size_count live Hsz).
  assert (align_up (next a) (l_align l) = Ok p) as Hup
    by (apply align_up_ok; width).
  unfold alloc, mbind, io_bind, lift, get; simpl. rewrite Hup.
  unfold checked_add. case_decide as Hadd; [|exists a, null; split; [done|by left]].
  case_decide as Hbig.
  - exists a, null. split; [done|]. by left.
  - unfold put, add_w. rewrite arith_ok by width.
    exists (Mk (heap_start a) (heap_end a) (p + l_size l) (allocations a + 1)), p.
    split; [done|]. right. split; [unfold null; lia|].
    assert (block_ok hs (p + l_size l) (Block p l)) as Hnew.
    { split_and!; [unfold null; simpl; lia|apply round_up_divide|].
      split; simpl; lia. }
    split; simpl; try done; try lia.
    + by constructor.
    + constructor; [done|]. eapply Forall_impl; [done|].
      intros b Hb'. eapply block_ok_mono; [done|lia].
    + split; [|done]. rewrite Forall_fmap. eapply Forall_impl; [done|].
      intros b (_ & _ & _ & Hend). right. simpl in *. lia.
Qed.

Lemma bump_dealloc_inv hs he a live1 b live2 :
  inv hs he a (live1 ++ b :: live2) →
  ∃ a', dealloc (b_ptr b) (b_layout b) a = (a', Ok tt) ∧ inv hs he a' (live1 ++ live2).
Proof.
  intros Hinv. apply (inv_perm _ _ _ _ (b :: live1 ++ live2)) in Hinv;
    [|by rewrite Permutation_middle].
  generalize dependent (live1 ++ live2). intros live [Hb Hs He Hc Hsz Hbl Hsep Htot Hreset].
  simpl in Hc, Hsep, Htot. destruct Hsep as [_ Hsep].
  apply Forall_cons in Hsz as [Hbsz Hsz], Hbl as [Hbok Hbl].
  pose proof (total_size_count live Hsz).
  unfold dealloc, mbind, io_bind, lift, get, put, sub_w; simpl.
  rewrite arith_ok by width. eexists. split; [done|].
  case_decide as Hn.
  - assert (live = []) as -> by (destruct live; [done|simpl in *; lia]).
    split; simpl; try done; lia.
  - split; simpl; try done; try lia. intros ->. simpl in *. lia.
Qed.

Lemma bump_init_inv hs size :
  0 < hs → 0 ≤ size → hs + size ≤ 2 ^ 63 →
  ∃ a, init hs size new = (a, Ok tt) ∧ inv hs (hs + size) a [].
Proof.
  intros. unfold init, mbind, io_bind, lift, get, put, add_w; simpl.
  rewrite arith_ok by width. eexists. split; [done|].
  split; simpl; try done; lia.
Qed.

(** The bump allocator keeps the promises of [GlobalAlloc].  It keeps no data
    in the heap, so a client's writes do not concern it. *)
#[export] Instance bump_alloc_spec hs he : AllocSpec t hs he.
Proof.
  refine {| ga_inv := inv hs he; ga_scribble := λ _ a a', a = a';
            ga_accepts := λ _, True |}.
  - intros a live Hinv. split; [|by eapply inv_separate].
    eapply Forall_impl; [by eapply inv_blocks|]. intros b Hb.
    eapply block_ok_mono; [done|]. pose proof (inv_bounds _ _ _ _ Hinv). lia.
  - intros a live l Hinv Hreq _. by apply bump_alloc_inv.
  - intros a live1 b live2 Hinv. by apply bump_dealloc_inv.
  - intros a a' b live Hinv _ <-. done.
Defined.

(** C23. The bump allocator is safe: over a heap that ends at or below 2^63, after
    any sequence of client operations the live blocks are aligned, inside the
    heap and pairwise disjoint, no request panics, the counter equals the
    number of live blocks and the heap is whole again when none is left. *)
Theorem bump_client_safe hs size a0 a live :
  0 < hs → 0 ≤ size → hs + size ≤ 2 ^ 63 →
  init hs size new = (a0, Ok tt) →
  rtc (client_step (hs := hs) (he := hs + size)) (a0, []) (a, live) →
  live_ok hs (hs + size) live ∧ no_panic (hs := hs) (he := hs + size) a live ∧
  allocations a = Z.of_nat (length live) ∧ (live = [] → next a = hs).
Proof.
  intros Hhs Hsz Hend Hinit Hsteps.
  destruct (bump_init_inv hs size) as (a0' & Heq & Hinv0); [done..|].
  assert (a0' = a0) as -> by congruence.
  pose proof (client_reach_inv _ _ _ Hinv0 Hsteps) as Hinv.
  split_and!; [by eapply ga_inv_live|by eapply ga_inv_no_panic|apply Hinv..].
Qed.

End proofs.

Lemma bump_client_safe_witness :
  let live := [Block HEAP_START (MkLayout 24 8)] in
  live_ok HEAP_START (HEAP_START + HEAP_SIZE) live.
Proof.
  pose (a0 := @init debug HEAP_START HEAP_SIZE new).
  pose (a := @alloc debug (MkLayout 24 8) a0.1).
  refine (proj1 (@bump_client_safe debug HEAP_START HEAP_SIZE a0.1 a.1 _ _ _ _ _ _));
    [done|done|done|vm_compute; reflexivity|].
  apply rtc_once, (client_alloc _ _ _ (MkLayout 24 8) HEAP_START).
  - split; [split; [by exists 3|vm_compute; reflexivity]|done].
  - done.
  - vm_compute. reflexivity.
  - done.
Defined.

End BumpAllocator.
