(* ===== verification/LinkedList.v ===== *)
(** * The linked-list allocator ([src/allocator/linked_list.rs])

    The free regions of the heap form a list whose nodes are stored in the
    regions themselves.  The model keeps that: [mem] is the heap memory, a
    partial map from addresses to the nodes written there, and the operations
    follow and rewrite pointers in it.  [repr] relates such a memory to the
    list of free regions it represents; [find_region] and [alloc] are shown to
    refine first fit on that list ([take_first], [first_fit]), and the
    allocator to be an instance of the [GlobalAlloc] contract. *)

From S2P Require Import Prelude Alloc.

Module LinkedListAllocator.

Record ListNode : Type := Node { ln_size : Z; ln_next : option Z }.

Record t : Type := Mk { head : ListNode; mem : gmap Z ListNode }.

(** [mem::size_of::<ListNode>()] and [mem::align_of::<ListNode>()]: a [usize]
    and a nullable reference. *)
Definition node_size : Z := 16.
Definition node_align : Z := 8.

Definition new : t := Mk (Node 0 None) ∅.

(** A node is reached through a reference to the head ([None]) or to an
    address of the heap; following an address where no node was written is
    undefined, here a panic. *)
Definition deref (st : t) (cur : option Z) : outcome ListNode :=
  match cur with
  | None => Ok (head st)
  | Some a => match mem st !! a with Some n => Ok n | None => Panic end
  end.

(** [cur.next = nx] *)
Definition set_next (cur nx : option Z) (st : t) : t :=
  match cur with
  | None => Mk (Node (ln_size (head st)) nx) (mem st)
  | Some a => Mk (head st) (alter (λ n, Node (ln_size n) nx) a (mem st))
  end.

Section ops.
Context `{Profile}.

Definition end_addr (addr : Z) (n : ListNode) : outcome Z := add_w 64 addr (ln_size n).

Definition add_free_region (addr size : Z) : io t unit :=
  a ← lift (align_up addr node_align);
  if decide (a ≠ addr) then lift Panic
  else if decide (size < node_size) then lift Panic
  else
    st ← get;
    put (Mk (Node (ln_size (head st)) (Some addr))
            (<[addr := Node size (ln_next (head st))]> (mem st))).

Definition init (heap_start heap_size : Z) : io t unit :=
  add_free_region heap_start heap_size.

Definition alloc_from_region (addr : Z) (region : ListNode) (size align : Z) :
    outcome (option Z) :=
  alloc_start ← align_up addr align;
  match checked_add 64 alloc_start size with
  | None => Ok None
  | Some alloc_end =>
    e ← end_addr addr region;
    if decide (alloc_end > e) then Ok None
    else
      excess_size ← sub_w 64 e alloc_end;
      if decide (excess_size > 0 ∧ excess_size < node_size) then Ok None
      else Ok (Some alloc_start)
  end.

(** The walk down the list; [fuel] bounds the number of nodes visited. *)
Fixpoint find_region_from (fuel : nat) (current : option Z) (size align : Z) :
    io t (option (Z * Z)) :=
  match fuel with
  | O => lift Hang
  | S fuel =>
    st ← get;
    cur ← lift (deref st current);
    match ln_next cur with
    | None => mret None
    | Some r =>
      region ← lift (deref st (Some r));
      res ← lift (alloc_from_region r region size align);
      match res with
      | Some alloc_start =>
        _ ← put (set_next current (ln_next region) (set_next (Some r) None st));
        mret (Some (r, alloc_start))
      | None => find_region_from fuel (Some r) size align
      end
    end
  end.

Definition find_region (size align : Z) : io t (option (Z * Z)) :=
  st ← get;
  find_region_from (S (base.size (mem st))) None size align.

Definition size_align (layout : Layout) : outcome (Z * Z) :=
  let align := l_align layout `max` node_align in
  if layout_fits (l_size layout) align then
    Ok (round_up (l_size layout) align `max` node_size, align)
  else Panic.

Definition alloc (layout : Layout) : io t Z :=
  '(size, align) ← lift (size_align layout);
  found ← find_region size align;
  match found with
  | Some (region, alloc_start) =>
    alloc_end ← lift (match checked_add 64 alloc_start size with
                      | Some e => Ok e
                      | None => Panic
                      end);
    st ← get;
    node ← lift (deref st (Some region));
    e ← lift (end_addr region node);
    excessive_size ← lift (sub_w 64 e alloc_end);
    _ ← (if decide (excessive_size > 0) then add_free_region alloc_end excessive_size
         else mret tt);
    mret alloc_start
  | None => mret null
  end.

Definition dealloc (ptr : Z) (layout : Layout) : io t unit :=
  '(size, _) ← lift (size_align layout);
  add_free_region ptr size.

#[global] Instance linked_list_global_alloc : GlobalAlloc t :=
  {| ga_alloc := alloc; ga_dealloc := dealloc |}.

End ops.

(** ** First fit on a list of free regions *)

(** The region can hold [size] bytes aligned to [align], and what is left
    behind them is nothing or large enough for a node. *)
Definition fits (size align : Z) (r : region) : Prop :=
  let excess := r.1 + r.2 - (round_up r.1 align + size) in
  excess = 0 ∨ node_size ≤ excess.
#[global] Instance fits_dec size align r : Decision (fits size align r).
Proof. unfold fits. apply _. Defined.

Fixpoint take_first (size align : Z) (free : list region) : option (region * list region) :=
  match free with
  | [] => None
  | r :: free =>
    if decide (fits size align r) then Some (r, free)
    else match take_first size align free with
         | Some (r', free') => Some (r', r :: free')
         | None => None
         end
  end.

(** The pointer returned and the free list after an allocation. *)
Definition first_fit (size align : Z) (free : list region) : Z * list region :=
  match take_first size align free with
  | None => (null, free)
  | Some (r, rest) =>
    let start := round_up r.1 align in
    let excess := r.1 + r.2 - (start + size) in
    (start, if decide (excess > 0) then (start + size, excess) :: rest else rest)
  end.

(** ** The representation of a free list in memory *)

Fixpoint chain (m : gmap Z ListNode) (p : option Z) (free : list region) : Prop :=
  match free with
  | [] => p = None
  | r :: free => p = Some r.1 ∧ ∃ nx, m !! r.1 = Some (Node r.2 nx) ∧ chain m nx free
  end.

Definition chain_from (st : t) (cur : option Z) (free : list region) : Prop :=
  ∃ n, deref st cur = Ok n ∧ chain (mem st) (ln_next n) free.

(** A free region can hold its node. *)
Definition region_ok (hs he : Z) (r : region) : Prop :=
  (node_align | r.1) ∧ node_size ≤ r.2 ∧ inside hs he r.

Record repr (hs he : Z) (st : t) (free : list region) : Prop := {
  repr_chain : chain (mem st) (ln_next (head st)) free;
  repr_regions : Forall (region_ok hs he) free;
  repr_separate : separate free;
}.

Definition heap_ok (hs he : Z) : Prop := 0 < hs ∧ he ≤ 2 ^ 63.

(** ** Chains *)

Lemma linked_list_chain_frame m m' p free :
  (∀ r, r ∈ free → m' !! r.1 = m !! r.1) → chain m p free → chain m' p free.
Proof.
  revert p. induction free as [|r free IH]; intros p Hm; simpl; [done|].
  intros (-> & nx & Hr & Hc). split; [done|]. exists nx.
  rewrite Hm by (left). split; [done|]. apply IH; [|done]. intros. apply Hm. by right.
Qed.

Lemma separate_nodup free :
  Forall (λ r, 0 < r.2) free → separate free → NoDup free.*1.
Proof.
  induction free as [|r free IH]; simpl; [constructor|].
  intros [Hr Hf]%Forall_cons [Hd Hs]. constructor; [|auto].
  intros (r' & Heq & Hin)%list_elem_of_fmap. rewrite Forall_forall in Hd, Hf.
  specialize (Hd r' Hin). specialize (Hf r' Hin).
  unfold disjoint_regions in Hd. lia.
Qed.

Lemma chain_length m p free :
  chain m p free → NoDup free.*1 → (length free ≤ base.size m)%nat.
Proof.
  intros Hc Hnd. rewrite <-(length_fmap fst free).
  rewrite <-(size_list_to_set (C := gset Z) free.*1 Hnd), <-size_dom.
  apply subseteq_size. revert p Hc. clear Hnd.
  induction free as [|r free IH]; intros p; simpl; [set_solver|].
  intros (_ & nx & Hr & Hc). apply union_subseteq. split; [|by eapply IH].
  apply singleton_subseteq_l, elem_of_dom. eauto.
Qed.

Lemma region_ok_pos hs he free : Forall (region_ok hs he) free → Forall (λ r, 0 < r.2) free.
Proof.
  intros Hf. eapply Forall_impl; [done|]. intros r (_ & Hsz & _).
  unfold node_size in *. lia.
Qed.

Lemma repr_nodup hs he st free : repr hs he st free → NoDup free.*1.
Proof. intros [_ Hr Hs]. apply separate_nodup; [by eapply region_ok_pos|done]. Qed.

(** Unlinking the successor [r] of [cur]. *)
Definition unlink (cur : option Z) (r : Z) (nx : option Z) (st : t) : t :=
  set_next cur nx (set_next (Some r) None st).

Lemma mem_unlink_ne cur r nx st b :
  cur ≠ Some b → r ≠ b → mem (unlink cur r nx st) !! b = mem st !! b.
Proof.
  intros Hc Hr. destruct cur as [a|]; simpl.
  - rewrite !lookup_alter_ne; congruence.
  - by rewrite lookup_alter_ne.
Qed.

Lemma mem_unlink_r cur r nx st n :
  cur ≠ Some r → mem st !! r = Some n →
  mem (unlink cur r nx st) !! r = Some (Node (ln_size n) None).
Proof.
  intros Hc Hr. destruct cur as [a|]; simpl.
  - rewrite lookup_alter_ne by congruence. by rewrite lookup_alter_eq, Hr.
  - by rewrite lookup_alter_eq, Hr.
Qed.

Lemma deref_unlink_cur cur r nx st n :
  cur ≠ Some r → deref st cur = Ok n →
  deref (unlink cur r nx st) cur = Ok (Node (ln_size n) nx).
Proof.
  intros Hc Hn. destruct cur as [a|]; simpl in *; [|by simplify_eq].
  rewrite lookup_alter_eq, lookup_alter_ne by congruence.
  destruct (mem st !! a); by simplify_eq/=.
Qed.

Lemma chain_unlink cur r nx st p l :
  (∀ a, cur = Some a → a ∉ l.*1) → r ∉ l.*1 →
  chain (mem st) p l → chain (mem (unlink cur r nx st)) p l.
Proof.
  intros Hc Hr. apply linked_list_chain_frame. intros r' Hr'.
  apply (list_elem_of_fmap_2 fst) in Hr'.
  apply mem_unlink_ne; [|congruence]. intros ->. by eapply Hc.
Qed.

(** What a walk that starts at [cur] changes: only the nodes it visits. *)
Definition same_outside (st st' : t) (cur : option Z) (l : list region) : Prop :=
  (∀ a, cur ≠ Some a → a ∉ l.*1 → mem st' !! a = mem st !! a) ∧
  (cur ≠ None → head st' = head st).

Lemma take_first_perm size align free r rest :
  take_first size align free = Some (r, rest) →
  fits size align r ∧ free ≡ₚ r :: rest.
Proof.
  revert rest. induction free as [|r' free IH]; intros rest; simpl; [done|].
  case_decide; [by intros [= -> ->]|].
  destruct (take_first size align free) as [[r1 rest1]|]; [|done].
  intros [= -> <-]. destruct (IH rest1) as [? ->]; [done|]. split; [done|].
  apply Permutation_swap.
Qed.

Lemma first_fit_null hs he size align free :
  heap_ok hs he → 0 < align → Forall (region_ok hs he) free →
  (first_fit size align free).1 = null ↔ Forall (λ r, ¬ fits size align r) free.
Proof.
  intros [Hhs _] Hal Hreg. unfold first_fit.
  destruct (take_first size align free) as [[r rest]|] eqn:Htf; simpl.
  - apply take_first_perm in Htf as [Hfit Hp]. rewrite Hp in Hreg |- *.
    apply Forall_cons in Hreg as [(_ & _ & Hin & _) _].
    pose proof (round_up_bounds r.1 align Hal). rewrite Forall_cons. unfold null.
    split; [lia|tauto].
  - split; [intros _|done]. clear Hreg. induction free as [|r free IH]; [done|].
    simpl in Htf. case_decide; [done|]. constructor; [done|]. apply IH.
    by destruct (take_first size align free) as [[]|].
Qed.

(** A region of the right size and alignment is taken whole. *)
Lemma first_fit_exact size align p free :
  (align | p) → 0 < align → first_fit size align ((p, size) :: free) = (p, free).
Proof.
  intros Hd Hal. assert (round_up p align = p) as Hr by (apply round_up_eq; [done..|lia]).
  unfold first_fit; simpl. rewrite decide_True by (left; simpl; lia).
  simpl. rewrite Hr. by rewrite decide_False by lia.
Qed.

Definition total (free : list region) : Z := foldr (λ r n, r.2 + n) 0 free.

Lemma total_perm free free' : free ≡ₚ free' → total free = total free'.
Proof. induction 1; simpl; lia. Qed.

Lemma first_fit_total size align free r rest :
  take_first size align free = Some (r, rest) →
  (first_fit size align free).1 = round_up r.1 align ∧
  total (first_fit size align free).2 + size + (round_up r.1 align - r.1) = total free.
Proof.
  intros Htf. unfold first_fit. rewrite Htf. split; [done|].
  apply take_first_perm in Htf as [Hfit Hp]. rewrite (total_perm _ _ Hp).
  unfold fits, node_size in Hfit. simpl. case_decide; simpl; lia.
Qed.

Lemma size_align_facts l size align :
  request_ok l → size_align l = Ok (size, align) →
  node_size ≤ size ∧ (node_align | size) ∧ l_size l ≤ size ∧
  0 < align ≤ 2 ^ 62 ∧ (node_align | align) ∧ (l_align l | align).
Proof.
  intros Hreq. unfold size_align. case_match; [|done]. intros [= <- <-].
  pose proof (request_align_bound l Hreq). destruct Hreq as [Hl Hpos].
  destruct (layout_ok_facts l Hl) as (Hal & _). destruct Hl as [Hp2 _].
  assert (pow2 node_align) as Hn2 by by exists 3.
  assert (node_align | l_align l `max` node_align) as Hd
    by (apply pow2_divide; [done|by apply pow2_max|lia]).
  pose proof (round_up_bounds (l_size l) (l_align l `max` node_align)).
  split_and!; try lia.
  - destruct (Z.max_spec (round_up (l_size l) (l_align l `max` node_align)) node_size)
      as [[_ ->]|[_ ->]]; [by exists 2|]. etrans; [done|apply round_up_divide].
  - unfold node_align. width.
  - done.
  - apply pow2_divide; [done|by apply pow2_max|lia].
Qed.

Section refinement.
Context `{Profile} (hs he : Z) (Hheap : heap_ok hs he).

Lemma alloc_from_region_ok size align r nx :
  region_ok hs he r → 0 < size → 0 < align ≤ 2 ^ 62 →
  alloc_from_region r.1 (Node r.2 nx) size align =
    Ok (if decide (fits size align r) then Some (round_up r.1 align) else None).
Proof using Hheap.
  intros (_ & Hsz & Hin) Hpos Hal. destruct Hheap as [Hhs Hhe]. destruct Hin.
  unfold node_size in *. pose proof (round_up_bounds r.1 align).
  unfold alloc_from_region. rewrite align_up_ok by width. simpl.
  unfold checked_add, end_addr, add_w, sub_w; simpl. unfold fits, node_size.
  case_decide as Hw; [|rewrite decide_False by width; done].
  rewrite arith_ok by width; simpl.
  case_decide; [rewrite decide_False by lia; done|].
  rewrite arith_ok by width; simpl.
  case_decide; [rewrite decide_False by lia; done|].
  by rewrite decide_True by lia.
Qed.

Lemma find_region_from_ok fuel cur size align l st :
  0 < size → 0 < align ≤ 2 ^ 62 →
  (length l < fuel)%nat → chain_from st cur l →
  Forall (region_ok hs he) l → NoDup l.*1 → (∀ a, cur = Some a → a ∉ l.*1) →
  match take_first size align l with
  | None => find_region_from fuel cur size align st = (st, Ok None)
  | Some (r, l') =>
    ∃ st', find_region_from fuel cur size align st
             = (st', Ok (Some (r.1, round_up r.1 align))) ∧
      chain_from st' cur l' ∧ mem st' !! r.1 = Some (Node r.2 None) ∧
      (∀ n n', deref st cur = Ok n → deref st' cur = Ok n' → ln_size n' = ln_size n) ∧
      same_outside st st' cur l
  end.
Proof using Hheap.
  intros Hsz Hal. revert cur l. induction fuel as [|fuel IH]; intros cur l Hlen; [lia|].
  intros (n & Hn & Hc) Hok Hnd Hcur. destruct l as [|r l]; simpl in *.
  - unfold mbind, io_bind, lift, get. by rewrite Hn, Hc.
  - destruct Hc as (Hnx & nx & Hr & Hc). apply Forall_cons in Hok as [Hrok Hok].
    apply NoDup_cons in Hnd as [Hrl Hnd].
    unfold mbind, io_bind, lift, get; simpl. rewrite Hn, Hnx, Hr.
    rewrite alloc_from_region_ok by done. case_decide as Hfit.
    + assert (cur ≠ Some r.1) as Hne by (intros ->; by eapply (Hcur r.1); [|left]).
      exists (unlink cur r.1 nx st). split_and!; [done|..].
      * exists (Node (ln_size n) nx). split; [by apply deref_unlink_cur|].
        apply chain_unlink; [|done..]. intros a Ha Hin. eapply Hcur; [done|by right].
      * by apply (mem_unlink_r _ _ _ _ (Node r.2 nx)).
      * intros n1 n2 Hn1 Hn2. erewrite deref_unlink_cur in Hn2 by done.
        by simplify_eq.
      * split; [|intros Hnone; by destruct cur]. intros a Ha Hal'.
        apply mem_unlink_ne; [done|]. intros <-. apply Hal'. left.
    + specialize (IH (Some r.1) l ltac:(lia)).
      destruct (take_first size align l) as [[r' l']|]; cycle 1.
      { rewrite IH; try done; [by eexists; simpl; rewrite Hr|by intros ? [= <-]]. }
      destruct IH as (st' & -> & (n1 & Hn1 & Hc1) & Hr' & Hs1 & Hout & Hhd);
        [by eexists; simpl; rewrite Hr|done..|by intros ? [= <-]|].
      simpl in Hn1. destruct (mem st' !! r.1) as [n1'|] eqn:Hn1'; simplify_eq/=.
      assert (ln_size n1 = r.2) as Hn1s.
      { apply (Hs1 (Node r.2 nx)); simpl; [by rewrite Hr|by rewrite Hn1']. }
      assert (deref st' cur = deref st cur) as Hcur'.
      { destruct cur as [a|]; simpl; [|by rewrite Hhd].
        specialize (Hcur a eq_refl). rewrite not_elem_of_cons in Hcur.
        destruct Hcur as [Hcr Hcl]. rewrite Hout; [done|congruence|done]. }
      exists st'. split_and!; [done|..].
      * exists n. rewrite Hcur'. split; [done|]. simpl. split; [done|].
        exists (ln_next n1). rewrite <-Hn1s. by destruct n1.
      * done.
      * intros n2 n3 Hn2 Hn3. rewrite Hcur' in Hn3. congruence.
      * split; [|intros _; by apply Hhd]. intros a Ha Hal'.
        rewrite fmap_cons, not_elem_of_cons in Hal'.
        destruct Hal' as [Har Hal']. apply Hout; [congruence|done].
Qed.

Lemma find_region_ok size align st free :
  0 < size → 0 < align ≤ 2 ^ 62 → repr hs he st free →
  match take_first size align free with
  | None => find_region size align st = (st, Ok None)
  | Some (r, rest) =>
    ∃ st', find_region size align st = (st', Ok (Some (r.1, round_up r.1 align))) ∧
      repr hs he st' rest ∧ mem st' !! r.1 = Some (Node r.2 None)
  end.
Proof using Hheap.
  intros Hsz Hal Hrepr. pose proof (repr_nodup _ _ _ _ Hrepr) as Hnd.
  destruct Hrepr as [Hc Hreg Hsep]. pose proof (chain_length _ _ _ Hc Hnd).
  pose proof (find_region_from_ok (S (base.size (mem st))) None size align free st
    Hsz Hal ltac:(lia) ltac:(by exists (head st)) Hreg Hnd ltac:(done)) as Hfind.
  destruct (take_first size align free) as [[r rest]|] eqn:Htf; [|done].
  destruct Hfind as (st' & Heq & (n & [= <-] & Hc') & Hr & _). exists st'.
  apply take_first_perm in Htf as [_ Hp]. rewrite Hp in Hreg, Hsep.
  apply Forall_cons in Hreg as [_ Hreg]. destruct Hsep as [_ Hsep]. by split_and!.
Qed.

Lemma add_free_region_ok st free r :
  repr hs he st free → region_ok hs he r → Forall (disjoint_regions r) free →
  ∃ st', add_free_region r.1 r.2 st = (st', Ok tt) ∧ repr hs he st' (r :: free).
Proof using Hheap.
  intros [Hc Hreg Hsep] Hr Hd. pose proof Hr as (Hal & Hsz & Hin).
  unfold add_free_region, mbind, io_bind, lift, get, put.
  rewrite align_up_aligned by done. rewrite !decide_False by (congruence || lia).
  eexists. split; [done|]. split; [|by constructor|done].
  simpl. split; [done|]. rewrite lookup_insert_eq. eexists. split; [done|].
  eapply linked_list_chain_frame; [|done]. intros r' Hr'. apply lookup_insert_ne.
  rewrite Forall_forall in Hd, Hreg. specialize (Hd r' Hr').
  destruct (Hreg r' Hr') as (_ & Hsz' & _). unfold disjoint_regions, node_size in *. lia.
Qed.

(** The region given back behind an allocation. *)
Lemma excess_region_ok size align r :
  (node_align | size) → (node_align | align) → 0 < size → 0 < align →
  region_ok hs he r → fits size align r →
  let start := round_up r.1 align in
  let excess := r.1 + r.2 - (start + size) in
  start + size ≤ r.1 + r.2 ∧ r.1 ≤ start ∧
  (excess > 0 → region_ok hs he (start + size, excess)).
Proof using Hheap.
  intros Hds Hda Hsz Hal (_ & Hrs & Hin) Hfit start excess.
  unfold fits in Hfit. fold start in Hfit. fold excess in Hfit.
  pose proof (round_up_bounds r.1 align Hal). unfold inside, node_size in *.
  split_and!; [lia..|]. intros Hex. split_and!.
  - simpl. apply Z.divide_add_r; [|done]. etrans; [done|apply round_up_divide].
  - simpl. unfold node_size. lia.
  - unfold inside. simpl. lia.
Qed.

(** [alloc] refines first fit. *)
Lemma alloc_first_fit st free l size align :
  repr hs he st free → request_ok l → size_align l = Ok (size, align) →
  ∃ st', alloc l st = (st', Ok (first_fit size align free).1) ∧
    repr hs he st' (first_fit size align free).2.
Proof using Hheap.
  intros Hrepr Hreq Hsa.
  destruct (size_align_facts l size align) as (Hs16 & Hsd & _ & Hal & Had & _); [done..|].
  unfold node_size in Hs16.
  pose proof (find_region_ok size align st free ltac:(lia) Hal Hrepr) as Hfind.
  unfold alloc, first_fit, mbind, io_bind, lift at 1. rewrite Hsa.
  destruct (take_first size align free) as [[r rest]|] eqn:Htf.
  - destruct Hfind as (st' & -> & Hrepr' & Hr).
    apply take_first_perm in Htf as [Hfit Hp].
    pose proof (repr_regions _ _ _ _ Hrepr) as Hreg. rewrite Hp in Hreg.
    pose proof (repr_separate _ _ _ _ Hrepr) as Hsep. rewrite Hp in Hsep.
    apply Forall_cons in Hreg as [Hrok _]. destruct Hsep as [Hd _].
    destruct (excess_region_ok size align r) as (Hend & Hst & Hex);
      [done || lia..|].
    pose proof Hrok as (_ & _ & Hin1 & Hin2). destruct Hheap as [Hhs Hhe].
    unfold checked_add. rewrite decide_True by width. unfold lift, get. simpl.
    rewrite Hr. unfold end_addr, add_w, sub_w. simpl.
    rewrite arith_ok by width. rewrite arith_ok by width.
    case_decide as Hpos; [|by exists st'].
    destruct (add_free_region_ok st' rest _ Hrepr' (Hex Hpos)) as (st'' & Heq & Hrepr'').
    { eapply Forall_impl; [done|]. intros r'. apply disjoint_regions_shrink; simpl; lia. }
    simpl in Heq. rewrite Heq. by exists st''.
  - rewrite Hfind. by exists st.
Qed.

(** First fit carves the block out of the free regions. *)
Lemma first_fit_carves size align free L :
  (node_align | size) → (node_align | align) → 0 < size → 0 < align →
  Forall (region_ok hs he) free → separate (free ++ L) →
  let (p, free') := first_fit size align free in
  (p = null ∧ free' = free) ∨
  (p ≠ null ∧ (align | p) ∧ inside hs he (p, size) ∧ separate (free' ++ (p, size) :: L)).
Proof using Hheap.
  intros Hds Hda Hsz Hal Hreg Hsep. unfold first_fit.
  destruct (take_first size align free) as [[r rest]|] eqn:Htf; [right|by left].
  apply take_first_perm in Htf as [Hfit Hp]. rewrite Hp in Hreg, Hsep.
  apply Forall_cons in Hreg as [Hrok _]. destruct Hsep as [Hd Hs].
  destruct (excess_region_ok size align r) as (Hend & Hst & _); [done..|].
  destruct Hrok as (_ & _ & Hin1 & Hin2). destruct Hheap as [Hhs Hhe].
  split_and!; [unfold null; lia|apply round_up_divide|split; simpl; lia|].
  assert (∀ r', r.1 ≤ r'.1 → r'.1 + r'.2 ≤ r.1 + r.2 →
    Forall (disjoint_regions r') (rest ++ L)) as Hsub.
  { intros r' ??. eapply Forall_impl; [done|]. intros r''.
    by apply disjoint_regions_shrink. }
  rewrite <-Permutation_middle. case_decide; simpl; split_and!; try done.
  - apply Forall_cons. split; [left; simpl; lia|]. apply Hsub; simpl; lia.
  - apply Hsub; simpl; lia.
  - apply Hsub; simpl; lia.
Qed.

End refinement.

(** ** The allocator as an instance of the [GlobalAlloc] contract *)

(** The layouts [size_align] does not reject. *)
Definition accepts (l : Layout) : Prop :=
  layout_fits (l_size l) (l_align l `max` node_align) = true.

(** The region a block really occupies. *)
Definition padded (b : block) : region :=
  match size_align (b_layout b) with
  | Ok (size, _) => (b_ptr b, size)
  | _ => block_region b
  end.

Definition holds (hs he : Z) (b : block) : Prop :=
  request_ok (b_layout b) ∧ accepts (b_layout b) ∧
  (node_align | b_ptr b) ∧ block_ok hs he b ∧ inside hs he (padded b).

Definition inv (hs he : Z) (st : t) (live : list block) : Prop :=
  heap_ok hs he ∧ Forall (holds hs he) live ∧
  ∃ free, repr hs he st free ∧ separate (free ++ (padded <$> live)).

(** A client's store may destroy any node that overlaps its block. *)
Definition scribble (b : block) (st st' : t) : Prop :=
  head st' = head st ∧
  ∀ a, disjoint_regions (a, node_size) (block_region b) → mem st' !! a = mem st !! a.

Lemma size_align_accepts l :
  accepts l → ∃ size, size_align l = Ok (size, l_align l `max` node_align).
Proof. unfold accepts, size_align. intros ->. eauto. Qed.

Lemma padded_covers b :
  request_ok (b_layout b) → accepts (b_layout b) →
  (padded b).1 = b_ptr b ∧ l_size (b_layout b) ≤ (padded b).2.
Proof.
  intros Hreq Hacc. destruct (size_align_accepts _ Hacc) as [size Hsa].
  destruct (size_align_facts _ _ _ Hreq Hsa) as (_ & _ & ? & _).
  unfold padded. by rewrite Hsa.
Qed.

Lemma inv_live_ok hs he st live : inv hs he st live → live_ok hs he live.
Proof.
  intros (_ & Hl & free & _ & Hsep). apply separate_app in Hsep as (_ & Hsep & _).
  split; [eapply Forall_impl; [done|]; by intros b (_ & _ & _ & ? & _)|].
  eapply separate_shrink; [|done]. eapply Forall_impl; [done|].
  intros b (Hreq & Hacc & _). destruct (padded_covers b Hreq Hacc). simpl. lia.
Qed.

Lemma linked_list_inv_scribble hs he st st' b live :
  inv hs he st live → b ∈ live → scribble b st st' → inv hs he st' live.
Proof.
  intros (Hheap & Hl & free & [Hc Hreg Hsf] & Hsep) Hb [Hhd Hm].
  split_and!; [done..|]. exists free. split; [|done]. split; [|done..].
  rewrite Hhd. eapply linked_list_chain_frame; [|done]. intros r Hr. apply Hm.
  apply separate_app in Hsep as (_ & _ & Hd). rewrite Forall_forall in Hd.
  rewrite Forall_forall in Hreg. rewrite Forall_forall in Hl.
  specialize (Hd r Hr). rewrite Forall_fmap, Forall_forall in Hd. specialize (Hd b Hb).
  destruct (Hl b Hb) as (Hreq & Hacc & _). destruct (padded_covers b Hreq Hacc).
  destruct (Hreg r Hr) as (_ & Hsz & _). simpl in Hd.
  unfold disjoint_regions in *. simpl. lia.
Qed.

Section instance.
Context `{Profile}.

Lemma linked_list_alloc_inv hs he st live l :
  inv hs he st live → request_ok l → accepts l →
  ∃ st' p, alloc l st = (st', Ok p) ∧
    ((p = null ∧ inv hs he st' live) ∨ (p ≠ null ∧ inv hs he st' (Block p l :: live))).
Proof.
  intros (Hheap & Hl & free & Hrepr & Hsep) Hreq Hacc.
  destruct (size_align_accepts l Hacc) as [size Hsa].
  destruct (size_align_facts _ _ _ Hreq Hsa) as (Hs & Hsd & Hls & Hal & Had & Hdiv).
  pose proof (repr_regions _ _ _ _ Hrepr) as Hreg. unfold node_size in Hs.
  destruct (alloc_first_fit hs he Hheap st free l size _ Hrepr Hreq Hsa)
    as (st' & Heq & Hrepr').
  pose proof (first_fit_carves hs he Hheap size _ free _ Hsd Had ltac:(lia) ltac:(lia)
    Hreg Hsep) as Hc.
  destruct (first_fit _ _ _) as [p free']. simpl in *. exists st', p. split; [done|].
  destruct Hc as [[-> ->]|(Hp & Hpd & Hin & Hsep')].
  - left. split; [done|]. split_and!; [done..|]. by exists free.
  - right. split; [done|].
    assert (padded (Block p l) = (p, size)) as Hpad by (unfold padded; simpl; by rewrite Hsa).
    split_and!; [done| |exists free'; split; [done|]; simpl; by rewrite Hpad].
    constructor; [|done]. split_and!; [done..|by etrans| |by rewrite Hpad].
    destruct Hin as [Hin1 Hin2]. split_and!; [done|by etrans|split; simpl in *; lia].
Qed.

(** Freeing a block puts its region at the head of the free list. *)
Lemma dealloc_repr hs he st live1 b live2 :
  inv hs he st (live1 ++ b :: live2) →
  ∃ st' free size, size_align (b_layout b) = Ok (size, l_align (b_layout b) `max` node_align) ∧
    dealloc (b_ptr b) (b_layout b) st = (st', Ok tt) ∧
    repr hs he st' ((b_ptr b, size) :: free) ∧
    holds hs he b ∧ Forall (holds hs he) (live1 ++ live2) ∧
    separate (((b_ptr b, size) :: free) ++ (padded <$> (live1 ++ live2))).
Proof.
  intros (Hheap & Hl & free & Hrepr & Hsep).
  rewrite <-Permutation_middle in Hl. rewrite fmap_app, fmap_cons in Hsep.
  rewrite <-(Permutation_middle (padded <$> live1)), <-fmap_app in Hsep.
  rewrite <-Permutation_middle in Hsep. apply Forall_cons in Hl as [Hb Hl].
  pose proof Hb as (Hreq & Hacc & Hal & Hok & Hin).
  destruct (size_align_accepts _ Hacc) as [size Hsa].
  destruct (size_align_facts _ _ _ Hreq Hsa) as (Hs & _).
  assert (padded b = (b_ptr b, size)) as Hpad by (unfold padded; by rewrite Hsa).
  rewrite Hpad in Hin, Hsep. pose proof Hsep as [Hd _].
  apply Forall_app in Hd as [Hdf _].
  destruct (add_free_region_ok hs he Hheap st free (b_ptr b, size) Hrepr)
    as (st' & Heq & Hrepr'); [done..|].
  exists st', free, size. split_and!; try done.
  unfold dealloc, mbind, io_bind, lift. by rewrite Hsa.
Qed.

Lemma linked_list_dealloc_inv hs he st live1 b live2 :
  inv hs he st (live1 ++ b :: live2) →
  ∃ st', dealloc (b_ptr b) (b_layout b) st = (st', Ok tt) ∧ inv hs he st' (live1 ++ live2).
Proof.
  intros Hinv. destruct (dealloc_repr _ _ _ _ _ _ Hinv)
    as (st' & free & size & _ & Heq & Hrepr & _ & Hl & Hsep).
  exists st'. split; [done|]. split_and!; [apply Hinv|done|by eexists].
Qed.

#[export] Instance linked_list_alloc_spec hs he : AllocSpec t hs he.
Proof.
  refine {| ga_inv := inv hs he; ga_scribble := scribble; ga_accepts := accepts |}.
  - apply inv_live_ok.
  - intros st live l Hinv Hreq Hacc. by apply linked_list_alloc_inv.
  - intros st live1 b live2 Hinv. by apply linked_list_dealloc_inv.
  - intros st st' b live. apply linked_list_inv_scribble.
Defined.

Lemma linked_list_init_inv hs size :
  heap_ok hs (hs + size) → (node_align | hs) → node_size ≤ size →
  ∃ st, init hs size new = (st, Ok tt) ∧ inv hs (hs + size) st [].
Proof.
  intros Hheap Hal Hsz.
  destruct (add_free_region_ok hs (hs + size) Hheap new [] (hs, size))
    as (st & Heq & Hrepr); [done|split_and!; [done..|split; simpl; lia]|done|].
  exists st. split; [done|]. split_and!; [done..|].
  exists [(hs, size)]. by split_and!.
Qed.

(** C10. The linked-list allocator is safe: over any heap that can hold a list
    node, is aligned for one and ends at or below 2^63, after any sequence of
    client operations, including writes that overwrite the memory of live
    blocks, the live blocks are aligned, inside the heap and pairwise
    disjoint, and neither alloc nor dealloc panics on the next accepted
    request. *)
Theorem linked_list_client_safe hs size st0 st live :
  0 < hs → hs + size ≤ 2 ^ 63 → (node_align | hs) → node_size ≤ size →
  init hs size new = (st0, Ok tt) →
  rtc (client_step (hs := hs) (he := hs + size)) (st0, []) (st, live) →
  live_ok hs (hs + size) live ∧ no_panic (hs := hs) (he := hs + size) st live.
Proof.
  intros Hhs Hend Hal Hsz Hinit Hsteps.
  destruct (linked_list_init_inv hs size) as (st0' & Heq & Hinv0); [done..|].
  assert (st0' = st0) as -> by congruence.
  pose proof (client_reach_inv _ _ _ Hinv0 Hsteps) as Hinv.
  split; [by eapply ga_inv_live|by eapply ga_inv_no_panic].
Qed.

(** C11. alloc of the linked-list allocator refines first fit on the list of free
    regions: the pointer-chasing search terminates with the address and the
    free list that first fit computes, and returns null exactly when no free
    region fits. *)
Theorem linked_list_alloc_refines hs he st free l :
  heap_ok hs he → repr hs he st free → request_ok l → accepts l →
  ∃ st' size align,
    size_align l = Ok (size, align) ∧
    alloc l st = (st', Ok (first_fit size align free).1) ∧
    repr hs he st' (first_fit size align free).2 ∧
    ((first_fit size align free).1 = null ↔ Forall (λ r, ¬ fits size align r) free).
Proof.
  intros Hheap Hrepr Hreq Hacc. destruct (size_align_accepts l Hacc) as [size Hsa].
  destruct (alloc_first_fit hs he Hheap st free l size _ Hrepr Hreq Hsa)
    as (st' & Heq & Hrepr').
  exists st', size, (l_align l `max` node_align). split_and!; [done..|].
  destruct (size_align_facts _ _ _ Hreq Hsa) as (_ & _ & _ & Hal & _).
  apply (first_fit_null hs he); [done|lia|apply Hrepr].
Qed.

(** Freeing a block of the linked-list allocator and allocating the same
    layout returns the same address, with the allocator's invariant intact. *)
Theorem linked_list_free_reuse hs he st live1 b live2 :
  inv hs he st (live1 ++ b :: live2) →
  ∃ st1 st2, dealloc (b_ptr b) (b_layout b) st = (st1, Ok tt) ∧
    alloc (b_layout b) st1 = (st2, Ok (b_ptr b)) ∧
    inv hs he st2 (b :: live1 ++ live2).
Proof.
  intros Hinv. destruct (dealloc_repr _ _ _ _ _ _ Hinv)
    as (st1 & free & size & Hsa & Heq & Hrepr & Hb & Hl & Hsep).
  destruct Hinv as (Hheap & _). pose proof Hb as (Hreq & Hacc & Hal & (_ & Hal' & _) & Hin).
  destruct (alloc_first_fit hs he Hheap st1 _ _ size _ Hrepr Hreq Hsa)
    as (st2 & Heq2 & Hrepr2).
  destruct (size_align_facts _ _ _ Hreq Hsa) as (_ & _ & _ & [Hpos _] & _).
  assert (l_align (b_layout b) `max` node_align | b_ptr b) as Hdiv
    by (by destruct (Z.max_spec (l_align (b_layout b)) node_align) as [[_ ->]|[_ ->]]).
  rewrite first_fit_exact in Heq2, Hrepr2 by done.
  exists st1, st2. split_and!; [done..|].
  split_and!; [done|by constructor|]. exists free. split; [done|].
  rewrite fmap_cons, <-Permutation_middle. unfold padded at 1. by rewrite Hsa.
Qed.

(** Allocating and freeing a block shrinks the free memory by exactly the
    padding in front of the block: the bytes between the start of the region
    and the aligned address are never returned to the free list. *)
Theorem linked_list_padding_lost hs he st free l size align r rest :
  heap_ok hs he → repr hs he st free → request_ok l →
  size_align l = Ok (size, align) → take_first size align free = Some (r, rest) →
  ∃ st1 st2 free2 p, alloc l st = (st1, Ok p) ∧ dealloc p l st1 = (st2, Ok tt) ∧
    repr hs he st2 free2 ∧ p = round_up r.1 align ∧
    total free2 = total free - (p - r.1).
Proof.
  intros Hheap Hrepr Hreq Hsa Htf.
  destruct (size_align_facts _ _ _ Hreq Hsa) as (Hs & Hsd & _ & Hal & Had & _).
  pose proof (repr_regions _ _ _ _ Hrepr) as Hreg.
  pose proof (repr_separate _ _ _ _ Hrepr) as Hsep.
  destruct (alloc_first_fit hs he Hheap st free l size align Hrepr Hreq Hsa)
    as (st1 & Heq1 & Hrepr1).
  pose proof (first_fit_carves hs he Hheap size align free [] Hsd Had
    ltac:(unfold node_size in Hs; lia) ltac:(lia) Hreg ltac:(by rewrite app_nil_r)) as Hc.
  pose proof (first_fit_total size align free r rest Htf) as [Hp Htot].
  destruct (first_fit size align free) as [p free1]. simpl in *. subst p.
  destruct Hheap as [Hhs Hhe].
  destruct Hc as [[Hnull _]|(_ & Hdiv & Hin & Hsep1)].
  { exfalso. apply take_first_perm in Htf as [_ Hperm]. rewrite Hperm in Hreg.
    apply Forall_cons in Hreg as [(_ & _ & Hin & _) _].
    pose proof (round_up_bounds r.1 align). unfold null in Hnull. lia. }
  rewrite <-Permutation_middle, app_nil_r in Hsep1.
  destruct (add_free_region_ok hs he (conj Hhs Hhe) st1 free1 (round_up r.1 align, size)
    Hrepr1) as (st2 & Heq2 & Hrepr2); [|apply Hsep1|].
  { split_and!; [by etrans|done|done]. }
  eexists st1, st2, _, _. split_and!; [done| |done|done|simpl; lia].
  unfold dealloc, mbind, io_bind, lift. by rewrite Hsa.
Qed.

(** [alloc] panics on every layout that overflows [isize] when its alignment
    is raised to that of a list node. *)
Theorem linked_list_alloc_huge_panics l st :
  ¬ accepts l → alloc l st = (st, Panic).
Proof.
  intros Hacc. unfold alloc, size_align, mbind, io_bind, lift. unfold accepts in Hacc.
  by destruct (layout_fits _ _).
Qed.

End instance.

(** ** Witnesses *)

Definition boot_free : list region := [(HEAP_START, HEAP_SIZE)].

Definition boot : t := (@init debug HEAP_START HEAP_SIZE new).1.

Lemma boot_repr : repr HEAP_START (HEAP_START + HEAP_SIZE) boot boot_free.
Proof.
  split; [|repeat constructor; try done|by repeat constructor].
  - vm_compute. split; [done|]. eexists. split; reflexivity.
  - by exists (HEAP_START / 8).
Qed.

Lemma small_request_ok size align k :
  align = 2 ^ k → 0 ≤ k → 0 < size → layout_fits size align = true →
  request_ok (MkLayout size align).
Proof. intros. split; [split; [by exists k|done]|done]. Qed.

Lemma linked_list_client_safe_witness :
  live_ok HEAP_START (HEAP_START + HEAP_SIZE) [Block HEAP_START (MkLayout 24 8)].
Proof.
  pose (a := @alloc debug (MkLayout 24 8) boot).
  refine (proj1 (@linked_list_client_safe debug HEAP_START HEAP_SIZE boot a.1 _ _ _ _ _ _ _));
    [done|done|by exists (HEAP_START / 8)|done|vm_compute; reflexivity|].
  apply rtc_once, (client_alloc _ _ _ (MkLayout 24 8) HEAP_START); [|done| |done].
  - by apply (small_request_ok _ _ 3).
  - vm_compute. reflexivity.
Defined.

Lemma linked_list_alloc_refines_witness :
  ∃ st', @alloc debug (MkLayout 24 64) boot = (st', Ok HEAP_START).
Proof.
  destruct (@linked_list_alloc_refines debug HEAP_START (HEAP_START + HEAP_SIZE) boot
    boot_free (MkLayout 24 64)) as (st' & size & align & Hsa & Heq & _);
    [done|apply boot_repr|by apply (small_request_ok _ _ 6)|done|].
  exists st'. rewrite Heq. vm_compute in Hsa. injection Hsa as <- <-. reflexivity.
Defined.

(** The heap with one 24-byte block handed out. *)
Definition used : t := (@alloc debug (MkLayout 24 8) boot).1.

Definition used_free : list region := [(HEAP_START + 24, HEAP_SIZE - 24)].

Lemma used_repr : repr HEAP_START (HEAP_START + HEAP_SIZE) used used_free.
Proof.
  split; [|repeat constructor; try done|by repeat constructor].
  - vm_compute. split; [done|]. eexists. split; reflexivity.
  - by exists (HEAP_START / 8 + 3).
Qed.

Lemma linked_list_padding_lost_witness :
  ∃ st1 st2 free2, @alloc debug (MkLayout 64 64) used = (st1, Ok (HEAP_START + 64)) ∧
    @dealloc debug (HEAP_START + 64) (MkLayout 64 64) st1 = (st2, Ok tt) ∧
    repr HEAP_START (HEAP_START + HEAP_SIZE) st2 free2 ∧
    total free2 = total used_free - 40.
Proof.
  destruct (@linked_list_padding_lost debug HEAP_START (HEAP_START + HEAP_SIZE) used
    used_free (MkLayout 64 64) 64 64 (HEAP_START + 24, HEAP_SIZE - 24) [])
    as (st1 & st2 & free2 & p & H1 & H2 & H3 & -> & H4);
    [done|apply used_repr|by apply (small_request_ok _ _ 6)|done|done|].
  exists st1, st2, free2. split_and!; [done..|]. by rewrite H4.
Defined.

Lemma linked_list_free_reuse_witness :
  ∃ st1 st2, @dealloc debug HEAP_START (MkLayout 24 8) used = (st1, Ok tt) ∧
    @alloc debug (MkLayout 24 8) st1 = (st2, Ok HEAP_START).
Proof.
  destruct (@linked_list_free_reuse debug HEAP_START (HEAP_START + HEAP_SIZE) used []
    (Block HEAP_START (MkLayout 24 8)) []) as (st1 & st2 & H1 & H2 & _); [|by exists st1, st2].
  split_and!; [done| |exists used_free; split; [apply used_repr|]].
  - constructor; [|done]. split_and!; [by apply (small_request_ok _ _ 3)|done| | |done].
    + by exists (HEAP_START / 8).
    + split_and!; [done|by exists (HEAP_START / 8)|done].
  - simpl. split_and!; [|done..]. constructor; [|done]. right. vm_compute. done.
Defined.

Lemma linked_list_alloc_huge_panics_witness :
  layout_ok (MkLayout isize_max 1) ∧
  @alloc debug (MkLayout isize_max 1) boot = (boot, Panic).
Proof.
  split; [split; [by exists 0|vm_compute; reflexivity]|].
  apply (@linked_list_alloc_huge_panics debug). vm_compute. done.
Defined.

End LinkedListAllocator.
