(* ===== verification/FixedSizeBlock.v ===== *)
(** * The fixed-size-block allocator ([src/allocator/fixed_size_block.rs])

    The kernel's global allocator: one list of free blocks per size class,
    stored in the blocks themselves ([mem]), in front of the heap of the
    [linked_list_allocator] crate.  That crate is not part of the sources; it
    is a parameter, the class [FallbackHeap], and what its documentation
    promises is the class [FallbackHeapSpec].  Under that promise the
    allocator satisfies the [GlobalAlloc] contract, and a freed block is the
    next one handed out for its size class. *)

From S2P Require Import Prelude Alloc LinkedList.

(** ** The heap of the [linked_list_allocator] crate *)

Class FallbackHeap (H : Type) : Type := {
  heap_empty : H;
  heap_init : Z → Z → H → H;
  allocate_first_fit : Layout → H → H * option Z;
  deallocate : Z → Layout → H → H;
}.

(** [heap_inv h out]: the blocks [out] have been handed out by [h].  A block
    that is handed out is aligned, lies in the heap and overlaps no other. *)
Class FallbackHeapSpec (H : Type) `{FallbackHeap H} (hs he : Z) : Type := {
  heap_inv : H → list block → Prop;
  heap_accepts : Layout → Prop;
  heap_inv_init : heap_inv (heap_init hs (he - hs) heap_empty) [];
  heap_inv_live h out : heap_inv h out → live_ok hs he out;
  heap_allocate_spec h out l :
    heap_inv h out → request_ok l → heap_accepts l →
    match allocate_first_fit l h with
    | (h', Some p) => heap_inv h' (Block p l :: out)
    | (h', None) => heap_inv h' out
    end;
  heap_deallocate_spec h out1 b out2 :
    heap_inv h (out1 ++ b :: out2) →
    heap_inv (deallocate (b_ptr b) (b_layout b) h) (out1 ++ out2);
}.

(** ** Size classes *)

Definition BLOCK_SIZES : list Z := [8; 16; 32; 64; 128; 256; 512; 1024; 2048].

(** [iter().position(p)] *)
Fixpoint position (p : Z → bool) (l : list Z) : option nat :=
  match l with
  | [] => None
  | s :: l => if p s then Some O else S <$> position p l
  end.

Definition list_index (layout : Layout) : option nat :=
  let required_block_size := l_size layout `max` l_align layout in
  position (λ s, bool_decide (s >= required_block_size)) BLOCK_SIZES.

(** The layout requested for a block of a size class. *)
Definition class_layout (block_size : Z) : Layout := MkLayout block_size block_size.

Module FixedSizeBlockAllocator.

(** [mem::size_of::<ListNode>()] and [mem::align_of::<ListNode>()]: one
    nullable reference. *)
Definition node_size : Z := 8.
Definition node_align : Z := 8.

(** [mem] holds the [next] field of the nodes written to the heap. *)
Record t (H : Type) : Type := Mk {
  list_heads : list (option Z);
  mem : gmap Z (option Z);
  fallback_allocator : H;
}.
Arguments Mk {H}.
Arguments list_heads {H}.
Arguments mem {H}.
Arguments fallback_allocator {H}.

Section ops.
Context {H : Type} `{FallbackHeap H}.

Definition new : t H := Mk (replicate (length BLOCK_SIZES) None) ∅ heap_empty.

Definition init (heap_start heap_size : Z) : io (t H) unit :=
  st ← get;
  put (Mk (list_heads st) (mem st)
          (heap_init heap_start heap_size (fallback_allocator st))).

Definition fallback_alloc (layout : Layout) : io (t H) Z :=
  st ← get;
  let '(h, r) := allocate_first_fit layout (fallback_allocator st) in
  _ ← put (Mk (list_heads st) (mem st) h);
  match r with
  | Some ptr => mret ptr
  | None => mret null
  end.

Definition alloc (layout : Layout) : io (t H) Z :=
  allocator ← get;
  match list_index layout with
  | Some index =>
    hd ← lift (idx (list_heads allocator) index);
    match hd with
    | Some node =>
      nx ← lift (match mem allocator !! node with Some nx => Ok nx | None => Panic end);
      _ ← put (Mk (<[index := nx]> (list_heads allocator))
                  (<[node := None]> (mem allocator))
                  (fallback_allocator allocator));
      mret node
    | None =>
      block_size ← lift (idx BLOCK_SIZES index);
      if layout_fits block_size block_size
      then fallback_alloc (class_layout block_size)
      else lift Panic
    end
  | None => fallback_alloc layout
  end.

Definition dealloc (ptr : Z) (layout : Layout) : io (t H) unit :=
  allocator ← get;
  match list_index layout with
  | Some index =>
    hd ← lift (idx (list_heads allocator) index);
    block_size ← lift (idx BLOCK_SIZES index);
    if decide (node_size ≤ block_size ∧ node_align ≤ block_size) then
      put (Mk (<[index := Some ptr]> (list_heads allocator))
              (<[ptr := hd]> (mem allocator))
              (fallback_allocator allocator))
    else lift Panic
  | None =>
    if decide (ptr = null) then lift Panic
    else put (Mk (list_heads allocator) (mem allocator)
                 (deallocate ptr layout (fallback_allocator allocator)))
  end.

#[global] Instance fixed_size_block_global_alloc : GlobalAlloc (t H) :=
  {| ga_alloc := alloc; ga_dealloc := dealloc |}.

End ops.

(** ** The free lists in memory *)

Fixpoint chain (m : gmap Z (option Z)) (p : option Z) (l : list Z) : Prop :=
  match l with
  | [] => p = None
  | a :: l => p = Some a ∧ ∃ nx, m !! a = Some nx ∧ chain m nx l
  end.

Definition free_block (s a : Z) : block := Block a (class_layout s).

(** All free blocks, class by class. *)
Fixpoint free_blocks (sizes : list Z) (lists : list (list Z)) : list block :=
  match sizes, lists with
  | s :: sizes, l :: lists => (free_block s <$> l) ++ free_blocks sizes lists
  | _, _ => []
  end.

(** The block of the fallback heap behind a client's block. *)
Definition backing (b : block) : block :=
  match list_index (b_layout b) with
  | Some i => free_block (BLOCK_SIZES !!! i) (b_ptr b)
  | None => b
  end.

(** ** Size classes *)

Lemma position_Some p l i :
  position p l = Some i → ∃ s, l !! i = Some s ∧ p s = true.
Proof.
  revert i. induction l as [|s l IH]; intros i; simpl; [done|].
  destruct (p s) eqn:Hp; [intros [= <-]; by exists s|].
  destruct (position p l); [|done]. intros [= <-]. by apply IH.
Qed.

Lemma position_first p l i j s :
  position p l = Some i → (j < i)%nat → l !! j = Some s → p s = false.
Proof.
  revert i j. induction l as [|s' l IH]; intros i j; simpl; [done|].
  destruct (p s') eqn:Hp; [intros [= <-]; lia|].
  destruct (position p l) as [i'|]; [|done]. intros [= <-] Hj Hs.
  destruct j as [|j]; simplify_eq/=; [done|]. apply (IH i' j); [done|lia|done].
Qed.

Lemma position_None p l j s : position p l = None → l !! j = Some s → p s = false.
Proof.
  revert j. induction l as [|s' l IH]; intros j; simpl; [done|].
  destruct (p s') eqn:Hp; [done|]. destruct (position p l) as [i'|]; [done|].
  intros _ Hs. destruct j as [|j]; simplify_eq/=; [done|]. by apply (IH j).
Qed.

Lemma list_index_Some l i :
  list_index l = Some i →
  ∃ s, BLOCK_SIZES !! i = Some s ∧ l_size l ≤ s ∧ l_align l ≤ s.
Proof.
  intros (s & Hs & Hp)%position_Some. apply bool_decide_eq_true in Hp.
  exists s. split; [done|lia].
Qed.

Lemma block_sizes_ok i s :
  BLOCK_SIZES !! i = Some s →
  pow2 s ∧ node_size ≤ s ∧ request_ok (class_layout s) ∧ layout_fits s s = true.
Proof.
  intros Hi.
  assert (Forall (λ s, s = 2 ^ Z.log2 s ∧ 8 ≤ s ∧ layout_fits s s = true) BLOCK_SIZES)
    as Hall by (by repeat constructor).
  apply (Forall_lookup_1 _ _ i s) in Hall as (Hp & H8 & Hf); [|done].
  assert (pow2 s) by (exists (Z.log2 s); split; [apply Z.log2_nonneg|done]).
  unfold node_size. split_and!; try done. split; [done|simpl; lia].
Qed.

Lemma backing_covers b :
  request_ok (b_layout b) →
  b_ptr (backing b) = b_ptr b ∧
  l_size (b_layout b) ≤ l_size (b_layout (backing b)) ∧
  (l_align (b_layout b) | l_align (b_layout (backing b))).
Proof.
  intros [[Hp _] Hpos]. unfold backing. destruct (list_index (b_layout b)) as [i|] eqn:Hi.
  - destruct (list_index_Some _ _ Hi) as (s & Hs & Hsz & Hal).
    rewrite (list_lookup_total_correct _ _ _ Hs). simpl. split_and!; [done..|].
    apply pow2_divide; [done| |done]. by apply (block_sizes_ok i).
  - by split_and!.
Qed.

(** ** Free lists *)

Lemma free_blocks_pop sizes lists i s a l :
  sizes !! i = Some s → lists !! i = Some (a :: l) →
  free_blocks sizes lists ≡ₚ free_block s a :: free_blocks sizes (<[i := l]> lists).
Proof.
  revert i lists. induction sizes as [|s' sizes IH]; intros i lists Hs Hl; [done|].
  destruct lists as [|l' lists]; [done|]. destruct i as [|i]; simplify_eq/=.
  - done.
  - rewrite (IH i lists) by done. by rewrite Permutation_middle.
Qed.

Lemma free_blocks_push sizes lists i s a l :
  sizes !! i = Some s → lists !! i = Some l →
  free_blocks sizes (<[i := a :: l]> lists) ≡ₚ free_block s a :: free_blocks sizes lists.
Proof.
  intros Hs Hl. rewrite (free_blocks_pop _ _ i s a l) by
    (done || apply list_lookup_insert_eq; by eapply lookup_lt_Some).
  by rewrite list_insert_insert_eq, list_insert_id.
Qed.

Lemma free_blocks_elem sizes lists i l a :
  length sizes = length lists → lists !! i = Some l → a ∈ l →
  a ∈ b_ptr <$> free_blocks sizes lists.
Proof.
  revert i lists. induction sizes as [|s sizes IH]; intros i [|l' lists] Hlen Hi Ha;
    [done..|]. simpl in Hlen. simpl free_blocks. rewrite fmap_app, elem_of_app.
  destruct i as [|i]; simplify_eq/=.
  - left. rewrite <-list_fmap_compose. unfold compose. simpl.
    by rewrite list_fmap_id.
  - right. by apply (IH i).
Qed.

Lemma fixed_size_block_chain_frame m m' p l :
  (∀ a, a ∈ l → m' !! a = m !! a) → chain m p l → chain m' p l.
Proof.
  revert p. induction l as [|a l IH]; intros p Hm; simpl; [done|].
  intros (-> & nx & Ha & Hc). split; [done|]. exists nx.
  rewrite Hm by left. split; [done|]. apply IH; [|done]. intros. apply Hm. by right.
Qed.

(** Memory that agrees on the free blocks holds the same lists. *)
Lemma chains_frame m m' sizes heads lists :
  length sizes = length lists →
  (∀ a, a ∈ b_ptr <$> free_blocks sizes lists → m' !! a = m !! a) →
  Forall2 (chain m) heads lists → Forall2 (chain m') heads lists.
Proof.
  intros Hlen Hm. rewrite !Forall2_lookup. intros Hc i. specialize (Hc i).
  destruct (heads !! i), (lists !! i) eqn:Hi; inversion Hc; constructor.
  eapply fixed_size_block_chain_frame; [|done]. intros a Ha. apply Hm. by eapply free_blocks_elem.
Qed.

Lemma free_blocks_min n sizes lists :
  Forall (λ s, n ≤ s) sizes →
  Forall (λ b, n ≤ l_size (b_layout b)) (free_blocks sizes lists).
Proof.
  intros Hs. revert lists. induction Hs as [|s sizes Hs Hss IH]; intros [|l lists];
    simpl; try constructor. apply Forall_app. split; [|done].
  by apply Forall_fmap, Forall_true.
Qed.

(** ** The invariant *)

Section spec.
Context {H : Type} `{FallbackHeapSpec H hs he}.

(** The blocks the fallback heap has handed out are the free blocks of the
    size classes and those behind the blocks in use. *)
Definition inv (st : t H) (live : list block) : Prop :=
  Forall (λ b, request_ok (b_layout b)) live ∧
  ∃ lists out,
    length BLOCK_SIZES = length lists ∧
    Forall2 (chain (mem st)) (list_heads st) lists ∧
    heap_inv (fallback_allocator st) out ∧
    out ≡ₚ free_blocks BLOCK_SIZES lists ++ (backing <$> live).

Definition accepts (l : Layout) : Prop :=
  match list_index l with
  | Some i => heap_accepts (class_layout (BLOCK_SIZES !!! i))
  | None => heap_accepts l
  end.

(** A client's store may destroy any node that overlaps its block. *)
Definition scribble (b : block) (st st' : t H) : Prop :=
  list_heads st' = list_heads st ∧ fallback_allocator st' = fallback_allocator st ∧
  ∀ a, disjoint_regions (a, node_size) (block_region b) → mem st' !! a = mem st !! a.

Lemma backing_live_ok live :
  Forall (λ b, request_ok (b_layout b)) live →
  live_ok hs he (backing <$> live) → live_ok hs he live.
Proof.
  intros Hreq [Hok Hsep]. rewrite Forall_forall in Hreq. split.
  - rewrite Forall_fmap, Forall_forall in Hok. apply Forall_forall. intros b Hb.
    destruct (backing_covers b (Hreq b Hb)) as (Hp & Hs & Ha).
    destruct (Hok b Hb) as (Hn & Hal & Hin1 & Hin2). simpl in *. rewrite Hp in *.
    split_and!; [done|by etrans|split; simpl; lia].
  - rewrite <-list_fmap_compose in Hsep.
    eapply (separate_shrink _ (block_region ∘ backing)); [|done].
    apply Forall_forall. intros b Hb.
    destruct (backing_covers b (Hreq b Hb)) as (Hp & Hs & _). simpl. lia.
Qed.

Lemma block_sizes_min : Forall (λ s, node_size ≤ s) BLOCK_SIZES.
Proof. by repeat constructor. Qed.

Lemma backing_pos b : request_ok (b_layout b) → 0 < l_size (b_layout (backing b)).
Proof. intros Hreq. pose proof (backing_covers b Hreq). destruct Hreq. lia. Qed.

Lemma inv_live st live : inv st live → live_ok hs he live.
Proof.
  intros (Hreq & lists & out & _ & _ & Hinv & Hp).
  apply heap_inv_live in Hinv. rewrite Hp in Hinv.
  apply live_ok_app in Hinv as [_ Hl]. by apply backing_live_ok.
Qed.

Lemma fixed_size_block_inv_scribble st st' b live :
  inv st live → b ∈ live → scribble b st st' → inv st' live.
Proof.
  intros (Hreq & lists & out & Hlen & Hc & Hinv & Hp) Hb (Hhd & Hf & Hm).
  split; [done|]. exists lists, out. rewrite Hhd, Hf. split_and!; [done| |done..].
  eapply chains_frame; [done| |done]. intros a (c & -> & Hcin)%list_elem_of_fmap.
  apply Hm. apply heap_inv_live in Hinv as [_ Hsep].
  rewrite Hp, fmap_app, separate_app in Hsep. destruct Hsep as (_ & _ & Hd).
  rewrite Forall_fmap, Forall_forall in Hd. specialize (Hd c Hcin).
  unfold compose in Hd. rewrite !Forall_fmap, Forall_forall in Hd. specialize (Hd b Hb).
  rewrite Forall_forall in Hreq. destruct (backing_covers b (Hreq b Hb)) as (Hpb & Hsb & _).
  pose proof (free_blocks_min node_size _ lists block_sizes_min) as Hmin.
  rewrite Forall_forall in Hmin. specialize (Hmin c Hcin).
  unfold disjoint_regions in *. simpl in *. lia.
Qed.

Lemma fallback_alloc_inv l b0 st live :
  inv st live → request_ok l → heap_accepts l →
  request_ok (b_layout b0) → (∀ p, backing (Block p (b_layout b0)) = Block p l) →
  ∃ st' p, fallback_alloc l st = (st', Ok p) ∧
    ((p = null ∧ inv st' live) ∨ (p ≠ null ∧ inv st' (Block p (b_layout b0) :: live))).
Proof.
  intros (Hreq & lists & out & Hlen & Hc & Hinv & Hp) Hl Hacc Hb0 Hback.
  pose proof (heap_allocate_spec _ _ l Hinv Hl Hacc) as Halloc.
  unfold fallback_alloc, mbind, io_bind, get, put.
  destruct (allocate_first_fit l (fallback_allocator st)) as [h [p|]].
  - eexists _, p. split; [done|]. right. split.
    + apply heap_inv_live, live_ok_cons in Halloc as ((Hn & _) & _). done.
    + split; [by constructor|]. exists lists, (Block p l :: out). split_and!; [done..|].
      rewrite fmap_cons, Hback, <-Permutation_middle. by constructor.
  - eexists _, null. split; [done|]. left. split; [done|].
    split; [done|]. by exists lists, out.
Qed.

(** The list of a size class: its head in [list_heads], its blocks in [lists]. *)
Lemma class_list (st : t H) lists i s :
  length BLOCK_SIZES = length lists → Forall2 (chain (mem st)) (list_heads st) lists →
  BLOCK_SIZES !! i = Some s →
  ∃ hd l, list_heads st !! i = Some hd ∧ lists !! i = Some l ∧ chain (mem st) hd l.
Proof.
  intros Hlen Hc Hi. apply lookup_lt_Some in Hi. rewrite Hlen in Hi.
  apply lookup_lt_is_Some in Hi as [l Hl].
  destruct (Forall2_lookup_r _ _ _ _ _ Hc Hl) as (hd & ? & ?). eauto.
Qed.

(** The head of a non-empty class list is handed out. *)
Lemma alloc_pop (st : t H) live lists out i s a li l :
  Forall (λ b, request_ok (b_layout b)) live →
  length BLOCK_SIZES = length lists → Forall2 (chain (mem st)) (list_heads st) lists →
  heap_inv (fallback_allocator st) out →
  out ≡ₚ free_blocks BLOCK_SIZES lists ++ (backing <$> live) →
  request_ok l → list_index l = Some i → BLOCK_SIZES !! i = Some s →
  lists !! i = Some (a :: li) →
  ∃ st', alloc l st = (st', Ok a) ∧ a ≠ null ∧ inv st' (Block a l :: live).
Proof.
  intros Hreq Hlen Hc Hinv Hp Hl Hi Hs Hli.
  destruct (Forall2_lookup_r _ _ _ _ _ Hc Hli) as (hd & Hhd & -> & nx & Ha & Hnx).
  assert (out ≡ₚ free_block s a :: free_blocks BLOCK_SIZES (<[i:=li]> lists) ++
    (backing <$> live)) as Hp'
    by (rewrite Hp, (free_blocks_pop _ _ i s a li Hs Hli); reflexivity).
  pose proof (heap_inv_live _ _ Hinv) as Hlive. rewrite Hp' in Hlive.
  pose proof Hlive as ((Hn & _) & Hlive' & _)%live_ok_cons.
  unfold alloc, mbind, io_bind, lift, get, put. rewrite Hi, (idx_ok _ _ _ Hhd), Ha.
  eexists. split; [done|]. split; [done|]. split; [by constructor|].
  exists (<[i:=li]> lists), out. rewrite length_insert. split_and!; [done| |done|].
  - simpl. eapply (chains_frame (mem st) _ BLOCK_SIZES); [by rewrite length_insert| |].
    + intros a' Ha'. apply lookup_insert_ne. intros <-.
      rewrite app_comm_cons in Hlive. apply live_ok_app in Hlive as [Hlive _].
      apply live_ok_fresh in Hlive; [done|simpl|].
      * by apply (block_sizes_ok i).
      * eapply Forall_impl; [apply (free_blocks_min node_size), block_sizes_min|].
        unfold node_size. simpl. lia.
    + by apply Forall2_insert.
  - rewrite Hp', fmap_cons. rewrite <-Permutation_middle. unfold backing at 2. simpl.
    by rewrite Hi, (list_lookup_total_correct _ _ _ Hs).
Qed.

Lemma fixed_size_block_alloc_inv st live l :
  inv st live → request_ok l → accepts l →
  ∃ st' p, alloc l st = (st', Ok p) ∧
    ((p = null ∧ inv st' live) ∨ (p ≠ null ∧ inv st' (Block p l :: live))).
Proof.
  intros Hst Hl Hacc. pose proof Hst as (Hreq & lists & out & Hlen & Hc & Hinv & Hp).
  unfold accepts in Hacc. destruct (list_index l) as [i|] eqn:Hi.
  - destruct (list_index_Some _ _ Hi) as (s & Hs & _).
    rewrite (list_lookup_total_correct _ _ _ Hs) in Hacc.
    destruct (class_list st lists i s Hlen Hc Hs) as (hd & [|a li] & Hhd & Hli & Hch).
    + simpl in Hch. subst hd. destruct (block_sizes_ok i s Hs) as (_ & _ & Hcl & Hfit).
      unfold alloc, mbind, io_bind, lift, get.
      rewrite Hi, (idx_ok _ _ _ Hhd), (idx_ok _ _ _ Hs), Hfit.
      apply (fallback_alloc_inv _ (Block 0 l)); [done..|]. intros p.
      unfold backing. simpl. by rewrite Hi, (list_lookup_total_correct _ _ _ Hs).
    + destruct (alloc_pop st live lists out i s a li l) as (st' & Heq & Ha & Hinv');
        [done..|]. eauto 10.
  - unfold alloc, mbind, io_bind, get. rewrite Hi.
    apply (fallback_alloc_inv _ (Block 0 l)); [done..|]. intros p.
    unfold backing. simpl. by rewrite Hi.
Qed.

(** A block of a size class is freed onto the front of the list of its class. *)
Lemma dealloc_push st live1 b live2 i :
  inv st (live1 ++ b :: live2) → list_index (b_layout b) = Some i →
  ∃ st' s lists out li,
    dealloc (b_ptr b) (b_layout b) st = (st', Ok tt) ∧
    Forall (λ b, request_ok (b_layout b)) (live1 ++ live2) ∧
    BLOCK_SIZES !! i = Some s ∧ length BLOCK_SIZES = length lists ∧
    lists !! i = Some (b_ptr b :: li) ∧
    Forall2 (chain (mem st')) (list_heads st') lists ∧
    heap_inv (fallback_allocator st') out ∧
    out ≡ₚ free_blocks BLOCK_SIZES lists ++ (backing <$> (live1 ++ live2)).
Proof.
  intros (Hreq & lists & out & Hlen & Hc & Hinv & Hp) Hi.
  rewrite <-Permutation_middle in Hreq, Hp. apply Forall_cons in Hreq as [Hb Hreq].
  rewrite fmap_cons in Hp.
  destruct (list_index_Some _ _ Hi) as (s & Hs & _).
  destruct (block_sizes_ok i s Hs) as (_ & H8 & _).
  destruct (class_list st lists i s Hlen Hc Hs) as (hd & li & Hhd & Hli & Hch).
  assert (backing b = free_block s (b_ptr b)) as Hback
    by (unfold backing; by rewrite Hi, (list_lookup_total_correct _ _ _ Hs)).
  unfold dealloc, mbind, io_bind, lift, get, put.
  rewrite Hi, (idx_ok _ _ _ Hhd), (idx_ok _ _ _ Hs), decide_True by done.
  eexists _, s, (<[i := b_ptr b :: li]> lists), out, li. split_and!; try done; cbn [mem list_heads].
  - by rewrite length_insert.
  - apply list_lookup_insert_eq. by eapply lookup_lt_Some.
  - assert (Forall2 (chain (<[b_ptr b := hd]> (mem st))) (list_heads st) lists) as Hc'.
    { eapply chains_frame; [done| |done]. intros a Ha. apply lookup_insert_ne. intros <-.
      pose proof (heap_inv_live _ _ Hinv) as Hlive.
      rewrite Hp, <-Permutation_middle, Hback, app_comm_cons in Hlive.
      apply live_ok_app in Hlive as [Hlive _].
      apply live_ok_fresh in Hlive; [done|simpl; unfold node_size in H8; lia|].
      eapply Forall_impl; [apply (free_blocks_min node_size), block_sizes_min|].
      unfold node_size. simpl. lia. }
    apply Forall2_insert; [done|]. simpl. split; [done|].
    rewrite lookup_insert_eq. eexists. split; [done|].
    destruct (Forall2_lookup_r _ _ _ _ _ Hc' Hli) as (hd' & Hhd' & ?).
    congruence.
  - rewrite (free_blocks_push _ _ i s _ li) by done. rewrite Hp, Hback.
    by rewrite <-Permutation_middle.
Qed.

Lemma fixed_size_block_dealloc_inv st live1 b live2 :
  inv st (live1 ++ b :: live2) →
  ∃ st', dealloc (b_ptr b) (b_layout b) st = (st', Ok tt) ∧ inv st' (live1 ++ live2).
Proof.
  intros Hst. destruct (list_index (b_layout b)) as [i|] eqn:Hi.
  - destruct (dealloc_push st live1 b live2 i Hst Hi)
      as (st' & s & lists & out & li & Heq & Hreq & _ & Hlen & _ & Hc & Hinv & Hp).
    exists st'. split; [done|]. split; [done|]. by exists lists, out.
  - destruct Hst as (Hreq & lists & out & Hlen & Hc & Hinv & Hp).
    rewrite <-Permutation_middle in Hreq, Hp. apply Forall_cons in Hreq as [Hb Hreq].
    rewrite fmap_cons, <-Permutation_middle in Hp.
    assert (backing b = b) as Hback by (unfold backing; by rewrite Hi).
    rewrite Hback in Hp. pose proof (heap_inv_live _ _ Hinv) as Hlive.
    rewrite Hp in Hlive. apply live_ok_cons in Hlive as ((Hn & _) & _).
    unfold dealloc, mbind, io_bind, get, put. rewrite Hi, decide_False by done.
    eexists. split; [done|]. split; [done|].
    assert (b ∈ out) as Hin by (rewrite Hp; left).
    apply list_elem_of_split in Hin as (o1 & o2 & ->).
    exists lists, (o1 ++ o2). split_and!; [done..|by apply heap_deallocate_spec|].
    rewrite <-Permutation_middle in Hp. by eapply Permutation_cons_inv.
Qed.

#[export] Instance fixed_size_block_alloc_spec : AllocSpec (t H) hs he.
Proof.
  refine {| ga_inv := inv; ga_scribble := scribble; ga_accepts := accepts |}.
  - apply inv_live.
  - intros st live l Hinv Hreq Hacc. by apply fixed_size_block_alloc_inv.
  - intros st live1 b live2 Hinv. by apply fixed_size_block_dealloc_inv.
  - intros st st' b live. apply fixed_size_block_inv_scribble.
Defined.

Lemma fixed_size_block_init_inv st0 : init hs (he - hs) new = (st0, Ok tt) → inv st0 [].
Proof.
  intros [= <-]. split; [done|]. exists (replicate (length BLOCK_SIZES) []), [].
  split_and!; [done|by repeat constructor|apply heap_inv_init|done].
Qed.

(** C2. The global allocator is safe: starting from a fresh allocator over a heap
    and a fallback heap that keeps its contract, after any sequence of
    allocations, deallocations of live blocks and writes into live blocks, the
    live blocks are aligned, inside the heap and pairwise disjoint, and
    neither alloc nor dealloc panics on the next request, if its layout is one
    that the contract of the fallback heap covers. *)
Theorem fixed_size_block_client_safe st0 st live :
  init hs (he - hs) new = (st0, Ok tt) →
  rtc client_step (st0, []) (st, live) →
  live_ok hs he live ∧ no_panic st live.
Proof.
  intros Hinit%fixed_size_block_init_inv Hsteps.
  pose proof (client_reach_inv _ _ _ Hinit Hsteps) as Hinv.
  split; [by eapply ga_inv_live|by eapply ga_inv_no_panic].
Qed.

(** The fixed-size-block allocator reuses blocks last in, first out within a
    size class: after freeing a block, the next request of the same class gets
    its address. *)
Theorem fixed_size_block_reuse st live1 b live2 l :
  inv st (live1 ++ b :: live2) → request_ok l →
  is_Some (list_index l) → list_index l = list_index (b_layout b) →
  ∃ st1 st2, dealloc (b_ptr b) (b_layout b) st = (st1, Ok tt) ∧
    alloc l st1 = (st2, Ok (b_ptr b)) ∧
    inv st2 (Block (b_ptr b) l :: live1 ++ live2).
Proof.
  intros Hinv Hl [i Hi] Heq. rewrite Heq in Hi.
  destruct (dealloc_push st live1 b live2 i Hinv Hi)
    as (st1 & s & lists & out & li & Hd & Hreq & Hs & Hlen & Hli & Hc & Hh & Hp).
  destruct (alloc_pop st1 (live1 ++ live2) lists out i s (b_ptr b) li l)
    as (st2 & Ha & _ & Hinv2); try done; [congruence|].
  by exists st1, st2.
Qed.

End spec.

(** list_index returns the smallest block size that covers both the size and
    the alignment of a layout, and none exactly when one of them exceeds 2048. *)
Theorem list_index_best_class l :
  match list_index l with
  | Some i => ∃ s, BLOCK_SIZES !! i = Some s ∧ l_size l ≤ s ∧ l_align l ≤ s ∧
      ∀ j s', (j < i)%nat → BLOCK_SIZES !! j = Some s' → s' < l_size l ∨ s' < l_align l
  | None => 2048 < l_size l ∨ 2048 < l_align l
  end.
Proof.
  destruct (list_index l) as [i|] eqn:Hi.
  - destruct (list_index_Some _ _ Hi) as (s & Hs & ? & ?). exists s. split_and!; [done..|].
    intros j s' Hj Hs'. apply (position_first _ _ i j s') in Hi; [|done..].
    apply bool_decide_eq_false in Hi. lia.
  - apply (position_None _ _ 8 2048) in Hi; [|done].
    apply bool_decide_eq_false in Hi. lia.
Qed.

(** ** Witnesses

    The allocator in front of this repository's own linked-list allocator. *)

#[export] Instance linked_list_fallback : FallbackHeap LinkedListAllocator.t := {|
  heap_empty := LinkedListAllocator.new;
  heap_init start size h := (@LinkedListAllocator.init debug start size h).1;
  allocate_first_fit l h :=
    match @LinkedListAllocator.alloc debug l h with
    | (h', Ok p) => (h', if decide (p = null) then None else Some p)
    | (h', _) => (h', None)
    end;
  deallocate p l h := (@LinkedListAllocator.dealloc debug p l h).1;
|}.

#[export] Instance linked_list_fallback_spec :
  FallbackHeapSpec LinkedListAllocator.t HEAP_START (HEAP_START + HEAP_SIZE).
Proof.
  refine {| heap_inv := LinkedListAllocator.inv HEAP_START (HEAP_START + HEAP_SIZE);
            heap_accepts := LinkedListAllocator.accepts |}.
  - destruct (@LinkedListAllocator.linked_list_init_inv debug HEAP_START HEAP_SIZE)
      as (st & Heq & Hinv); [done|by exists (HEAP_START / 8)|done|].
    replace (HEAP_START + HEAP_SIZE - HEAP_START) with HEAP_SIZE by done.
    unfold heap_init, linked_list_fallback, heap_empty. by rewrite Heq.
  - apply LinkedListAllocator.inv_live_ok.
  - intros h out l Hinv Hreq Hacc.
    destruct (@LinkedListAllocator.linked_list_alloc_inv debug _ _ _ _ _ Hinv Hreq Hacc)
      as (h' & p & Heq & [[-> Hinv']|[Hp Hinv']]); simpl; rewrite Heq; [done|].
    by rewrite decide_False.
  - intros h out1 b out2 Hinv.
    destruct (@LinkedListAllocator.linked_list_dealloc_inv debug _ _ _ _ _ _ Hinv) as (h' & Heq & ?).
    simpl. by rewrite Heq.
Defined.

Definition boot : t LinkedListAllocator.t := (init HEAP_START HEAP_SIZE new).1.

Definition used : t LinkedListAllocator.t := (alloc (MkLayout 24 8) boot).1.

Lemma used_step : client_step (boot, []) (used, [Block HEAP_START (MkLayout 24 8)]).
Proof.
  apply (client_alloc _ _ _ (MkLayout 24 8) HEAP_START); [|done| |done].
  - by apply (LinkedListAllocator.small_request_ok _ _ 3).
  - vm_compute. reflexivity.
Qed.

Lemma fixed_size_block_client_safe_witness :
  live_ok HEAP_START (HEAP_START + HEAP_SIZE) [Block HEAP_START (MkLayout 24 8)].
Proof.
  refine (proj1 (fixed_size_block_client_safe boot used _ _ (rtc_once _ _ used_step))).
  vm_compute. reflexivity.
Defined.

Lemma fixed_size_block_reuse_witness :
  ∃ st1 st2, dealloc HEAP_START (MkLayout 24 8) used = (st1, Ok tt) ∧
    alloc (MkLayout 32 16) st1 = (st2, Ok HEAP_START).
Proof.
  destruct (fixed_size_block_reuse used [] (Block HEAP_START (MkLayout 24 8)) []
    (MkLayout 32 16)) as (st1 & st2 & H1 & H2 & _); [| |by eexists|done|by exists st1, st2].
  - refine (client_step_inv boot [] _ _ _ used_step). apply fixed_size_block_init_inv. vm_compute. reflexivity.
  - by apply (LinkedListAllocator.small_request_ok _ _ 4).
Defined.

End FixedSizeBlockAllocator.
