(* ===== verification/Format.v ===== *)
(** * Formatted text

    The bytes that [core::fmt] hands to a writer for the format strings of the
    kernel: literals and unsigned integers in decimal ([{}]), hexadecimal
    ([{:02x}], [{:#x}], [{:#04x}]) and as pointers ([{:p}]). *)

From S2P Require Import Prelude.

(** The bytes of a literal. *)
Definition text (s : string) : list Z :=
  (λ a, Z.of_nat (Ascii.nat_of_ascii a)) <$> String.list_ascii_of_string s.

Definition newline : list Z := [0x0a].

Definition digit (d : Z) : Z := if decide (d < 10) then 0x30 + d else 0x57 + d.

(** At most [fuel] digits, without leading zeros. *)
Fixpoint digits (fuel : nat) (base n : Z) : list Z :=
  match fuel with
  | O => []
  | S fuel => (if decide (n < base) then [] else digits fuel base (n / base)) ++ [digit (n mod base)]
  end.

(** Twenty decimal or sixteen hexadecimal digits hold every 64-bit number. *)
Definition show_dec (n : Z) : list Z := digits 20 10 n.
Definition show_hex (n : Z) : list Z := digits 16 16 n.

Definition zero_pad (width : nat) (s : list Z) : list Z := replicate (width - length s) 0x30 ++ s.

Definition show_02x (n : Z) : list Z := zero_pad 2 (show_hex n).
Definition show_alt_x (n : Z) : list Z := text "0x" ++ show_hex n.
Definition show_alt_04x (n : Z) : list Z := text "0x" ++ zero_pad 2 (show_hex n).
Definition show_ptr (n : Z) : list Z := text "0x" ++ show_hex n.

(** ** Reading numbers back *)

Definition digit_value (b : Z) : Z := if decide (b < 0x3A) then b - 0x30 else b - 0x57.

Definition number (base : Z) (s : list Z) : Z := foldl (λ a b, a * base + digit_value b) 0 s.

Lemma digit_value_digit d : 0 ≤ d < 16 → digit_value (digit d) = d.
Proof. intros Hd. unfold digit_value, digit. repeat case_decide; lia. Qed.

Lemma number_digits fuel base n :
  2 ≤ base ≤ 16 → 0 ≤ n < base ^ Z.of_nat fuel → number base (digits fuel base n) = n.
Proof.
  intros Hb. revert n. induction fuel as [|fuel IH]; intros n Hn.
  { change (base ^ Z.of_nat 0) with 1 in Hn. cbn. lia. }
  rewrite Nat2Z.inj_succ, Z.pow_succ_r in Hn by lia. cbn [digits]. unfold number.
  rewrite foldl_app. cbn [foldl].
  rewrite digit_value_digit by (pose proof (Z.mod_pos_bound n base); lia).
  case_decide as Hlt; cbn [foldl].
  - rewrite Z.mod_small by lia. lia.
  - change (foldl _ 0 (digits fuel base (n / base))) with (number base (digits fuel base (n / base))).
    rewrite IH; [pose proof (Z.div_mod n base); lia|].
    split; [apply Z.div_pos; lia|apply Z.div_lt_upper_bound; lia].
Qed.

(** A printed number denotes the number. *)
Lemma number_show_dec n : in_width 64 n → number 10 (show_dec n) = n.
Proof.
  intros Hn. apply number_digits; [lia|]. unfold in_width in Hn.
  change (10 ^ Z.of_nat 20) with 100000000000000000000. lia.
Qed.

Lemma number_show_hex n : in_width 64 n → number 16 (show_hex n) = n.
Proof.
  intros Hn. apply number_digits; [lia|]. unfold in_width in Hn.
  change (16 ^ Z.of_nat 16) with (2 ^ 64). lia.
Qed.

Lemma number_zero_pad base w s : number base (zero_pad w s) = number base s.
Proof.
  unfold number, zero_pad. rewrite foldl_app. f_equal.
  induction (w - length s)%nat as [|k IH]; [done|]. exact IH.
Qed.

Lemma number_show_02x n : in_width 64 n → number 16 (show_02x n) = n.
Proof. intros. unfold show_02x. rewrite number_zero_pad. by apply number_show_hex. Qed.
