(* ===== verification/Vga.v ===== *)
(** * The VGA text console ([src/vga_buffer.rs])

    The 25x80 buffer and the [Writer] operations, each cell access with its
    bounds check.  [new_line]'s nested copy loops are shown equal to a scroll
    of the whole buffer, and [write_string] to refine a terminal that keeps
    every line ever completed and shows the last of them. *)

From S2P Require Import Prelude.

Inductive Colour : Type :=
  | Black | Blue | Green | Cyan | Red | Magenta | Brown | LightGray
  | DarkGray | LightBlue | LightGreen | LightCyan | LightRed | Pink | Yellow | White.

Definition colour_as_u8 (c : Colour) : Z :=
  match c with
  | Black => 0 | Blue => 1 | Green => 2 | Cyan => 3 | Red => 4 | Magenta => 5
  | Brown => 6 | LightGray => 7 | DarkGray => 8 | LightBlue => 9 | LightGreen => 10
  | LightCyan => 11 | LightRed => 12 | Pink => 13 | Yellow => 14 | White => 15
  end.

(** [ColourCode::new]; the shift drops the bits above the eighth. *)
Definition ColourCode_new (foreground background : Colour) : Z :=
  Z.lor (wrap 8 (Z.shiftl (colour_as_u8 background) 4)) (colour_as_u8 foreground).

Record ScreenChar : Type := MkChar { ascii_char : Z; colour_code : Z }.

Definition BUFFER_HEIGHT : nat := 25.
Definition BUFFER_WIDTH : nat := 80.

Module Writer.

Record t : Type := Mk {
  column_position : nat;
  colour : Z;
  buffer : list (list ScreenChar);
}.

(** The static [WRITER], over the text buffer the hardware shows. *)
Definition WRITER (buffer : list (list ScreenChar)) : t :=
  Mk 0 (ColourCode_new Yellow Black) buffer.

(** [self.buffer.chars[row][col].read()] and [.write(c)] *)
Definition read_char (row col : nat) : io t ScreenChar :=
  w ← get; r ← lift (idx (buffer w) row); lift (idx r col).

Definition write_char (row col : nat) (c : ScreenChar) : io t unit :=
  w ← get;
  r ← lift (idx (buffer w) row);
  _ ← lift (idx r col);
  put (Mk (column_position w) (colour w) (<[row := <[col := c]> r]> (buffer w))).

Definition set_column (col : nat) : io t unit :=
  w ← get; put (Mk col (colour w) (buffer w)).

Definition clear_row (row : nat) : io t unit :=
  w ← get;
  let blank := MkChar 0x20 (colour w) in
  for_each (seq 0 BUFFER_WIDTH) (λ col, write_char row col blank).

Definition new_line : io t unit :=
  _ ← for_each (seq 1 (BUFFER_HEIGHT - 1)) (λ row,
        for_each (seq 0 BUFFER_WIDTH) (λ col,
          c ← read_char row col;
          write_char (row - 1) col c));
  _ ← clear_row (BUFFER_HEIGHT - 1);
  set_column 0.

Definition write_byte (byte : Z) : io t unit :=
  if decide (byte = 0x0a) then new_line
  else
    w ← get;
    _ ← (if decide (BUFFER_WIDTH ≤ column_position w)%nat then new_line else mret tt);
    w ← get;
    let row := (BUFFER_HEIGHT - 1)%nat in
    let col := column_position w in
    _ ← write_char row col (MkChar byte (colour w));
    set_column (col + 1).

(** The bytes the console can show; others are replaced by a block. *)
Definition printable (byte : Z) : Prop := 0x20 ≤ byte ≤ 0x7e ∨ byte = 0x0a.
#[global] Instance printable_dec byte : Decision (printable byte).
Proof. unfold printable. apply _. Defined.

Definition write_string (s : list Z) : io t unit :=
  for_each s (λ byte, if decide (printable byte) then write_byte byte else write_byte 0xfe).

(** [_print]: [write_fmt] hands [write_str] the pieces of the format string. *)
Definition print (args : list (list Z)) : io t unit := for_each args write_string.

(** [println!] appends a newline to the format string. *)
Definition println (args : list (list Z)) : io t unit := print (args ++ [[0x0a]]).

(** ** Well-formed writers *)

Definition row_ok (r : list ScreenChar) : Prop := length r = BUFFER_WIDTH.

Record wf (w : t) : Prop := {
  wf_height : length (buffer w) = BUFFER_HEIGHT;
  wf_rows : Forall row_ok (buffer w);
  wf_column : (column_position w ≤ BUFFER_WIDTH)%nat;
}.

(** ** The terminal

    [hist]: the rows completed so far, oldest first; [cur]: the line being
    written.  The screen shows the last rows of both. *)
Record term : Type := MkTerm { hist : list (list ScreenChar); cur : list ScreenChar }.

Definition pad (c : Z) (line : list ScreenChar) : list ScreenChar :=
  line ++ replicate (BUFFER_WIDTH - length line) (MkChar 0x20 c).

Definition term_byte (c : Z) (T : term) (byte : Z) : term :=
  if decide (byte = 0x0a) then MkTerm (hist T ++ [pad c (cur T)]) []
  else if decide (BUFFER_WIDTH ≤ length (cur T))%nat
  then MkTerm (hist T ++ [pad c (cur T)]) [MkChar byte c]
  else MkTerm (hist T) (cur T ++ [MkChar byte c]).

Definition shown (byte : Z) : Z := if decide (printable byte) then byte else 0xfe.

Definition term_string (c : Z) (T : term) (s : list Z) : term :=
  foldl (term_byte c) T (shown <$> s).

(** The last [n] elements of a list. *)
Definition last_n {A} (n : nat) (l : list A) : list A := drop (length l - n) l.

(** The writer [w] shows the terminal [T]. *)
Record shows (w : t) (T : term) : Prop := {
  shows_hist : (BUFFER_HEIGHT - 1 ≤ length (hist T))%nat;
  shows_rows : Forall row_ok (hist T);
  shows_cur : (length (cur T) ≤ BUFFER_WIDTH)%nat;
  shows_column : column_position w = length (cur T);
  shows_buffer : buffer w =
    last_n (BUFFER_HEIGHT - 1) (hist T) ++ [pad (colour w) (cur T)];
}.

(** ** Filling a row *)

#[global] Instance ScreenChar_inhabited : Inhabited ScreenChar := populate (MkChar 0 0).

Definition with_row (w : t) (row : nat) (r : list ScreenChar) : t :=
  Mk (column_position w) (colour w) (<[row := r]> (buffer w)).

Lemma with_row_id w row : (row < length (buffer w))%nat → with_row w row (buffer w !!! row) = w.
Proof.
  intros Hrow. unfold with_row. rewrite list_insert_id; [by destruct w|].
  by apply list_lookup_lookup_total_lt.
Qed.

Lemma write_char_ok w row col r c :
  (row < length (buffer w))%nat → (col < length r)%nat →
  write_char row col c (with_row w row r) = (with_row w row (<[col := c]> r), Ok tt).
Proof.
  intros Hrow Hcol. unfold write_char, mbind, io_bind, lift, get, put, with_row; simpl.
  rewrite (idx_ok _ row r) by by apply list_lookup_insert_eq.
  rewrite idx_total by done. by rewrite list_insert_insert_eq.
Qed.

(** A loop that writes [R] cell by cell into a row leaves [R] there. *)
Lemma fill_row w row R body :
  (row < length (buffer w))%nat → length R = BUFFER_WIDTH → row_ok (buffer w !!! row) →
  (∀ r col, row_ok r → (col < BUFFER_WIDTH)%nat →
     body col (with_row w row r) = (with_row w row (<[col := R !!! col]> r), Ok tt)) →
  for_each (seq 0 BUFFER_WIDTH) body w = (with_row w row R, Ok tt).
Proof.
  intros Hrow HR HD Hbody. set (D := buffer w !!! row) in *.
  assert (∀ n k, (k + n = BUFFER_WIDTH)%nat →
    for_each (seq k n) body (with_row w row (take k R ++ drop k D)) =
      (with_row w row R, Ok tt)) as Hloop.
  { induction n as [|n IH]; intros k Hk; simpl.
    - rewrite Nat.add_0_r in Hk. unfold row_ok in HD.
      by rewrite take_ge, drop_ge, app_nil_r by lia.
    - unfold mbind, io_bind. rewrite Hbody; [| |lia].
      + rewrite insert_take_drop by (unfold row_ok in *; lia). apply IH. lia.
      + unfold row_ok in *. rewrite length_app, length_take, length_drop. lia. }
  specialize (Hloop BUFFER_WIDTH 0%nat eq_refl). simpl in Hloop.
  unfold D in Hloop. by rewrite with_row_id in Hloop.
Qed.

(** ** Scrolling *)

Definition blank_row (c : Z) : list ScreenChar := replicate BUFFER_WIDTH (MkChar 0x20 c).

(** What [new_line] computes: the rows move up by one. *)
Definition scroll (w : t) : t :=
  Mk 0 (colour w) (drop 1 (buffer w) ++ [blank_row (colour w)]).

Lemma wf_row w row : wf w → (row < BUFFER_HEIGHT)%nat → row_ok (buffer w !!! row).
Proof.
  intros [Hh Hr _] Hrow. apply (Forall_lookup_1 _ _ row _ Hr).
  apply list_lookup_lookup_total_lt. lia.
Qed.

Lemma clear_row_ok w row :
  wf w → (row < BUFFER_HEIGHT)%nat →
  clear_row row w = (with_row w row (blank_row (colour w)), Ok tt).
Proof.
  intros Hw Hrow. unfold clear_row, mbind, io_bind, get.
  pose proof (wf_height w Hw) as Hh.
  apply fill_row; [lia|done|by apply wf_row|]. intros r col Hr Hcol.
  unfold blank_row. rewrite lookup_total_replicate_2 by done.
  apply write_char_ok; [lia|]. by rewrite Hr.
Qed.

Lemma copy_row_ok w row :
  wf w → (S row < BUFFER_HEIGHT)%nat →
  for_each (seq 0 BUFFER_WIDTH) (λ col,
    c ← read_char (S row) col; write_char (S row - 1) col c) w =
  (with_row w row (buffer w !!! S row), Ok tt).
Proof.
  intros Hw Hrow. pose proof (wf_height w Hw) as Hh.
  apply fill_row; [lia|by apply wf_row|apply wf_row; [done|lia]|].
  intros r col Hr Hcol. unfold read_char, mbind, io_bind, lift, get; simpl.
  rewrite (idx_ok _ (S row) (buffer w !!! S row)).
  - rewrite idx_total by (by rewrite (wf_row w (S row))).
    rewrite Nat.sub_0_r. apply write_char_ok; [lia|by rewrite Hr].
  - rewrite list_lookup_insert_ne by lia. apply list_lookup_lookup_total_lt. lia.
Qed.

Definition moved (w : t) (k : nat) : t :=
  Mk (column_position w) (colour w) (take k (drop 1 (buffer w)) ++ drop k (buffer w)).

Lemma moved_wf w k : wf w → (k < BUFFER_HEIGHT)%nat → wf (moved w k).
Proof.
  intros [Hh Hr Hc] Hk. split; simpl; [| |done].
  - rewrite length_app, length_take, !length_drop. lia.
  - apply Forall_app. split; [by apply Forall_take, Forall_drop|by apply Forall_drop].
Qed.

Lemma copy_rows_ok w :
  wf w →
  for_each (seq 1 (BUFFER_HEIGHT - 1)) (λ row,
    for_each (seq 0 BUFFER_WIDTH) (λ col,
      c ← read_char row col; write_char (row - 1) col c)) w =
  (moved w (BUFFER_HEIGHT - 1), Ok tt).
Proof.
  intros Hw. pose proof (wf_height w Hw) as Hh.
  assert (∀ n k, (k + n = BUFFER_HEIGHT - 1)%nat →
    for_each (seq (S k) n) (λ row,
      for_each (seq 0 BUFFER_WIDTH) (λ col,
        c ← read_char row col; write_char (row - 1) col c)) (moved w k) =
    (moved w (BUFFER_HEIGHT - 1), Ok tt)) as Hloop.
  { induction n as [|n IH]; intros k Hk; [by rewrite Nat.add_0_r in Hk; subst|].
    cbn [seq for_each]. unfold mbind at 1, io_bind at 1. unfold BUFFER_HEIGHT in Hk.
    rewrite copy_row_ok by (try apply moved_wf; try done; unfold BUFFER_HEIGHT; lia).
    rewrite <-(IH (S k)) by (unfold BUFFER_HEIGHT; lia). f_equal.
    unfold moved, with_row. simpl. f_equal. unfold BUFFER_HEIGHT in Hh.
    rewrite <-insert_take_drop by (rewrite ?length_drop; lia). f_equal.
    rewrite lookup_total_app_r by (rewrite length_take, length_drop; lia).
    rewrite length_take, length_drop, Nat.min_l, !lookup_total_drop by lia.
    f_equal. lia. }
  specialize (Hloop (BUFFER_HEIGHT - 1)%nat 0%nat eq_refl).
  replace (moved w 0) with w in Hloop by by destruct w. done.
Qed.

Lemma new_line_ok w : wf w → new_line w = (scroll w, Ok tt).
Proof.
  intros Hw. pose proof (wf_height w Hw) as Hh. unfold BUFFER_HEIGHT in Hh.
  unfold new_line. unfold mbind at 1, io_bind at 1. rewrite copy_rows_ok by done.
  unfold mbind, io_bind. rewrite clear_row_ok by (try apply moved_wf; try done; compute; lia).
  unfold set_column, get, put, mbind, io_bind, with_row, moved, scroll. simpl.
  do 2 f_equal. change (BUFFER_HEIGHT - 1)%nat with 24%nat.
  rewrite take_ge by (rewrite length_drop; lia).
  rewrite insert_app_r_alt by (rewrite length_drop; lia).
  rewrite length_drop, Hh. simpl.
  destruct (drop 24 (buffer w)) as [|r []] eqn:Hd; [..|done|];
    apply (f_equal length) in Hd; rewrite length_drop in Hd; simpl in Hd; lia.
Qed.

Lemma scroll_wf w : wf w → wf (scroll w).
Proof.
  intros [Hh Hr _]. split; simpl; [| |lia].
  - rewrite length_app, length_drop, Hh. done.
  - apply Forall_app. split; [by apply Forall_drop|]. by repeat constructor.
Qed.

(** ** The terminal *)

Lemma last_n_app_r {A} n (l : list A) x :
  (n ≤ length l)%nat → last_n (S n) (l ++ [x]) = last_n n l ++ [x].
Proof.
  intros Hn. unfold last_n. rewrite length_app. simpl.
  rewrite drop_app_le by lia. do 2 f_equal. lia.
Qed.

Lemma length_last_n {A} n (l : list A) : (n ≤ length l)%nat → length (last_n n l) = n.
Proof. intros. unfold last_n. rewrite length_drop. lia. Qed.

Lemma drop_last_n {A} n (l : list A) :
  (S n ≤ length l)%nat → drop 1 (last_n (S n) l) = last_n n l.
Proof. intros. unfold last_n. rewrite drop_drop. f_equal. lia. Qed.

Lemma length_pad c line : (length line ≤ BUFFER_WIDTH)%nat → row_ok (pad c line).
Proof. intros. unfold row_ok, pad. rewrite length_app, length_replicate. lia. Qed.

Lemma shows_wf w T : shows w T → wf w.
Proof.
  intros [Hh Hr Hc Hcol Hb]. split; [| |lia]; rewrite Hb.
  - rewrite length_app, length_last_n by done. done.
  - apply Forall_app. split; [by apply Forall_drop|].
    constructor; [by apply length_pad|done].
Qed.

Lemma scroll_shows w T :
  shows w T → shows (scroll w) (MkTerm (hist T ++ [pad (colour w) (cur T)]) []).
Proof.
  intros [Hh Hr Hc Hcol Hb]. change (BUFFER_HEIGHT - 1)%nat with 24%nat in *.
  split; simpl; [..|lia|done|].
  - rewrite length_app. lia.
  - apply Forall_app. split; [done|]. constructor; [by apply length_pad|done].
  - rewrite Hb, (last_n_app_r 23) by lia.
    rewrite drop_app_le by (rewrite length_last_n; lia).
    by rewrite (drop_last_n 23) by lia.
Qed.

Lemma pad_snoc c line x :
  (length line < BUFFER_WIDTH)%nat →
  <[length line := x]> (pad c line) = pad c (line ++ [x]).
Proof.
  intros Hl. unfold pad. rewrite insert_app_r_alt, Nat.sub_diag, length_app by done.
  simpl. rewrite <-app_assoc. f_equal.
  replace (BUFFER_WIDTH - length line)%nat with (S (BUFFER_WIDTH - (length line + 1)))
    by lia. done.
Qed.

(** Writing a character of the current line. *)
Lemma put_char_shows w T byte :
  shows w T → (length (cur T) < BUFFER_WIDTH)%nat →
  ∃ w', (_ ← write_char (BUFFER_HEIGHT - 1) (column_position w) (MkChar byte (colour w));
         set_column (column_position w + 1)) w = (w', Ok tt) ∧
    colour w' = colour w ∧
    shows w' (MkTerm (hist T) (cur T ++ [MkChar byte (colour w)])).
Proof.
  intros Hs Hlt. pose proof (wf_height _ (shows_wf _ _ Hs)) as Hhw.
  pose proof (wf_row w 24 (shows_wf _ _ Hs) ltac:(compute; lia)) as Hrow.
  destruct Hs as [Hh Hr Hc Hcol Hb]. change (BUFFER_HEIGHT - 1)%nat with 24%nat in *.
  unfold BUFFER_HEIGHT in Hhw.
  pose proof (write_char_ok w 24 (column_position w) (buffer w !!! 24%nat)
    (MkChar byte (colour w)) ltac:(lia) ltac:(rewrite Hrow; lia)) as Hwc.
  rewrite with_row_id in Hwc by lia. unfold mbind, io_bind. rewrite Hwc.
  unfold set_column, mbind, io_bind, get, put, with_row. simpl. eexists. split; [done|].
  split; [done|]. split; simpl; try done.
  - rewrite length_app. simpl. lia.
  - rewrite length_app. simpl. lia.
  - rewrite Hb at 2.
    rewrite insert_app_r_alt by (rewrite length_last_n; lia).
    rewrite length_last_n by lia. simpl. do 2 f_equal. rewrite <-pad_snoc by done.
    rewrite <-Hcol. f_equal. rewrite Hb.
    rewrite lookup_total_app_r by (rewrite length_last_n; lia).
    by rewrite length_last_n by lia.
Qed.

Lemma write_byte_shows w T byte :
  shows w T →
  ∃ w', write_byte byte w = (w', Ok tt) ∧ colour w' = colour w ∧
    shows w' (term_byte (colour w) T byte).
Proof.
  intros Hs. pose proof (shows_wf _ _ Hs) as Hw. unfold write_byte, term_byte.
  case_decide as Hnl.
  { rewrite new_line_ok by done. exists (scroll w). split_and!; [done..|].
    by apply scroll_shows. }
  unfold mbind at 1, io_bind at 1, get at 1.
  rewrite (shows_column _ _ Hs). case_decide as Hfull.
  - unfold mbind at 1, io_bind at 1. rewrite new_line_ok by done.
    apply scroll_shows in Hs.
    destruct (put_char_shows _ _ byte Hs) as (w' & Heq & Hcol & Hs'); [simpl; compute; lia|].
    exists w'. by split_and!.
  - destruct (put_char_shows _ _ byte Hs) as (w' & Heq & Hcol & Hs'); [lia|].
    exists w'. split_and!; [exact Heq|done..].
Qed.

Lemma write_string_shows s w T :
  shows w T →
  ∃ w', write_string s w = (w', Ok tt) ∧ colour w' = colour w ∧
    shows w' (term_string (colour w) T s).
Proof.
  revert w T. induction s as [|b s IH]; intros w T Hs; [by exists w|].
  destruct (write_byte_shows w T (shown b) Hs) as (w1 & Heq1 & Hc1 & Hs1).
  destruct (IH w1 _ Hs1) as (w' & Heq & Hc & Hs'). rewrite Hc1 in Hc, Hs'.
  exists w'. split_and!; [|done..]. unfold write_string in *. simpl.
  unfold mbind, io_bind. unfold shown in Heq1. case_decide; by rewrite Heq1.
Qed.

(** ** Any well-formed writer *)

(** A writer that has just scrolled shows a terminal whose history is what was
    on the screen. *)
Lemma scroll_fresh w : wf w → shows (scroll w) (MkTerm (drop 1 (buffer w)) []).
Proof.
  intros [Hh Hr _]. unfold BUFFER_HEIGHT in Hh.
  split; simpl; [|by apply Forall_drop|lia|done|].
  - rewrite length_drop. lia.
  - unfold last_n. rewrite length_drop, Hh. done.
Qed.

Lemma write_char_wf w row col c :
  wf w → (row < BUFFER_HEIGHT)%nat → (col < BUFFER_WIDTH)%nat →
  ∃ w', write_char row col c w = (w', Ok tt) ∧ wf w' ∧
    column_position w' = column_position w ∧ colour w' = colour w.
Proof.
  intros Hw Hrow Hcol. pose proof (wf_row w row Hw Hrow) as Hr.
  pose proof Hw as [Hh Hrs Hc].
  pose proof (write_char_ok w row col (buffer w !!! row) c ltac:(lia)
    ltac:(rewrite Hr; lia)) as Heq.
  rewrite with_row_id in Heq by lia. eexists. split; [done|].
  split; [|done]. split; simpl; [by rewrite length_insert| |done].
  apply Forall_insert; [done|]. unfold row_ok. by rewrite length_insert.
Qed.

Lemma write_byte_wf w byte :
  wf w → ∃ w', write_byte byte w = (w', Ok tt) ∧ wf w' ∧ colour w' = colour w.
Proof.
  intros Hw. unfold write_byte. case_decide.
  { rewrite new_line_ok by done. exists (scroll w). split_and!; [done|by apply scroll_wf|done]. }
  assert (∃ w1, (if decide (BUFFER_WIDTH ≤ column_position w)%nat then new_line else mret tt) w
    = (w1, Ok tt) ∧ wf w1 ∧ (column_position w1 < BUFFER_WIDTH)%nat ∧
    colour w1 = colour w) as (w1 & Heq1 & Hw1 & Hlt & Hc1).
  { case_decide.
    - rewrite new_line_ok by done. exists (scroll w).
      split_and!; [done|by apply scroll_wf|compute; lia|done].
    - exists w. split_and!; [done..|lia|done]. }
  unfold mbind, io_bind, get in *. rewrite Heq1.
  destruct (write_char_wf w1 24 (column_position w1) (MkChar byte (colour w1)))
    as (w2 & Heq2 & Hw2 & Hp2 & Hc2); [done|compute; lia|done|].
  change (BUFFER_HEIGHT - 1)%nat with 24%nat. rewrite Heq2.
  unfold set_column, mbind, io_bind, get, put. eexists. split; [done|].
  split; [|simpl; congruence]. destruct Hw2. split; simpl; [done..|]. lia.
Qed.

(** A text without newlines that fits on the current line is appended to it. *)
Lemma term_string_app c T s1 s2 :
  term_string c T (s1 ++ s2) = term_string c (term_string c T s1) s2.
Proof. unfold term_string. by rewrite fmap_app, foldl_app. Qed.

Lemma term_string_line c T s :
  Forall (λ b, 0x20 ≤ b ≤ 0x7e) s → (length (cur T) + length s ≤ BUFFER_WIDTH)%nat →
  term_string c T s = MkTerm (hist T) (cur T ++ ((λ b, MkChar b c) <$> s)).
Proof.
  intros Hs. revert T. induction Hs as [|b s Hb Hs IH]; intros T Hlen.
  - simpl. rewrite app_nil_r. by destruct T.
  - unfold term_string in *. simpl in *.
    assert (shown b = b) as -> by (unfold shown; by rewrite decide_True by (by left)).
    unfold term_byte at 2. rewrite !decide_False by lia.
    rewrite IH by (simpl; rewrite length_app; simpl; lia).
    simpl. by rewrite <-app_assoc.
Qed.

Lemma print_concat args w : print args w = write_string (concat args) w.
Proof.
  revert w. induction args as [|s args IH]; intros w; [done|].
  unfold print, write_string in *. cbn [concat for_each]. rewrite for_each_app.
  unfold mbind, io_bind. destruct (for_each s _ w) as [w1 []]; [apply IH|done..].
Qed.

Lemma print_shows args w T :
  shows w T →
  ∃ w', print args w = (w', Ok tt) ∧ colour w' = colour w ∧
    shows w' (term_string (colour w) T (concat args)).
Proof. rewrite print_concat. apply write_string_shows. Qed.

Lemma write_string_wf s w :
  wf w → ∃ w', write_string s w = (w', Ok tt) ∧ wf w' ∧ colour w' = colour w.
Proof.
  revert w. induction s as [|b s IH]; intros w Hw; [by exists w|].
  destruct (write_byte_wf w (shown b) Hw) as (w1 & Heq1 & Hw1 & Hc1).
  destruct (IH w1 Hw1) as (w' & Heq & Hw' & Hc').
  exists w'. split_and!; [|done|congruence]. unfold write_string in *. simpl.
  unfold mbind, io_bind. unfold shown in Heq1. case_decide; by rewrite Heq1.
Qed.

Lemma print_wf args w :
  wf w → ∃ w', print args w = (w', Ok tt) ∧ wf w' ∧ colour w' = colour w.
Proof. rewrite print_concat. apply write_string_wf. Qed.

(** C12. write_string refines a terminal with unbounded history: if the buffer
    shows the last rows of a terminal, then it shows the last rows of the
    terminal that received the string, with wrapping after 80 columns and
    unprintable bytes shown as 0xfe. *)
Theorem write_string_refines_terminal w T s :
  shows w T →
  ∃ w', write_string s w = (w', Ok tt) ∧ shows w' (term_string (colour w) T s).
Proof. intros Hs. destruct (write_string_shows s w T Hs) as (w' & ? & _ & ?). by exists w'. Qed.

(** Printing a newline and then a line of at most 80 printable characters from
    any state leaves the line on the last row but one. *)
Lemma println_shows_line w s :
  wf w → Forall (λ b, 0x20 ≤ b ≤ 0x7e) s → (length s ≤ BUFFER_WIDTH)%nat →
  ∃ w', println [[0x0a]; s] w = (w', Ok tt) ∧ wf w' ∧ colour w' = colour w ∧
    ∀ i b, s !! i = Some b →
      (buffer w' !! (BUFFER_HEIGHT - 2)%nat) ≫= (.!! i) = Some (MkChar b (colour w)).
Proof.
  intros Hw Hs Hlen.
  pose proof (scroll_fresh w Hw) as Hs1.
  destruct (write_string_shows s _ _ Hs1) as (w2 & Heq2 & Hc2 & Hs2).
  rewrite term_string_line in Hs2 by (simpl; done || lia). simpl in Hc2, Hs2.
  destruct (write_string_shows [0x0a] _ _ Hs2) as (w3 & Heq3 & Hc3 & Hs3).
  exists w3. split_and!; [|by eapply shows_wf|by rewrite Hc3, Hc2|].
  { unfold println, print. simpl. unfold mbind, io_bind.
    assert (write_string [0x0a] w = (scroll w, Ok tt)) as ->.
    { unfold write_string. simpl. unfold mbind, io_bind. by rewrite new_line_ok. }
    by rewrite Heq2, Heq3. }
  intros i b Hi. rewrite (shows_buffer _ _ Hs3).
  unfold term_string. simpl. unfold term_byte. simpl.
  change (BUFFER_HEIGHT - 1)%nat with 24%nat. change (BUFFER_HEIGHT - 2)%nat with 23%nat.
  pose proof (wf_height w Hw) as Hh. unfold BUFFER_HEIGHT in Hh.
  rewrite (last_n_app_r 23) by (rewrite length_drop; lia).
  rewrite <-app_assoc, lookup_app_r by (rewrite length_last_n; rewrite ?length_drop; lia).
  rewrite length_last_n by (rewrite length_drop; lia). simpl.
  unfold pad. rewrite lookup_app_l
    by (rewrite length_fmap; by eapply lookup_lt_Some).
  by rewrite list_lookup_fmap, Hi.
Qed.

(** A short text overwrites what the last row holds. *)
Lemma write_string_over s w :
  wf w → Forall (λ b, 0x20 ≤ b ≤ 0x7e) s → (column_position w + length s ≤ BUFFER_WIDTH)%nat →
  ∃ w' rest, write_string s w = (w', Ok tt) ∧ wf w' ∧ colour w' = colour w ∧
    column_position w' = (column_position w + length s)%nat ∧
    buffer w' !!! 24%nat =
      take (column_position w) (buffer w !!! 24%nat) ++ ((λ b, MkChar b (colour w)) <$> s) ++ rest.
Proof.
  intros Hw Hs. revert w Hw. induction Hs as [|b s Hb Hs IH]; intros w Hw Hlen.
  { exists w, (drop (column_position w) (buffer w !!! 24%nat)). simpl.
    by rewrite Nat.add_0_r, take_drop. }
  simpl in Hlen. set (row := buffer w !!! 24%nat). set (col := column_position w) in *.
  pose proof (wf_row w 24 Hw ltac:(compute; lia)) as Hrow. unfold row_ok in Hrow. fold row in Hrow.
  pose proof (wf_height w Hw) as Hh. unfold BUFFER_HEIGHT in Hh.
  set (w1 := Mk (col + 1) (colour w) (<[24%nat := <[col := MkChar b (colour w)]> row]> (buffer w))).
  assert (Hw1 : write_byte b w = (w1, Ok tt)).
  { unfold write_byte. rewrite decide_False by lia. unfold mbind, io_bind, get. fold col.
    rewrite decide_False by lia. unfold mret, io_ret. fold col.
    pose proof (write_char_ok w 24 col row (MkChar b (colour w)) ltac:(lia) ltac:(lia)) as Hwc.
    unfold row in Hwc at 1. rewrite with_row_id in Hwc by lia.
    change (BUFFER_HEIGHT - 1)%nat with 24%nat. by rewrite Hwc. }
  destruct (write_byte_wf w b Hw) as (w1' & Heq & Hwf & _). rewrite Hw1 in Heq. injection Heq as <-.
  destruct (IH w1 Hwf) as (w' & rest & Heq' & Hwf' & Hc' & Hcol' & Hbuf'); [simpl; lia|].
  exists w', rest. split_and!; [|done..|simpl in Hcol' |- *; lia|].
  - unfold write_string in *. cbn [for_each]. rewrite decide_True by by left.
    unfold mbind, io_bind. by rewrite Hw1.
  - rewrite Hbuf'. cbn [w1 buffer column_position colour]. rewrite list_lookup_total_insert_eq by lia.
    rewrite Nat.add_1_r, (take_S_r _ _ (MkChar b (colour w))), take_insert_ge, <-app_assoc; [done|lia|].
    apply list_lookup_insert_eq. lia.
Qed.

(** The first line printed from column 0 of any screen. *)
Lemma first_println_shows args w :
  wf w → column_position w = 0%nat → Forall (λ b, 0x20 ≤ b ≤ 0x7e) (concat args) →
  (length (concat args) ≤ BUFFER_WIDTH)%nat →
  ∃ w' rows rest, println args w = (w', Ok tt) ∧ colour w' = colour w ∧
    shows w' (MkTerm (rows ++ [((λ b, MkChar b (colour w)) <$> concat args) ++ rest]) []).
Proof.
  intros Hw Hcol Hs Hlen.
  destruct (write_string_over (concat args) w Hw Hs) as (w1 & rest & Heq & Hw1 & Hc1 & _ & Hrow);
    [lia|]. rewrite Hcol in Hrow. simpl in Hrow.
  exists (scroll w1), (take 23 (drop 1 (buffer w1))), rest. split_and!; [|done|].
  - unfold println, print. rewrite for_each_app. unfold mbind, io_bind.
    change (for_each args write_string w) with (print args w). rewrite print_concat, Heq.
    cbn [for_each]. unfold mbind, io_bind, write_string. simpl. unfold mbind, io_bind.
    by rewrite new_line_ok.
  - rewrite <-Hrow. pose proof (scroll_fresh w1 Hw1) as Hf.
    pose proof (wf_height w1 Hw1) as Hh. unfold BUFFER_HEIGHT in Hh.
    rewrite <-(take_drop 23 (drop 1 (buffer w1))), drop_drop in Hf.
    assert (drop (1 + 23) (buffer w1) = [buffer w1 !!! 24%nat]) as Hd; [|by rewrite Hd in Hf].
    rewrite (drop_S _ (buffer w1 !!! 24%nat)) by (apply list_lookup_lookup_total_lt; lia).
    by rewrite drop_ge by lia.
Qed.

(** Both colours can be read back from a colour code. *)
Theorem colour_code_roundtrip fg bg :
  is_u8 (ColourCode_new fg bg) ∧
  Z.land (ColourCode_new fg bg) 0x0f = colour_as_u8 fg ∧
  Z.shiftr (ColourCode_new fg bg) 4 = colour_as_u8 bg.
Proof. destruct fg, bg; done. Qed.

(** ** Witnesses *)

Definition blank_screen : t :=
  Mk 0 (ColourCode_new Yellow Black)
     (replicate BUFFER_HEIGHT (blank_row (ColourCode_new Yellow Black))).

Lemma blank_screen_wf : wf blank_screen.
Proof. split; [done| |compute; lia]. by repeat constructor. Qed.

Lemma blank_screen_shows : shows blank_screen (MkTerm (replicate 24 (blank_row 14)) []).
Proof. split; [compute; lia|by repeat constructor|compute; lia|done|done]. Qed.

Lemma write_string_refines_terminal_witness :
  ∃ w', write_string [72; 10; 105] blank_screen = (w', Ok tt) ∧
    column_position w' = 1%nat.
Proof.
  destruct (write_string_refines_terminal blank_screen
    (MkTerm (replicate 24 (blank_row 14)) []) [72; 10; 105] blank_screen_shows)
    as (w' & Heq & Hs).
  exists w'. split; [done|]. by rewrite (shows_column _ _ Hs).
Defined.

End Writer.
