(* ===== verification/Ata.v ===== *)
(** * The ATA driver ([src/ata.rs])

    The driver's statics ([Ata]), its port writes, the two futures'
    [poll] functions and the interrupt handler, over a device that is a
    parameter: [PortDevice] gives its port accesses, [AtaDeviceSpec] what the
    ATA standard says of a PIO read of one sector.  Diagnostic [println!]
    output is left out. *)

From S2P Require Import Prelude.

(** ** Port addresses, status flags, commands *)

Definition DATA_PORT : Z := 0x1F0.
Definition ERROR_PORT : Z := 0x1F1.
Definition SECTOR_COUNT_PORT : Z := 0x1F2.
Definition LBA_LOW_PORT : Z := 0x1F3.
Definition LBA_MID_PORT : Z := 0x1F4.
Definition LBA_HIGH_PORT : Z := 0x1F5.
Definition DEVICE_PORT : Z := 0x1F6.
Definition STATUS_COMMAND_PORT : Z := 0x1F7.
Definition ALT_STATUS_CONTROL_PORT : Z := 0x3F6.

Definition STATUS_BSY : Z := 0x80.
Definition STATUS_DRDY : Z := 0x40.
Definition STATUS_DF : Z := 0x20.
Definition STATUS_DRQ : Z := 0x08.
Definition STATUS_ERR : Z := 0x01.

Definition CMD_READ_SECTORS : Z := 0x20.
Definition CMD_WRITE_SECTORS : Z := 0x30.
Definition CMD_IDENTIFY : Z := 0xEC.

Definition DEVICE_MASTER : Z := 0xA0.
Definition DEVICE_SLAVE : Z := 0xB0.

Definition SECTOR_SIZE : nat := 512.

(** ** The device behind the ports *)

Class PortDevice (D : Type) : Type := {
  inb : Z → D → D * Z;
  outb : Z → Z → D → D;
  inw : Z → D → D * Z;
  outw : Z → Z → D → D;
  (** The device raises its interrupt line, now or when its work is done. *)
  irq : D → bool;
}.

(** ** Driver state *)

Inductive DiskRequest : Type :=
  | Read (lba : Z)
  | Write (lba : Z).

(** A waker is identified by the task it wakes. *)
Abbreviation Waker := Z (only parsing).

(** The statics.  [disk_request_queue] and [disk_waker] are the [OnceCell]s;
    an [AtomicWaker] holds at most one waker.  [woken] records the calls of
    [wake] in order. *)
Record Ata : Type := MkAta {
  PENDING_LBA : Z;
  OPERATION_COMPLETE : bool;
  WRITE_COMPLETE : bool;
  DISK_REQUEST_QUEUE : option (list DiskRequest);
  SECTOR_BUFFER : list Z;
  SECTOR_WRITE_BUFFER : list Z;
  DISK_WAKER : option (option Waker);
  woken : list Waker;
}.

Definition set_PENDING_LBA (v : Z) (a : Ata) : Ata :=
  MkAta v (OPERATION_COMPLETE a) (WRITE_COMPLETE a) (DISK_REQUEST_QUEUE a)
    (SECTOR_BUFFER a) (SECTOR_WRITE_BUFFER a) (DISK_WAKER a) (woken a).
Definition set_OPERATION_COMPLETE (v : bool) (a : Ata) : Ata :=
  MkAta (PENDING_LBA a) v (WRITE_COMPLETE a) (DISK_REQUEST_QUEUE a)
    (SECTOR_BUFFER a) (SECTOR_WRITE_BUFFER a) (DISK_WAKER a) (woken a).
Definition set_WRITE_COMPLETE (v : bool) (a : Ata) : Ata :=
  MkAta (PENDING_LBA a) (OPERATION_COMPLETE a) v (DISK_REQUEST_QUEUE a)
    (SECTOR_BUFFER a) (SECTOR_WRITE_BUFFER a) (DISK_WAKER a) (woken a).
Definition set_DISK_REQUEST_QUEUE (v : option (list DiskRequest)) (a : Ata) : Ata :=
  MkAta (PENDING_LBA a) (OPERATION_COMPLETE a) (WRITE_COMPLETE a) v
    (SECTOR_BUFFER a) (SECTOR_WRITE_BUFFER a) (DISK_WAKER a) (woken a).
Definition set_SECTOR_BUFFER (v : list Z) (a : Ata) : Ata :=
  MkAta (PENDING_LBA a) (OPERATION_COMPLETE a) (WRITE_COMPLETE a) (DISK_REQUEST_QUEUE a)
    v (SECTOR_WRITE_BUFFER a) (DISK_WAKER a) (woken a).
Definition set_SECTOR_WRITE_BUFFER (v : list Z) (a : Ata) : Ata :=
  MkAta (PENDING_LBA a) (OPERATION_COMPLETE a) (WRITE_COMPLETE a) (DISK_REQUEST_QUEUE a)
    (SECTOR_BUFFER a) v (DISK_WAKER a) (woken a).
Definition set_DISK_WAKER (v : option (option Waker)) (a : Ata) : Ata :=
  MkAta (PENDING_LBA a) (OPERATION_COMPLETE a) (WRITE_COMPLETE a) (DISK_REQUEST_QUEUE a)
    (SECTOR_BUFFER a) (SECTOR_WRITE_BUFFER a) v (woken a).

(** The statics' initial values. *)
Definition ata_init : Ata :=
  MkAta 0 false false None (replicate SECTOR_SIZE 0) (replicate SECTOR_SIZE 0) None [].

(** [waker.register(w)], when the cell is initialised. *)
Definition register_waker (w : Waker) (a : Ata) : Ata :=
  match DISK_WAKER a with
  | Some _ => set_DISK_WAKER (Some (Some w)) a
  | None => a
  end.

(** [waker.wake()], when the cell is initialised: the registered waker is
    taken and woken. *)
Definition wake (a : Ata) : Ata :=
  match DISK_WAKER a with
  | Some (Some w) =>
    MkAta (PENDING_LBA a) (OPERATION_COMPLETE a) (WRITE_COMPLETE a) (DISK_REQUEST_QUEUE a)
      (SECTOR_BUFFER a) (SECTOR_WRITE_BUFFER a) (Some None) (woken a ++ [w])
  | _ => a
  end.

(** The driver and the device it drives. *)
Record Sys (D : Type) : Type := MkSys { drv : Ata; dev : D }.
Arguments MkSys {D}.
Arguments drv {D}.
Arguments dev {D}.

(** [AtaDriver] itself: whether [init] has run. *)
Record AtaDriver : Type := MkDriver { initialized : bool }.

Definition AtaDriver_new : AtaDriver := MkDriver false.

Section ops.
Context {D : Type} `{PortDevice D}.

(** ** Port and memory accesses *)

Definition port_write (port v : Z) : io (Sys D) unit :=
  s ← get; put (MkSys (drv s) (outb port v (dev s))).
Definition port_read (port : Z) : io (Sys D) Z :=
  s ← get; let '(d, v) := inb port (dev s) in _ ← put (MkSys (drv s) d); mret v.
Definition port_write16 (port v : Z) : io (Sys D) unit :=
  s ← get; put (MkSys (drv s) (outw port v (dev s))).
Definition port_read16 (port : Z) : io (Sys D) Z :=
  s ← get; let '(d, v) := inw port (dev s) in _ ← put (MkSys (drv s) d); mret v.

Definition statics : io (Sys D) Ata := s ← get; mret (drv s).
Definition update (f : Ata → Ata) : io (Sys D) unit :=
  s ← get; put (MkSys (f (drv s)) (dev s)).

(** ** The futures *)

(** [OPERATION_COMPLETE && PENDING_LBA == self.lba] *)
Definition read_done (lba : Z) (a : Ata) : bool :=
  OPERATION_COMPLETE a && bool_decide (PENDING_LBA a = lba).

(** [SectorRead::poll]; [None] is [Poll::Pending]. *)
Definition SectorRead_poll (lba : Z) (w : Waker) : io (Sys D) (option (list Z)) :=
  a ← statics;
  if read_done lba a then
    _ ← update (set_OPERATION_COMPLETE false);
    mret (Some (SECTOR_BUFFER a))
  else
    _ ← update (register_waker w);
    a ← statics;
    if read_done lba a then
      _ ← update (set_OPERATION_COMPLETE false);
      mret (Some (SECTOR_BUFFER a))
    else mret None.

Definition write_done (lba : Z) (a : Ata) : bool :=
  WRITE_COMPLETE a && bool_decide (PENDING_LBA a = lba).

(** [SectorWrite::poll] *)
Definition SectorWrite_poll (lba : Z) (w : Waker) : io (Sys D) (option unit) :=
  a ← statics;
  if write_done lba a then
    _ ← update (set_WRITE_COMPLETE false);
    mret (Some tt)
  else
    _ ← update (register_waker w);
    a ← statics;
    if write_done lba a then
      _ ← update (set_WRITE_COMPLETE false);
      mret (Some tt)
    else mret None.

(** ** Commands *)

Definition soft_reset : io (Sys D) unit :=
  _ ← port_write ALT_STATUS_CONTROL_PORT 0x04;
  port_write ALT_STATUS_CONTROL_PORT 0x00.

(** Returns whether a master drive answers. *)
Definition detect_drives : io (Sys D) bool :=
  _ ← port_write DEVICE_PORT DEVICE_MASTER;
  status ← port_read STATUS_COMMAND_PORT;
  mret (negb (bool_decide (status = 0xFF))).

(** [AtaDriver::init]; the cells may be initialised once. *)
Definition init (self : AtaDriver) : io (Sys D) AtaDriver :=
  if initialized self then mret self
  else
    a ← statics;
    _ ← (match DISK_REQUEST_QUEUE a with
         | None => update (set_DISK_REQUEST_QUEUE (Some []))
         | Some _ => lift Panic
         end);
    _ ← (match DISK_WAKER a with
         | None => update (set_DISK_WAKER (Some None))
         | Some _ => lift Panic
         end);
    _ ← soft_reset;
    _ ← detect_drives;
    mret (MkDriver true).

(** The task file for one sector at [lba] on the slave drive, then the
    command. *)
Definition lba_low (lba : Z) : Z := Z.land lba 0xFF.
Definition lba_mid (lba : Z) : Z := Z.land (Z.shiftr lba 8) 0xFF.
Definition lba_high (lba : Z) : Z := Z.land (Z.shiftr lba 16) 0xFF.
Definition lba_upper (lba : Z) : Z := Z.land (Z.shiftr lba 24) 0x0F.
Definition device_val (lba : Z) : Z := Z.lor (Z.lor DEVICE_SLAVE 0x40) (lba_upper lba).

Definition issue_command (lba cmd : Z) : io (Sys D) unit :=
  _ ← port_write SECTOR_COUNT_PORT 1;
  _ ← port_write LBA_LOW_PORT (lba_low lba);
  _ ← port_write LBA_MID_PORT (lba_mid lba);
  _ ← port_write LBA_HIGH_PORT (lba_high lba);
  _ ← port_write DEVICE_PORT (device_val lba);
  port_write STATUS_COMMAND_PORT cmd.

Definition issue_read_command (lba : Z) : io (Sys D) unit :=
  issue_command lba CMD_READ_SECTORS.

(** The capacity of the request queue. *)
Definition QUEUE_CAPACITY : nat := 32.

(** [AtaDriver::read_sector] *)
Definition read_sector (lba : Z) : io (Sys D) unit :=
  a ← statics;
  match DISK_REQUEST_QUEUE a with
  | None => io_err "ATA request queue not initialized"
  | Some q =>
    if decide (QUEUE_CAPACITY ≤ length q)%nat then io_err "ATA request queue full"
    else
      _ ← update (set_DISK_REQUEST_QUEUE (Some (q ++ [Read lba])));
      _ ← update (set_PENDING_LBA lba);
      _ ← update (set_OPERATION_COMPLETE false);
      issue_read_command lba
  end.

(** [read_sector_async] up to its [await]. *)
Definition read_sector_start (lba : Z) : io (Sys D) unit :=
  _ ← port_read STATUS_COMMAND_PORT;
  _ ← update (set_PENDING_LBA lba);
  _ ← update (set_OPERATION_COMPLETE false);
  issue_command lba CMD_READ_SECTORS.

(** [write_sector_async] up to its [await]. *)
Definition write_sector_start (lba : Z) (data : list Z) : io (Sys D) unit :=
  _ ← update (set_SECTOR_WRITE_BUFFER data);
  _ ← update (set_PENDING_LBA lba);
  _ ← update (set_WRITE_COMPLETE false);
  issue_command lba CMD_WRITE_SECTORS.

(** ** The interrupt handler *)

(** [for i in 0..256] of the transfer loops, word by word. *)
Definition send_word (i : nat) : io (Sys D) unit :=
  a ← statics;
  byte1 ← lift (idx (SECTOR_WRITE_BUFFER a) (i * 2));
  byte2 ← lift (idx (SECTOR_WRITE_BUFFER a) (i * 2 + 1));
  port_write16 DATA_PORT (Z.lor byte1 (wrap 16 (Z.shiftl byte2 8))).

Definition receive_word (i : nat) : io (Sys D) unit :=
  word ← port_read16 DATA_PORT;
  a ← statics;
  _ ← lift (idx (SECTOR_BUFFER a) (i * 2));
  _ ← lift (idx (SECTOR_BUFFER a) (i * 2 + 1));
  update (set_SECTOR_BUFFER
    (<[(i * 2 + 1)%nat := wrap 8 (Z.shiftr word 8)]>
      (<[(i * 2)%nat := Z.land word 0xFF]> (SECTOR_BUFFER a)))).

Definition on_primary_ata_interrupt : io (Sys D) unit :=
  status ← port_read STATUS_COMMAND_PORT;
  if decide (Z.land status STATUS_ERR ≠ 0) then
    _ ← port_read ERROR_PORT;
    _ ← update (set_OPERATION_COMPLETE false);
    update (set_WRITE_COMPLETE false)
  else if decide (Z.land status STATUS_DRQ ≠ 0) then
    a ← statics;
    let is_write := negb (WRITE_COMPLETE a) && OPERATION_COMPLETE a in
    _ ← (if is_write then
           _ ← for_each (seq 0 256) send_word;
           update (set_WRITE_COMPLETE true)
         else
           _ ← for_each (seq 0 256) receive_word;
           update (set_OPERATION_COMPLETE true));
    update wake
  else mret tt.

(** ** Awaiting a future

    The executor polls a pending future again when its waker has been woken,
    which only the interrupt handler does; a device that raises no interrupt,
    or a handler that does not wake, leaves the future pending. *)
Fixpoint wait_wake (fuel : nat) (w : Waker) : io (Sys D) unit :=
  match fuel with
  | O => lift Hang
  | S fuel =>
    s ← get;
    if irq (dev s) then
      _ ← on_primary_ata_interrupt;
      s' ← get;
      if decide (w ∈ drop (length (woken (drv s))) (woken (drv s'))) then mret tt
      else wait_wake fuel w
    else lift Hang
  end.

Fixpoint await {A} (fuel : nat) (w : Waker) (poll : io (Sys D) (option A)) : io (Sys D) A :=
  match fuel with
  | O => lift Hang
  | S fuel =>
    r ← poll;
    match r with
    | Some a => mret a
    | None => _ ← wait_wake fuel w; await fuel w poll
    end
  end.

(** The interrupts a transfer is given to complete; one is enough. *)
Definition AWAIT_FUEL : nat := 8.

Definition read_sector_async (w : Waker) (lba : Z) : io (Sys D) (list Z) :=
  _ ← read_sector_start lba;
  await AWAIT_FUEL w (SectorRead_poll lba w).

Definition write_sector_async (w : Waker) (lba : Z) (data : list Z) : io (Sys D) unit :=
  _ ← write_sector_start lba data;
  await AWAIT_FUEL w (SectorWrite_poll lba w).

End ops.

(** ** The ATA standard: reading one sector

    The task file latched in the drive's registers, and the address the drive
    takes from it in LBA mode. *)
Record taskfile : Type := MkTF {
  tf_count : Z; tf_low : Z; tf_mid : Z; tf_high : Z; tf_device : Z;
}.

Definition tf_lba (tf : taskfile) : Z :=
  tf_low tf + 2 ^ 8 * tf_mid tf + 2 ^ 16 * tf_high tf +
  2 ^ 24 * Z.land (tf_device tf) 0x0F.

(** The word at index [i] of a sector, least significant byte first. *)
Definition word_at (s : list Z) (i : nat) : Z :=
  s !!! (i * 2)%nat + 256 * s !!! (i * 2 + 1)%nat.

(** [dev_idle d tf k]: the slave drive holds [k], is idle, and has latched
    [tf].  [dev_data_in d k ws]: it is in the data-in phase of a PIO read and
    has the words [ws] left to deliver. *)
Class AtaDeviceSpec (D : Type) `{PortDevice D} : Type := {
  dev_idle : D → taskfile → disk → Prop;
  dev_data_in : D → disk → list Z → Prop;
  dev_sectors : Z;
  dev_sectors_bound : dev_sectors ≤ 2 ^ 28;
  dev_idle_disk d tf k : dev_idle d tf k → disk_ok k;
  dev_set_count d tf k v : dev_idle d tf k → is_u8 v →
    dev_idle (outb SECTOR_COUNT_PORT v d)
      (MkTF v (tf_low tf) (tf_mid tf) (tf_high tf) (tf_device tf)) k;
  dev_set_low d tf k v : dev_idle d tf k → is_u8 v →
    dev_idle (outb LBA_LOW_PORT v d)
      (MkTF (tf_count tf) v (tf_mid tf) (tf_high tf) (tf_device tf)) k;
  dev_set_mid d tf k v : dev_idle d tf k → is_u8 v →
    dev_idle (outb LBA_MID_PORT v d)
      (MkTF (tf_count tf) (tf_low tf) v (tf_high tf) (tf_device tf)) k;
  dev_set_high d tf k v : dev_idle d tf k → is_u8 v →
    dev_idle (outb LBA_HIGH_PORT v d)
      (MkTF (tf_count tf) (tf_low tf) (tf_mid tf) v (tf_device tf)) k;
  dev_set_device d tf k v : dev_idle d tf k → is_u8 v →
    dev_idle (outb DEVICE_PORT v d)
      (MkTF (tf_count tf) (tf_low tf) (tf_mid tf) (tf_high tf) v) k;
  dev_idle_status d tf k : dev_idle d tf k →
    dev_idle (inb STATUS_COMMAND_PORT d).1 tf k;
  (** LBA mode (bit 6) and the slave drive (bit 4) are selected. *)
  dev_read_command d tf k : dev_idle d tf k →
    tf_count tf = 1 → Z.land (tf_device tf) 0x50 = 0x50 → tf_lba tf < dev_sectors →
    let d' := outb STATUS_COMMAND_PORT CMD_READ_SECTORS d in
    irq d' = true ∧ dev_data_in d' k (word_at (k (tf_lba tf)) <$> seq 0 256);
  dev_data_status d k w ws : dev_data_in d k (w :: ws) →
    ∃ d' status, inb STATUS_COMMAND_PORT d = (d', status) ∧
      Z.land status STATUS_ERR = 0 ∧ Z.land status STATUS_DRQ ≠ 0 ∧
      dev_data_in d' k (w :: ws);
  dev_data_word d k w ws : dev_data_in d k (w :: ws) →
    ∃ d', inw DATA_PORT d = (d', w) ∧ dev_data_in d' k ws;
  dev_data_end d k : dev_data_in d k [] → ∃ tf, dev_idle d tf k;
}.

(** ** Addresses in the task file *)

Lemma land_low_bits x n : 0 ≤ n → Z.land x (2 ^ n - 1) = x mod 2 ^ n.
Proof. intros. rewrite <-Z.land_ones by done. f_equal. rewrite Z.ones_equiv. lia. Qed.

Lemma lba_low_eq lba : lba_low lba = lba mod 256.
Proof. apply (land_low_bits lba 8). lia. Qed.
Lemma lba_mid_eq lba : lba_mid lba = lba / 256 mod 256.
Proof.
  unfold lba_mid. rewrite Z.shiftr_div_pow2 by lia. by apply (land_low_bits _ 8).
Qed.
Lemma lba_high_eq lba : lba_high lba = lba / 65536 mod 256.
Proof.
  unfold lba_high. rewrite Z.shiftr_div_pow2 by lia. by apply (land_low_bits _ 8).
Qed.
Lemma lba_upper_eq lba : lba_upper lba = lba / 16777216 mod 16.
Proof.
  unfold lba_upper. rewrite Z.shiftr_div_pow2 by lia. by apply (land_low_bits _ 4).
Qed.

Lemma device_val_upper lba : Z.land (device_val lba) 0x0F = lba_upper lba.
Proof.
  unfold device_val. rewrite Z.land_lor_distr_l. unfold lba_upper.
  rewrite <-Z.land_assoc. done.
Qed.

Lemma device_val_select lba : Z.land (device_val lba) 0x50 = 0x50.
Proof.
  unfold device_val. rewrite Z.land_lor_distr_l. unfold lba_upper.
  rewrite <-Z.land_assoc. change (Z.land 0x0F 0x50) with 0. by rewrite Z.land_0_r.
Qed.

Lemma lba_taskfile_u8 lba :
  is_u8 (lba_low lba) ∧ is_u8 (lba_mid lba) ∧ is_u8 (lba_high lba) ∧ is_u8 (device_val lba).
Proof.
  rewrite lba_low_eq, lba_mid_eq, lba_high_eq. split_and!; try by apply (wrap_in_width 8).
  assert (0 ≤ lba_upper lba < 16) as Hu by (rewrite lba_upper_eq; by apply Z.mod_pos_bound).
  unfold device_val. change (Z.lor DEVICE_SLAVE 0x40) with 240. split.
  - apply Z.lor_nonneg. lia.
  - destruct (decide (lba_upper lba = 0)) as [->|Hne]; [done|].
    apply Z.log2_lt_pow2; [|rewrite Z.log2_lor by lia].
    + assert (0 ≤ Z.lor 240 (lba_upper lba)) by (apply Z.lor_nonneg; lia).
      destruct (decide (Z.lor 240 (lba_upper lba) = 0)) as [Hz|]; [|lia].
      apply Z.lor_eq_0_iff in Hz. lia.
    + change (Z.log2 240) with 7. apply Z.max_lub_lt; [lia|].
      apply Z.log2_lt_pow2; [lia|]. change (2 ^ 8) with 256. lia.
Qed.

(** The task file the driver writes for [lba]. *)
Definition lba_taskfile (lba : Z) : taskfile :=
  MkTF 1 (lba_low lba) (lba_mid lba) (lba_high lba) (device_val lba).

Lemma lba_taskfile_lba lba : 0 ≤ lba → tf_lba (lba_taskfile lba) = lba mod 2 ^ 28.
Proof.
  intros Hlba. unfold tf_lba, lba_taskfile. cbn [tf_low tf_mid tf_high tf_device].
  rewrite device_val_upper, lba_low_eq, lba_mid_eq, lba_high_eq, lba_upper_eq.
  change (2 ^ 8) with 256. change (2 ^ 16) with 65536. change (2 ^ 24) with 16777216.
  change (2 ^ 28) with 268435456. Z.to_euclidean_division_equations. lia.
Qed.

(** ** Reading a sector *)

Section stepping.
Context {D : Type} `{PortDevice D}.

Lemma read_sector_start_eq lba (a : Ata) (d d1 d2 : D) status :
  inb STATUS_COMMAND_PORT d = (d1, status) →
  issue_command lba CMD_READ_SECTORS
    (MkSys (set_OPERATION_COMPLETE false (set_PENDING_LBA lba a)) d1) =
  (MkSys (set_OPERATION_COMPLETE false (set_PENDING_LBA lba a)) d2, Ok tt) →
  read_sector_start lba (MkSys a d) =
  (MkSys (set_OPERATION_COMPLETE false (set_PENDING_LBA lba a)) d2, Ok tt).
Proof.
  intros Hst Hcmd. unfold read_sector_start, port_read, update, mbind, io_bind, get, put,
    mret, io_ret. cbn [dev drv]. by rewrite Hst.
Qed.

Lemma poll_read_pending lba w (a : Ata) (d : D) :
  read_done lba a = false → read_done lba (register_waker w a) = false →
  SectorRead_poll lba w (MkSys a d) = (MkSys (register_waker w a) d, Ok None).
Proof.
  intros H1 H2. unfold SectorRead_poll, statics, update, mbind, io_bind, get, put,
    mret, io_ret. cbn [dev drv]. rewrite H1. cbn [dev drv]. by rewrite H2.
Qed.

Lemma poll_read_ready lba w (a : Ata) (d : D) :
  read_done lba a = true →
  SectorRead_poll lba w (MkSys a d) =
  (MkSys (set_OPERATION_COMPLETE false a) d, Ok (Some (SECTOR_BUFFER a))).
Proof.
  intros H1. unfold SectorRead_poll, statics, update, mbind, io_bind, get, put,
    mret, io_ret. cbn [dev drv]. by rewrite H1.
Qed.

Lemma await_ready {A} n w (poll : io (Sys D) (option A)) s s' x :
  poll s = (s', Ok (Some x)) → await (S n) w poll s = (s', Ok x).
Proof. intros Hp. cbn [await]. unfold mbind, io_bind. by rewrite Hp. Qed.

Lemma await_pending {A} n w (poll : io (Sys D) (option A)) s s1 s2 :
  poll s = (s1, Ok None) → irq (dev s1) = true →
  on_primary_ata_interrupt s1 = (s2, Ok tt) →
  woken (drv s2) = woken (drv s1) ++ [w] →
  await (S (S n)) w poll s = await (S n) w poll s2.
Proof.
  intros Hp Hi Ho Hw. change (await (S (S n)) w poll) with
    (r ← poll; match r with Some a => mret a
               | None => _ ← wait_wake (S n) w; await (S n) w poll end).
  unfold mbind, io_bind. rewrite Hp. cbn [wait_wake]. unfold mbind, io_bind, get.
  rewrite Hi, Ho, Hw, drop_app_length, decide_True by left. done.
Qed.

End stepping.

Section read_proofs.
Context {D : Type} `{AtaDeviceSpec D}.

Lemma issue_read_ok (a : Ata) (d : D) tf k lba :
  dev_idle d tf k → 0 ≤ lba < dev_sectors →
  ∃ d', issue_command lba CMD_READ_SECTORS (MkSys a d) = (MkSys a d', Ok tt) ∧
    irq d' = true ∧ dev_data_in d' k (word_at (k lba) <$> seq 0 256).
Proof.
  intros Hd Hlba. pose proof dev_sectors_bound.
  assert (tf_lba (lba_taskfile lba) = lba) as Hl
    by (rewrite lba_taskfile_lba by lia; apply Z.mod_small; lia).
  destruct (lba_taskfile_u8 lba) as (? & ? & ? & ?). eexists. split; [reflexivity|].
  apply (dev_set_count _ _ _ 1) in Hd; [|done].
  apply (dev_set_low _ _ _ (lba_low lba)) in Hd; [|done].
  apply (dev_set_mid _ _ _ (lba_mid lba)) in Hd; [|done].
  apply (dev_set_high _ _ _ (lba_high lba)) in Hd; [|done].
  apply (dev_set_device _ _ _ (device_val lba)) in Hd; [|done].
  cbn [tf_count tf_low tf_mid tf_high tf_device] in Hd. fold (lba_taskfile lba) in Hd.
  apply dev_read_command in Hd.
  - rewrite Hl in Hd. exact Hd.
  - done.
  - apply device_val_select.
  - lia.
Qed.

Lemma word_bytes s i :
  sector_ok s → (i < 256)%nat →
  Z.land (word_at s i) 0xFF = s !!! (i * 2)%nat ∧
  wrap 8 (Z.shiftr (word_at s i) 8) = s !!! (i * 2 + 1)%nat.
Proof.
  intros [Hlen Hs] Hi.
  assert (is_u8 (s !!! (i * 2)%nat) ∧ is_u8 (s !!! (i * 2 + 1)%nat)) as [H1 H2].
  { split; apply (Forall_lookup_total_1 _ _ _ Hs); lia. }
  unfold word_at, wrap. rewrite Z.shiftr_div_pow2 by lia.
  rewrite (land_low_bits _ 8) by lia. change (2 ^ 8) with 256 in *.
  rewrite (Z.mul_comm 256), Z_mod_plus_full, Z.div_add, (Z.div_small (s !!! _)) by width.
  rewrite Z.add_0_l, !Z.mod_small by width. done.
Qed.

(** The data-in loop stores the sector in the buffer. *)
Lemma receive_ok (a : Ata) (d : D) k s :
  sector_ok s → length (SECTOR_BUFFER a) = SECTOR_SIZE →
  dev_data_in d k (word_at s <$> seq 0 256) →
  ∃ d', for_each (seq 0 256) receive_word (MkSys a d) =
          (MkSys (set_SECTOR_BUFFER s a) d', Ok tt) ∧ dev_data_in d' k [].
Proof.
  intros Hs Hbuf Hd. set (B := SECTOR_BUFFER a) in *.
  assert (∀ n i d, (i + n = 256)%nat → dev_data_in d k (word_at s <$> seq i n) →
    ∃ d', for_each (seq i n) receive_word
            (MkSys (set_SECTOR_BUFFER (take (i * 2) s ++ drop (i * 2) B) a) d) =
          (MkSys (set_SECTOR_BUFFER s a) d', Ok tt) ∧ dev_data_in d' k []) as Hloop.
  { pose proof Hs as [Hlen _]. unfold SECTOR_SIZE in Hbuf. clear d Hd.
    induction n as [|n IH]; intros i d Hi Hd.
    - exists d. split; [|done]. assert (i = 256)%nat as -> by lia. simpl for_each.
      by rewrite take_ge, drop_ge, app_nil_r by lia.
    - cbn [seq] in Hd. rewrite fmap_cons in Hd. apply dev_data_word in Hd as (d1 & Hw & Hd1).
      destruct (IH (S i) d1 ltac:(lia) Hd1) as (d2 & Heq & Hd2).
      exists d2. split; [|done]. rewrite <-Heq. cbn [seq for_each].
      unfold mbind at 1, io_bind at 1. 
      unfold receive_word, port_read16, statics, update, mbind, io_bind, get, put, lift.
      cbn [dev drv]. rewrite Hw. cbn [drv dev SECTOR_BUFFER set_SECTOR_BUFFER mret io_ret].
      rewrite !idx_total by (rewrite length_app, length_take, length_drop; lia).
      destruct (word_bytes s i Hs ltac:(lia)) as [-> ->].
      rewrite insert_take_drop by lia.
      replace (i * 2 + 1)%nat with (S (i * 2)) by lia.
      rewrite insert_take_drop by lia. done. }
  destruct (Hloop 256%nat 0%nat d eq_refl Hd) as (d' & Heq & Hd').
  exists d'. split; [|done]. rewrite <-Heq. simpl. by destruct a.
Qed.

(** The interrupt that ends a read. *)
Lemma read_interrupt_ok (a : Ata) (d : D) k s :
  sector_ok s → length (SECTOR_BUFFER a) = SECTOR_SIZE → OPERATION_COMPLETE a = false →
  dev_data_in d k (word_at s <$> seq 0 256) →
  ∃ d' tf, on_primary_ata_interrupt (MkSys a d) =
    (MkSys (wake (set_OPERATION_COMPLETE true (set_SECTOR_BUFFER s a))) d', Ok tt) ∧
    dev_idle d' tf k.
Proof.
  intros Hs Hbuf Hoc Hd.
  destruct (dev_data_status d k (word_at s 0) (list_fmap _ _ (word_at s) (seq 1 255)) Hd)
    as (d1 & status & Hst & Herr & Hdrq & Hd1).
  destruct (receive_ok a d1 k s Hs Hbuf Hd1) as (d2 & Heq & Hd2).
  destruct (dev_data_end d2 k Hd2) as [tf Hidle].
  exists d2, tf. split; [|done].
  unfold on_primary_ata_interrupt, port_read, mbind, io_bind, get, put, mret, io_ret.
  cbn [dev drv]. rewrite Hst. rewrite decide_False by (intros Hne; by apply Hne).
  rewrite decide_True by done. unfold statics, update, mbind, io_bind, get, put, mret, io_ret.
  cbn [drv dev]. rewrite Hoc, andb_false_r, Heq. done.
Qed.

(** [read_sector_async] delivers the sector it was asked for. *)
Lemma read_sector_async_ok (w lba : Z) (s : Sys D) tf k :
  dev_idle (dev s) tf k → length (SECTOR_BUFFER (drv s)) = SECTOR_SIZE →
  is_Some (DISK_WAKER (drv s)) → 0 ≤ lba < dev_sectors →
  ∃ s' tf', read_sector_async w lba s = (s', Ok (k lba)) ∧
    dev_idle (dev s') tf' k ∧ length (SECTOR_BUFFER (drv s')) = SECTOR_SIZE ∧
    is_Some (DISK_WAKER (drv s')) ∧ OPERATION_COMPLETE (drv s') = false ∧ WRITE_COMPLETE (drv s') = WRITE_COMPLETE (drv s).
Proof.
  destruct s as [a d]. cbn [dev drv]. intros Hidle Hbuf [w0 Hcell] Hlba.
  pose proof (dev_idle_disk _ _ _ Hidle lba) as Hs.
  pose proof (dev_idle_status _ _ _ Hidle) as Hidle1.
  destruct (inb STATUS_COMMAND_PORT d) as [d1 status] eqn:Hst. simpl in Hidle1.
  set (a1 := set_OPERATION_COMPLETE false (set_PENDING_LBA lba a)).
  destruct (issue_read_ok a1 d1 tf k lba Hidle1 Hlba) as (d2 & Hcmd & Hirq & Hdata).
  set (a2 := register_waker w a1).
  assert (length (SECTOR_BUFFER a2) = SECTOR_SIZE ∧ OPERATION_COMPLETE a2 = false ∧
    PENDING_LBA a2 = lba ∧ WRITE_COMPLETE a2 = WRITE_COMPLETE a ∧
    DISK_WAKER a2 = Some (Some w)) as (Hb2 & Ho2 & Hp2 & Hw2 & Hc2).
  { unfold a2, register_waker, a1. cbn [DISK_WAKER set_OPERATION_COMPLETE set_PENDING_LBA].
    by rewrite Hcell. }
  destruct (read_interrupt_ok a2 d2 k (k lba) Hs Hb2 Ho2 Hdata) as (d3 & tf' & Hint & Hidle').
  set (a3 := wake (set_OPERATION_COMPLETE true (set_SECTOR_BUFFER (k lba) a2))) in *.
  assert (SECTOR_BUFFER a3 = k lba ∧ read_done lba a3 = true ∧
    WRITE_COMPLETE a3 = WRITE_COMPLETE a ∧ DISK_WAKER a3 = Some None ∧
    woken a3 = woken a2 ++ [w]) as (Hb3 & Hr3 & Hw3 & Hc3 & Hwoken).
  { unfold a3, wake, read_done. cbn [DISK_WAKER set_OPERATION_COMPLETE set_SECTOR_BUFFER].
    rewrite Hc2. simpl. by rewrite Hp2, bool_decide_true. }
  exists (MkSys (set_OPERATION_COMPLETE false a3) d3), tf'.
  split_and!; [|done|simpl; rewrite Hb3; apply Hs|by eexists|done|done].
  unfold read_sector_async, mbind, io_bind.
  rewrite (read_sector_start_eq lba a d d1 d2 status Hst Hcmd).
  unfold AWAIT_FUEL.
  erewrite await_pending; [|apply poll_read_pending|exact Hirq|exact Hint|exact Hwoken].
  - apply await_ready. rewrite (poll_read_ready lba w a3 d3 Hr3). by rewrite Hb3.
  - done.
  - unfold read_done. fold a1 a2. by rewrite Ho2.
Qed.
End read_proofs.

(** ** The driver behind the sector interface *)

Section interface.
Context {D : Type} `{AtaDeviceSpec D} (w : Waker).

Definition ata_sector_io : SectorIO (Sys D) :=
  {| sector_read := read_sector_async w; sector_write := write_sector_async w |}.

(** Between transfers, after [init]. *)
Definition ata_repr (s : Sys D) (k : disk) : Prop :=
  (∃ tf, dev_idle (dev s) tf k) ∧ length (SECTOR_BUFFER (drv s)) = SECTOR_SIZE ∧
  is_Some (DISK_WAKER (drv s)).

Definition ata_read_spec : @SectorReadSpec (Sys D) ata_sector_io.
Proof using All.
  refine (@Build_SectorReadSpec (Sys D) ata_sector_io ata_repr dev_sectors _ _).
  - intros s k [[tf Hd] _]. by eapply dev_idle_disk.
  - intros s k lba ([tf Hd] & Hb & Hc) Hlba.
    destruct (read_sector_async_ok w lba s tf k Hd Hb Hc Hlba) as (s' & tf' & Heq & ? & ? & ? & _).
    exists s'. split; [exact Heq|]. split; [by exists tf'|done].
Defined.

End interface.

(** ** The request queue *)

Section queue.
Context {D : Type} `{PortDevice D}.

(** Everything that runs the driver's code. *)
Inductive driver_step : Sys D → Sys D → Prop :=
  | step_read_sector lba s s' o : read_sector lba s = (s', o) → driver_step s s'
  | step_read_start lba s s' o : read_sector_start lba s = (s', o) → driver_step s s'
  | step_write_start lba data s s' o :
      write_sector_start lba data s = (s', o) → driver_step s s'
  | step_read_poll lba w s s' o : SectorRead_poll lba w s = (s', o) → driver_step s s'
  | step_write_poll lba w s s' o : SectorWrite_poll lba w s = (s', o) → driver_step s s'
  | step_init self s s' o : init self s = (s', o) → driver_step s s'
  | step_interrupt s s' o : on_primary_ata_interrupt s = (s', o) → driver_step s s'.

Definition queue_of (s : Sys D) : option (list DiskRequest) := DISK_REQUEST_QUEUE (drv s).

End queue.

(** ** What a computation leaves alone *)

Section keeps.
Context {D : Type} `{PortDevice D} {X : Type} (f : Ata → X).

(** [m] leaves the part [f] of the statics as it is. *)
Definition keeps {A} (m : io (Sys D) A) : Prop :=
  ∀ s s' o, m s = (s', o) → f (drv s') = f (drv s).

Lemma keeps_ret {A} (a : A) : keeps (mret a).
Proof. by intros s s' o [= <- <-]. Qed.

Lemma keeps_lift {A} (o : outcome A) : keeps (lift o).
Proof. by intros s s' o' [= <- <-]. Qed.

Lemma keeps_get : keeps get.
Proof. by intros s s' o' [= <- <-]. Qed.

Lemma keeps_bind {A B} (m : io (Sys D) A) (k : A → io (Sys D) B) :
  keeps m → (∀ a, keeps (k a)) → keeps (m ≫= k).
Proof.
  intros Hm Hk s s' o. unfold mbind, io_bind. destruct (m s) as [s1 o1] eqn:Hms.
  apply Hm in Hms as <-. destruct o1; [apply Hk|by intros [= <- <-]..].
Qed.

Lemma keeps_for_each {A} (l : list A) body :
  (∀ a, keeps (body a)) → keeps (for_each l body).
Proof.
  intros Hb. induction l as [|a l IH]; simpl; [apply keeps_ret|].
  apply keeps_bind; [apply Hb|done].
Qed.

Lemma keeps_update g : (∀ a, f (g a) = f a) → keeps (update g).
Proof. intros Hf s s' o [= <- <-]. apply Hf. Qed.

Lemma keeps_port_write p v : keeps (port_write p v).
Proof. by intros s s' o [= <- <-]. Qed.
Lemma keeps_port_write16 p v : keeps (port_write16 p v).
Proof. by intros s s' o [= <- <-]. Qed.
Lemma keeps_port_read p : keeps (port_read p).
Proof.
  intros s s' o. unfold port_read, mbind, io_bind, get, put.
  destruct (inb p (dev s)). by intros [= <- <-].
Qed.
Lemma keeps_port_read16 p : keeps (port_read16 p).
Proof.
  intros s s' o. unfold port_read16, mbind, io_bind, get, put.
  destruct (inw p (dev s)). by intros [= <- <-].
Qed.
Lemma keeps_statics : keeps statics.
Proof. by intros s s' o [= <- <-]. Qed.

End keeps.

Lemma wake_queue a : DISK_REQUEST_QUEUE (wake a) = DISK_REQUEST_QUEUE a.
Proof. unfold wake. by destruct (DISK_WAKER a) as [[]|]. Qed.
Lemma register_queue w a : DISK_REQUEST_QUEUE (register_waker w a) = DISK_REQUEST_QUEUE a.
Proof. unfold register_waker. by destruct (DISK_WAKER a). Qed.

Create HintDb ata.
#[export] Hint Resolve keeps_ret keeps_lift keeps_get keeps_port_write keeps_port_write16
  keeps_port_read keeps_port_read16 keeps_statics wake_queue register_queue : ata.

(** Splits a driver computation into its steps. *)
Ltac keeps_steps := repeat match goal with
  | |- keeps _ (match ?c with _ => _ end) => destruct c
  | |- keeps _ (_ ≫= _) => apply keeps_bind; [|intros]
  | |- keeps _ (for_each _ _) => apply keeps_for_each; intros
  | |- keeps _ (update _) => apply keeps_update; intros
  | |- _ => solve [auto with ata]
  end.

Section queue_theorems.
Context {D : Type} `{PortDevice D}.

Lemma keeps_issue_command lba cmd : keeps (D := D) DISK_REQUEST_QUEUE (issue_command lba cmd).
Proof. unfold issue_command. keeps_steps. Qed.

Lemma keeps_interrupt : keeps (D := D) DISK_REQUEST_QUEUE on_primary_ata_interrupt.
Proof.
  unfold on_primary_ata_interrupt, receive_word, send_word. keeps_steps.
Qed.

Lemma keeps_read_poll lba w : keeps (D := D) DISK_REQUEST_QUEUE (SectorRead_poll lba w).
Proof. unfold SectorRead_poll. keeps_steps. Qed.

Lemma keeps_write_poll lba w : keeps (D := D) DISK_REQUEST_QUEUE (SectorWrite_poll lba w).
Proof. unfold SectorWrite_poll. keeps_steps. Qed.

Lemma keeps_read_start lba : keeps (D := D) DISK_REQUEST_QUEUE (read_sector_start lba).
Proof. unfold read_sector_start. pose proof keeps_issue_command. keeps_steps. Qed.

Lemma keeps_write_start lba data : keeps (D := D) DISK_REQUEST_QUEUE (write_sector_start lba data).
Proof. unfold write_sector_start. pose proof keeps_issue_command. keeps_steps. Qed.

(** [read_sector] adds one request, and only while there is room. *)
Lemma read_sector_queue lba (s s' : Sys D) o :
  read_sector lba s = (s', o) →
  match queue_of s with
  | None => s' = s ∧ o = Err "ATA request queue not initialized"
  | Some q =>
    if decide (QUEUE_CAPACITY ≤ length q)%nat then s' = s ∧ o = Err "ATA request queue full"
    else queue_of s' = Some (q ++ [Read lba])
  end.
Proof.
  unfold read_sector, queue_of, statics. unfold mbind, io_bind, get, mret, io_ret.
  destruct (DISK_REQUEST_QUEUE (drv s)) as [q|] eqn:Hq; [|by intros [= <- <-]].
  case_decide; [by intros [= <- <-]|]. cbn. intros Heq.
  by apply keeps_issue_command in Heq.
Qed.

Lemma driver_step_queue (s s' : Sys D) q :
  driver_step s s' → queue_of s = Some q →
  ∃ q', queue_of s' = Some q' ∧ q `prefix_of` q' ∧ (length q' ≤ length q `max` QUEUE_CAPACITY)%nat.
Proof.
  intros Hstep Hq. destruct Hstep as [lba s s' o Heq|lba s s' o Heq|lba data s s' o Heq|
    lba w s s' o Heq|lba w s s' o Heq|self s s' o Heq|s s' o Heq].
  { apply read_sector_queue in Heq. rewrite Hq in Heq. case_decide.
    - destruct Heq as [-> _]. exists q. split_and!; [done..|lia].
    - exists (q ++ [Read lba]). split_and!; [done|by eexists|]. rewrite length_app. simpl. lia. }
  all: exists q; split_and!; [rewrite <-Hq|done|lia].
  - by eapply keeps_read_start.
  - by eapply keeps_write_start.
  - by eapply keeps_read_poll.
  - by eapply keeps_write_poll.
  - unfold init in Heq. destruct (initialized self); [by injection Heq as <- <-|].
    unfold statics, mbind, io_bind, get, mret, io_ret in Heq. unfold queue_of in Hq.
    rewrite Hq in Heq. by injection Heq as <- <-.
  - by eapply keeps_interrupt.
Qed.

(** C35. Nothing takes requests out of the driver's queue: through any sequence of
    driver operations the queue only grows, so that after 32 requests every
    read_sector fails with the queue-full error. *)
Theorem request_queue_never_drained (s s' : Sys D) q lba :
  queue_of s = Some q → rtc driver_step s s' →
  ∃ q', queue_of s' = Some q' ∧ q `prefix_of` q' ∧
    (length q = QUEUE_CAPACITY → read_sector lba s' = (s', Err "ATA request queue full")).
Proof.
  intros Hq Hsteps. revert q Hq. induction Hsteps as [s|s s1 s' Hstep _ IH]; intros q Hq.
  - exists q. split_and!; [done..|]. intros Hlen.
    unfold read_sector, statics, mbind, io_bind, get, mret, io_ret. unfold queue_of in Hq.
    by rewrite Hq, decide_True by lia.
  - destruct (driver_step_queue s s1 q Hstep Hq) as (q1 & Hq1 & Hp & Hlen1).
    destruct (IH q1 Hq1) as (q' & Hq' & Hp' & Hfull).
    exists q'. split_and!; [done|by etrans|]. intros Hlen. apply Hfull.
    apply prefix_length in Hp. lia.
Qed.

(** ** Writes *)

(** [n] reads of the data port. *)
Fixpoint read_words (n : nat) (d : D) : D * list Z :=
  match n with
  | O => (d, [])
  | S n =>
    let '(d, w) := inw DATA_PORT d in
    let '(d, ws) := read_words n d in
    (d, w :: ws)
  end.

(** The two bytes of a word, stored by the loop of a read. *)
Lemma take_two_bytes i w (B : list Z) :
  (i * 2 + 1 < length B)%nat →
  take (S i * 2) (<[(i * 2 + 1)%nat := wrap 8 (Z.shiftr w 8)]> (<[(i * 2)%nat := Z.land w 0xFF]> B)) =
    take (i * 2) B ++ to_le_bytes 2 w.
Proof.
  intros Hi. change 0xFF with (2 ^ 8 - 1).
  rewrite land_low_bits, Z.shiftr_div_pow2 by lia. change (2 ^ 8) with 256.
  replace (S i * 2)%nat with (S (i * 2 + 1)) by lia.
  rewrite (take_S_r _ _ (wrap 8 (w / 256)));
    [|rewrite list_lookup_insert_eq; [done|by rewrite length_insert]].
  rewrite take_insert_ge by lia. replace (i * 2 + 1)%nat with (S (i * 2)) by lia.
  rewrite (take_S_r _ _ (w mod 256)) by (apply list_lookup_insert_eq; lia).
  by rewrite take_insert_ge, <-!app_assoc by lia.
Qed.

(** What the loop of a read does, whatever the device sends. *)
Lemma receive_words n i (a : Ata) (d : D) :
  (i + n = 256)%nat → length (SECTOR_BUFFER a) = SECTOR_SIZE →
  for_each (seq i n) receive_word (MkSys a d) =
    (MkSys (set_SECTOR_BUFFER (take (i * 2) (SECTOR_BUFFER a) ++
              ((read_words n d).2 ≫= to_le_bytes 2)) a) (read_words n d).1, Ok tt).
Proof.
  unfold SECTOR_SIZE. revert i a d. induction n as [|n IH]; intros i a d Hi Hb.
  { cbn. rewrite app_nil_r, take_ge by lia. by destruct a. }
  cbn [seq for_each read_words]. unfold mbind at 1, io_bind at 1.
  unfold receive_word at 1, port_read16, statics, update, mbind, io_bind, get, put, lift.
  cbn [dev drv]. destruct (inw DATA_PORT d) as [d1 w]. cbn [dev drv mret io_ret].
  rewrite !idx_total by lia. rewrite IH; [|lia|cbn; by rewrite !length_insert].
  destruct (read_words n d1) as [d2 ws]. cbn [SECTOR_BUFFER set_SECTOR_BUFFER fst snd].
  rewrite (take_two_bytes i w) by lia. by rewrite <-app_assoc.
Qed.

(** An interrupt with DRQ set, without a completed read. *)
Lemma interrupt_reads (a : Ata) (d d' : D) status :
  inb STATUS_COMMAND_PORT d = (d', status) →
  Z.land status STATUS_ERR = 0 → Z.land status STATUS_DRQ ≠ 0 →
  OPERATION_COMPLETE a = false → length (SECTOR_BUFFER a) = SECTOR_SIZE →
  on_primary_ata_interrupt (MkSys a d) =
    (MkSys (wake (set_OPERATION_COMPLETE true
       (set_SECTOR_BUFFER ((read_words 256 d').2 ≫= to_le_bytes 2) a))) (read_words 256 d').1, Ok tt).
Proof.
  intros Hst Herr Hdrq Hoc Hb.
  unfold on_primary_ata_interrupt, port_read, mbind, io_bind, get, put, mret, io_ret.
  cbn [dev drv]. rewrite Hst. rewrite decide_False by (intros Hne; by apply Hne).
  rewrite decide_True by done. unfold statics, update, mbind, io_bind, get, put, mret, io_ret.
  cbn [drv dev]. rewrite Hoc, andb_false_r, receive_words by done. done.
Qed.

Lemma write_sector_start_eq lba data (a : Ata) (d : D) :
  ∃ d', write_sector_start lba data (MkSys a d) =
    (MkSys (set_WRITE_COMPLETE false (set_PENDING_LBA lba (set_SECTOR_WRITE_BUFFER data a)))
       d', Ok tt).
Proof. eexists. reflexivity. Qed.

Lemma poll_write_pending lba w (a : Ata) (d : D) :
  WRITE_COMPLETE a = false →
  SectorWrite_poll lba w (MkSys a d) = (MkSys (register_waker w a) d, Ok None).
Proof.
  intros Hw. unfold SectorWrite_poll, write_done, statics, update, mbind, io_bind, get, put,
    mret, io_ret. cbn [dev drv]. rewrite Hw. cbn [andb dev drv].
  replace (WRITE_COMPLETE (register_waker w a)) with false; [done|].
  unfold register_waker. by destruct (DISK_WAKER a).
Qed.

(** C36. An interrupt that asks for the data of a write is handled as a read:
    after write_sector_async has issued its command, with OPERATION_COMPLETE
    false, as every completed read leaves it, an interrupt with DRQ set sends
    no word to the device; it reads 256 words from the data port into
    SECTOR_BUFFER, sets OPERATION_COMPLETE and leaves WRITE_COMPLETE false, so
    that the poll of the write stays pending. *)
Theorem write_interrupt_handled_as_read w lba data (a : Ata) (d d' : D) status :
  OPERATION_COMPLETE a = false → length (SECTOR_BUFFER a) = SECTOR_SIZE →
  inb STATUS_COMMAND_PORT (dev (write_sector_start lba data (MkSys a d)).1) = (d', status) →
  Z.land status STATUS_ERR = 0 → Z.land status STATUS_DRQ ≠ 0 →
  ∃ a', (_ ← write_sector_start lba data; _ ← on_primary_ata_interrupt; SectorWrite_poll lba w)
          (MkSys a d) = (MkSys a' (read_words 256 d').1, Ok None) ∧
    SECTOR_BUFFER a' = (read_words 256 d').2 ≫= to_le_bytes 2 ∧
    SECTOR_WRITE_BUFFER a' = data ∧ OPERATION_COMPLETE a' = true ∧ WRITE_COMPLETE a' = false.
Proof.
  intros Hoc Hb Hst Herr Hdrq. destruct (write_sector_start_eq lba data a d) as [d1 Hstart].
  rewrite Hstart in Hst. cbn [fst dev] in Hst. unfold mbind, io_bind. rewrite Hstart.
  rewrite (interrupt_reads _ d1 d' status Hst Herr Hdrq) by done.
  set (a1 := wake _). assert (Ha1 : SECTOR_BUFFER a1 = (read_words 256 d').2 ≫= to_le_bytes 2 ∧
    SECTOR_WRITE_BUFFER a1 = data ∧ OPERATION_COMPLETE a1 = true ∧ WRITE_COMPLETE a1 = false).
  { unfold a1, wake. cbn. by destruct (DISK_WAKER a) as [[]|]. }
  destruct Ha1 as (? & ? & ? & Hwc). rewrite poll_write_pending by done.
  exists (register_waker w a1). split; [done|].
  unfold register_waker. by destruct (DISK_WAKER a1).
Qed.

(** A write whose command raises no interrupt is never completed. *)
Theorem write_sector_async_hangs w lba data (s s1 : Sys D) :
  write_sector_start lba data s = (s1, Ok tt) → irq (dev s1) = false →
  (write_sector_async w lba data s).2 = Hang.
Proof.
  intros Hstart Hirq. unfold write_sector_async. unfold mbind at 1, io_bind at 1.
  rewrite Hstart. destruct s as [a d].
  destruct (write_sector_start_eq lba data a d) as [d' Heq]. rewrite Heq in Hstart.
  injection Hstart as <-. unfold AWAIT_FUEL. cbn [await]. unfold mbind at 1, io_bind at 1.
  rewrite poll_write_pending by done. cbn [wait_wake]. unfold mbind, io_bind, get.
  cbn [dev] in *. by rewrite Hirq.
Qed.

(** C37. An interrupt that reports a device error wakes nobody and completes
    nothing: the waker stays registered, no wakeup is recorded and both
    completion flags are cleared, so that the awaiting read stays pending. *)
Theorem interrupt_error_leaves_reader_asleep (a : Ata) (d d' : D) status :
  inb STATUS_COMMAND_PORT d = (d', status) → Z.land status STATUS_ERR ≠ 0 →
  ∃ s', on_primary_ata_interrupt (MkSys a d) = (s', Ok tt) ∧
    OPERATION_COMPLETE (drv s') = false ∧ WRITE_COMPLETE (drv s') = false ∧
    SECTOR_BUFFER (drv s') = SECTOR_BUFFER a ∧
    DISK_WAKER (drv s') = DISK_WAKER a ∧ woken (drv s') = woken a.
Proof.
  intros Hst Herr. destruct (inb ERROR_PORT d') as [d'' e] eqn:He.
  exists (MkSys (set_WRITE_COMPLETE false (set_OPERATION_COMPLETE false a)) d'').
  split; [|done].
  unfold on_primary_ata_interrupt, port_read, update, mbind, io_bind, get, put, mret, io_ret.
  cbn [dev drv]. rewrite Hst. rewrite decide_True by done. cbn [dev drv]. by rewrite He.
Qed.

End queue_theorems.

(** ** Polling while interrupts arrive

    [SectorRead::poll] one atomic access at a time, with the interrupt handler
    running between any two of them. *)

Inductive poll_pc : Type :=
  | PLoadComplete | PLoadLba | PRegister | PReloadComplete | PReloadLba
  | PStore | PCopy | PDone (r : option (list Z)).

Section micro.
Context {D : Type} `{PortDevice D} (lba : Z) (w : Waker).

Inductive poll_step : Sys D * poll_pc → Sys D * poll_pc → Prop :=
  | poll_load_complete s :
      poll_step (s, PLoadComplete)
        (s, if OPERATION_COMPLETE (drv s) then PLoadLba else PRegister)
  | poll_load_lba s :
      poll_step (s, PLoadLba)
        (s, if bool_decide (PENDING_LBA (drv s) = lba) then PStore else PRegister)
  | poll_register s :
      poll_step (s, PRegister)
        (MkSys (register_waker w (drv s)) (dev s), PReloadComplete)
  | poll_reload_complete s :
      poll_step (s, PReloadComplete)
        (s, if OPERATION_COMPLETE (drv s) then PReloadLba else PDone None)
  | poll_reload_lba s :
      poll_step (s, PReloadLba)
        (s, if bool_decide (PENDING_LBA (drv s) = lba) then PStore else PDone None)
  | poll_store s :
      poll_step (s, PStore)
        (MkSys (set_OPERATION_COMPLETE false (drv s)) (dev s), PCopy)
  | poll_copy s :
      poll_step (s, PCopy) (s, PDone (Some (SECTOR_BUFFER (drv s))))
  | poll_interrupt s s' pc :
      on_primary_ata_interrupt s = (s', Ok tt) → poll_step (s, pc) (s', pc).

(** The waker waits in the cell for the next interrupt. *)
Definition registered (a : Ata) : Prop := DISK_WAKER a = Some (Some w).

(** The waker has been woken since the poll began, when [woken] was [w0]. *)
Definition woken_since (w0 : list Waker) (a : Ata) : Prop :=
  ∃ l, woken a = w0 ++ l ∧ w ∈ l.

(** The data transfers leave alone what the buffers and flags are not part of. *)
Lemma keeps_transfer {X} (f : Ata → X) (b : bool) :
  (∀ v a, f (set_SECTOR_BUFFER v a) = f a) →
  (∀ v a, f (set_OPERATION_COMPLETE v a) = f a) →
  (∀ v a, f (set_WRITE_COMPLETE v a) = f a) →
  keeps (D := D) f
    (if b then
       _ ← for_each (seq 0 256) send_word; update (set_WRITE_COMPLETE true)
     else
       _ ← for_each (seq 0 256) receive_word; update (set_OPERATION_COMPLETE true)).
Proof. intros. unfold send_word, receive_word. keeps_steps. Qed.

(** What the handler does to the cell and the flags. *)
Lemma interrupt_effect (s s' : Sys D) :
  on_primary_ata_interrupt s = (s', Ok tt) →
  PENDING_LBA (drv s') = PENDING_LBA (drv s) ∧
  ((DISK_WAKER (drv s') = DISK_WAKER (drv s) ∧ woken (drv s') = woken (drv s) ∧
    (OPERATION_COMPLETE (drv s') = true → OPERATION_COMPLETE (drv s) = true)) ∨
   (DISK_WAKER (drv s) = None ∧ DISK_WAKER (drv s') = None ∧ woken (drv s') = woken (drv s)) ∨
   (∃ o, DISK_WAKER (drv s) = Some o ∧ DISK_WAKER (drv s') = Some None ∧
      woken (drv s') = woken (drv s) ++ option_list o)).
Proof.
  unfold on_primary_ata_interrupt. intros Heq.
  unfold mbind at 1, io_bind at 1 in Heq.
  destruct (port_read STATUS_COMMAND_PORT s) as [s1 [status|?| |]] eqn:Hst; try done.
  assert (drv s1 = drv s) as Hd1 by by apply (keeps_port_read (λ a, a)) in Hst.
  rewrite <-Hd1. clear Hst Hd1 s. case_decide.
  { destruct (inb ERROR_PORT (dev s1)) as [d e] eqn:He.
    unfold port_read, update, mbind, io_bind, get, put, mret, io_ret in Heq.
    rewrite He in Heq. injection Heq as <-. split; [done|]. by left. }
  case_decide; [|injection Heq as <-; split; [done|]; by left].
  unfold statics, mbind at 1 2, io_bind at 1 2, get at 1, mret at 1, io_ret at 1 in Heq.
  cbn [drv] in Heq. unfold mbind at 1, io_bind at 1 in Heq.
  match type of Heq with
  | (let (_, _) := ?m s1 in _) = _ => destruct (m s1) as [s2 [[]|?| |]] eqn:Htr; try done
  end.
  assert ((PENDING_LBA (drv s2), DISK_WAKER (drv s2), woken (drv s2)) =
    (PENDING_LBA (drv s1), DISK_WAKER (drv s1), woken (drv s1))) as [= Hp Hw Hwk].
  { revert Htr. apply (keeps_transfer (λ a, (PENDING_LBA a, DISK_WAKER a, woken a))); done. }
  injection Heq as <-. cbn [drv]. unfold wake. rewrite <-Hw, <-Hwk, <-Hp.
  destruct (DISK_WAKER (drv s2)) as [o|] eqn:Ho.
  - split; [by destruct o|]. right; right. exists o. destruct o; cbn; [done|].
    by rewrite app_nil_r.
  - split; [done|]. right; left. done.
Qed.

Definition armed (w0 : list Waker) (a : Ata) : Prop := registered a ∨ woken_since w0 a.

(** The invariant of a poll that began with [woken] equal to [w0]. *)
Definition poll_inv (w0 : list Waker) (x : Sys D * poll_pc) : Prop :=
  let a := drv x.1 in
  DISK_WAKER a ≠ None ∧ (∃ l, woken a = w0 ++ l) ∧
  match x.2 with
  | PReloadComplete | PReloadLba => armed w0 a
  | PDone None => armed w0 a ∧ (read_done lba a = true → woken_since w0 a)
  | _ => True
  end.

(** An interrupt keeps the waker armed; one that completes a transfer wakes it. *)
Lemma interrupt_armed w0 (s s' : Sys D) :
  DISK_WAKER (drv s) ≠ None → (∃ l, woken (drv s) = w0 ++ l) →
  on_primary_ata_interrupt s = (s', Ok tt) →
  DISK_WAKER (drv s') ≠ None ∧ (∃ l, woken (drv s') = w0 ++ l) ∧
  (armed w0 (drv s) → armed w0 (drv s')) ∧
  (armed w0 (drv s) → read_done lba (drv s') = true →
   woken_since w0 (drv s') ∨
   (read_done lba (drv s) = true ∧ (woken_since w0 (drv s) → woken_since w0 (drv s')))).
Proof.
  intros Hn [l Hl] Hint. destruct (interrupt_effect s s' Hint) as [Hp Heff].
  unfold armed, registered, woken_since, read_done. rewrite Hp.
  destruct Heff as [(Hw & Hk & Ho)|[(Hw & _)|(o & Hw & Hw' & Hk)]]; [|done|].
  - rewrite Hw, Hk. split_and!; [done|by exists l|done|].
    intros _ [Hc Hd]%andb_prop. right. rewrite (Ho Hc), Hd. done.
  - assert (registered (drv s) ∨ woken_since w0 (drv s) → woken_since w0 (drv s')) as Harm.
    { unfold registered, woken_since. intros [Hr|(l' & Hl' & Hin)].
      - rewrite Hw in Hr. injection Hr as ->. exists (l ++ [w]).
        rewrite Hk, Hl, <-app_assoc. split; [done|]. apply elem_of_app. right. by left.
      - exists (l' ++ option_list o). rewrite Hk, Hl', <-app_assoc. split; [done|].
        apply elem_of_app. by left. }
    split_and!; [by rewrite Hw'|exists (l ++ option_list o); by rewrite Hk, Hl, <-app_assoc|..].
    + intros Ha. right. by apply Harm.
    + intros Ha _. left. by apply Harm.
Qed.

Lemma poll_step_inv w0 x x' : poll_inv w0 x → poll_step x x' → poll_inv w0 x'.
Proof.
  intros (Hn & Hl & Hpc) Hstep.
  destruct Hstep as [s|s|s|s|s|s|s|s s' pc Hint]; unfold poll_inv; cbn [fst snd drv] in *.
  - split_and!; [done..|]. by destruct (OPERATION_COMPLETE (drv s)).
  - split_and!; [done..|]. by case_bool_decide.
  - unfold armed, registered, register_waker. destruct (DISK_WAKER (drv s)); [|done].
    split_and!; [done..|]. by left.
  - split_and!; [done..|]. destruct (OPERATION_COMPLETE (drv s)) eqn:Ho; [done|].
    split; [done|]. unfold read_done. by rewrite Ho.
  - split_and!; [done..|]. case_bool_decide as Hd; [done|].
    split; [done|]. unfold read_done. rewrite bool_decide_false by done.
    by rewrite andb_false_r.
  - by split_and!.
  - by split_and!.
  - destruct (interrupt_armed w0 s s' Hn Hl Hint) as (Hn' & Hl' & Harm & Hdone).
    split_and!; [done..|]. destruct pc as [| | | | | | |[r|]]; auto.
    destruct Hpc as [Ha Hw]. split; [auto|]. intros Hr.
    destruct (Hdone Ha Hr) as [?|[? ?]]; auto.
Qed.

(** C16. No wakeup is lost: with the interrupt handler running between any two
    atomic accesses of SectorRead::poll, a poll that ends pending has its
    waker registered or already woken, and already woken if the sector is
    there. *)
Theorem poll_no_lost_wakeup (s0 s : Sys D) :
  DISK_WAKER (drv s0) ≠ None →
  rtc poll_step (s0, PLoadComplete) (s, PDone None) →
  (registered (drv s) ∨ woken_since (woken (drv s0)) (drv s)) ∧
  (read_done lba (drv s) = true → woken_since (woken (drv s0)) (drv s)).
Proof.
  intros Hn Hsteps.
  assert (∀ x y, rtc poll_step x y → poll_inv (woken (drv s0)) x →
    poll_inv (woken (drv s0)) y) as Hinv.
  { induction 1 as [|x y z Hxy _ IH]; [done|]. intros Hx. apply IH.
    by eapply poll_step_inv. }
  apply (Hinv _ _ Hsteps). split_and!; [done|by exists []; rewrite app_nil_r|done].
Qed.

(** The atomic accesses of [poll_step] compose to [SectorRead_poll]. *)
Theorem poll_steps_cover_poll (s s' : Sys D) r :
  SectorRead_poll lba w s = (s', Ok r) → rtc poll_step (s, PLoadComplete) (s', PDone r).
Proof.
  assert (∀ s, read_done lba (drv s) = true →
    rtc poll_step (s, PStore)
      (MkSys (set_OPERATION_COMPLETE false (drv s)) (dev s), PDone (Some (SECTOR_BUFFER (drv s)))))
    as Htake.
  { intros x _. eapply rtc_l; [apply poll_store|]. eapply rtc_l; [apply poll_copy|]. done. }
  unfold SectorRead_poll, statics, update, mbind, io_bind, get, put, mret, io_ret.
  cbn [drv dev]. destruct (read_done lba (drv s)) eqn:Hd.
  { intros [= <- <-]. pose proof Hd as [Hc Hl]%andb_prop.
    eapply rtc_l; [apply poll_load_complete|]. rewrite Hc.
    eapply rtc_l; [apply poll_load_lba|]. rewrite Hl. by apply Htake. }
  cbn [drv dev]. intros Heq.
  trans (MkSys (register_waker w (drv s)) (dev s), PReloadComplete).
  { eapply rtc_l; [apply poll_load_complete|].
    destruct (OPERATION_COMPLETE (drv s)) eqn:Hc.
    - eapply rtc_l; [apply poll_load_lba|]. unfold read_done in Hd. rewrite Hc in Hd.
      cbn in Hd. rewrite Hd. apply rtc_once, poll_register.
    - apply rtc_once, poll_register. }
  set (s1 := MkSys (register_waker w (drv s)) (dev s)) in *.
  eapply rtc_l; [apply poll_reload_complete|].
  destruct (read_done lba (register_waker w (drv s))) eqn:Hd1.
  - injection Heq as <- <-. pose proof Hd1 as [Hc Hl]%andb_prop. cbn [drv s1]. rewrite Hc.
    eapply rtc_l; [apply poll_reload_lba|]. cbn [drv s1]. rewrite Hl. by apply (Htake s1).
  - injection Heq as <- <-. unfold read_done in Hd1. cbn [drv s1].
    destruct (OPERATION_COMPLETE (register_waker w (drv s))); [|done].
    cbn in Hd1. eapply rtc_l; [apply poll_reload_lba|]. cbn [drv s1]. by rewrite Hd1.
Qed.

End micro.

(** ** Theorems on reads *)

(** C34. The command sequence selects the slave drive in LBA mode, asks for one
    sector and addresses sector lba mod 2^28, with every register value a
    byte: a 32-bit address of 2^28 or more is silently reduced. *)
Theorem issue_command_addresses_lba28 {D} `{PortDevice D} (a : Ata) (d : D) lba cmd :
  is_u32 lba →
  ∃ tf,
    issue_command lba cmd (MkSys a d) =
      (MkSys a (outb STATUS_COMMAND_PORT cmd (outb DEVICE_PORT (tf_device tf)
        (outb LBA_HIGH_PORT (tf_high tf) (outb LBA_MID_PORT (tf_mid tf)
        (outb LBA_LOW_PORT (tf_low tf) (outb SECTOR_COUNT_PORT (tf_count tf) d)))))), Ok tt) ∧
    tf_count tf = 1 ∧ tf_lba tf = lba mod 2 ^ 28 ∧
    Z.land (tf_device tf) 0x50 = 0x50 ∧
    Forall is_u8 [tf_low tf; tf_mid tf; tf_high tf; tf_device tf].
Proof.
  intros Hlba. exists (lba_taskfile lba). destruct (lba_taskfile_u8 lba) as (? & ? & ? & ?).
  split_and!; [done|done|apply lba_taskfile_lba; width|apply device_val_select|].
  by rewrite !Forall_cons, Forall_nil.
Qed.

(** C13. On an initialised driver and a device that follows the ATA standard for a
    PIO read, read_sector_async completes with the 512 bytes of the requested
    sector, leaves the disk as it was and is ready for the next transfer. *)
Theorem read_sector_async_correct {D} `{AtaDeviceSpec D} w lba (s : Sys D) k :
  ata_repr s k → 0 ≤ lba < dev_sectors →
  runs (read_sector_async w lba) s (Ok (k lba))
    (λ s', ata_repr s' k ∧ OPERATION_COMPLETE (drv s') = false).
Proof.
  intros ([tf Hd] & Hb & Hc) Hlba.
  destruct (read_sector_async_ok w lba s tf k Hd Hb Hc Hlba)
    as (s' & tf' & Heq & ? & ? & ? & ? & _).
  exists s'. split; [done|]. split; [|done]. split; [by exists tf'|done].
Qed.
