(* ===== verification/Drive.v ===== *)
(** * A concrete ATA drive

    A slave drive that follows the standard for the two commands the driver
    issues: a PIO read raises the interrupt when data is ready; a PIO write
    asks for data without an interrupt and raises one when the sector has been
    stored.  It shows that [AtaDeviceSpec] can hold, and runs the driver on
    concrete input. *)

From S2P Require Import Prelude Ata.

Module Drive.

(** [d_out]: words left to deliver; [d_in]: address and words received of a
    write in progress. *)
Record t : Type := Mk {
  d_sectors : gmap Z (list Z);
  d_tf : taskfile;
  d_out : list Z;
  d_in : option (Z * list Z);
  d_irq : bool;
}.

Definition zero_sector : list Z := replicate 512 0.

Definition read_lba (d : t) (lba : Z) : list Z := default zero_sector (d_sectors d !! lba).

(** The size of the disk image of the tests, in sectors. *)
Definition size : Z := 20480.

Definition selected (tf : taskfile) : bool :=
  bool_decide (tf_count tf = 1) && bool_decide (Z.land (tf_device tf) 0x50 = 0x50) &&
  bool_decide (0 ≤ tf_lba tf < size).

Definition set_tf (d : t) (tf : taskfile) : t :=
  Mk (d_sectors d) tf (d_out d) (d_in d) (d_irq d).

Definition drive_outb (port v : Z) (d : t) : t :=
  let tf := d_tf d in
  if decide (port = SECTOR_COUNT_PORT) then
    set_tf d (MkTF v (tf_low tf) (tf_mid tf) (tf_high tf) (tf_device tf))
  else if decide (port = LBA_LOW_PORT) then
    set_tf d (MkTF (tf_count tf) v (tf_mid tf) (tf_high tf) (tf_device tf))
  else if decide (port = LBA_MID_PORT) then
    set_tf d (MkTF (tf_count tf) (tf_low tf) v (tf_high tf) (tf_device tf))
  else if decide (port = LBA_HIGH_PORT) then
    set_tf d (MkTF (tf_count tf) (tf_low tf) (tf_mid tf) v (tf_device tf))
  else if decide (port = DEVICE_PORT) then
    set_tf d (MkTF (tf_count tf) (tf_low tf) (tf_mid tf) (tf_high tf) v)
  else if decide (port = STATUS_COMMAND_PORT) then
    if selected tf then
      if decide (v = CMD_READ_SECTORS) then
        Mk (d_sectors d) tf (word_at (read_lba d (tf_lba tf)) <$> seq 0 256) None true
      else if decide (v = CMD_WRITE_SECTORS) then
        Mk (d_sectors d) tf [] (Some (tf_lba tf, [])) false
      else d
    else d
  else d.

(** Reading the status register acknowledges the interrupt. *)
Definition drive_inb (port : Z) (d : t) : t * Z :=
  if decide (port = STATUS_COMMAND_PORT) then
    (Mk (d_sectors d) (d_tf d) (d_out d) (d_in d) false,
     if decide (d_out d = [] ∧ d_in d = None) then 0x50 else 0x58)
  else (d, 0).

Definition drive_inw (port : Z) (d : t) : t * Z :=
  match d_out d with
  | w :: ws => (Mk (d_sectors d) (d_tf d) ws (d_in d) (d_irq d), w)
  | [] => (d, 0)
  end.

Definition bytes_of (ws : list Z) : list Z := ws ≫= to_le_bytes 2.

Definition drive_outw (port v : Z) (d : t) : t :=
  match d_in d with
  | Some (lba, ws) =>
    if decide (length ws = 255%nat) then
      Mk (<[lba := bytes_of (ws ++ [v])]> (d_sectors d)) (d_tf d) [] None true
    else Mk (d_sectors d) (d_tf d) (d_out d) (Some (lba, ws ++ [v])) (d_irq d)
  | None => d
  end.

#[export] Instance drive_ports : PortDevice t := {|
  inb := drive_inb; outb := drive_outb; inw := drive_inw; outw := drive_outw; irq := d_irq;
|}.

Definition holds (d : t) (k : disk) : Prop := disk_ok k ∧ ∀ lba, k lba = read_lba d lba.

Definition regs_ok (tf : taskfile) : Prop :=
  is_u8 (tf_low tf) ∧ is_u8 (tf_mid tf) ∧ is_u8 (tf_high tf).

Definition idle (d : t) (tf : taskfile) (k : disk) : Prop :=
  d_tf d = tf ∧ regs_ok tf ∧ d_out d = [] ∧ d_in d = None ∧ holds d k.

Lemma regs_ok_lba tf : regs_ok tf → 0 ≤ tf_lba tf.
Proof.
  intros (? & ? & ?). unfold tf_lba.
  assert (0 ≤ Z.land (tf_device tf) 0x0F) by (apply Z.land_nonneg; lia). width.
Qed.

(** Setting a register of an idle drive. *)
Ltac set_register := intros d tf k v (<- & (Hl & Hm & Hh) & Ho & Hi & Hk) Hv;
  split_and!; try done; by split_and!.

#[export] Instance drive_spec : AtaDeviceSpec t.
Proof.
  refine {| dev_idle := idle;
    dev_data_in d k ws := d_out d = ws ∧ d_in d = None ∧ regs_ok (d_tf d) ∧ holds d k;
    dev_sectors := size |}.
  - done.
  - by intros d tf k (_ & _ & _ & _ & Hk & _).
  - set_register.
  - set_register.
  - set_register.
  - set_register.
  - set_register.
  - by intros d tf k (<- & Hr & Ho & Hi & Hk).
  - intros d tf k (<- & Hr & Ho & Hi & Hk) Hc Hs Hl. simpl.
    unfold drive_outb. rewrite !decide_False by done. rewrite !decide_True by done.
    assert (selected (d_tf d) = true) as ->.
    { unfold selected. pose proof (regs_ok_lba _ Hr). by rewrite !bool_decide_true. }
    cbn [d_irq d_out d_in d_tf]. split; [done|].
    split_and!; [|done..]. by destruct Hk as [_ ->].
  - intros d k w ws (Ho & Hi & Hr & Hk). simpl. unfold drive_inb.
    rewrite (decide_True (P := STATUS_COMMAND_PORT = STATUS_COMMAND_PORT)) by done.
    rewrite Ho, decide_False by (by intros [??]).
    eexists _, _. split_and!; done.
  - intros d k w ws (Ho & Hi & Hr & Hk). simpl. unfold drive_inw. rewrite Ho.
    eexists. split; [done|]. by split_and!.
  - intros d k (Ho & Hi & Hr & Hk). exists (d_tf d). by split_and!.
Defined.

(** A drive whose sector 1 counts up from zero. *)
Definition counting_sector : list Z := (λ i, Z.of_nat i mod 256) <$> seq 0 512.

Definition sample : t := Mk {[1 := counting_sector]} (MkTF 0 0 0 0 0) [] None false.

Definition sample_sys : Sys t := MkSys (set_DISK_WAKER (Some None) ata_init) sample.

Definition sample_disk : disk := read_lba sample.

Lemma sample_repr : ata_repr sample_sys sample_disk.
Proof.
  split; [|by split; [|eexists]]. exists (MkTF 0 0 0 0 0). split_and!; try done. split; [|done].
  intros lba. unfold sample_disk, read_lba, sample. cbn [d_sectors].
  destruct (decide (lba = 1)) as [->|Hne].
  - rewrite lookup_singleton_eq. split; [done|].
    apply (bool_decide_unpack _). vm_compute. done.
  - rewrite lookup_singleton_ne by done. split; [done|].
    apply (bool_decide_unpack _). vm_compute. done.
Qed.

(** ** Witnesses for the theorems of [Ata] *)

Lemma read_sector_async_correct_witness :
  ∃ s', read_sector_async 7 1 sample_sys = (s', Ok counting_sector).
Proof.
  destruct (read_sector_async_correct 7 1 sample_sys sample_disk sample_repr)
    as (s' & Heq & _); [done|]. exists s'. rewrite Heq. by vm_compute.
Defined.

Lemma issue_command_addresses_lba28_witness :
  ∃ tf, tf_lba tf = 0x0BCDEF01.
Proof.
  destruct (issue_command_addresses_lba28 ata_init sample 0xABCDEF01 CMD_READ_SECTORS)
    as (tf & _ & _ & Htf & _); [done|]. exists tf. by rewrite Htf.
Defined.

(** The interrupt line stays low after a WRITE command, so the future is never
    woken. *)
Lemma write_sector_async_hangs_witness :
  (write_sector_async 7 1 counting_sector sample_sys).2 = Hang.
Proof.
  apply (write_sector_async_hangs 7 1 counting_sector sample_sys
    (write_sector_start 1 counting_sector sample_sys).1); [|done].
  unfold sample_sys. by destruct (write_sector_start_eq 1 counting_sector (set_DISK_WAKER (Some None) ata_init) sample) as [d' ->].
Defined.

(** An interrupt that finds the drive waiting for the data of a write. *)
Lemma write_interrupt_handled_as_read_witness :
  ∃ s', (_ ← write_sector_start 1 counting_sector; _ ← on_primary_ata_interrupt; SectorWrite_poll 1 7)
          sample_sys = (s', Ok None) ∧
    OPERATION_COMPLETE (drv s') = true ∧ WRITE_COMPLETE (drv s') = false.
Proof.
  destruct (write_interrupt_handled_as_read 7 1 counting_sector (drv sample_sys) sample
    (inb STATUS_COMMAND_PORT (dev (write_sector_start 1 counting_sector sample_sys).1)).1 0x58)
    as (a' & Heq & _ & _ & Hoc & Hwc); [done|done|by vm_compute|done|done|].
  eexists. split; [exact Heq|]. by split.
Defined.

(** A drive that reports an error. *)
Definition failing (port : Z) (d : unit) : unit * Z := (tt, 0x51).

Definition failing_ports : PortDevice unit := {|
  inb := failing; outb _ _ d := d; inw _ d := (d, 0); outw _ _ d := d; irq _ := true;
|}.

Lemma interrupt_error_witness :
  ∃ s', @on_primary_ata_interrupt unit failing_ports
          (MkSys (set_DISK_WAKER (Some (Some 7)) ata_init) tt) = (s', Ok tt) ∧
    woken (drv s') = [].
Proof.
  destruct (@interrupt_error_leaves_reader_asleep unit failing_ports
    (set_DISK_WAKER (Some (Some 7)) ata_init) tt tt 0x51 eq_refl ltac:(done))
    as (s' & Heq & _ & _ & _ & _ & Hw). by exists s'.
Defined.

Lemma request_queue_witness :
  ∃ s', (∃ q, queue_of s' = Some q) ∧
    read_sector 33 s' = (s', Err "ATA request queue full") ∧
    rtc driver_step
      (MkSys (set_DISK_REQUEST_QUEUE (Some (replicate 32 (Read 0))) ata_init) sample) s'.
Proof.
  pose (s := MkSys (set_DISK_REQUEST_QUEUE (Some (replicate 32 (Read 0))) ata_init) sample).
  pose (s' := (SectorRead_poll 0 7 s).1).
  assert (rtc driver_step s s') as Hsteps
    by (apply rtc_once; eapply (step_read_poll 0 7); by vm_compute).
  destruct (request_queue_never_drained s s' (replicate 32 (Read 0)) 33 eq_refl Hsteps)
    as (q' & Hq' & _ & Hfull). exists s'. split_and!; [by exists q'|by apply Hfull|done].
Defined.

Definition ready_sys : Sys t :=
  MkSys (set_DISK_WAKER (Some None) ata_init) sample.

Lemma poll_no_lost_wakeup_witness :
  ∃ s, rtc (poll_step 1 7) (ready_sys, PLoadComplete) (s, PDone None) ∧ registered 7 (drv s).
Proof.
  pose (s := MkSys (register_waker 7 (drv ready_sys)) sample).
  assert (rtc (poll_step 1 7) (ready_sys, PLoadComplete) (s, PDone None)) as Hsteps.
  { eapply rtc_l; [apply poll_load_complete|]. eapply rtc_l; [apply poll_register|].
    eapply rtc_l; [apply poll_reload_complete|]. done. }
  exists s. split; [done|].
  destruct (poll_no_lost_wakeup 1 7 ready_sys s ltac:(done) Hsteps) as [[?|(l & Hl & Hin)] _];
    [done|]. cbn in Hl. subst l. by apply not_elem_of_nil in Hin.
Defined.

Lemma poll_steps_cover_poll_witness :
  ∃ s, rtc (poll_step 1 7) (ready_sys, PLoadComplete) (s, PDone None).
Proof.
  exists (SectorRead_poll 1 7 ready_sys).1.
  apply (poll_steps_cover_poll 1 7 ready_sys). by vm_compute.
Defined.

End Drive.
