(* ===== verification/Fat32.v ===== *)
(** * The FAT32 file system: operations ([src/fs/fat32.rs])

    The boot sector, directory entries and every operation of [Fat32], over
    the sector interface of [Prelude].  Arithmetic on sector and cluster
    numbers is 32-bit and follows the build profile; array accesses are
    bounds-checked; [?] is the error case of [io]. *)

From S2P Require Import Prelude.

(** ** Boot sector *)

Record BootSector : Type := MkBoot {
  bytes_per_sector : Z;
  sectors_per_cluster : Z;
  reserved_sectors : Z;
  num_fats : Z;
  total_sectors_32 : Z;
  sectors_per_fat_32 : Z;
  root_cluster : Z;
}.

(** ** Directory entries *)

Record DirEntry : Type := MkEntry {
  name : list Z;
  attributes : Z;
  first_cluster : Z;
  file_size : Z;
}.

Definition is_directory (e : DirEntry) : bool :=
  negb (bool_decide (Z.land (attributes e) 0x10 = 0)).

Definition is_valid (e : DirEntry) : bool :=
  negb (bool_decide (name e !!! 0%nat = 0x00)) && negb (bool_decide (name e !!! 0%nat = 0xE5)).

(** The characters of a name field that are neither padding nor NUL. *)
Definition name_chars (bs : list Z) : list Z := filter (λ b, b ≠ 0x20 ∧ b ≠ 0) bs.

(** A string is the list of its characters' code points. *)
Definition get_name (e : DirEntry) : list Z :=
  name_chars (slice 0 8 (name e)) ++ [0x2E] ++ name_chars (slice 8 3 (name e)).

(** [&sector[a..a+n]]: panics when out of range. *)
Definition checked_slice (a n : nat) (s : list Z) : outcome (list Z) :=
  if decide (a + n ≤ length s)%nat then Ok (slice a n s) else Panic.

(** The body of [list_directory]'s innermost loop, up to the validity test. *)
Definition parse_entry (sector : list Z) (entry_index : nat) : outcome DirEntry :=
  let offset := (entry_index * 32)%nat in
  name ← checked_slice offset 11 sector;
  attributes ← idx sector (offset + 11);
  low_cluster ← u16_at sector (offset + 26);
  high_cluster ← u16_at sector (offset + 20);
  let first_cluster := Z.lor (wrap 32 (Z.shiftl high_cluster 16)) low_cluster in
  file_size ← u32_at sector (offset + 28);
  Ok (MkEntry name attributes first_cluster file_size).

(** ** Names *)

(** [split('.')] on the bytes of a string; [.] is one byte in UTF-8. *)
Fixpoint split_dot (s : list Z) : list (list Z) :=
  match s with
  | [] => [[]]
  | c :: s =>
    if decide (c = 0x2E) then [] :: split_dot s
    else match split_dot s with
         | p :: ps => (c :: p) :: ps
         | [] => [[c]]
         end
  end.

(** [n] bytes of [s], padded with spaces. *)
Definition pad_field (n : nat) (s : list Z) : list Z :=
  take n s ++ replicate (n - length s) 0x20.

Definition create_dir_entry (nm : list Z) (first_cluster file_size : Z) : list Z :=
  let parts := split_dot nm in
  let base_name := default [] (parts !! 0%nat) in
  let ext := default [] (parts !! 1%nat) in
  let entry := replicate 32 0 in
  let entry := list_inserts 0 (pad_field 8 base_name) entry in
  let entry := list_inserts 8 (pad_field 3 ext) entry in
  let entry := <[11%nat := 0x20]> entry in
  let high_cluster := Z.land (Z.shiftr first_cluster 16) 0xFFFF in
  let entry := list_inserts 20 (to_le_bytes 2 high_cluster) entry in
  let low_cluster := Z.land first_cluster 0xFFFF in
  let entry := list_inserts 26 (to_le_bytes 2 low_cluster) entry in
  list_inserts 28 (to_le_bytes 4 file_size) entry.

(** [data.chunks(n)] *)
Fixpoint chunks_fuel (fuel n : nat) (data : list Z) : list (list Z) :=
  match fuel, data with
  | S fuel, _ :: _ => take n data :: chunks_fuel fuel n (drop n data)
  | _, _ => []
  end.

Definition chunks (n : nat) (data : list Z) : list (list Z) :=
  chunks_fuel (length data) n data.

Definition EOC_MIN : Z := 0x0FFFFFF8.

(** [MAX_ITERATIONS] of [follow_cluster_chain]. *)
Definition MAX_ITERATIONS : nat := Z.to_nat 10000.

Section ops.
Context {S : Type} `{SectorIO S} `{Profile}.

Definition BootSector_read : io S BootSector :=
  sector ← sector_read 0;
  s510 ← lift (idx sector 510);
  s511 ← lift (idx sector 511);
  if decide (s510 ≠ 0x55 ∨ s511 ≠ 0xAA) then io_err "Invalid FAT32 boot signature"
  else
    bytes_per_sector ← lift (u16_at sector 0x0B);
    sectors_per_cluster ← lift (idx sector 0x0D);
    reserved_sectors ← lift (u16_at sector 0x0E);
    num_fats ← lift (idx sector 0x10);
    total_sectors_32 ← lift (u32_at sector 0x20);
    sectors_per_fat_32 ← lift (u32_at sector 0x24);
    root_cluster ← lift (u32_at sector 0x2C);
    mret (MkBoot bytes_per_sector sectors_per_cluster reserved_sectors num_fats
            total_sectors_32 sectors_per_fat_32 root_cluster).

Definition fat_start_sector (b : BootSector) : Z := reserved_sectors b.

Definition data_start_sector (b : BootSector) : outcome Z :=
  n ← mul_w 32 (num_fats b) (sectors_per_fat_32 b);
  add_w 32 (reserved_sectors b) n.

Definition cluster_to_sector (b : BootSector) (cluster : Z) : outcome Z :=
  d ← data_start_sector b;
  c ← sub_w 32 cluster 2;
  n ← mul_w 32 c (sectors_per_cluster b);
  add_w 32 d n.

(** The file system handle; [Fat32::new] parses the boot sector. *)
Record Fat32 : Type := MkFat32 { boot_sector : BootSector }.

Definition Fat32_new : io S Fat32 := b ← BootSector_read; mret (MkFat32 b).

Section methods.
Context (fs : Fat32).
Let b : BootSector := boot_sector fs.

(** The sector of the first FAT that holds a cluster's entry, and the entry's
    offset in it. *)
Definition fat_location (cluster : Z) : outcome (Z * nat) :=
  fat_entry_offset ← mul_w 64 cluster 4;
  let fat_sector_index := fat_entry_offset / 512 in
  let fat_offset := fat_entry_offset mod 512 in
  n ← add_w 32 (fat_start_sector b) (wrap 32 fat_sector_index);
  Ok (n, Z.to_nat fat_offset).

(** The loop of [follow_cluster_chain] with [n] iterations left. *)
Fixpoint follow_loop (n : nat) (current : Z) (clusters : list Z) : io S (list Z) :=
  match n with
  | O => io_err "Cluster chain too long or infinite loop"
  | Datatypes.S n =>
    let clusters := clusters ++ [current] in
    '(fat_sector_number, fat_offset) ← lift (fat_location current);
    fat_data ← sector_read fat_sector_number;
    next_cluster ← lift (u32_at fat_data fat_offset);
    if decide (next_cluster >= EOC_MIN) then mret clusters
    else follow_loop n next_cluster clusters
  end.

Definition follow_cluster_chain (start_cluster : Z) : io S (list Z) :=
  follow_loop MAX_ITERATIONS start_cluster [].

(** [for i in 0..self.boot_sector.sectors_per_cluster] *)
Definition sector_range : list Z := seqZ 0 (sectors_per_cluster b).

Definition read_file (entry : DirEntry) : io S (list Z) :=
  clusters ← follow_cluster_chain (first_cluster entry);
  data ← fold_io (λ data cluster,
      cluster_sector ← lift (cluster_to_sector b cluster);
      fold_io (λ data i,
          n ← lift (add_w 32 cluster_sector i);
          sector ← sector_read n;
          mret (data ++ sector))
        data sector_range)
    [] clusters;
  mret (take (Z.to_nat (file_size entry)) data).

Definition list_directory (cluster : Z) : io S (list DirEntry) :=
  clusters ← follow_cluster_chain cluster;
  fold_io (λ entries cluster_num,
      cluster_sector ← lift (cluster_to_sector b cluster_num);
      fold_io (λ entries sector_offset,
          n ← lift (add_w 32 cluster_sector sector_offset);
          sector ← sector_read n;
          fold_io (λ entries entry_index,
              entry ← lift (parse_entry sector entry_index);
              mret (if is_valid entry then entries ++ [entry] else entries))
            entries (seq 0 16))
        entries sector_range)
    [] clusters.

Definition list_root_directory : io S (list DirEntry) := list_directory (root_cluster b).

(** One FAT sector of [find_free_cluster]: [offsets] are left to try. *)
Fixpoint scan_fat_sector (fat_data : list Z) (fat_sector_idx : Z) (offsets : list nat) :
    outcome (option Z) :=
  match offsets with
  | [] => Ok None
  | offset :: offsets =>
    cluster_value ← u32_at fat_data offset;
    if decide (cluster_value = 0) then
      base ← mul_w 32 fat_sector_idx 512;
      sum ← add_w 32 base (Z.of_nat offset);
      let cluster_index := sum / 4 in
      if decide (cluster_index >= 2) then Ok (Some cluster_index)
      else scan_fat_sector fat_data fat_sector_idx offsets
    else scan_fat_sector fat_data fat_sector_idx offsets
  end.

(** [(0..512).step_by(4)] *)
Definition fat_offsets : list nat := (λ i, i * 4)%nat <$> seq 0 128.

Fixpoint scan_fat (fat_sectors : list Z) : io S Z :=
  match fat_sectors with
  | [] => io_err "No free clusters available"
  | fat_sector_idx :: fat_sectors =>
    fat_sector_number ← lift (add_w 32 (fat_start_sector b) fat_sector_idx);
    fat_data ← sector_read fat_sector_number;
    found ← lift (scan_fat_sector fat_data fat_sector_idx fat_offsets);
    match found with
    | Some cluster_index => mret cluster_index
    | None => scan_fat fat_sectors
    end
  end.

Definition find_free_cluster : io S Z := scan_fat (seqZ 0 (sectors_per_fat_32 b)).

(** The four assignments to [fat_data]. *)
Definition put_u32 (fat_data : list Z) (fat_offset : nat) (value : Z) : outcome (list Z) :=
  if decide (fat_offset + 4 ≤ length fat_data)%nat
  then Ok (list_inserts fat_offset (to_le_bytes 4 value) fat_data)
  else Panic.

Definition set_fat_entry (cluster value : Z) : io S unit :=
  '(fat_sector_number, fat_offset) ← lift (fat_location cluster);
  fat_data ← sector_read fat_sector_number;
  fat_data ← lift (put_u32 fat_data fat_offset value);
  _ ← sector_write fat_sector_number fat_data;
  if decide (num_fats b > 1) then
    backup_fat_sector ← lift (add_w 32 fat_sector_number (sectors_per_fat_32 b));
    sector_write backup_fat_sector fat_data
  else mret tt.

Definition allocate_cluster (previous_cluster next_cluster : option Z) : io S Z :=
  new_cluster ← find_free_cluster;
  _ ← (match previous_cluster with
       | Some prev => set_fat_entry prev new_cluster
       | None => mret tt
       end);
  _ ← (match next_cluster with
       | None => set_fat_entry new_cluster 0x0FFFFFF8
       | Some next => set_fat_entry new_cluster next
       end);
  mret new_cluster.

(** A directory slot is free when its first byte is 0x00 or 0xE5. *)
Fixpoint find_slot (sector : list Z) (slots : list nat) : outcome (option nat) :=
  match slots with
  | [] => Ok None
  | entry_index :: slots =>
    c ← idx sector (entry_index * 32);
    if decide (c = 0x00 ∨ c = 0xE5) then Ok (Some entry_index)
    else find_slot sector slots
  end.

(** The sectors of one directory cluster; returns whether the entry has been
    written. *)
Fixpoint write_in_sectors (cluster_sector : Z) (entry : list Z) (offsets : list Z) :
    io S bool :=
  match offsets with
  | [] => mret false
  | sector_offset :: offsets =>
    n ← lift (add_w 32 cluster_sector sector_offset);
    sector ← sector_read n;
    slot ← lift (find_slot sector (seq 0 16));
    match slot with
    | Some entry_index =>
      new_sector ← lift (
        if decide (entry_index * 32 + 32 ≤ length sector)%nat
        then Ok (list_inserts (entry_index * 32) entry sector) else Panic);
      m ← lift (add_w 32 cluster_sector sector_offset);
      _ ← sector_write m new_sector;
      mret true
    | None => write_in_sectors cluster_sector entry offsets
    end
  end.

Fixpoint write_in_clusters (entry : list Z) (clusters : list Z) : io S unit :=
  match clusters with
  | [] => io_err "No free directory entries available"
  | cluster_num :: clusters =>
    cluster_sector ← lift (cluster_to_sector b cluster_num);
    found ← write_in_sectors cluster_sector entry sector_range;
    if (found : bool) then mret tt else write_in_clusters entry clusters
  end.

Definition write_dir_entry (directory_cluster : Z) (entry : list Z) : io S unit :=
  clusters ← follow_cluster_chain directory_cluster;
  write_in_clusters entry clusters.

(** The loop body of [create_file]: a cluster for one chunk.  The accumulator
    is [(first_cluster, current_cluster)]. *)
Definition write_chunk (acc : option Z * option Z) (chunk : list Z) :
    io S (option Z * option Z) :=
  let '(first_cluster, current_cluster) := acc in
  new_cluster ← allocate_cluster current_cluster None;
  let first_cluster := match first_cluster with None => Some new_cluster | Some c => Some c end in
  cluster_sector ← lift (cluster_to_sector b new_cluster);
  let sector_data := list_inserts 0 (take 512 chunk) (replicate 512 0) in
  _ ← sector_write cluster_sector sector_data;
  mret (first_cluster, Some new_cluster).

Definition create_file (directory_cluster : Z) (nm data : list Z) : io S unit :=
  if decide (12 < length nm)%nat then io_err "Filename too long"
  else
    let chunk_size := (512 * Z.to_nat (sectors_per_cluster b))%nat in
    if decide (chunk_size = 0%nat) then lift Panic
    else
      '(first_cluster, _) ← fold_io write_chunk (None, None) (chunks chunk_size data);
      let entry := create_dir_entry nm (default 0 first_cluster)
                     (wrap 32 (Z.of_nat (length data))) in
      write_dir_entry directory_cluster entry.

End methods.
End ops.
