(* ===== verification/Fat32Spec.v ===== *)
(** * FAT32: what is on the disk, and the read operations

    The abstract view of a volume (its geometry, the FAT as a function, cluster
    chains, directory slots) and the correctness of the boot sector parser, of
    [follow_cluster_chain], [read_file] and [list_directory] against it. *)

From S2P Require Import Prelude Fat32.

(** ** Geometry *)

(** Sector numbers as the on-disk layout defines them. *)
Definition data_start (b : BootSector) : Z :=
  reserved_sectors b + num_fats b * sectors_per_fat_32 b.

Definition cluster_start (b : BootSector) (c : Z) : Z :=
  data_start b + (c - 2) * sectors_per_cluster b.

(** The clusters the FAT has an entry for. *)
Definition in_fat (b : BootSector) (c : Z) : Prop := 0 ≤ c < 128 * sectors_per_fat_32 b.

(** A volume whose clusters [2 .. limit) lie on a device of [count] sectors. *)
Record geometry_ok (b : BootSector) (count limit : Z) : Prop := {
  geo_reserved : 0 < reserved_sectors b < 2 ^ 16;
  geo_fats : 1 ≤ num_fats b < 2 ^ 8;
  geo_cluster : 1 ≤ sectors_per_cluster b < 2 ^ 8;
  geo_spf : 1 ≤ sectors_per_fat_32 b ≤ 2 ^ 21;
  geo_limit : 2 ≤ limit ≤ 128 * sectors_per_fat_32 b;
  geo_eoc : limit ≤ EOC_MIN;
  geo_fit : data_start b + (limit - 2) * sectors_per_cluster b ≤ count;
  geo_count : count ≤ 2 ^ 32;
}.

(** ** The FAT as a function, and chains in it *)

(** Entry [c] is the [c mod 128]th word of sector [c / 128] of the FAT. *)
Definition fat_entry (k : disk) (b : BootSector) (c : Z) : Z :=
  le_field (Z.to_nat (4 * (c mod 128))) 4 (k (reserved_sectors b + c / 128)).

Inductive chain (f : Z → Z) : Z → list Z → Prop :=
  | chain_end c : f c >= EOC_MIN → chain f c [c]
  | chain_next c l : ¬ f c >= EOC_MIN → chain f (f c) l → chain f c (c :: l).

(** The clusters a walk of at most [n] steps visits. *)
Fixpoint trail (f : Z → Z) (n : nat) (c : Z) : list Z :=
  match n with
  | O => []
  | S n => c :: if decide (f c >= EOC_MIN) then [] else trail f n (f c)
  end.

Lemma chain_nonempty f c l : chain f c l → ∃ l', l = c :: l'.
Proof. destruct 1; eauto. Qed.

Lemma chain_trail f n c l : chain f c l → (length l ≤ n)%nat → trail f n c = l.
Proof.
  intros Hc. revert n.
  induction Hc as [c Hf|c l Hf _ IH]; intros [|n] Hn; simpl in *; try lia.
  - by rewrite decide_True.
  - rewrite decide_False by done. rewrite IH by lia. done.
Qed.

Lemma chain_det f c l1 l2 : chain f c l1 → chain f c l2 → l1 = l2.
Proof.
  intros H1 H2. pose (n := (length l1 + length l2)%nat).
  rewrite <-(chain_trail f n c l1), <-(chain_trail f n c l2); [done|done| |done|]; unfold n; lia.
Qed.

(** The rest of a chain, from any of its clusters, is a chain. *)
Lemma chain_suffix f c l l1 d l2 : chain f c l → l = l1 ++ d :: l2 → chain f d (d :: l2).
Proof.
  intros Hc. revert l1. induction Hc as [c Hf|c l Hf Hl IH]; intros l1 Heq.
  - destruct l1 as [|? []]; simplify_eq/=. by constructor.
  - destruct l1 as [|x l1]; simplify_eq/=; [by constructor|eauto].
Qed.

Lemma chain_NoDup f c l : chain f c l → NoDup l.
Proof.
  induction 1 as [c Hf|c l Hf Hl IH]; [apply NoDup_singleton|].
  apply NoDup_cons. split; [|done]. intros Hin.
  apply list_elem_of_split in Hin as (l1 & l2 & ->).
  assert (Hs : chain f c (c :: l2)) by by eapply chain_suffix.
  assert (Heq : c :: l2 = c :: l1 ++ c :: l2)
    by (eapply chain_det; [done|by constructor]).
  apply (f_equal length) in Heq. simpl in Heq. rewrite length_app in Heq. simpl in Heq. lia.
Qed.

(** Chains only depend on the FAT entries of their clusters. *)
Lemma chain_ext f g c l : chain f c l → (∀ d, d ∈ l → g d = f d) → chain g c l.
Proof.
  induction 1 as [c Hf|c l Hf Hl IH]; intros Hfg.
  - constructor. rewrite Hfg by set_solver. done.
  - constructor; rewrite Hfg by set_solver; [done|]. apply IH. set_solver.
Qed.

(** ** Geometry lemmas *)

Section geometry.
Context `{Profile} (b : BootSector) (count limit : Z) (Hgeo : geometry_ok b count limit).

Lemma data_start_bound : reserved_sectors b + sectors_per_fat_32 b ≤ data_start b ≤ count.
Proof. destruct Hgeo. unfold data_start in *. nia. Qed.

Lemma data_start_sector_ok : data_start_sector b = Ok (data_start b).
Proof.
  pose proof data_start_bound. destruct Hgeo. unfold data_start_sector, data_start in *.
  unfold mul_w, add_w. rewrite arith_ok by (unfold in_width; nia). simpl.
  apply arith_ok. unfold in_width. nia.
Qed.

(** A sector of a data cluster lies in the data area. *)
Lemma cluster_sector_bound c i :
  2 ≤ c < limit → 0 ≤ i < sectors_per_cluster b →
  data_start b ≤ cluster_start b c + i < count.
Proof. intros. destruct Hgeo. unfold cluster_start. nia. Qed.

Lemma cluster_to_sector_ok c :
  2 ≤ c < limit → cluster_to_sector b c = Ok (cluster_start b c).
Proof.
  intros Hc. pose proof data_start_bound.
  assert (Hb : data_start b ≤ cluster_start b c + 0 < count).
  { apply cluster_sector_bound; [done|]. destruct Hgeo. lia. }
  destruct Hgeo. unfold cluster_to_sector, cluster_start in *.
  rewrite data_start_sector_ok. cbn.
  unfold sub_w, mul_w, add_w. rewrite arith_ok by width. simpl.
  rewrite arith_ok by (unfold in_width; nia). simpl. apply arith_ok. width.
Qed.

(** Sectors of different clusters are different. *)
Lemma cluster_start_inj c i d j :
  0 ≤ i < sectors_per_cluster b → 0 ≤ j < sectors_per_cluster b →
  cluster_start b c + i = cluster_start b d + j → c = d ∧ i = j.
Proof. unfold cluster_start. intros. assert (c = d) by nia. subst. lia. Qed.

Lemma in_fat_sector c :
  in_fat b c → 0 ≤ c / 128 < sectors_per_fat_32 b ∧ 0 ≤ c mod 128 < 128.
Proof.
  unfold in_fat. intros. pose proof (Z.div_mod c 128).
  pose proof (Z.mod_pos_bound c 128). lia.
Qed.

Lemma fat_location_ok c :
  in_fat b c →
  fat_location (MkFat32 b) c =
    Ok (reserved_sectors b + c / 128, Z.to_nat (4 * (c mod 128))).
Proof.
  intros Hc. pose proof (in_fat_sector c Hc). pose proof data_start_bound.
  destruct Hgeo. unfold in_fat in Hc. unfold fat_location, mul_w, add_w. cbn [boot_sector].
  rewrite arith_ok by width. cbn.
  replace (c * 4 / 512) with (c / 128) by
    (change 512 with (128 * 4); by rewrite Z.div_mul_cancel_r by lia).
  replace (c * 4 mod 512) with (4 * (c mod 128)) by
    (change 512 with (128 * 4); rewrite Z.mul_mod_distr_r; lia).
  rewrite wrap_small by width. unfold fat_start_sector. rewrite arith_ok by width. done.
Qed.

End geometry.

Lemma fat_offset_bound c : (Z.to_nat (4 * (c mod 128)) + 4 ≤ 512)%nat.
Proof. pose proof (Z.mod_pos_bound c 128). lia. Qed.

Lemma fat_entry_bound k b c : disk_ok k → is_u32 (fat_entry k b c).
Proof.
  intros Hk. destruct (Hk (reserved_sectors b + c / 128)) as [Hl Hf].
  pose proof (fat_offset_bound c).
  apply (le_field_bound (Z.to_nat (4 * (c mod 128))) 4) in Hf; [done|lia].
Qed.

(** ** Directories and files on the disk *)

Definition cluster_sectors (b : BootSector) (c : Z) : list Z :=
  (λ i, cluster_start b c + i) <$> seqZ 0 (sectors_per_cluster b).

Definition chain_sectors (b : BootSector) (l : list Z) : list Z := l ≫= cluster_sectors b.

(** A 32-byte directory record. *)
Definition decode_entry (r : list Z) : DirEntry :=
  MkEntry (slice 0 11 r) (r !!! 11%nat)
    (2 ^ 16 * le_field 20 2 r + le_field 26 2 r) (le_field 28 4 r).

Definition slot_record (k : disk) (p : Z * nat) : list Z := slice (p.2 * 32) 32 (k p.1).

Definition sector_slots (n : Z) : list (Z * nat) := pair n <$> seq 0 16.

(** The slots of a directory, in order. *)
Definition dir_slots (b : BootSector) (l : list Z) : list (Z * nat) :=
  chain_sectors b l ≫= sector_slots.

Definition dir_entries (k : disk) (b : BootSector) (l : list Z) : list DirEntry :=
  filter is_valid ((decode_entry ∘ slot_record k) <$> dir_slots b l).

(** The valid entries of one sector. *)
Definition sector_entries (d : list Z) : list DirEntry :=
  filter is_valid ((λ i, decode_entry (slice (i * 32) 32 d)) <$> seq 0 16).

Lemma dir_entries_sectors k b l :
  dir_entries k b l = chain_sectors b l ≫= sector_entries ∘ k.
Proof.
  unfold dir_entries, dir_slots. rewrite filter_fmap_bind, bind_assoc.
  apply list_bind_ext; [|done]. intros n. unfold sector_slots. rewrite bind_fmap.
  transitivity (sector_entries (k n)); [|done]. unfold sector_entries. by rewrite filter_fmap_bind.
Qed.

Definition file_bytes (k : disk) (b : BootSector) (l : list Z) : list Z :=
  chain_sectors b l ≫= k.

Lemma slice_slice {A} a n i m (l : list A) :
  (i + m ≤ n)%nat → slice i m (slice a n l) = slice (a + i) m l.
Proof.
  intros. unfold slice. rewrite skipn_firstn_comm, drop_drop, take_take. f_equal. lia.
Qed.

Lemma testbit_high w z m : in_width w z → 0 ≤ w ≤ m → Z.testbit z m = false.
Proof.
  intros [Hz Hw] Hm. destruct (decide (z = 0)) as [->|]; [apply Z.bits_0|].
  apply Z.bits_above_log2; [done|].
  apply Z.lt_le_trans with w; [apply Z.log2_lt_pow2; lia|lia].
Qed.

Lemma lor_shift16 h l : is_u16 h → is_u16 l →
  Z.lor (wrap 32 (Z.shiftl h 16)) l = 2 ^ 16 * h + l.
Proof.
  intros Hh Hl. rewrite wrap_small by (rewrite Z.shiftl_mul_pow2 by lia; width).
  rewrite Z.mul_comm, <-Z.shiftl_mul_pow2 by lia.
  assert (Hd : Z.land (Z.shiftl h 16) l = 0).
  { apply Z.bits_inj'. intros m Hm. rewrite Z.land_spec, Z.bits_0.
    destruct (decide (m < 16)).
    - by rewrite Z.shiftl_spec_low by lia.
    - rewrite (testbit_high 16 l) by (done || lia). apply andb_false_r. }
  by rewrite Z.add_nocarry_lxor, Z.lxor_lor by done.
Qed.

Lemma le_field_u16 o s : Forall is_u8 s → (o + 2 ≤ length s)%nat → is_u16 (le_field o 2 s).
Proof. intros Hs Hl. by apply (le_field_bound o 2 s Hs) in Hl. Qed.

Lemma parse_entry_ok s i :
  sector_ok s → (i < 16)%nat → parse_entry s i = Ok (decode_entry (slice (i * 32) 32 s)).
Proof.
  intros [Hl Hs] Hi. unfold parse_entry, checked_slice. rewrite decide_True by lia.
  cbn. rewrite idx_total by lia. cbn. rewrite !u16_at_ok, u32_at_ok by lia. cbn.
  rewrite lor_shift16 by (apply le_field_u16; [done|lia]).
  unfold decode_entry, le_field. rewrite !slice_slice by lia.
  by rewrite slice_lookup_total, Nat.add_0_r by lia.
Qed.

(** ** Reading *)

Section read.
Context {S : Type} `{SectorReadSpec S} `{Profile}.
Context (b : BootSector) (limit : Z) (Hgeo : geometry_ok b sector_count limit).
Let fs : Fat32 := MkFat32 b.

Definition data_cluster (c : Z) : Prop := 2 ≤ c < limit.

Lemma data_cluster_in_fat c : data_cluster c → in_fat b c.
Proof. unfold data_cluster, in_fat. destruct Hgeo. lia. Qed.

Lemma read_fat_sector s k i :
  disk_repr s k → 0 ≤ i < sectors_per_fat_32 b →
  runs (sector_read (reserved_sectors b + i)) s (Ok (k (reserved_sectors b + i)))
    (λ s', disk_repr s' k).
Proof.
  intros Hr Hi. apply sector_read_spec; [done|].
  pose proof (data_start_bound _ _ _ Hgeo). destruct Hgeo. lia.
Qed.

Lemma u32_at_fat_entry k c :
  disk_ok k →
  u32_at (k (reserved_sectors b + c / 128)) (Z.to_nat (4 * (c mod 128))) =
    Ok (fat_entry k b c).
Proof.
  intros Hk. apply u32_at_ok. destruct (Hk (reserved_sectors b + c / 128)) as [-> _].
  apply fat_offset_bound.
Qed.

(** One iteration of the chain walk. *)
Lemma follow_loop_step s k n c acc o Q :
  disk_repr s k → in_fat b c →
  (∀ s', disk_repr s' k →
    runs (if decide (fat_entry k b c >= EOC_MIN) then mret (acc ++ [c])
          else follow_loop fs n (fat_entry k b c) (acc ++ [c])) s' o Q) →
  runs (follow_loop fs (Datatypes.S n) c acc) s o Q.
Proof.
  intros Hr Hc Hk. cbn [follow_loop]. unfold fs. rewrite (fat_location_ok _ _ _ Hgeo) by done.
  apply runs_bind_lift. destruct (in_fat_sector _ _ Hc) as [Hs _].
  eapply runs_bind; [by apply read_fat_sector|]. intros s' Hs'.
  rewrite u32_at_fat_entry by by eapply disk_repr_ok. by apply runs_bind_lift, Hk.
Qed.

Lemma follow_loop_chain s k n c l acc :
  disk_repr s k → chain (fat_entry k b) c l → Forall (in_fat b) l → (length l ≤ n)%nat →
  runs (follow_loop fs n c acc) s (Ok (acc ++ l)) (λ s', disk_repr s' k).
Proof.
  intros Hr Hc. revert s n acc Hr.
  induction Hc as [c Hf|c l Hf _ IH]; intros s [|n] acc Hr Hall Hn; simpl in Hn; try lia;
    apply Forall_cons in Hall as [Hin Hall]; eapply follow_loop_step; try done;
    intros s' Hs'.
  - rewrite decide_True by done. by apply runs_ret.
  - rewrite decide_False by done. rewrite (cons_middle c acc l), app_assoc.
    apply IH; [done..|lia].
Qed.

(** A walk that never meets an end mark within its bound is an error. *)
Lemma follow_loop_unbounded s k n c acc :
  disk_repr s k → Forall (in_fat b) (trail (fat_entry k b) n c) →
  (∀ l, chain (fat_entry k b) c l → (n < length l)%nat) →
  runs (follow_loop fs n c acc) s (Err "Cluster chain too long or infinite loop")
    (λ s', disk_repr s' k).
Proof.
  revert s c acc. induction n as [|n IH]; intros s c acc Hr Hall Hno.
  - by apply runs_lift.
  - cbn [trail] in Hall. apply Forall_cons in Hall as [Hin Hall].
    eapply follow_loop_step; [done..|]. intros s' Hs'.
    case_decide as Hf.
    + pose proof (Hno [c] (chain_end _ _ Hf)) as Hl. simpl in Hl. lia.
    + apply IH; [done..|]. intros l Hl.
      pose proof (Hno (c :: l) (chain_next _ _ _ Hf Hl)) as Hlen. simpl in Hlen. lia.
Qed.

Lemma follow_cluster_chain_ok s k c l :
  disk_repr s k → chain (fat_entry k b) c l → Forall (in_fat b) l →
  (length l ≤ MAX_ITERATIONS)%nat →
  runs (follow_cluster_chain fs c) s (Ok l) (λ s', disk_repr s' k).
Proof. intros. by apply (follow_loop_chain _ _ _ _ _ []). Qed.

(** The loops over the sectors of the clusters of a chain. *)
Lemma fold_chain_sectors {A} s k l (g : list Z → list A)
    (f : list A → list Z → io S (list A)) acc :
  disk_repr s k → Forall data_cluster l →
  (∀ acc d s, sector_ok d → disk_repr s k →
     runs (f acc d) s (Ok (acc ++ g d)) (λ s', disk_repr s' k)) →
  runs (fold_io (λ acc c,
          cs ← lift (cluster_to_sector b c);
          fold_io (λ acc i, n ← lift (add_w 32 cs i); d ← sector_read n; f acc d)
            acc (sector_range fs)) acc l) s
    (Ok (acc ++ (chain_sectors b l ≫= g ∘ k))) (λ s', disk_repr s' k).
Proof.
  intros Hr Hl Hf. unfold chain_sectors. rewrite bind_assoc. apply fold_io_append; [done|].
  clear s Hr acc. intros acc c s Hc Hs. rewrite Forall_forall in Hl.
  rewrite (cluster_to_sector_ok _ _ _ Hgeo) by by apply Hl. apply runs_bind_lift.
  unfold cluster_sectors. rewrite bind_fmap. apply fold_io_append; [done|].
  clear s Hs acc. intros acc i s Hi Hs. apply elem_of_seqZ in Hi.
  pose proof (cluster_sector_bound _ _ _ Hgeo c i (Hl _ Hc)) as Hb.
  pose proof (data_start_bound _ _ _ Hgeo). pose proof (geo_count _ _ _ Hgeo).
  pose proof (geo_reserved _ _ _ Hgeo). pose proof (geo_spf _ _ _ Hgeo).
  cbn [boot_sector fs] in Hi.
  unfold add_w. rewrite arith_ok by (unfold in_width; lia). apply runs_bind_lift.
  eapply runs_bind; [apply sector_read_spec; [done|lia]|].
  intros s' Hs'. apply Hf; [|done]. by eapply disk_repr_ok.
Qed.

Lemma read_file_ok s k e l :
  disk_repr s k → chain (fat_entry k b) (first_cluster e) l →
  Forall data_cluster l → (length l ≤ MAX_ITERATIONS)%nat →
  runs (read_file fs e) s
    (Ok (take (Z.to_nat (file_size e)) (file_bytes k b l))) (λ s', disk_repr s' k).
Proof.
  intros Hr Hc Hl Hn. unfold read_file.
  eapply runs_bind; [eapply follow_cluster_chain_ok; try done|].
  { eapply Forall_impl; [done|]. apply data_cluster_in_fat. }
  intros s' Hs'. eapply runs_bind.
  - apply (fold_chain_sectors s' k l id (λ acc d, mret (acc ++ d))); [done..|].
    intros. by apply runs_ret.
  - intros s'' Hs''. by apply runs_ret.
Qed.

Definition parse_step (sector : list Z) (entries : list DirEntry) (i : nat) :
    io S (list DirEntry) :=
  e ← lift (parse_entry sector i);
  mret (if is_valid e then entries ++ [e] else entries).

Lemma parse_sector_ok s k d acc :
  sector_ok d → disk_repr s k →
  runs (fold_io (parse_step d) acc (seq 0 16)) s (Ok (acc ++ sector_entries d))
    (λ s', disk_repr s' k).
Proof.
  intros Hd Hs. unfold sector_entries. rewrite filter_fmap_bind.
  apply fold_io_append; [done|]. intros acc' i s' Hi Hs'. apply elem_of_seq in Hi.
  unfold parse_step. rewrite parse_entry_ok by (done || lia). apply runs_bind_lift.
  destruct (is_valid _); [|rewrite app_nil_r]; by apply runs_ret.
Qed.

Lemma list_directory_ok s k c l :
  disk_repr s k → chain (fat_entry k b) c l →
  Forall data_cluster l → (length l ≤ MAX_ITERATIONS)%nat →
  runs (list_directory fs c) s (Ok (dir_entries k b l)) (λ s', disk_repr s' k).
Proof.
  intros Hr Hc Hl Hn. unfold list_directory.
  eapply runs_bind; [eapply follow_cluster_chain_ok; try done|].
  { eapply Forall_impl; [done|]. apply data_cluster_in_fat. }
  intros s' Hs'. rewrite dir_entries_sectors.
  apply (fold_chain_sectors s' k l sector_entries
    (λ acc d, fold_io (parse_step d) acc (seq 0 16)) []); [done..|].
  intros. by apply parse_sector_ok.
Qed.

(** C8. When the clusters it visits, at most 10000, all have their entries inside
    the FAT, follow_cluster_chain returns: the chain of the FAT when that has
    at most 10000 clusters, and the error for a chain that is longer or never
    ends, without changing the disk. *)
Theorem follow_cluster_chain_correct s k c :
  disk_repr s k → Forall (in_fat b) (trail (fat_entry k b) MAX_ITERATIONS c) →
  (∀ l, chain (fat_entry k b) c l → (length l ≤ MAX_ITERATIONS)%nat →
     runs (follow_cluster_chain (MkFat32 b) c) s (Ok l) (λ s', disk_repr s' k)) ∧
  ((∀ l, chain (fat_entry k b) c l → (MAX_ITERATIONS < length l)%nat) →
     runs (follow_cluster_chain (MkFat32 b) c) s
       (Err "Cluster chain too long or infinite loop") (λ s', disk_repr s' k)).
Proof.
  intros Hr Htrail. split; [intros l Hl Hn|intros Hno].
  - apply follow_cluster_chain_ok; try done. by rewrite (chain_trail _ _ _ l) in Htrail.
  - by apply follow_loop_unbounded.
Qed.

(** [list_directory] over any sector interface, and its entries are valid. *)
Theorem list_directory_correct s k c l :
  disk_repr s k → chain (fat_entry k b) c l →
  Forall data_cluster l → (length l ≤ MAX_ITERATIONS)%nat →
  runs (list_directory (MkFat32 b) c) s (Ok (dir_entries k b l)) (λ s', disk_repr s' k) ∧
  Forall is_valid (dir_entries k b l).
Proof.
  intros. split; [by apply list_directory_ok|].
  apply Forall_forall. intros e He. unfold dir_entries in He.
  by apply list_elem_of_filter in He as [He _].
Qed.

End read.

(** ** Mounting *)

(** The fields of a boot sector. *)
Definition decode_boot (d : list Z) : BootSector :=
  MkBoot (le_field 0x0B 2 d) (d !!! 0x0D%nat) (le_field 0x0E 2 d) (d !!! 0x10%nat)
    (le_field 0x20 4 d) (le_field 0x24 4 d) (le_field 0x2C 4 d).

Definition signed (d : list Z) : Prop := d !!! 510%nat = 0x55 ∧ d !!! 511%nat = 0xAA.
#[global] Instance signed_dec d : Decision (signed d).
Proof. unfold signed. apply _. Defined.

Section mount.
Context {S : Type} `{SectorReadSpec S} `{Profile}.

Lemma BootSector_read_ok s k :
  disk_repr s k → 0 < sector_count →
  runs BootSector_read s
    (if decide (signed (k 0)) then Ok (decode_boot (k 0))
     else Err "Invalid FAT32 boot signature") (λ s', disk_repr s' k).
Proof.
  intros Hr Hn. destruct (disk_repr_ok _ _ Hr 0) as [Hlen _]. unfold BootSector_read.
  assert (Hi : ∀ i, (i < 512)%nat → idx (k 0) i = Ok (k 0 !!! i))
    by (intros; apply idx_total; lia).
  eapply runs_bind; [apply sector_read_spec; [done|lia]|]. intros s' Hs'.
  rewrite !Hi by lia. do 2 apply runs_bind_lift.
  destruct (decide (signed (k 0))) as [Hs|Hs]; unfold signed in Hs.
  - rewrite decide_False by (intros [?|?]; by destruct Hs). rewrite !u16_at_ok, !u32_at_ok by lia.
    do 7 apply runs_bind_lift. by apply runs_ret.
  - rewrite decide_True by (destruct (decide (k 0 !!! 510%nat = 0x55)); tauto).
    by apply runs_lift.
Qed.

(** C33. Fat32::new returns the little-endian fields of sector 0 when it carries
    the boot signature 0x55 0xAA and the signature error otherwise. *)
Theorem Fat32_new_correct s k :
  disk_repr s k → 0 < sector_count →
  runs Fat32_new s
    (if decide (signed (k 0)) then Ok (MkFat32 (decode_boot (k 0)))
     else Err "Invalid FAT32 boot signature") (λ s', disk_repr s' k).
Proof.
  intros Hr Hn. pose proof (BootSector_read_ok s k Hr Hn) as Hb. unfold Fat32_new.
  destruct (decide (signed (k 0))); [|by apply runs_bind_err].
  eapply runs_bind; [done|]. intros. by apply runs_ret.
Qed.

(** In a build with overflow checks [read_file] panics on an entry with first
    cluster 0. *)
Lemma read_file_cluster_zero s k b limit e :
  (overflow_checks : bool) = true →
  geometry_ok b sector_count limit → disk_repr s k →
  first_cluster e = 0 → fat_entry k b 0 >= EOC_MIN →
  runs (read_file (MkFat32 b) e) s Panic (λ s', disk_repr s' k).
Proof.
  intros Hdbg Hgeo Hr He Hz. unfold read_file. rewrite He.
  eapply runs_bind.
  { apply (follow_cluster_chain_ok b limit Hgeo s k 0 [0]); [done|by constructor| |].
    - apply Forall_singleton. unfold in_fat. destruct Hgeo. lia.
    - unfold MAX_ITERATIONS. simpl length. lia. }
  intros s' Hs'. exists s'. split; [|done].
  cbn [fold_io]. unfold cluster_to_sector. cbn [boot_sector].
  rewrite (data_start_sector_ok _ _ _ Hgeo), ok_bind.
  unfold sub_w. rewrite arith_overflow by width. by rewrite Hdbg.
Qed.

End mount.
