(* ===== verification/Fat32Write.v ===== *)
(** * FAT32: the write operations

    Allocation in the FAT, the two FAT copies, directory slots and
    [create_file], against the abstract view of [Fat32Spec]. *)

From S2P Require Import Prelude Fat32 Fat32Spec.

(** ** Updating the FAT *)

(** The disk after [set_fat_entry c v]. *)
Definition fat_update (b : BootSector) (c v : Z) (k : disk) : disk :=
  let n := reserved_sectors b + c / 128 in
  let d := list_inserts (Z.to_nat (4 * (c mod 128))) (to_le_bytes 4 v) (k n) in
  if decide (num_fats b > 1) then <[n + sectors_per_fat_32 b := d]> (<[n := d]> k)
  else <[n := d]> k.

(** The second copy of the FAT is equal to the first. *)
Definition fat_mirrored (b : BootSector) (k : disk) : Prop :=
  ∀ i, 0 ≤ i < sectors_per_fat_32 b →
    k (reserved_sectors b + sectors_per_fat_32 b + i) = k (reserved_sectors b + i).

(** The free clusters, in order. *)
Definition free_clusters (k : disk) (b : BootSector) (cs : list Z) : list Z :=
  filter (λ c, fat_entry k b c = 0 ∧ 2 ≤ c) cs.

Definition free_list (k : disk) (b : BootSector) : list Z :=
  free_clusters k b (seqZ 0 (128 * sectors_per_fat_32 b)).

Lemma sector_ok_inserts o bs d :
  sector_ok d → Forall is_u8 bs → sector_ok (list_inserts o bs d).
Proof.
  intros [Hl Hd] Hbs. split; [by rewrite length_inserts|]. by apply Forall_inserts.
Qed.

Lemma le_field_inserts_same o n v d :
  (o + n ≤ length d)%nat → 0 ≤ v < 256 ^ Z.of_nat n →
  le_field o n (list_inserts o (to_le_bytes n v) d) = v.
Proof.
  intros Hl Hv. unfold le_field.
  rewrite <-(length_to_le_bytes n v) at 1. rewrite slice_inserts_same.
  - by rewrite from_to_le_bytes, Z.mod_small.
  - by rewrite length_to_le_bytes.
Qed.

Lemma le_field_inserts_other o n p bs d :
  (p + n ≤ o)%nat ∨ (o + length bs ≤ p)%nat →
  le_field p n (list_inserts o bs d) = le_field p n d.
Proof. intros. unfold le_field. by rewrite slice_inserts_other. Qed.

Section fat.
Context (b : BootSector) (count limit : Z) (Hgeo : geometry_ok b count limit).

Lemma fat_update_disk_ok k c v : disk_ok k → disk_ok (fat_update b c v k).
Proof.
  intros Hk. unfold fat_update.
  assert (Hd : sector_ok (list_inserts (Z.to_nat (4 * (c mod 128))) (to_le_bytes 4 v)
                 (k (reserved_sectors b + c / 128)))).
  { apply sector_ok_inserts; [done|]. apply to_le_bytes_u8. }
  case_decide; repeat apply disk_ok_insert; done.
Qed.

(** A sector of the first FAT after an update. *)
Lemma fat_update_primary k c v i :
  in_fat b c → 0 ≤ i < sectors_per_fat_32 b →
  fat_update b c v k (reserved_sectors b + i) =
    if decide (i = c / 128)
    then list_inserts (Z.to_nat (4 * (c mod 128))) (to_le_bytes 4 v)
           (k (reserved_sectors b + i))
    else k (reserved_sectors b + i).
Proof.
  intros [Hc _]%in_fat_sector Hi. unfold fat_update.
  destruct (decide (num_fats b > 1)); [rewrite fn_lookup_insert_ne by lia|];
    (case_decide as Heq; [subst; by rewrite fn_lookup_insert|by rewrite fn_lookup_insert_ne by lia]).
Qed.

(** Sectors outside the FATs keep their contents. *)
Lemma fat_update_outside k c v n :
  in_fat b c → n < reserved_sectors b ∨ data_start b ≤ n →
  fat_update b c v k n = k n.
Proof.
  intros [Hc _]%in_fat_sector Hn. pose proof (data_start_bound _ _ _ Hgeo).
  destruct Hgeo. unfold fat_update, data_start in *. cbv zeta.
  case_decide; rewrite !fn_lookup_insert_ne by nia; done.
Qed.

Lemma fat_update_mirrored k c v :
  num_fats b > 1 → in_fat b c → fat_mirrored b k → fat_mirrored b (fat_update b c v k).
Proof.
  intros Hn Hc Hm i Hi. rewrite fat_update_primary by done.
  apply in_fat_sector in Hc as [Hc _]. unfold fat_update. rewrite decide_True by done.
  case_decide as Heq.
  - subst. replace (reserved_sectors b + sectors_per_fat_32 b + c / 128)
      with (reserved_sectors b + c / 128 + sectors_per_fat_32 b) by lia.
    by rewrite fn_lookup_insert.
  - rewrite !fn_lookup_insert_ne by lia. by apply Hm.
Qed.

Lemma fat_entry_update k c v d :
  disk_ok k → in_fat b c → in_fat b d → is_u32 v →
  fat_entry (fat_update b c v k) b d = if decide (d = c) then v else fat_entry k b d.
Proof.
  intros Hk Hc Hd Hv. pose proof (in_fat_sector _ _ Hd) as [Hs Hm].
  unfold fat_entry. rewrite fat_update_primary by done.
  destruct (Hk (reserved_sectors b + d / 128)) as [Hl _].
  pose proof (fat_offset_bound d). pose proof (in_fat_sector _ _ Hc) as [_ Hmc].
  case_decide as Hq; case_decide as Heq; subst; try done.
  - apply le_field_inserts_same; [lia|done].
  - apply le_field_inserts_other. rewrite length_to_le_bytes.
    assert (d mod 128 ≠ c mod 128); [|lia]. intros Hmod. apply Heq.
    rewrite (Z.div_mod d 128), (Z.div_mod c 128) by lia. congruence.
Qed.

(** ** The list of free clusters *)

Lemma elem_of_free_list k c :
  c ∈ free_list k b ↔ in_fat b c ∧ 2 ≤ c ∧ fat_entry k b c = 0.
Proof.
  unfold free_list, free_clusters, in_fat. rewrite list_elem_of_filter, elem_of_seqZ. lia.
Qed.

Lemma NoDup_free_list k : NoDup (free_list k b).
Proof. apply NoDup_filter, NoDup_seqZ. Qed.

(** Taking the head of the free list leaves its tail. *)
Lemma free_list_take k k' c rest :
  free_list k b = c :: rest → fat_entry k' b c ≠ 0 →
  (∀ d, in_fat b d → d ≠ c → (fat_entry k' b d = 0 ↔ fat_entry k b d = 0)) →
  free_list k' b = rest.
Proof.
  intros Hfree Hc Hd.
  assert (Heq : free_list k' b = filter (λ d, d ≠ c) (free_list k b)).
  { unfold free_list, free_clusters. rewrite list_filter_filter.
    apply filter_ext_in. intros d Hin%elem_of_seqZ.
    destruct (decide (d = c)) as [->|Hne]; [tauto|]. rewrite Hd by (done || unfold in_fat; lia).
    tauto. }
  pose proof (NoDup_free_list k) as Hnd. rewrite Heq, Hfree in *.
  apply NoDup_cons in Hnd as [Hnin _].
  rewrite filter_cons_False by tauto. apply filter_all.
  apply Forall_forall. intros d Hin ->. done.
Qed.

End fat.

(** ** Allocation *)

Section alloc.
Context {S : Type} `{SectorWriteSpec S} `{Profile}.
Context (b : BootSector) (limit : Z) (Hgeo : geometry_ok b sector_count limit).
Let fs : Fat32 := MkFat32 b.

Lemma set_fat_entry_ok s k c v :
  disk_repr s k → in_fat b c →
  runs (set_fat_entry fs c v) s (Ok tt) (λ s', disk_repr s' (fat_update b c v k)).
Proof.
  intros Hr Hc. pose proof (in_fat_sector _ _ Hc) as [Hs _].
  pose proof (data_start_bound _ _ _ Hgeo) as Hd. pose proof (disk_repr_ok _ _ Hr) as Hk.
  unfold set_fat_entry, fs. rewrite (fat_location_ok _ _ _ Hgeo) by done.
  apply runs_bind_lift. eapply runs_bind; [eapply read_fat_sector; done|]. intros s1 Hs1.
  pose proof (fat_offset_bound c). unfold put_u32.
  rewrite decide_True by (destruct (Hk (reserved_sectors b + c / 128)) as [-> _]; lia).
  apply runs_bind_lift.
  assert (Hok : sector_ok (list_inserts (Z.to_nat (4 * (c mod 128))) (to_le_bytes 4 v)
                 (k (reserved_sectors b + c / 128)))).
  { apply sector_ok_inserts; [done|]. apply to_le_bytes_u8. }
  eapply runs_bind; [apply (sector_write_spec s1 k); [done|destruct Hgeo; lia|done]|].
  intros s2 Hs2. destruct Hgeo. unfold fat_update, data_start in *. cbn [boot_sector].
  case_decide; [|by apply runs_ret].
  unfold add_w. rewrite arith_ok by (unfold in_width; nia). apply runs_bind_lift.
  apply sector_write_spec; [done|nia|done].
Qed.

(** The scan of one FAT sector finds the first free cluster of it. *)
Lemma scan_fat_sector_ok k i js :
  disk_ok k → 0 ≤ i < sectors_per_fat_32 b → Forall (λ j, (j < 128)%nat) js →
  scan_fat_sector (k (reserved_sectors b + i)) i ((λ j, j * 4)%nat <$> js) =
    Ok (head (free_clusters k b ((λ j, 128 * i + Z.of_nat j) <$> js))).
Proof.
  intros Hk Hi. pose proof (geo_spf _ _ _ Hgeo) as Hspf.
  destruct (Hk (reserved_sectors b + i)) as [Hl _].
  induction 1 as [|j js Hj Hjs IH]; [done|]. rewrite !fmap_cons.
  cbn [scan_fat_sector]. rewrite u32_at_ok, ok_bind by lia.
  assert (Hdiv : (128 * i + Z.of_nat j) / 128 = i)
    by (rewrite (Z.mul_comm 128), Z.div_add_l, Z.div_small by lia; lia).
  assert (Hmod : (128 * i + Z.of_nat j) mod 128 = Z.of_nat j)
    by (rewrite (Z.mul_comm 128), Z.add_comm, Z_mod_plus_full; apply Z.mod_small; lia).
  assert (Hent : fat_entry k b (128 * i + Z.of_nat j) =
                 le_field (j * 4) 4 (k (reserved_sectors b + i))).
  { unfold fat_entry. rewrite Hdiv, Hmod. do 2 f_equal. lia. }
  assert (Hidx : (i * 512 + Z.of_nat (j * 4)) / 4 = 128 * i + Z.of_nat j).
  { replace (i * 512 + Z.of_nat (j * 4)) with ((128 * i + Z.of_nat j) * 4) by lia.
    apply Z.div_mul. lia. }
  unfold free_clusters. rewrite filter_cons, Hent. change (2 ^ 21) with 2097152 in *.
  destruct (decide (le_field _ _ _ = 0)) as [Hz|Hz].
  - unfold mul_w, add_w. rewrite arith_ok, ok_bind by width. rewrite arith_ok, ok_bind by width.
    rewrite Hidx. do 2 case_decide; try lia; [done|apply IH].
  - rewrite decide_False by tauto. apply IH.
Qed.

Lemma scan_fat_ok s k i n :
  disk_repr s k → 0 ≤ i → i + Z.of_nat n = sectors_per_fat_32 b →
  runs (scan_fat fs (seqZ i (Z.of_nat n))) s
    (match free_clusters k b (seqZ (128 * i) (128 * Z.of_nat n)) with
     | c :: _ => Ok c
     | [] => Err "No free clusters available"
     end) (λ s', disk_repr s' k).
Proof.
  pose proof (data_start_bound _ _ _ Hgeo). pose proof (geo_count _ _ _ Hgeo).
  pose proof (geo_reserved _ _ _ Hgeo). revert s i.
  induction n as [|n IH]; intros s i Hr Hi Hn.
  { replace (seqZ i (Z.of_nat 0)) with (@nil Z) by done. by apply runs_lift. }
  rewrite seqZ_cons by lia. cbn [scan_fat]. unfold add_w, fat_start_sector.
  cbn [boot_sector fs]. rewrite arith_ok by (unfold in_width; lia). apply runs_bind_lift.
  eapply runs_bind; [eapply read_fat_sector; [done|done|lia]|]. intros s' Hs'.
  unfold fat_offsets. rewrite scan_fat_sector_ok; [|by eapply disk_repr_ok|lia|].
  2: { apply Forall_forall. intros j Hj%elem_of_seq. lia. }
  apply runs_bind_lift.
  replace (128 * Z.of_nat (Datatypes.S n)) with (128 + 128 * Z.of_nat n) by lia.
  rewrite seqZ_app by lia. unfold free_clusters. rewrite filter_app.
  replace (seqZ (128 * i) 128) with ((λ j, 128 * i + Z.of_nat j) <$> seq 0 128).
  2: { unfold seqZ. apply list_fmap_ext. intros. lia. }
  destruct (filter _ (_ <$> seq 0 128)) as [|c cs]; [|by apply runs_ret].
  replace (Z.pred (Z.of_nat (Datatypes.S n))) with (Z.of_nat n) by lia.
  replace (128 * i + 128) with (128 * Z.succ i) by lia. apply IH; [done|lia..].
Qed.

Lemma find_free_cluster_ok s k :
  disk_repr s k →
  runs (find_free_cluster fs) s
    (match free_list k b with
     | c :: _ => Ok c
     | [] => Err "No free clusters available"
     end) (λ s', disk_repr s' k).
Proof.
  intros Hr. pose proof (geo_spf _ _ _ Hgeo). unfold find_free_cluster, free_list.
  cbn [boot_sector fs].
  rewrite <-(Z2Nat.id (sectors_per_fat_32 b)) by lia.
  apply (scan_fat_ok s k 0); [done|lia..].
Qed.

(** The FAT after [allocate_cluster prev None] has taken cluster [c]. *)
Definition link_update (prev : option Z) (c : Z) (k : disk) : disk :=
  fat_update b c 0x0FFFFFF8
    (match prev with Some p => fat_update b p c k | None => k end).

Lemma fat_entry_link k prev c d :
  disk_ok k → in_fat b c → (∀ p, prev = Some p → in_fat b p) → in_fat b d →
  fat_entry (link_update prev c k) b d =
    if decide (d = c) then EOC_MIN
    else if decide (prev = Some d) then c else fat_entry k b d.
Proof.
  intros Hk Hc Hp Hd. assert (is_u32 c).
  { unfold in_fat in Hc. destruct Hgeo. change (2 ^ 21) with 2097152 in *. width. }
  unfold link_update. destruct prev as [p|].
  - rewrite fat_entry_update by (eauto using fat_update_disk_ok || width).
    case_decide; [done|]. rewrite fat_entry_update by eauto.
    repeat case_decide; congruence.
  - rewrite fat_entry_update by (eauto || width).
    by rewrite (decide_False (P := None = Some d)).
Qed.

Lemma allocate_cluster_ok s k prev c rest :
  disk_repr s k → free_list k b = c :: rest →
  (∀ p, prev = Some p → in_fat b p) →
  runs (allocate_cluster fs prev None) s (Ok c) (λ s', disk_repr s' (link_update prev c k)).
Proof.
  intros Hr Hfree Hprev. unfold allocate_cluster.
  assert (Hc : c ∈ free_list k b) by (rewrite Hfree; left).
  apply elem_of_free_list in Hc as [Hc _].
  eapply runs_bind; [pose proof (find_free_cluster_ok s k Hr) as Hf; rewrite Hfree in Hf; exact Hf|].
  intros s1 Hs1.
  eapply (runs_bind _ _ _ tt _
    (λ s', disk_repr s' (match prev with Some p => fat_update b p c k | None => k end))).
  { destruct prev as [p|]; [apply set_fat_entry_ok; eauto|by apply runs_ret]. }
  intros s2 Hs2. eapply runs_bind; [by apply set_fat_entry_ok|].
  intros s3 Hs3. by apply runs_ret.
Qed.

Lemma allocate_cluster_full s k prev next :
  disk_repr s k → free_list k b = [] →
  runs (allocate_cluster fs prev next) s (Err "No free clusters available")
    (λ s', disk_repr s' k).
Proof.
  intros Hr Hfree. unfold allocate_cluster. apply runs_bind_err.
  pose proof (find_free_cluster_ok s k Hr) as Hf. by rewrite Hfree in Hf.
Qed.

(** C22. set_fat_entry sets exactly one entry of the FAT, changes no sector
    outside the FATs, and keeps the second copy of the FAT equal to the first. *)
Theorem set_fat_entry_correct s k c v :
  disk_repr s k → in_fat b c → is_u32 v →
  runs (set_fat_entry (MkFat32 b) c v) s (Ok tt) (λ s', ∃ k', disk_repr s' k' ∧
    (∀ d, in_fat b d → fat_entry k' b d = if decide (d = c) then v else fat_entry k b d) ∧
    (∀ n, n < reserved_sectors b ∨ data_start b ≤ n → k' n = k n) ∧
    (num_fats b > 1 → fat_mirrored b k → fat_mirrored b k')).
Proof.
  intros Hr Hc Hv. eapply runs_mono; [by apply set_fat_entry_ok|].
  intros s' Hs'. exists (fat_update b c v k). split_and!; [done|..].
  - intros. apply fat_entry_update; [by eapply disk_repr_ok|done..].
  - intros. by eapply fat_update_outside.
  - intros. by apply fat_update_mirrored.
Qed.

(** C21. allocate_cluster takes the lowest free cluster from 2 on, marks it as the
    end of a chain, links the previous cluster to it and changes no other FAT
    entry; with no free cluster it returns the error and leaves the disk as it
    was. *)
Theorem allocate_cluster_correct s k prev :
  disk_repr s k → (∀ p, prev = Some p → in_fat b p ∧ fat_entry k b p ≠ 0) →
  match free_list k b with
  | [] => runs (allocate_cluster (MkFat32 b) prev None) s (Err "No free clusters available")
            (λ s', disk_repr s' k)
  | c :: rest =>
    runs (allocate_cluster (MkFat32 b) prev None) s (Ok c) (λ s', ∃ k', disk_repr s' k' ∧
      free_list k' b = rest ∧
      (∀ d, in_fat b d → fat_entry k' b d =
         if decide (d = c) then EOC_MIN
         else if decide (prev = Some d) then c else fat_entry k b d))
  end.
Proof.
  intros Hr Hprev. assert (Hin : ∀ p, prev = Some p → in_fat b p) by (intros; by apply Hprev).
  pose proof (disk_repr_ok _ _ Hr) as Hk.
  destruct (free_list k b) as [|c rest] eqn:Hfree; [by apply allocate_cluster_full|].
  assert (Hc : c ∈ free_list k b) by (rewrite Hfree; left).
  apply elem_of_free_list in Hc as (Hc & Hc2 & _).
  eapply runs_mono; [by eapply allocate_cluster_ok|]. intros s' Hs'.
  exists (link_update prev c k). split_and!; [done| |intros; by apply fat_entry_link].
  eapply free_list_take; [done|..].
  - rewrite fat_entry_link by done. by rewrite decide_True.
  - intros d Hd Hne. rewrite fat_entry_link by done. rewrite decide_False by done.
    case_decide as Hp; [|done]. apply Hprev in Hp as [_ Hp]. lia.
Qed.

End alloc.

(** ** Directory slots *)

Definition slot_free (k : disk) (p : Z * nat) : Prop :=
  k p.1 !!! (p.2 * 32)%nat = 0x00 ∨ k p.1 !!! (p.2 * 32)%nat = 0xE5.
#[global] Instance slot_free_dec k p : Decision (slot_free k p).
Proof. unfold slot_free. apply _. Defined.

Definition slot_write (p : Z * nat) (e : list Z) (k : disk) : disk :=
  <[p.1 := list_inserts (p.2 * 32) e (k p.1)]> k.

(** The first free slot of a list of slots. *)
Definition first_free (k : disk) (slots : list (Z * nat)) : option (Z * nat) :=
  head (filter (slot_free k) slots).

Lemma first_free_app k l1 l2 :
  first_free k (l1 ++ l2) =
    match first_free k l1 with Some p => Some p | None => first_free k l2 end.
Proof. unfold first_free. rewrite filter_app. by destruct (filter _ l1). Qed.

Lemma slot_record_write p q e k :
  disk_ok k → (p.2 < 16)%nat → (q.2 < 16)%nat → length e = 32%nat →
  slot_record (slot_write p e k) q = if decide (q = p) then e else slot_record k q.
Proof.
  destruct p as [n i], q as [m j]. simpl. intros Hk Hi Hj He.
  destruct (Hk n) as [Hl _]. unfold slot_record, slot_write. simpl.
  destruct (decide (m = n)) as [->|Hne].
  - rewrite fn_lookup_insert. case_decide as Heq; simplify_eq/=.
    + rewrite <-He. apply slice_inserts_same. lia.
    + apply slice_inserts_other. assert (i ≠ j) by congruence. lia.
  - rewrite fn_lookup_insert_ne by done. rewrite decide_False by congruence. done.
Qed.

(** An entry is listed exactly when its slot is not free. *)
Lemma slot_free_valid k p :
  disk_ok k → (p.2 < 16)%nat → slot_free k p ↔ ¬ is_valid (decode_entry (slot_record k p)).
Proof.
  intros Hk Hp. unfold slot_free, is_valid, decode_entry, slot_record. cbn [name].
  rewrite !slice_lookup_total, !Nat.add_0_r by lia.
  repeat case_bool_decide; simpl; tauto.
Qed.

(** Filling a free slot inserts one entry into the listing. *)
Lemma dir_entries_insert k s1 p s2 e :
  disk_ok k → Forall (λ q, (q.2 < 16)%nat) (s1 ++ p :: s2) → NoDup (s1 ++ p :: s2) →
  slot_free k p → length e = 32%nat → is_valid (decode_entry e) →
  let es k l := filter is_valid ((decode_entry ∘ slot_record k) <$> l) in
  es k (s1 ++ p :: s2) = es k s1 ++ es k s2 ∧
  es (slot_write p e k) (s1 ++ p :: s2) = es k s1 ++ decode_entry e :: es k s2.
Proof.
  intros Hk Hall Hnd Hfree He Hv es. unfold es.
  rewrite Forall_app, Forall_cons in Hall. destruct Hall as (H1 & Hp & H2).
  apply NoDup_app in Hnd as (_ & Hd1 & Hnd). apply NoDup_cons in Hnd as [Hd2 _].
  assert (Hsame : ∀ l, Forall (λ q, (q.2 < 16)%nat) l → p ∉ l →
    (decode_entry ∘ slot_record (slot_write p e k)) <$> l =
    (decode_entry ∘ slot_record k) <$> l).
  { intros l Hl Hnin. apply list_fmap_ext. intros i q Hq%list_elem_of_lookup_2.
    rewrite Forall_forall in Hl. simpl. rewrite slot_record_write by auto.
    rewrite decide_False by congruence. done. }
  rewrite !fmap_app, !fmap_cons, !filter_app. split.
  - rewrite filter_cons_False; [done|]. simpl. by apply slot_free_valid.
  - rewrite filter_cons_True.
    + rewrite !Hsame by (done || (intros Hin; eapply Hd1; [done|left])).
      simpl. rewrite slot_record_write by done. by rewrite decide_True.
    + simpl. rewrite slot_record_write by done. by rewrite decide_True.
Qed.

Lemma elem_of_chain_sectors b l n :
  n ∈ chain_sectors b l ↔
    ∃ c i, c ∈ l ∧ 0 ≤ i < sectors_per_cluster b ∧ n = cluster_start b c + i.
Proof.
  unfold chain_sectors, cluster_sectors. rewrite list_elem_of_bind.
  setoid_rewrite list_elem_of_fmap. setoid_rewrite elem_of_seqZ. split.
  - intros (c & (i & -> & Hi) & Hc). exists c, i. split_and!; [done|lia..|done].
  - intros (c & i & Hc & Hi & ->). exists c. split; [|done]. exists i. split; [done|lia].
Qed.

Lemma NoDup_dir_slots b l : NoDup l → NoDup (dir_slots b l).
Proof.
  intros Hl. unfold dir_slots. apply NoDup_bind.
  - unfold sector_slots. intros n m q _ _.
    rewrite !list_elem_of_fmap. intros (?&->&_) (?&?&_). congruence.
  - intros n _. unfold sector_slots. apply NoDup_fmap_2; [apply _|apply NoDup_seq].
  - unfold chain_sectors. apply NoDup_bind; [| |done].
    + unfold cluster_sectors. intros c d n _ _. rewrite !list_elem_of_fmap.
      setoid_rewrite elem_of_seqZ. intros (i&->&?) (j&Heq&?).
      apply (cluster_start_inj b c i d j); [lia..|done].
    + intros c _. unfold cluster_sectors. apply NoDup_fmap_2; [|apply NoDup_seqZ].
      intros ???. lia.
Qed.

Lemma dir_slots_index b l : Forall (λ q, (q.2 < 16)%nat) (dir_slots b l).
Proof.
  apply Forall_forall. intros q. unfold dir_slots, sector_slots.
  rewrite list_elem_of_bind. intros (n & Hq & _).
  apply list_elem_of_fmap in Hq as (i & -> & Hi%elem_of_seq). simpl. lia.
Qed.

Section dir.
Context {S : Type} `{SectorWriteSpec S} `{Profile}.
Context (b : BootSector) (limit : Z) (Hgeo : geometry_ok b sector_count limit).
Let fs : Fat32 := MkFat32 b.

(** The disk after an attempt to fill the first free slot of [slots]. *)
Definition fill_slot (slots : list (Z * nat)) (e : list Z) (k : disk) : disk :=
  match first_free k slots with Some p => slot_write p e k | None => k end.

Lemma find_slot_ok k n l :
  disk_ok k → Forall (λ i, (i < 16)%nat) l →
  find_slot (k n) l = Ok (snd <$> first_free k (pair n <$> l)).
Proof.
  intros Hk. destruct (Hk n) as [Hl _]. induction 1 as [|i l Hi Hall IH]; [done|].
  cbn [find_slot]. rewrite idx_total, ok_bind by lia.
  unfold first_free. rewrite fmap_cons, filter_cons.
  destruct (decide (k n !!! (i * 32)%nat = 0x00 ∨ k n !!! (i * 32)%nat = 0xE5)) as [Hf|Hf].
  - by rewrite (decide_True (P := slot_free k (n, i))).
  - rewrite (decide_False (P := slot_free k (n, i))) by done. apply IH.
Qed.

Lemma first_free_sector k n p :
  first_free k (sector_slots n) = Some p → p.1 = n ∧ (p.2 < 16)%nat.
Proof.
  intros Hp. assert (Hin : p ∈ filter (slot_free k) (sector_slots n))
    by by apply head_Some_elem_of.
  apply list_elem_of_filter in Hin as [_ Hin].
  apply list_elem_of_fmap in Hin as (i & -> & Hi%elem_of_seq). simpl. lia.
Qed.

Lemma write_in_sectors_ok s k c e offsets :
  disk_repr s k → 2 ≤ c < limit → length e = 32%nat → Forall is_u8 e →
  Forall (λ i, 0 ≤ i < sectors_per_cluster b) offsets →
  let slots := offsets ≫= λ i, sector_slots (cluster_start b c + i) in
  runs (write_in_sectors (cluster_start b c) e offsets) s
    (Ok (bool_decide (is_Some (first_free k slots))))
    (λ s', disk_repr s' (fill_slot slots e k)).
Proof.
  intros Hr Hc He Hb. revert s Hr.
  pose proof (data_start_bound _ _ _ Hgeo) as Hd. pose proof (geo_count _ _ _ Hgeo).
  pose proof (geo_reserved _ _ _ Hgeo). pose proof (geo_spf _ _ _ Hgeo).
  induction offsets as [|i offsets IH]; intros s Hr Hall; [by apply runs_ret|].
  apply Forall_cons in Hall as [Hi Hall]. cbn [write_in_sectors].
  pose proof (cluster_sector_bound _ _ _ Hgeo c i Hc Hi) as Hb'.
  unfold add_w. rewrite arith_ok by (unfold in_width; lia). apply runs_bind_lift.
  eapply runs_bind; [apply sector_read_spec; [done|lia]|]. intros s1 Hs1.
  pose proof (disk_repr_ok _ _ Hr) as Hk.
  rewrite find_slot_ok; [|done|apply Forall_forall; intros j Hj%elem_of_seq; lia].
  apply runs_bind_lift. unfold fill_slot. rewrite bind_cons, first_free_app.
  fold (sector_slots (cluster_start b c + i)).
  destruct (first_free k (sector_slots _)) as [p|] eqn:Hp; [|by apply IH].
  apply first_free_sector in Hp as [Hp1 Hp2]. cbn.
  destruct (Hk (cluster_start b c + i)) as [Hlen Hu8].
  rewrite decide_True by lia. apply runs_bind_lift, runs_bind_lift.
  eapply runs_bind; [apply (sector_write_spec s1 k); [done|lia|]|].
  { by apply sector_ok_inserts. }
  intros s2 Hs2. unfold slot_write. rewrite Hp1. by apply runs_ret.
Qed.

Lemma write_in_clusters_ok s k e l :
  disk_repr s k → Forall (data_cluster limit) l → length e = 32%nat → Forall is_u8 e →
  runs (write_in_clusters fs e l) s
    (match first_free k (dir_slots b l) with
     | Some _ => Ok tt
     | None => Err "No free directory entries available"
     end)
    (λ s', disk_repr s' (fill_slot (dir_slots b l) e k)).
Proof.
  intros Hr Hl He Hb. revert s Hr.
  induction Hl as [|c l Hc Hl IH]; intros s Hr; [by apply runs_lift|].
  cbn [write_in_clusters]. rewrite (cluster_to_sector_ok _ _ _ Hgeo) by done.
  apply runs_bind_lift. unfold sector_range. cbn [boot_sector fs].
  eapply runs_bind; [apply write_in_sectors_ok; try done|].
  { apply Forall_forall. intros i Hi%elem_of_seqZ. lia. }
  unfold fill_slot, dir_slots, chain_sectors. rewrite bind_cons, bind_app, first_free_app.
  unfold cluster_sectors at 1 3. rewrite bind_fmap.
  change (sector_slots ∘ (λ i, cluster_start b c + i))
    with (λ i, sector_slots (cluster_start b c + i)).
  intros s' Hs'. destruct (first_free k (seqZ _ _ ≫= _)) as [p|]; [by apply runs_ret|].
  by apply IH.
Qed.

Lemma write_dir_entry_ok s k c e l :
  disk_repr s k → chain (fat_entry k b) c l → Forall (data_cluster limit) l →
  (length l ≤ MAX_ITERATIONS)%nat → length e = 32%nat → Forall is_u8 e →
  runs (write_dir_entry fs c e) s
    (match first_free k (dir_slots b l) with
     | Some _ => Ok tt
     | None => Err "No free directory entries available"
     end)
    (λ s', disk_repr s' (fill_slot (dir_slots b l) e k)).
Proof.
  intros Hr Hc Hl Hn He Hb. unfold write_dir_entry.
  eapply runs_bind; [eapply follow_cluster_chain_ok; try done|].
  { eapply Forall_impl; [done|]. by eapply data_cluster_in_fat. }
  intros s' Hs'. by apply write_in_clusters_ok.
Qed.

End dir.
