(* ===== verification/Fat32Record.v ===== *)
(** * FAT32: directory records and data chunks

    [create_dir_entry] against the record decoder of [Fat32Spec] and against
    [get_name], and the padding of file data to whole sectors. *)

From S2P Require Import Prelude Fat32 Fat32Spec.

(** ** Names *)

(** The two parts of a name that [create_dir_entry] stores. *)
Definition base_part (nm : list Z) : list Z := default [] (split_dot nm !! 0%nat).
Definition ext_part (nm : list Z) : list Z := default [] (split_dot nm !! 1%nat).

Definition stored_name (nm : list Z) : list Z :=
  pad_field 8 (base_part nm) ++ pad_field 3 (ext_part nm).

Lemma split_dot_nonempty nm : split_dot nm ≠ [].
Proof. destruct nm as [|c nm]; simpl; [done|]. case_decide; [done|]. by destruct (split_dot nm). Qed.

Lemma split_dot_no_dot p : 0x2E ∉ p → split_dot p = [p].
Proof.
  induction p as [|c p IH]; intros Hp; [done|]. apply not_elem_of_cons in Hp as [Hc Hp].
  simpl. rewrite decide_False by congruence. by rewrite IH.
Qed.

Lemma split_dot_app p q : 0x2E ∉ p → split_dot (p ++ 0x2E :: q) = p :: split_dot q.
Proof.
  induction p as [|c p IH]; intros Hp; simpl; [done|].
  apply not_elem_of_cons in Hp as [Hc Hp]. rewrite decide_False by congruence.
  by rewrite IH.
Qed.

Lemma split_dot_parts (P : Z → Prop) nm : Forall P nm → Forall (Forall P) (split_dot nm).
Proof.
  induction 1 as [|c nm Hc _ IH]; simpl; [by repeat constructor|].
  case_decide; [by constructor|]. destruct IH; by repeat constructor.
Qed.

Lemma length_pad_field n s : length (pad_field n s) = n.
Proof. unfold pad_field. rewrite length_app, length_take, length_replicate. lia. Qed.

Lemma pad_field_u8 n s : Forall is_u8 s → Forall is_u8 (pad_field n s).
Proof.
  intros. apply Forall_app. split; [by apply Forall_take|].
  apply Forall_replicate. width.
Qed.

Lemma name_parts_u8 nm : Forall is_u8 nm → Forall is_u8 (base_part nm) ∧ Forall is_u8 (ext_part nm).
Proof.
  intros Hnm%split_dot_parts. unfold base_part, ext_part.
  split; (destruct (split_dot nm !! _) eqn:Hi; simpl; [|constructor]);
    by eapply Forall_lookup in Hi.
Qed.

(** Padding is what [get_name] strips. *)
Lemma name_chars_pad n s :
  (length s ≤ n)%nat → 0x20 ∉ s → 0 ∉ s → name_chars (pad_field n s) = s.
Proof.
  intros Hn Hsp Hz. unfold name_chars, pad_field. rewrite take_ge, filter_app by done.
  rewrite filter_all, (filter_none _ (replicate _ _)), app_nil_r; [done|..].
  - apply Forall_forall. intros x Hx. apply elem_of_replicate in Hx as [-> _]. tauto.
  - apply Forall_forall. intros x Hx. split; intros ->; done.
Qed.

(** ** Records *)

Lemma slice_split {A} a n m (l : list A) :
  slice a (n + m) l = slice a n l ++ slice (a + n) m l.
Proof.
  unfold slice. rewrite <-drop_drop. symmetry. apply take_take_drop.
Qed.

Lemma length_create_dir_entry nm fc sz : length (create_dir_entry nm fc sz) = 32%nat.
Proof. unfold create_dir_entry. by rewrite !length_inserts, length_insert, !length_inserts. Qed.

Lemma create_dir_entry_u8 nm fc sz :
  Forall is_u8 nm → Forall is_u8 (create_dir_entry nm fc sz).
Proof.
  intros [Hb He]%name_parts_u8. unfold create_dir_entry.
  repeat first [apply Forall_inserts | apply Forall_insert | apply to_le_bytes_u8
    | apply pad_field_u8 | apply Forall_replicate]; try done; width.
Qed.

(** Fields of a record built by successive insertions. *)
Lemma slice_inserts_eq {A} a n (k l : list A) :
  length k = n → (a + n ≤ length l)%nat → slice a n (list_inserts a k l) = k.
Proof. intros <- ?. by apply slice_inserts_same. Qed.

Lemma split_u32 c : is_u32 c →
  2 ^ 16 * Z.land (Z.shiftr c 16) 0xFFFF + Z.land c 0xFFFF = c.
Proof.
  intros Hc. change 0xFFFF with (Z.ones 16). rewrite !Z.land_ones by lia.
  rewrite Z.shiftr_div_pow2 by lia.
  rewrite (Z.mod_small (c / 2 ^ 16)) by
    (change (2 ^ 16) with 65536; unfold in_width in Hc; change (2 ^ 32) with 4294967296 in Hc;
     split; [apply Z.div_pos; lia|apply Z.div_lt_upper_bound; lia]).
  symmetry. by apply Z.div_mod.
Qed.

Lemma land_ones_u16 z : is_u16 (Z.land z 0xFFFF).
Proof. change 0xFFFF with (Z.ones 16). rewrite Z.land_ones by lia. apply Z.mod_pos_bound. lia. Qed.

Ltac record_field :=
  repeat first
    [ rewrite slice_inserts_eq by
        (rewrite ?length_to_le_bytes, ?length_pad_field, ?length_inserts, ?length_insert,
           ?length_inserts, ?length_replicate; lia)
    | rewrite slice_inserts_other by
        (rewrite ?length_to_le_bytes, ?length_pad_field; simpl; lia) ].

Lemma decode_create_dir_entry nm fc sz :
  is_u32 fc → is_u32 sz →
  decode_entry (create_dir_entry nm fc sz) = MkEntry (stored_name nm) 0x20 fc sz.
Proof.
  intros Hfc Hsz. unfold decode_entry, stored_name.
  set (r := create_dir_entry nm fc sz).
  assert (Hname : slice 0 11 r = pad_field 8 (base_part nm) ++ pad_field 3 (ext_part nm)).
  { change 11%nat with (8 + 3)%nat. rewrite slice_split. unfold r, create_dir_entry.
    fold (base_part nm) (ext_part nm).
    change (<[11%nat := 0x20]> ?l) with (list_inserts 11 [0x20] l). record_field. done. }
  assert (Hattr : r !!! 11%nat = 0x20).
  { unfold r, create_dir_entry. rewrite list_lookup_total_alt, !list_lookup_inserts_lt by lia.
    rewrite list_lookup_insert_eq; [done|]. rewrite !length_inserts, length_replicate. lia. }
  assert (Hhi : le_field 20 2 r = Z.land (Z.shiftr fc 16) 0xFFFF).
  { unfold le_field, r, create_dir_entry. record_field. rewrite from_to_le_bytes.
    apply Z.mod_small, land_ones_u16. }
  assert (Hlo : le_field 26 2 r = Z.land fc 0xFFFF).
  { unfold le_field, r, create_dir_entry. record_field. rewrite from_to_le_bytes.
    apply Z.mod_small, land_ones_u16. }
  assert (Hsize : le_field 28 4 r = sz).
  { unfold le_field, r, create_dir_entry. record_field. rewrite from_to_le_bytes.
    by apply Z.mod_small. }
  rewrite Hname, Hattr, Hhi, Hlo, Hsize. by rewrite split_u32.
Qed.

(** A name whose first byte is neither 0x00 nor 0xE5 gives a listed entry. *)
Definition nameable (nm : list Z) : Prop := nm !! 0%nat ≠ Some 0 ∧ nm !! 0%nat ≠ Some 0xE5.

Lemma stored_name_head nm :
  stored_name nm !!! 0%nat = match nm with
                             | c :: _ => if decide (c = 0x2E) then 0x20 else c
                             | [] => 0x20
                             end.
Proof.
  unfold stored_name, base_part. destruct nm as [|c nm]; [done|]. simpl.
  case_decide; [done|]. by destruct (split_dot nm).
Qed.

Lemma stored_name_valid nm fc sz :
  nameable nm → is_valid (MkEntry (stored_name nm) 0x20 fc sz).
Proof.
  intros [H0 HE]. unfold is_valid. cbn [name]. rewrite stored_name_head.
  destruct nm as [|c nm]; [done|]. simpl in *.
  case_decide; [done|]. by rewrite !bool_decide_false by congruence.
Qed.

(** ** Chunks *)

(** A chunk as it is written: its first sector, zero-padded. *)
Definition pad_sector (d : list Z) : list Z := list_inserts 0 (take 512 d) (replicate 512 0).

Lemma pad_sector_short d :
  (length d ≤ 512)%nat → pad_sector d = d ++ replicate (512 - length d) 0.
Proof.
  intros Hd. unfold pad_sector. rewrite take_ge by done.
  replace 512%nat with (length d + (512 - length d))%nat at 1 by lia.
  rewrite replicate_add. apply list_inserts_0_r. by rewrite length_replicate.
Qed.

Lemma pad_sector_ok d : Forall is_u8 d → sector_ok (pad_sector d).
Proof.
  intros Hd. split; [unfold pad_sector; by rewrite length_inserts, length_replicate|].
  apply Forall_inserts; [apply Forall_replicate; width|by apply Forall_take].
Qed.

Lemma chunks_fuel_Forall (P : Z → Prop) f n data :
  Forall P data → Forall (Forall P) (chunks_fuel f n data).
Proof.
  revert data. induction f as [|f IH]; intros [|x data] Hd; simpl; try constructor.
  - by apply Forall_take.
  - by apply IH, Forall_drop.
Qed.

(** The padded sectors of 512-byte chunks start with the data. *)
Lemma chunks_fuel_pad f data :
  (length data ≤ f)%nat →
  take (length data) (mjoin (pad_sector <$> chunks_fuel f 512 data)) = data.
Proof.
  revert data. induction f as [|f IH]; intros data Hf; [by destruct data; simpl in *; [|lia]|].
  destruct data as [|x data']; [done|]. set (data := x :: data') in *.
  change (chunks_fuel (S f) 512 data) with (take 512 data :: chunks_fuel f 512 (drop 512 data)).
  rewrite fmap_cons. cbn [mjoin list_join].
  destruct (decide (length data ≤ 512)%nat) as [Hle|Hgt].
  - rewrite (take_ge data 512) by done. rewrite pad_sector_short, <-app_assoc by done.
    apply take_app_length.
  - rewrite pad_sector_short by (rewrite length_take; lia).
    rewrite length_take, Nat.min_l, Nat.sub_diag, app_nil_r by lia.
    rewrite take_app_ge by (rewrite length_take; lia).
    rewrite length_take, Nat.min_l by lia. rewrite <-length_drop, IH.
    + apply take_drop.
    + rewrite length_drop. unfold data in *. simpl in *. lia.
Qed.

(** ** Round trips *)

(** C32. A record built by create_dir_entry and stored in any slot of any sector
    parses back, as list_directory parses it, to the padded name, the archive
    attribute, the first cluster and the size, for all 32-bit clusters and
    sizes. *)
Theorem dir_entry_roundtrip nm fc sz d i :
  Forall is_u8 nm → is_u32 fc → is_u32 sz → sector_ok d → (i < 16)%nat →
  parse_entry (list_inserts (i * 32) (create_dir_entry nm fc sz) d) i =
    Ok (MkEntry (stored_name nm) 0x20 fc sz).
Proof.
  intros Hnm Hfc Hsz [Hl Hd] Hi. rewrite parse_entry_ok; [|split|done].
  - rewrite slice_inserts_eq; [by rewrite decode_create_dir_entry| |lia].
    apply length_create_dir_entry.
  - by rewrite length_inserts.
  - apply Forall_inserts; [done|by apply create_dir_entry_u8].
Qed.

(** A name of the form base.ext that fits 8.3 and has no spaces, NULs or
    further dots is what get_name returns for the name field create_dir_entry
    stores. *)
Theorem get_name_roundtrip base ext a fc sz :
  (length base ≤ 8)%nat → (length ext ≤ 3)%nat →
  Forall (λ c, c ∉ [0; 0x20; 0x2E]) base → Forall (λ c, c ∉ [0; 0x20; 0x2E]) ext →
  get_name (MkEntry (stored_name (base ++ 0x2E :: ext)) a fc sz) = base ++ 0x2E :: ext.
Proof.
  intros Hb He Hcb Hce.
  assert (Hin : ∀ p x, Forall (λ c, c ∉ [0; 0x20; 0x2E]) p → x ∈ [0; 0x20; 0x2E] → x ∉ p).
  { intros p x Hp Hx Hin. rewrite Forall_forall in Hp. by eapply Hp. }
  unfold get_name, stored_name, base_part, ext_part. cbn [name].
  rewrite split_dot_app, split_dot_no_dot by (apply Hin; [done|set_solver]). cbn [lookup list_lookup default].
  unfold slice. rewrite drop_0, take_app_length', drop_app_length', (take_ge (pad_field 3 ext))
    by (rewrite length_pad_field; lia).
  by rewrite !name_chars_pad by (done || (apply Hin; [done|set_solver])).
Qed.

(** A name without extension is read back with a trailing dot. *)
Theorem get_name_no_extension base a fc sz :
  (length base ≤ 8)%nat → Forall (λ c, c ∉ [0; 0x20; 0x2E]) base →
  get_name (MkEntry (stored_name base) a fc sz) = base ++ [0x2E].
Proof.
  intros Hb Hcb.
  assert (Hin : ∀ x, x ∈ [0; 0x20; 0x2E] → x ∉ base).
  { intros x Hx Hin. rewrite Forall_forall in Hcb. by eapply Hcb. }
  unfold get_name, stored_name, base_part, ext_part. cbn [name].
  rewrite split_dot_no_dot by (apply Hin; set_solver). cbn [lookup list_lookup default].
  unfold slice. rewrite drop_0, take_app_length', drop_app_length', (take_ge (pad_field 3 []))
    by (rewrite length_pad_field; lia).
  by rewrite !name_chars_pad by (done || (apply Hin; set_solver) || simpl; lia || set_solver).
Qed.
