(* ===== verification/Fat32Create.v ===== *)
(** * FAT32: creating a file

    [create_file] allocates one cluster per chunk of data, links them, writes
    the data and fills a directory slot.  The invariant of its loop, and the
    round trips and frame properties of the finished operation. *)

From S2P Require Import Prelude Fat32 Fat32Spec Fat32Write Fat32Record.

(** Clusters linked one after the other form a chain. *)
Lemma links_chain f c cs :
  head cs = Some c →
  (∀ i d, cs !! i = Some d → f d = default EOC_MIN (cs !! S i)) →
  Forall (λ d, d < EOC_MIN) cs → chain f c cs.
Proof.
  revert c. induction cs as [|d cs IH]; intros c Hh Hlink Hlt; simplify_eq/=.
  pose proof (Hlink 0%nat c eq_refl) as Hc. simpl in Hc.
  apply Forall_cons in Hlt as [_ Hlt]. destruct cs as [|d cs]; simpl in Hc.
  - constructor. lia.
  - assert (d < EOC_MIN) by (by apply Forall_cons in Hlt as [? _]).
    constructor; rewrite Hc; [lia|]. apply IH; [done| |done].
    intros i e Hi. apply (Hlink (S i)). done.
Qed.

Section create.
Context {S : Type} `{SectorWriteSpec S} `{Profile}.
Context (b : BootSector) (limit : Z) (Hgeo : geometry_ok b sector_count limit).
Let fs : Fat32 := MkFat32 b.

(** Starting from disk [k0], the clusters [cs] have been linked and the sectors
    [ds] written to them; everything else is as in [k0]. *)
Record written (k0 k : disk) (cs : list Z) (ds : list (list Z)) : Prop := {
  w_ok : disk_ok k;
  w_length : length cs = length ds;
  w_nodup : NoDup cs;
  w_clusters : Forall (data_cluster limit) cs;
  w_links i c : cs !! i = Some c → fat_entry k b c = default EOC_MIN (cs !! Datatypes.S i);
  w_fat c : in_fat b c → c ∉ cs → fat_entry k b c = fat_entry k0 b c;
  w_data i c d : cs !! i = Some c → ds !! i = Some d → k (cluster_start b c) = d;
  w_outside n : n < reserved_sectors b ∨ data_start b ≤ n →
    n ∉ cluster_start b <$> cs → k n = k0 n;
  w_mirror : num_fats b > 1 → fat_mirrored b k0 → fat_mirrored b k;
}.

Lemma written_nil k : disk_ok k → written k k [] [].
Proof. intros Hk. split; done || constructor. Qed.

(** Data clusters start outside the FATs. *)
Lemma cluster_start_outside c : data_cluster limit c → data_start b ≤ cluster_start b c.
Proof. intros Hc. unfold cluster_start, data_cluster in *. destruct Hgeo. nia. Qed.

Lemma fat_entry_data_write k c d e :
  data_cluster limit c → in_fat b e → fat_entry (<[cluster_start b c := d]> k) b e = fat_entry k b e.
Proof.
  intros Hc He. unfold fat_entry. rewrite fn_lookup_insert_ne; [done|].
  pose proof (cluster_start_outside c Hc). apply in_fat_sector in He as [He _].
  pose proof (data_start_bound _ _ _ Hgeo). lia.
Qed.

(** The disk after one iteration of the loop. *)
Definition chunk_update (prev : option Z) (c : Z) (d : list Z) (k : disk) : disk :=
  <[cluster_start b c := d]> (link_update b prev c k).

Lemma link_update_outside prev c k n :
  in_fat b c → (∀ p, prev = Some p → in_fat b p) →
  n < reserved_sectors b ∨ data_start b ≤ n → link_update b prev c k n = k n.
Proof.
  intros Hc Hp Hn. unfold link_update.
  rewrite (fat_update_outside b _ _ Hgeo) by done.
  destruct prev; [|done]. rewrite (fat_update_outside b _ _ Hgeo); eauto.
Qed.

Lemma link_update_disk_ok prev c k : disk_ok k → disk_ok (link_update b prev c k).
Proof. intros. unfold link_update. destruct prev; eauto using fat_update_disk_ok. Qed.

Lemma chunk_update_mirror prev c d k :
  data_cluster limit c → (∀ p, prev = Some p → in_fat b p) →
  num_fats b > 1 → fat_mirrored b k → fat_mirrored b (chunk_update prev c d k).
Proof.
  intros Hc Hp Hn Hm. pose proof (data_cluster_in_fat _ _ Hgeo c Hc) as Hin.
  assert (Hl : fat_mirrored b (link_update b prev c k)).
  { unfold link_update. apply fat_update_mirrored; [done..|].
    destruct prev; [apply fat_update_mirrored; eauto|done]. }
  pose proof (cluster_start_outside c Hc) as Hs. unfold data_start in Hs.
  pose proof (geo_spf _ _ _ Hgeo).
  intros i Hi. unfold chunk_update. rewrite !fn_lookup_insert_ne by nia. by apply Hl.
Qed.

(** Clusters that have been linked are not free. *)
Lemma written_not_free k0 k cs ds c :
  written k0 k cs ds → c ∈ cs → fat_entry k b c ≠ 0.
Proof.
  intros Hw Hc. apply list_elem_of_lookup in Hc as [i Hi].
  rewrite (w_links _ _ _ _ Hw i c Hi). destruct (cs !! Datatypes.S i) as [d|] eqn:Hd; [|done].
  eapply Forall_lookup in Hd; [|apply Hw]. unfold data_cluster in Hd. simpl. lia.
Qed.

Lemma last_in_fat cs p : Forall (data_cluster limit) cs → last cs = Some p → in_fat b p.
Proof.
  intros Hcs Hp. apply last_Some in Hp as [l ->]. apply Forall_app in Hcs as [_ Hp].
  apply Forall_cons in Hp as [Hp _]. by eapply data_cluster_in_fat.
Qed.

Lemma NoDup_last_lookup (cs : list Z) i d :
  NoDup cs → cs !! i = Some d → last cs = Some d ↔ Datatypes.S i = length cs.
Proof.
  intros Hnd Hi. rewrite last_lookup. split.
  - intros Hl. assert (i = Nat.pred (length cs)) by by eapply NoDup_lookup.
    apply lookup_lt_Some in Hi. lia.
  - intros Hl. by rewrite <-Hl.
Qed.

Lemma fat_entry_chunk k prev c d e :
  disk_ok k → data_cluster limit c → (∀ p, prev = Some p → in_fat b p) → in_fat b e →
  fat_entry (chunk_update prev c d k) b e =
    if decide (e = c) then EOC_MIN
    else if decide (prev = Some e) then c else fat_entry k b e.
Proof.
  intros. unfold chunk_update. rewrite fat_entry_data_write by done.
  eapply fat_entry_link; try done. by eapply data_cluster_in_fat.
Qed.

Lemma written_links_snoc k0 k cs ds c d i e :
  written k0 k cs ds → data_cluster limit c → fat_entry k b c = 0 →
  (cs ++ [c]) !! i = Some e →
  fat_entry (chunk_update (last cs) c d k) b e =
    default EOC_MIN ((cs ++ [c]) !! Datatypes.S i).
Proof.
  intros Hw Hc Hfree Hi. pose proof (w_clusters _ _ _ _ Hw) as Hcs.
  assert (He : in_fat b e).
  { eapply data_cluster_in_fat; [done|]. eapply (Forall_lookup_1 _ (cs ++ [c])); [|done].
    apply Forall_app. split; [done|]. by apply Forall_singleton. }
  rewrite fat_entry_chunk; [|apply Hw|done|by intros; eapply last_in_fat|done].
  apply lookup_app_Some in Hi as [Hi|[Hge Hi]].
  - assert (Hne : e ≠ c).
    { intros ->. eapply written_not_free; [done| |done]. by eapply list_elem_of_lookup_2. }
    rewrite (decide_False (P := e = c)) by done.
    pose proof (NoDup_last_lookup cs i e (w_nodup _ _ _ _ Hw) Hi) as Hl.
    case_decide as Hlast.
    + apply Hl in Hlast. rewrite Hlast, lookup_app_r, Nat.sub_diag by done. done.
    + rewrite Hl in Hlast. apply lookup_lt_Some in Hi as Hlt. rewrite lookup_app_l by lia.
      by apply (w_links _ _ _ _ Hw).
  - destruct (i - length cs)%nat eqn:Hz; simplify_eq/=.
    rewrite decide_True by done. rewrite lookup_ge_None_2; [done|].
    rewrite length_app. simpl. lia.
Qed.

Lemma written_snoc k0 k cs ds c d :
  written k0 k cs ds → sector_ok d → data_cluster limit c → fat_entry k b c = 0 →
  written k0 (chunk_update (last cs) c d k) (cs ++ [c]) (ds ++ [d]).
Proof.
  intros Hw Hd Hc Hfree. pose proof (data_cluster_in_fat _ _ Hgeo c Hc) as Hin.
  assert (Hlast : ∀ p, last cs = Some p → in_fat b p) by (intros; eapply last_in_fat; [apply Hw|done]).
  assert (Hnin : c ∉ cs) by (intros ?; by eapply written_not_free).
  split.
  - apply disk_ok_insert; [|done]. apply link_update_disk_ok, Hw.
  - rewrite !length_app. by rewrite (w_length _ _ _ _ Hw).
  - apply NoDup_app. split_and!; [apply Hw| |apply NoDup_singleton].
    intros x Hx ->%list_elem_of_singleton. done.
  - apply Forall_app. split; [apply Hw|by apply Forall_singleton].
  - intros. by eapply written_links_snoc.
  - intros e He [Hne1 Hne2%not_elem_of_cons]%not_elem_of_app.
    rewrite fat_entry_chunk by (done || apply Hw). rewrite decide_False by tauto.
    rewrite decide_False; [by apply (w_fat _ _ _ _ Hw)|].
    intros [l ->]%last_Some. apply Hne1, elem_of_app. right. left.
  - intros i e d' He Hd'. unfold chunk_update. pose proof (w_length _ _ _ _ Hw) as Hlen.
    apply lookup_app_Some in He as [He|[Hge He]].
    + apply lookup_lt_Some in He as Hlt. rewrite lookup_app_l in Hd' by lia.
      assert (Hne : e ≠ c) by (intros ->; by apply Hnin, list_elem_of_lookup; eauto).
      rewrite fn_lookup_insert_ne.
      2: { intros Heq. destruct Hgeo. apply Hne.
           apply (cluster_start_inj b e 0 c 0); lia. }
      rewrite link_update_outside; [by eapply (w_data _ _ _ _ Hw)|done..|].
      right. apply cluster_start_outside. by eapply Forall_lookup in He; [|apply Hw].
    + rewrite lookup_app_r in Hd' by lia. rewrite Hlen in He.
      destruct (i - length ds)%nat; simplify_eq/=. by rewrite fn_lookup_insert.
  - intros n Hn Hnot. rewrite fmap_app, not_elem_of_app in Hnot. destruct Hnot as [Hn1 Hn2].
    apply not_elem_of_cons in Hn2 as [Hn2 _].
    unfold chunk_update. rewrite fn_lookup_insert_ne by done.
    rewrite link_update_outside by done. by apply (w_outside _ _ _ _ Hw).
  - intros. apply chunk_update_mirror; [done..|]. by apply (w_mirror _ _ _ _ Hw).
Qed.

(** One iteration takes the first free cluster. *)
Lemma write_chunk_ok s k0 k cs ds c rest chunk :
  disk_repr s k → written k0 k cs ds → free_list k b = c :: rest →
  data_cluster limit c → Forall is_u8 chunk →
  runs (write_chunk fs (head cs, last cs) chunk) s
    (Ok (head (cs ++ [c]), last (cs ++ [c])))
    (λ s', ∃ k', disk_repr s' k' ∧ written k0 k' (cs ++ [c]) (ds ++ [pad_sector chunk]) ∧
           free_list k' b = rest).
Proof.
  intros Hr Hw Hfree Hc Hchunk. pose proof (w_ok _ _ _ _ Hw) as Hk.
  assert (Hlast : ∀ p, last cs = Some p → in_fat b p) by (intros; eapply last_in_fat; [apply Hw|done]).
  assert (Hin : c ∈ free_list k b) by (rewrite Hfree; left).
  apply elem_of_free_list in Hin as (Hin & _ & Hzero).
  unfold write_chunk. eapply runs_bind; [by eapply allocate_cluster_ok|]. intros s1 Hs1.
  cbn [boot_sector fs]. rewrite (cluster_to_sector_ok _ _ _ Hgeo) by done. apply runs_bind_lift.
  eapply runs_bind.
  { eapply (sector_write_spec s1 (link_update b (last cs) c k) (cluster_start b c) (pad_sector chunk)); [done| |by apply pad_sector_ok].
    pose proof (cluster_sector_bound _ _ _ Hgeo c 0 Hc) as Hb.
    pose proof (data_start_bound _ _ _ Hgeo). destruct Hgeo. lia. }
  intros s2 Hs2. rewrite last_snoc, head_snoc. apply runs_ret.
  exists (chunk_update (last cs) c (pad_sector chunk) k). split; [done|].
  split; [apply written_snoc; [done|by apply pad_sector_ok|done..]|].
  eapply free_list_take; [done|..].
  - rewrite fat_entry_chunk by done. by rewrite decide_True.
  - intros d Hd Hne. rewrite fat_entry_chunk by done. rewrite decide_False by done.
    case_decide as Hd'; [|done]. unfold data_cluster in Hc. split; [lia|]. intros Hz. exfalso.
    eapply written_not_free; [done| |done]. apply last_Some in Hd' as [l ->].
    apply elem_of_app. right. left.
Qed.

Lemma write_chunks_ok s k0 k cs ds fresh rest chunks :
  disk_repr s k → written k0 k cs ds → free_list k b = fresh ++ rest →
  length fresh = length chunks → Forall (data_cluster limit) fresh →
  Forall (Forall is_u8) chunks →
  runs (fold_io (write_chunk fs) (head cs, last cs) chunks) s
    (Ok (head (cs ++ fresh), last (cs ++ fresh)))
    (λ s', ∃ k', disk_repr s' k' ∧
           written k0 k' (cs ++ fresh) (ds ++ (pad_sector <$> chunks)) ∧
           free_list k' b = rest).
Proof.
  revert s k cs ds fresh.
  induction chunks as [|chunk chunks IH]; intros s k cs ds fresh Hr Hw Hfree Hlen Hdc Hu8.
  - destruct fresh; [|done]. rewrite fmap_nil, !app_nil_r. apply runs_ret. eauto.
  - destruct fresh as [|c fresh]; [done|].
    apply Forall_cons in Hdc as [Hc Hdc]. apply Forall_cons in Hu8 as [Hchunk Hu8].
    cbn [fold_io].
    eapply runs_bind; [by eapply (write_chunk_ok s k0 k cs ds c (fresh ++ rest))|].
    intros s1 (k1 & Hr1 & Hw1 & Hf1). rewrite fmap_cons.
    rewrite (cons_middle c cs fresh).
    rewrite (cons_middle (pad_sector chunk) ds (pad_sector <$> chunks)), !app_assoc.
    eapply IH; try done. simpl in Hlen. lia.
Qed.

(** ** The finished operation *)

Section finished.
Context (k0 k1 : disk) (cs : list Z) (ds : list (list Z)) (Hw : written k0 k1 cs ds).

(** A cluster that was in use before is untouched. *)
Lemma written_used c i :
  data_cluster limit c → fat_entry k0 b c ≠ 0 →
  Forall (λ d, fat_entry k0 b d = 0) cs → 0 ≤ i < sectors_per_cluster b →
  fat_entry k1 b c = fat_entry k0 b c ∧ k1 (cluster_start b c + i) = k0 (cluster_start b c + i).
Proof.
  intros Hc Hne Hcs Hi. rewrite Forall_forall in Hcs.
  assert (Hnin : c ∉ cs) by (intros Hin; by apply Hne, Hcs).
  split.
  - apply (w_fat _ _ _ _ Hw); [by eapply data_cluster_in_fat|done].
  - apply (w_outside _ _ _ _ Hw).
    + right. pose proof (cluster_sector_bound _ _ _ Hgeo c i Hc Hi). lia.
    + intros (d & Heq & Hd)%list_elem_of_fmap. apply Hnin.
      rewrite <-(Z.add_0_r (cluster_start b d)) in Heq.
      apply cluster_start_inj in Heq as [-> _]; [done|done|lia].
Qed.

Lemma written_chain c l :
  chain (fat_entry k0 b) c l → Forall (data_cluster limit) l →
  Forall (λ d, fat_entry k0 b d ≠ 0) l → Forall (λ d, fat_entry k0 b d = 0) cs →
  chain (fat_entry k1 b) c l ∧ ∀ n, n ∈ chain_sectors b l → k1 n = k0 n.
Proof.
  intros Hc Hl Hne Hcs. rewrite Forall_forall in Hl. rewrite Forall_forall in Hne. split.
  - eapply chain_ext; [done|]. intros d Hd.
    destruct (written_used d 0) as [? _]; auto. destruct Hgeo. lia.
  - intros n (d & i & Hd & Hi & ->)%elem_of_chain_sectors.
    destruct (written_used d i) as [_ ?]; auto.
Qed.

End finished.

(** The FAT is not touched by a write to a data sector. *)
Lemma fat_entry_slot_write k p e c :
  data_start b ≤ p.1 → in_fat b c → fat_entry (slot_write p e k) b c = fat_entry k b c.
Proof.
  intros Hp [Hc _]%in_fat_sector. pose proof (data_start_bound _ _ _ Hgeo).
  unfold fat_entry, slot_write. rewrite fn_lookup_insert_ne by lia. done.
Qed.

Lemma slot_write_other p e k n : n ≠ p.1 → slot_write p e k n = k n.
Proof. intros. unfold slot_write. by rewrite fn_lookup_insert_ne. Qed.

Lemma first_free_ext k k' slots :
  (∀ q, q ∈ slots → k' q.1 = k q.1) → first_free k' slots = first_free k slots.
Proof.
  intros Hq. unfold first_free. f_equal. apply filter_ext_in. intros q Hin.
  unfold slot_free. by rewrite Hq.
Qed.

Lemma elem_of_dir_slots l q :
  q ∈ dir_slots b l → q.1 ∈ chain_sectors b l.
Proof.
  unfold dir_slots, sector_slots. rewrite list_elem_of_bind. intros (n & Hq & Hn).
  by apply list_elem_of_fmap in Hq as (i & -> & _).
Qed.

Lemma chain_sectors_outside l n :
  Forall (data_cluster limit) l → n ∈ chain_sectors b l → data_start b ≤ n.
Proof.
  intros Hl (c & i & Hc & Hi & ->)%elem_of_chain_sectors. rewrite Forall_forall in Hl.
  pose proof (cluster_sector_bound _ _ _ Hgeo c i (Hl c Hc) Hi). lia.
Qed.

(** ** [create_file] *)

Definition file_chunks (data : list Z) : list (list Z) :=
  chunks (512 * Z.to_nat (sectors_per_cluster b)) data.

(** The clusters a new file gets: the first free ones. *)
Definition new_clusters (k : disk) (data : list Z) : list Z :=
  take (length (file_chunks data)) (free_list k b).

Definition new_entry (k : disk) (nm data : list Z) : DirEntry :=
  MkEntry (stored_name nm) 0x20 (default 0 (head (new_clusters k data)))
    (Z.of_nat (length data)).

(** The directory at [dc] has the clusters [l], in use, and [p] is its first
    free slot; there are free clusters for [data]. *)
Record create_pre (k : disk) (dc : Z) (l nm data : list Z) (p : Z * nat) : Prop := {
  cp_dir : chain (fat_entry k b) dc l;
  cp_dir_data : Forall (data_cluster limit) l;
  cp_dir_used : Forall (λ c, fat_entry k b c ≠ 0) l;
  cp_dir_length : (length l ≤ MAX_ITERATIONS)%nat;
  cp_slot : first_free k (dir_slots b l) = Some p;
  cp_name : (length nm ≤ 12)%nat;
  cp_name_u8 : Forall is_u8 nm;
  cp_nameable : nameable nm;
  cp_data : Forall is_u8 data;
  cp_size : is_u32 (Z.of_nat (length data));
  cp_room : (length (file_chunks data) ≤ length (free_list k b))%nat;
  cp_limit : Forall (data_cluster limit) (new_clusters k data);
}.

Lemma new_clusters_free k data : Forall (λ c, fat_entry k b c = 0) (new_clusters k data).
Proof.
  apply Forall_take, Forall_forall. intros c (_ & _ & ?)%elem_of_free_list. done.
Qed.

Lemma first_cluster_u32 k data :
  Forall (data_cluster limit) (new_clusters k data) →
  is_u32 (default 0 (head (new_clusters k data))).
Proof.
  destruct (new_clusters k data) as [|c cs]; intros Hcs; [simpl; width|].
  apply Forall_cons in Hcs as [Hc _]. pose proof (geo_eoc _ _ _ Hgeo).
  unfold data_cluster, EOC_MIN in *. simpl. width.
Qed.

Lemma create_file_ok s k dc l nm data p :
  disk_repr s k → create_pre k dc l nm data p →
  let e := create_dir_entry nm (first_cluster (new_entry k nm data)) (Z.of_nat (length data)) in
  runs (create_file fs dc nm data) s (Ok tt)
    (λ s', ∃ k1, disk_repr s' (slot_write p e k1) ∧
           written k k1 (new_clusters k data) (pad_sector <$> file_chunks data)).
Proof.
  intros Hr Hpre e. pose proof (geo_cluster _ _ _ Hgeo) as Hspc. destruct Hpre.
  unfold create_file. rewrite decide_False by lia. cbn [boot_sector fs]. cbv zeta.
  rewrite decide_False by lia. fold (file_chunks data).
  eapply runs_bind.
  { eapply (write_chunks_ok s k k [] [] (new_clusters k data)
      (drop (length (file_chunks data)) (free_list k b))); try done.
    - apply written_nil. by eapply disk_repr_ok.
    - unfold new_clusters. by rewrite take_drop.
    - unfold new_clusters. rewrite length_take. lia.
    - by apply chunks_fuel_Forall. }
  intros s1 (k1 & Hr1 & Hw & _). cbn [app] in *. rewrite wrap_small by done.
  destruct (written_chain k k1 _ _ Hw dc l) as [Hc Hsec]; [done..|apply new_clusters_free|].
  assert (Hff : first_free k1 (dir_slots b l) = Some p).
  { rewrite <-cp_slot0. apply first_free_ext. intros q Hq. by apply Hsec, elem_of_dir_slots. }
  pose proof (write_dir_entry_ok _ _ Hgeo s1 k1 dc e l) as Hwr. rewrite Hff in Hwr.
  eapply runs_mono; [apply Hwr; try done|].
  - apply length_create_dir_entry.
  - by apply create_dir_entry_u8.
  - intros s2 Hs2. exists k1. split; [|done]. unfold fill_slot in Hs2. by rewrite Hff in Hs2.
Qed.

Lemma file_bytes_ext k k' l :
  (∀ n, n ∈ chain_sectors b l → k' n = k n) → file_bytes k' b l = file_bytes k b l.
Proof.
  unfold file_bytes. induction (chain_sectors b l) as [|n ns IH]; intros Hn; [done|].
  rewrite !bind_cons, IH, Hn by set_solver. done.
Qed.

(** With one-sector clusters the bytes of the file are the sectors written. *)
Lemma written_bytes_one k0 k cs ds :
  sectors_per_cluster b = 1 → written k0 k cs ds → file_bytes k b cs = mjoin ds.
Proof.
  intros Hone Hw. unfold file_bytes, chain_sectors. rewrite bind_assoc, list_join_bind.
  assert (Hmap : k ∘ cluster_start b <$> cs = ds).
  { apply list_eq_same_length with (length ds); [done|by rewrite length_fmap, (w_length _ _ _ _ Hw)|].
    intros i x y _ Hx Hy. apply list_lookup_fmap_Some in Hx as (c & -> & Hc).
    by eapply (w_data _ _ _ _ Hw). }
  rewrite <-Hmap, bind_fmap. apply list_bind_ext; [|done]. intros c.
  unfold cluster_sectors. rewrite Hone. simpl. by rewrite Z.add_0_r, app_nil_r.
Qed.

Lemma file_chunks_single data :
  data ≠ [] → (length data ≤ 512)%nat → file_chunks data = [data].
Proof.
  intros Hne Hlen. pose proof (geo_cluster _ _ _ Hgeo). unfold file_chunks, chunks.
  destruct data as [|x data]; [done|]. cbn [length chunks_fuel].
  rewrite take_ge, drop_ge by (simpl in *; lia). by destruct (length data).
Qed.

Lemma written_bytes k0 k cs data :
  data ≠ [] → sectors_per_cluster b = 1 ∨ (length data ≤ 512)%nat →
  written k0 k cs (pad_sector <$> file_chunks data) →
  take (length data) (file_bytes k b cs) = data.
Proof.
  intros Hne [Hone|Hshort] Hw.
  - rewrite (written_bytes_one _ _ _ _ Hone Hw). unfold file_chunks. rewrite Hone.
    by apply chunks_fuel_pad.
  - rewrite file_chunks_single in Hw by done. pose proof (w_length _ _ _ _ Hw) as Hlen.
    destruct cs as [|c []]; try done.
    pose proof (w_data _ _ _ _ Hw 0%nat c (pad_sector data) eq_refl eq_refl) as Hd.
    unfold file_bytes, chain_sectors, cluster_sectors. rewrite bind_cons, app_nil_r.
    pose proof (geo_cluster _ _ _ Hgeo). rewrite seqZ_cons, fmap_cons, bind_cons by lia.
    rewrite Z.add_0_r, Hd, pad_sector_short, <-app_assoc by done. apply take_app_length.
Qed.

(** The disk after [create_file], seen from a chain [l'] whose clusters are
    not those of the directory. *)
Lemma created_chain k k1 l p e c l' :
  first_free k (dir_slots b l) = Some p → Forall (data_cluster limit) l →
  chain (fat_entry k1 b) c l' → Forall (data_cluster limit) l' →
  (∀ d, d ∈ l → d ∉ l') →
  chain (fat_entry (slot_write p e k1) b) c l' ∧
  file_bytes (slot_write p e k1) b l' = file_bytes k1 b l'.
Proof.
  intros Hp Hl Hc Hl' Hdisj.
  assert (Hin : p.1 ∈ chain_sectors b l).
  { apply elem_of_dir_slots. apply head_Some_elem_of, list_elem_of_filter in Hp. tauto. }
  pose proof (chain_sectors_outside l p.1 Hl Hin) as Hout. split.
  - eapply chain_ext; [done|]. intros d Hd. rewrite Forall_forall in Hl'.
    apply fat_entry_slot_write; [done|]. by eapply data_cluster_in_fat, Hl'.
  - apply file_bytes_ext. intros n Hn. apply slot_write_other. intros ->.
    apply elem_of_chain_sectors in Hin as (d1 & i1 & Hd1 & Hi1 & Heq1).
    apply elem_of_chain_sectors in Hn as (d2 & i2 & Hd2 & Hi2 & Heq2).
    rewrite Heq1 in Heq2. apply cluster_start_inj in Heq2 as [-> _]; [|done..].
    by eapply Hdisj.
Qed.

Lemma new_chain k k1 nm data :
  data ≠ [] → written k k1 (new_clusters k data) (pad_sector <$> file_chunks data) →
  chain (fat_entry k1 b) (first_cluster (new_entry k nm data)) (new_clusters k data).
Proof.
  intros Hne Hw. pose proof (w_length _ _ _ _ Hw) as Hlen. rewrite length_fmap in Hlen.
  apply links_chain; [|apply Hw|].
  - cbn [first_cluster new_entry]. destruct (new_clusters k data); [|done].
    by destruct data.
  - eapply Forall_impl; [apply Hw|]. unfold data_cluster. pose proof (geo_eoc _ _ _ Hgeo). lia.
Qed.

(** A free cluster is not one of a chain in use. *)
Lemma used_not_new k data l d :
  Forall (λ c, fat_entry k b c ≠ 0) l → d ∈ l → d ∉ new_clusters k data.
Proof.
  intros Hu Hd Hd'. pose proof (new_clusters_free k data) as Hf.
  rewrite Forall_forall in Hf. rewrite Forall_forall in Hu. by apply (Hu d), Hf.
Qed.

(** C3. create_file succeeds when the volume has enough free clusters and the
    directory a free slot, and read_file on the entry it created then returns
    exactly the data, for non-empty data that fills at most MAX_ITERATIONS
    (10000) clusters, on volumes with one sector per cluster (or for data of
    at most 512 bytes). *)
Theorem create_file_read_back s k dc l nm data p :
  disk_repr s k → create_pre k dc l nm data p →
  data ≠ [] → (length (file_chunks data) ≤ MAX_ITERATIONS)%nat →
  sectors_per_cluster b = 1 ∨ (length data ≤ 512)%nat →
  runs (create_file (MkFat32 b) dc nm data) s (Ok tt) (λ s',
    runs (read_file (MkFat32 b) (new_entry k nm data)) s' (Ok data) (λ _, True)).
Proof.
  intros Hr Hpre Hne Hmax Hspc. eapply runs_mono; [by eapply create_file_ok|].
  intros s' (k1 & Hr' & Hw). cbv beta in *.
  pose proof (w_length _ _ _ _ Hw) as Hlen. rewrite length_fmap in Hlen.
  pose proof (new_chain k k1 nm data Hne Hw) as Hc.
  eapply created_chain in Hc as [Hc2 Hb2];
    [|by apply Hpre|by apply Hpre|apply Hw|intros d; eapply used_not_new, Hpre].
  pose proof (read_file_ok _ _ Hgeo s' _ _ _ Hr' Hc2 (w_clusters _ _ _ _ Hw)) as Hread.
  rewrite Hb2 in Hread. cbn [file_size new_entry] in Hread.
  rewrite Nat2Z.id, (written_bytes _ _ _ _ Hne Hspc Hw) in Hread.
  eapply runs_mono; [apply Hread; lia|done].
Qed.

Lemma dir_entries_ext k k' l :
  (∀ n, n ∈ chain_sectors b l → k' n = k n) → dir_entries k' b l = dir_entries k b l.
Proof.
  intros Hn. unfold dir_entries. f_equal. apply list_fmap_ext.
  intros i q Hq%list_elem_of_lookup_2. simpl. unfold slot_record.
  by rewrite Hn by by apply elem_of_dir_slots.
Qed.

(** Filling the first free slot inserts the entry into the listing. *)
Lemma dir_entries_fill k l p e :
  disk_ok k → NoDup l → first_free k (dir_slots b l) = Some p →
  length e = 32%nat → is_valid (decode_entry e) →
  ∃ pre post, dir_entries k b l = pre ++ post ∧
    dir_entries (slot_write p e k) b l = pre ++ decode_entry e :: post.
Proof.
  intros Hk Hnd Hff He Hv. apply head_Some_elem_of, list_elem_of_filter in Hff as [Hfree Hin].
  apply list_elem_of_split in Hin as (s1 & s2 & Hs).
  pose proof (NoDup_dir_slots b l Hnd) as Hnd'. pose proof (dir_slots_index b l) as Hidx.
  unfold dir_entries. rewrite Hs in *.
  destruct (dir_entries_insert k s1 p s2 e) as [-> ->]; try done. eauto.
Qed.

Lemma first_free_in k l p :
  Forall (data_cluster limit) l → first_free k (dir_slots b l) = Some p → data_start b ≤ p.1.
Proof.
  intros Hl Hp. apply head_Some_elem_of, list_elem_of_filter in Hp as [_ Hp].
  by eapply chain_sectors_outside, elem_of_dir_slots.
Qed.

Lemma create_file_listed s k dc l nm data p :
  disk_repr s k → create_pre k dc l nm data p →
  runs (create_file (MkFat32 b) dc nm data) s (Ok tt) (λ s', ∃ k',
    disk_repr s' k' ∧
    (∀ c, in_fat b c → c ∉ new_clusters k data → fat_entry k' b c = fat_entry k b c) ∧
    ∃ pre post, dir_entries k b l = pre ++ post ∧
      runs (list_directory (MkFat32 b) dc) s'
        (Ok (pre ++ new_entry k nm data :: post)) (λ s'', disk_repr s'' k')).
Proof.
  intros Hr Hpre. eapply runs_mono; [by eapply create_file_ok|].
  intros s' (k1 & Hr' & Hw). cbv beta in *. destruct Hpre.
  destruct (written_chain k k1 _ _ Hw dc l) as [Hc Hsec]; [done..|apply new_clusters_free|].
  assert (Hff : first_free k1 (dir_slots b l) = Some p).
  { rewrite <-cp_slot0. apply first_free_ext. intros q Hq. by apply Hsec, elem_of_dir_slots. }
  pose proof (first_free_in k1 l p cp_dir_data0 Hff) as Hp.
  set (e := create_dir_entry _ _ _) in *.
  assert (He : decode_entry e = new_entry k nm data).
  { by apply decode_create_dir_entry; [apply first_cluster_u32|]. }
  destruct (dir_entries_fill k1 l p e) as (pre & post & Hold & Hnew); try done.
  { apply Hw. } { by eapply chain_NoDup. } { apply length_create_dir_entry. }
  { rewrite He. by apply stored_name_valid. }
  eexists. split; [done|]. split.
  { intros c Hin Hc'. rewrite fat_entry_slot_write by done. by apply (w_fat _ _ _ _ Hw). }
  exists pre, post. rewrite <-He, <-Hnew, <-Hold. split; [symmetry; by apply dir_entries_ext|].
  eapply list_directory_ok; try done.
  eapply chain_ext; [done|]. intros d Hd. apply fat_entry_slot_write; [done|].
  rewrite Forall_forall in cp_dir_data0. by eapply data_cluster_in_fat, cp_dir_data0.
Qed.

(** C6. After create_file, for a name whose first byte is neither 0 nor 0xE5,
    list_directory returns the old listing with exactly one entry inserted:
    the new name, the archive attribute, the first of the new clusters and the
    length of the data. *)
Theorem create_file_lists s k dc l nm data p :
  disk_repr s k → create_pre k dc l nm data p →
  runs (create_file (MkFat32 b) dc nm data) s (Ok tt) (λ s',
    ∃ pre post, dir_entries k b l = pre ++ post ∧
      runs (list_directory (MkFat32 b) dc) s'
        (Ok (pre ++ new_entry k nm data :: post)) (λ _, True)).
Proof.
  intros Hr Hpre. eapply runs_mono; [by eapply create_file_listed|].
  intros s' (k' & _ & _ & pre & post & Hold & Hl). exists pre, post. split; [done|].
  by eapply runs_mono.
Qed.

(** C40. An empty file cannot be read back: create_file on empty data succeeds
    when the directory has a free slot, and the directory then lists an entry
    with first cluster 0, on which read_file panics in a build with overflow
    checks, on a volume whose FAT entry 0 is an end-of-chain value. *)
Theorem create_file_empty_unreadable s k dc l nm p :
  (overflow_checks : bool) = true → fat_entry k b 0 >= EOC_MIN →
  disk_repr s k → create_pre k dc l nm [] p →
  runs (create_file (MkFat32 b) dc nm []) s (Ok tt) (λ s', ∃ pre post,
    runs (list_directory (MkFat32 b) dc) s'
      (Ok (pre ++ MkEntry (stored_name nm) 0x20 0 0 :: post)) (λ s'',
      runs (read_file (MkFat32 b) (MkEntry (stored_name nm) 0x20 0 0)) s'' Panic (λ _, True))).
Proof.
  intros Hdbg Hz Hr Hpre. eapply runs_mono; [by eapply create_file_listed|].
  intros s' (k' & _ & Hf & pre & post & _ & Hl). exists pre, post.
  eapply runs_mono; [done|]. intros s'' Hr'.
  eapply runs_mono; [apply (read_file_cluster_zero s'' k' b limit); try done|done].
  rewrite Hf; [done| |apply not_elem_of_nil]. unfold in_fat. destruct Hgeo. lia.
Qed.

(** C7. create_file leaves every other file alone: a file whose clusters are in
    use and are not those of the directory reads back the bytes it had before. *)
Theorem create_file_frame s k dc l nm data p e' l' :
  disk_repr s k → create_pre k dc l nm data p →
  chain (fat_entry k b) (first_cluster e') l' → Forall (data_cluster limit) l' →
  Forall (λ c, fat_entry k b c ≠ 0) l' → (length l' ≤ MAX_ITERATIONS)%nat →
  (∀ d, d ∈ l → d ∉ l') →
  runs (create_file (MkFat32 b) dc nm data) s (Ok tt) (λ s',
    runs (read_file (MkFat32 b) e') s'
      (Ok (take (Z.to_nat (file_size e')) (file_bytes k b l'))) (λ _, True)).
Proof.
  intros Hr Hpre Hc Hl' Hu Hn Hdisj. eapply runs_mono; [by eapply create_file_ok|].
  intros s' (k1 & Hr' & Hw). cbv beta in *.
  destruct (written_chain k k1 _ _ Hw (first_cluster e') l') as [Hc1 Hsec];
    [done..|apply new_clusters_free|].
  eapply created_chain in Hc1 as [Hc2 Hb2]; [|by apply Hpre|by apply Hpre|done..].
  rewrite <-(file_bytes_ext k k1 l' Hsec), <-Hb2.
  eapply runs_mono; [by apply (read_file_ok _ _ Hgeo)|done].
Qed.

(** C38. When the volume has too few free clusters for the data, all of them in
    its data area, create_file returns the error only after it has taken all
    of them: the clusters that were free are all marked in use, no cluster is
    free afterwards, and every directory whose clusters were in use lists what
    it listed before, without an entry for the new file. *)
Theorem create_file_full_leaks s k dc nm data :
  disk_repr s k → (length nm ≤ 12)%nat → Forall is_u8 data →
  Forall (data_cluster limit) (free_list k b) →
  (length (free_list k b) < length (file_chunks data))%nat →
  runs (create_file (MkFat32 b) dc nm data) s (Err "No free clusters available") (λ s', ∃ k',
    disk_repr s' k' ∧ free_list k' b = [] ∧
    Forall (λ c, fat_entry k' b c ≠ 0) (free_list k b) ∧
    (∀ c l, chain (fat_entry k b) c l → Forall (data_cluster limit) l →
      Forall (λ d, fat_entry k b d ≠ 0) l → (length l ≤ MAX_ITERATIONS)%nat →
      runs (list_directory (MkFat32 b) c) s' (Ok (dir_entries k b l)) (λ _, True))).
Proof.
  intros Hr Hnm Hu8 Hfree Hlt. pose proof (geo_cluster _ _ _ Hgeo).
  unfold create_file. rewrite decide_False by lia. cbn [boot_sector]. cbv zeta.
  rewrite decide_False by lia. fold (file_chunks data). apply runs_bind_err.
  assert (Hch : Forall (Forall is_u8) (file_chunks data)) by by apply chunks_fuel_Forall.
  rewrite <-(take_drop (length (free_list k b)) (file_chunks data)) in Hch |- *.
  apply Forall_app in Hch as [Hch _].
  destruct (drop _ _) as [|chunk rest] eqn:Hdrop.
  { apply (f_equal length) in Hdrop. rewrite length_drop in Hdrop. simpl in Hdrop. lia. }
  eapply fold_io_app.
  - eapply (write_chunks_ok s k k [] [] (free_list k b) []); try done.
    + apply written_nil. by eapply disk_repr_ok.
    + by rewrite app_nil_r.
    + rewrite length_take. lia.
  - intros s' (k' & Hr' & Hw & Hnil). cbn [fold_io]. apply runs_bind_err.
    unfold write_chunk. apply runs_bind_err.
    eapply runs_mono; [by eapply allocate_cluster_full|]. intros s2 Hs2. cbn [app] in Hw.
    exists k'. split; [done|]. split; [done|]. split.
    + apply Forall_forall. intros c Hc. by eapply written_not_free.
    + intros c l Hc Hl Hu Hn.
      destruct (written_chain k k' _ _ Hw c l) as [Hc' Hsec]; [done..| |].
      { apply Forall_forall. by intros d (_ & _ & ?)%elem_of_free_list. }
      rewrite <-(dir_entries_ext k k' l Hsec).
      by eapply runs_mono; [eapply list_directory_ok|].
Qed.

(** [create_file] preserves the equality of the two copies of the FAT. *)
Theorem create_file_keeps_mirror s k dc l nm data p :
  disk_repr s k → create_pre k dc l nm data p →
  num_fats b > 1 → fat_mirrored b k →
  runs (create_file (MkFat32 b) dc nm data) s (Ok tt)
    (λ s', ∃ k', disk_repr s' k' ∧ fat_mirrored b k').
Proof.
  intros Hr Hpre Hn Hm. eapply runs_mono; [by eapply create_file_ok|].
  intros s' (k1 & Hr' & Hw). eexists. split; [done|]. intros i Hi.
  assert (Hp : data_start b ≤ p.1) by (destruct Hpre; by apply (first_free_in k l)).
  unfold data_start in Hp. rewrite !slot_write_other by nia. by apply (w_mirror _ _ _ _ Hw).
Qed.

(** C39. create_file writes only the first sector of each cluster: on a volume
    with several sectors per cluster the other sectors of a new file's
    clusters keep their old contents, whatever the data. *)
Theorem create_file_skips_sectors s k dc l nm data p c i :
  disk_repr s k → create_pre k dc l nm data p →
  c ∈ new_clusters k data → 1 ≤ i < sectors_per_cluster b →
  runs (create_file (MkFat32 b) dc nm data) s (Ok tt) (λ s', ∃ k',
    disk_repr s' k' ∧ k' (cluster_start b c + i) = k (cluster_start b c + i)).
Proof.
  intros Hr Hpre Hc Hi. eapply runs_mono; [by eapply create_file_ok|].
  intros s' (k1 & Hr' & Hw). eexists. split; [done|].
  assert (Hdc : data_cluster limit c).
  { pose proof (w_clusters _ _ _ _ Hw) as Hcs. rewrite Forall_forall in Hcs. auto. }
  assert (Hp : p.1 ∈ chain_sectors b l).
  { apply elem_of_dir_slots. pose proof (cp_slot _ _ _ _ _ _ Hpre) as Hs.
    apply head_Some_elem_of, list_elem_of_filter in Hs. tauto. }
  rewrite slot_write_other.
  - apply (w_outside _ _ _ _ Hw).
    + right. pose proof (cluster_sector_bound _ _ _ Hgeo c i Hdc). lia.
    + intros (d & Heq & _)%list_elem_of_fmap. rewrite <-(Z.add_0_r (cluster_start b d)) in Heq.
      apply cluster_start_inj in Heq as [_ ?]; lia.
  - intros Heq. rewrite <-Heq in Hp.
    apply elem_of_chain_sectors in Hp as (d & j & Hd & Hj & Hs).
    apply cluster_start_inj in Hs as [-> _]; [|lia|done].
    eapply used_not_new; [|done|done]. apply Hpre.
Qed.

End create.
