(* ===== verification/Fat32Examples.v ===== *)
(** * FAT32 on a disk in memory

    A sector device held in memory discharges the driver interface; on it the
    theorems about the file system apply to concrete volumes. *)

From S2P Require Import Prelude Fat32 Fat32Spec Fat32Write Fat32Record Fat32Create.

(** ** The device *)

Module RamDisk.

(** The number of sectors of the device. *)
Definition size : Z := 400.

Definition t : Type := disk.

(** An access beyond the device does not complete. *)
#[global] Instance ram_io : SectorIO t := {|
  sector_read lba s := if decide (0 ≤ lba < size) then (s, Ok (s lba)) else (s, Hang);
  sector_write lba d s :=
    if decide (0 ≤ lba < size) then (<[lba := d]> s, Ok tt) else (s, Hang);
|}.

#[global] Instance ram_read_spec : SectorReadSpec t.
Proof.
  refine {| disk_repr s k := s = k ∧ disk_ok k; sector_count := size |}.
  - by intros s k [_ Hk].
  - intros s k lba [-> Hk] Hlba. exists k. simpl. by rewrite decide_True.
Defined.

#[global] Instance ram_write_spec : SectorWriteSpec t.
Proof.
  split. intros s k lba d [-> Hk] Hlba Hd. exists (<[lba := d]> k : disk). simpl.
  rewrite decide_True by done. split; [done|]. split; [done|]. by apply disk_ok_insert.
Qed.

End RamDisk.

(** ** Volumes *)

Definition zeros : list Z := replicate 512 0.

(** One reserved sector, two FATs of one sector, the root directory in
    cluster 2. *)
Definition boot_of (spc : Z) : BootSector := MkBoot 512 spc 1 2 129 1 2.

Definition boot_sector_of (spc : Z) : list Z :=
  list_inserts 0x0B (to_le_bytes 2 512 ++ [spc] ++ to_le_bytes 2 1 ++ [2])
    (list_inserts 0x20 (to_le_bytes 4 129 ++ to_le_bytes 4 1)
      (list_inserts 0x2C (to_le_bytes 4 2)
        (list_inserts 510 [0x55; 0xAA] zeros))).

(** A FAT sector with the given first entries; the others are [v]. *)
Definition fat_of (l : list Z) (v : Z) : list Z :=
  mjoin (to_le_bytes 4 <$> (l ++ replicate (128 - length l) v)).

(** "TEST.TXT", five bytes in cluster 3 *)
Definition test_name : list Z := [84; 69; 83; 84; 46; 84; 88; 84].
Definition test_data : list Z := [104; 101; 108; 108; 111].

Definition volume (spc : Z) (fat : list Z) : disk := λ n,
  if decide (n = 0) then boot_sector_of spc
  else if decide (n = 1 ∨ n = 2) then fat
  else if decide (n = 3) then list_inserts 0 (create_dir_entry test_name 3 5) zeros
  else if decide (n = 3 + spc) then pad_sector test_data
  else zeros.

Definition used4 : list Z := [0x0FFFFFF8; 0x0FFFFFFF; 0x0FFFFFFF; 0x0FFFFFFF].

(** Clusters 2 and 3 in use, the others free. *)
Definition vol1 : disk := volume 1 (fat_of used4 0).
Definition vol2 : disk := volume 2 (fat_of used4 0).

(** One free cluster left. *)
Definition vol_full : disk := volume 1 (fat_of (used4 ++ [0]) 0x0FFFFFFF).

(** A FAT whose cluster 4 is linked to itself. *)
Definition vol_loop : disk := volume 1 (fat_of (used4 ++ [4]) 0).

Ltac decide_now := apply (bool_decide_unpack _); vm_compute; exact I.

Lemma sector_ok_dec_now d :
  bool_decide (length d = 512%nat ∧ Forall is_u8 d) = true → sector_ok d.
Proof. apply bool_decide_eq_true. Qed.

Lemma volume_ok spc fat :
  sector_ok (boot_sector_of spc) → sector_ok fat → disk_ok (volume spc fat).
Proof.
  intros Hb Hf n. unfold volume.
  repeat case_decide; try done; apply sector_ok_dec_now; vm_compute; reflexivity.
Qed.

Ltac volume_now := split; [reflexivity|apply volume_ok; apply sector_ok_dec_now; vm_compute; reflexivity].

Lemma vol1_repr : disk_repr (vol1 : RamDisk.t) vol1.
Proof. volume_now. Qed.
Lemma vol2_repr : disk_repr (vol2 : RamDisk.t) vol2.
Proof. volume_now. Qed.
Lemma vol_full_repr : disk_repr (vol_full : RamDisk.t) vol_full.
Proof. volume_now. Qed.
Lemma vol_loop_repr : disk_repr (vol_loop : RamDisk.t) vol_loop.
Proof. volume_now. Qed.

Lemma boot1_geometry : geometry_ok (boot_of 1) (sector_count (S := RamDisk.t)) 128.
Proof. split; vm_compute; intuition congruence. Qed.
Lemma boot2_geometry : geometry_ok (boot_of 2) (sector_count (S := RamDisk.t)) 128.
Proof. split; vm_compute; intuition congruence. Qed.

#[global] Instance data_cluster_dec limit c : Decision (data_cluster limit c).
Proof. unfold data_cluster. apply _. Defined.
#[global] Instance in_fat_dec b c : Decision (in_fat b c).
Proof. unfold in_fat. apply _. Defined.

(** ** Instances of the theorems *)

(** "A.TXT" and 600 bytes of data *)
Definition new_name : list Z := [65; 46; 84; 88; 84].
Definition new_data : list Z := replicate 600 7.

Lemma root_chain spc : chain (fat_entry vol1 (boot_of spc)) 2 [2].
Proof. constructor. vm_compute. congruence. Qed.

Lemma vol1_create_pre :
  create_pre (boot_of 1) 128 vol1 2 [2] new_name new_data (3, 1%nat).
Proof.
  split; try (vm_compute; reflexivity); try decide_now; apply root_chain.
Qed.

Lemma vol2_create_pre :
  create_pre (boot_of 2) 128 vol2 2 [2] new_name new_data (3, 1%nat).
Proof.
  split; try (vm_compute; reflexivity); try decide_now. constructor. vm_compute. congruence.
Qed.

Lemma Fat32_new_correct_witness :
  runs (S := RamDisk.t) Fat32_new vol1
    (if decide (signed (vol1 0)) then Ok (MkFat32 (decode_boot (vol1 0)))
     else Err "Invalid FAT32 boot signature") (λ s', disk_repr s' vol1) ∧
  decode_boot (vol1 0) = boot_of 1.
Proof.
  split; [|vm_compute; reflexivity].
  apply (Fat32_new_correct (S := RamDisk.t)); [apply vol1_repr|vm_compute; reflexivity].
Defined.

(** A cluster linked to itself is on no chain. *)
Lemma self_link_no_chain f c l : f c = c → c < EOC_MIN → ¬ chain f c l.
Proof.
  intros Hf Hc Hl. apply chain_NoDup in Hl as Hnd. inversion Hl as [? Hend|? l' _ Hl']; subst.
  - lia.
  - rewrite Hf in Hl'. apply chain_nonempty in Hl' as [l2 ->].
    apply NoDup_cons in Hnd as [Hnd _]. apply Hnd. left.
Qed.

Lemma follow_cluster_chain_correct_witness :
  runs (S := RamDisk.t) (follow_cluster_chain (H0 := debug) (MkFat32 (boot_of 1)) 2) vol1
    (Ok [2]) (λ s', disk_repr s' vol1) ∧
  runs (S := RamDisk.t) (follow_cluster_chain (H0 := debug) (MkFat32 (boot_of 1)) 4) vol_loop
    (Err "Cluster chain too long or infinite loop") (λ s', disk_repr s' vol_loop).
Proof.
  split.
  - apply (follow_cluster_chain_correct (S := RamDisk.t) (boot_of 1) 128 boot1_geometry
      vol1 vol1 2); [apply vol1_repr|decide_now|apply root_chain|decide_now].
  - apply (follow_cluster_chain_correct (S := RamDisk.t) (boot_of 1) 128 boot1_geometry
      vol_loop vol_loop 4); [apply vol_loop_repr|decide_now|].
    intros l Hl. exfalso. revert Hl. apply self_link_no_chain; vm_compute; reflexivity.
Defined.

Lemma list_directory_correct_witness :
  runs (S := RamDisk.t) (list_directory (H0 := debug) (MkFat32 (boot_of 1)) 2) vol1
    (Ok [MkEntry (stored_name test_name) 0x20 3 5]) (λ s', disk_repr s' vol1).
Proof.
  destruct (list_directory_correct (S := RamDisk.t) (H1 := debug) (boot_of 1) 128 boot1_geometry
    vol1 vol1 2 [2]) as [Hl _]; [apply vol1_repr|apply root_chain|decide_now|decide_now|].
  replace (dir_entries vol1 (boot_of 1) [2]) with [MkEntry (stored_name test_name) 0x20 3 5]
    in Hl by (vm_compute; reflexivity). exact Hl.
Defined.

Lemma set_fat_entry_correct_witness :
  runs (S := RamDisk.t) (set_fat_entry (H0 := debug) (MkFat32 (boot_of 1)) 4 5) vol1 (Ok tt)
    (λ s', ∃ k', disk_repr s' k' ∧ fat_entry k' (boot_of 1) 4 = 5).
Proof.
  eapply runs_mono; [apply (set_fat_entry_correct (S := RamDisk.t) (boot_of 1) 128 boot1_geometry
    vol1 vol1 4 5); [apply vol1_repr|decide_now|decide_now]|].
  intros s' (k' & Hr & Hf & _). exists k'. split; [done|].
  rewrite Hf by decide_now. reflexivity.
Defined.

Lemma allocate_cluster_correct_witness :
  runs (S := RamDisk.t) (allocate_cluster (H0 := debug) (MkFat32 (boot_of 1)) (Some 3) None)
    vol1 (Ok 4) (λ s', ∃ k', disk_repr s' k' ∧ fat_entry k' (boot_of 1) 3 = 4).
Proof.
  pose proof (allocate_cluster_correct (S := RamDisk.t) (H2 := debug) (boot_of 1) 128
    boot1_geometry vol1 vol1 (Some 3) vol1_repr) as Ha.
  destruct (free_list vol1 (boot_of 1)) as [|c rest] eqn:Hfree; [by vm_compute in Hfree|].
  assert (Hc : c = 4) by (vm_compute in Hfree; congruence). subst c.
  eapply runs_mono; [apply Ha|].
  - intros p [= <-]. split; [decide_now|vm_compute; congruence].
  - intros s' (k' & Hr & _ & Hf). exists k'. split; [done|]. rewrite Hf by decide_now. reflexivity.
Defined.

Lemma dir_entry_roundtrip_witness :
  parse_entry (list_inserts (2 * 32) (create_dir_entry new_name 0x12345 600) zeros) 2 =
    Ok (MkEntry (stored_name new_name) 0x20 0x12345 600).
Proof. apply (dir_entry_roundtrip new_name 0x12345 600 zeros 2); decide_now || lia. Defined.

Lemma get_name_roundtrip_witness :
  get_name (MkEntry (stored_name new_name) 0x20 4 600) = new_name.
Proof.
  apply (get_name_roundtrip [65] [84; 88; 84] 0x20 4 600); [simpl; lia..|decide_now|decide_now].
Defined.

Lemma get_name_no_extension_witness :
  get_name (MkEntry (stored_name [65; 66]) 0x20 4 600) = [65; 66; 46].
Proof. apply (get_name_no_extension [65; 66] 0x20 4 600); [simpl; lia|decide_now]. Defined.

Lemma create_file_read_back_witness :
  runs (S := RamDisk.t) (create_file (H0 := debug) (MkFat32 (boot_of 1)) 2 new_name new_data)
    vol1 (Ok tt) (λ s',
    runs (read_file (H0 := debug) (MkFat32 (boot_of 1)) (new_entry (boot_of 1) vol1 new_name new_data)) s'
      (Ok new_data) (λ _, True)).
Proof.
  apply (create_file_read_back (S := RamDisk.t) (boot_of 1) 128 boot1_geometry vol1 vol1 2 [2]
    new_name new_data (3, 1%nat)); [apply vol1_repr|apply vol1_create_pre|done|decide_now|by left].
Defined.

Lemma create_file_lists_witness :
  runs (S := RamDisk.t) (create_file (H0 := debug) (MkFat32 (boot_of 1)) 2 new_name new_data)
    vol1 (Ok tt) (λ s', ∃ pre post, dir_entries vol1 (boot_of 1) [2] = pre ++ post ∧
      runs (list_directory (H0 := debug) (MkFat32 (boot_of 1)) 2) s'
        (Ok (pre ++ new_entry (boot_of 1) vol1 new_name new_data :: post)) (λ _, True)).
Proof.
  apply (create_file_lists (S := RamDisk.t) (boot_of 1) 128 boot1_geometry vol1 vol1 2 [2]
    new_name new_data (3, 1%nat)); [apply vol1_repr|apply vol1_create_pre].
Defined.

Lemma create_file_frame_witness :
  let e := MkEntry (stored_name test_name) 0x20 3 5 in
  runs (S := RamDisk.t) (create_file (H0 := debug) (MkFat32 (boot_of 1)) 2 new_name new_data)
    vol1 (Ok tt) (λ s',
      runs (read_file (H0 := debug) (MkFat32 (boot_of 1)) e) s' (Ok test_data) (λ _, True)).
Proof.
  intros e. pose proof (create_file_frame (S := RamDisk.t) (H2 := debug) (boot_of 1) 128
    boot1_geometry vol1 vol1 2 [2] new_name new_data (3, 1%nat) e [3] vol1_repr
    vol1_create_pre) as Hf.
  replace (take (Z.to_nat (file_size e)) (file_bytes vol1 (boot_of 1) [3]))
    with test_data in Hf by (vm_compute; reflexivity).
  apply Hf; [|decide_now|decide_now|decide_now|].
  - constructor. vm_compute. congruence.
  - intros d ->%list_elem_of_singleton. decide_now.
Defined.

Lemma create_file_keeps_mirror_witness :
  runs (S := RamDisk.t) (create_file (H0 := debug) (MkFat32 (boot_of 1)) 2 new_name new_data)
    vol1 (Ok tt) (λ s', ∃ k', disk_repr s' k' ∧ fat_mirrored (boot_of 1) k').
Proof.
  apply (create_file_keeps_mirror (S := RamDisk.t) (boot_of 1) 128 boot1_geometry vol1 vol1 2 [2]
    new_name new_data (3, 1%nat)); [apply vol1_repr|apply vol1_create_pre|done|].
  intros i Hi. simpl in Hi. replace i with 0 by lia. vm_compute. reflexivity.
Defined.

Lemma create_file_full_leaks_witness :
  runs (S := RamDisk.t) (create_file (H0 := debug) (MkFat32 (boot_of 1)) 2 new_name new_data)
    vol_full (Err "No free clusters available") (λ s', ∃ k',
      disk_repr s' k' ∧ free_list k' (boot_of 1) = [] ∧
      runs (list_directory (H0 := debug) (MkFat32 (boot_of 1)) 2) s'
        (Ok (dir_entries vol_full (boot_of 1) [2])) (λ _, True)).
Proof.
  eapply runs_mono; [apply (create_file_full_leaks (S := RamDisk.t) (boot_of 1) 128 boot1_geometry
    vol_full vol_full); [apply vol_full_repr|decide_now..]|].
  intros s' (k' & Hr & Hnil & _ & Hl). exists k'. split; [done|]. split; [done|].
  apply Hl; [|decide_now..]. constructor. vm_compute. congruence.
Defined.

Lemma create_file_empty_unreadable_witness :
  let e := MkEntry (stored_name new_name) 0x20 0 0 in
  runs (S := RamDisk.t) (create_file (H0 := debug) (MkFat32 (boot_of 1)) 2 new_name [])
    vol1 (Ok tt) (λ s', ∃ pre post,
      runs (list_directory (H0 := debug) (MkFat32 (boot_of 1)) 2) s' (Ok (pre ++ e :: post)) (λ s'',
        runs (read_file (H0 := debug) (MkFat32 (boot_of 1)) e) s'' Panic (λ _, True))).
Proof.
  apply (create_file_empty_unreadable (S := RamDisk.t) (H2 := debug) (boot_of 1) 128 boot1_geometry
    vol1 vol1 2 [2] new_name (3, 1%nat));
    [reflexivity|vm_compute; congruence|apply vol1_repr|].
  split; try (vm_compute; reflexivity); try decide_now; apply root_chain.
Defined.

Lemma create_file_skips_sectors_witness :
  runs (S := RamDisk.t) (create_file (H0 := debug) (MkFat32 (boot_of 2)) 2 new_name new_data)
    vol2 (Ok tt) (λ s', ∃ k', disk_repr s' k' ∧ k' (cluster_start (boot_of 2) 4 + 1) = zeros).
Proof.
  apply (create_file_skips_sectors (S := RamDisk.t) (boot_of 2) 128 boot2_geometry vol2 vol2 2 [2]
    new_name new_data (3, 1%nat) 4 1); [apply vol2_repr|apply vol2_create_pre|decide_now|].
  split; vm_compute; congruence.
Defined.
