(* ===== verification/Stack.v ===== *)
(** * The file system over the ATA driver

    [Fat32] run on [AtaDriver]: the driver's instance of the sector interface
    carries the read operations over, and the missing interrupt of a write
    stops every operation that updates the disk. *)

From S2P Require Import Prelude Ata Drive Fat32 Fat32Spec Fat32Write Fat32Record.
From S2P Require Import Fat32Create Fat32Examples.

Section stack.
Context {D : Type} `{AtaDeviceSpec D} `{Profile} (w : Waker).

#[local] Existing Instance ata_sector_io.
#[local] Existing Instance ata_read_spec.

(** The file system's operations on the driver, for the task of waker [w]. *)
Definition ata_fs_list_directory (b : BootSector) (c : Z) : io (Sys D) (list DirEntry) :=
  list_directory (H := ata_sector_io w) (MkFat32 b) c.

Definition ata_fs_create_file (b : BootSector) (dc : Z) (nm data : list Z) : io (Sys D) unit :=
  create_file (H := ata_sector_io w) (MkFat32 b) dc nm data.

(** C28. The file system over the ATA driver: list_directory run on the driver and
    a standard device completes with the valid entries of the directory's
    slots, in disk order. *)
Theorem ata_list_directory b limit (s : Sys D) k c l :
  geometry_ok b dev_sectors limit → ata_repr s k →
  chain (fat_entry k b) c l → Forall (data_cluster limit) l →
  (length l ≤ MAX_ITERATIONS)%nat →
  runs (ata_fs_list_directory b c) s (Ok (dir_entries k b l))
    (λ s', ata_repr s' k).
Proof.
  intros Hgeo Hr Hc Hl Hn.
  apply (list_directory_ok (H0 := ata_read_spec w) b limit Hgeo); done.
Qed.

(** The standard's data-out phase: after a WRITE SECTORS command the device
    asks for the first block without raising its interrupt. *)
Definition data_out_quiet : Prop :=
  ∀ (s s1 : Sys D) k lba data, ata_repr s k → 0 ≤ lba < dev_sectors →
    write_sector_start lba data s = (s1, Ok tt) → irq (dev s1) = false.

Lemma ata_write_hangs (s : Sys D) k lba data :
  data_out_quiet → ata_repr s k → 0 ≤ lba < dev_sectors →
  runs (write_sector_async w lba data) s Hang (λ _, True).
Proof.
  intros Hq Hr Hlba. destruct s as [a d].
  destruct (write_sector_start_eq lba data a d) as [d' Hstart].
  pose proof (Hq _ _ _ _ _ Hr Hlba Hstart) as Hirq.
  eexists. split; [|done]. unfold write_sector_async, mbind at 1, io_bind at 1.
  rewrite Hstart. unfold AWAIT_FUEL. cbn [await]. unfold mbind at 1, io_bind at 1.
  rewrite poll_write_pending by done. cbn [wait_wake]. unfold mbind, io_bind, get.
  cbn [dev] in *. by rewrite Hirq.
Qed.

Lemma ata_set_fat_entry_hangs b limit (s : Sys D) k c v :
  data_out_quiet → geometry_ok b dev_sectors limit → ata_repr s k → in_fat b c →
  runs (set_fat_entry (H := ata_sector_io w) (MkFat32 b) c v) s Hang (λ _, True).
Proof.
  intros Hq Hgeo Hr Hc. pose proof (in_fat_sector _ _ Hc) as [Hs _].
  pose proof (data_start_bound _ _ _ Hgeo). pose proof (geo_reserved _ _ _ Hgeo).
  pose proof (fat_offset_bound c).
  destruct (disk_repr_ok (SectorReadSpec := ata_read_spec w) s k Hr
    (reserved_sectors b + c / 128)) as [Hlen _].
  unfold set_fat_entry. rewrite (fat_location_ok _ _ _ Hgeo) by done. apply runs_bind_lift.
  eapply runs_bind; [by apply (read_fat_sector (H0 := ata_read_spec w) b limit Hgeo)|].
  intros s1 Hs1. unfold put_u32. rewrite decide_True by lia. apply runs_bind_lift.
  apply runs_bind_hang. apply ata_write_hangs with k; [done..|lia].
Qed.

(** C31. On a device that follows the standard's data-out protocol, where the
    first block of a write is requested without an interrupt, create_file of a
    non-empty file never completes: its first sector write waits for an
    interrupt that does not come. *)
Theorem ata_create_file_hangs b limit (s : Sys D) k dc nm data c rest :
  data_out_quiet → geometry_ok b dev_sectors limit → ata_repr s k →
  free_list k b = c :: rest → (length nm ≤ 12)%nat → data ≠ [] →
  runs (ata_fs_create_file b dc nm data) s Hang (λ _, True).
Proof.
  intros Hq Hgeo Hr Hfree Hnm Hne. pose proof (geo_cluster _ _ _ Hgeo).
  unfold ata_fs_create_file, create_file. rewrite decide_False by lia. cbn [boot_sector]. cbv zeta.
  rewrite decide_False by lia. apply runs_bind_hang.
  destruct data as [|x data]; [done|]. unfold chunks. cbn [length chunks_fuel fold_io].
  apply runs_bind_hang. unfold write_chunk. apply runs_bind_hang.
  unfold allocate_cluster.
  pose proof (find_free_cluster_ok (H0 := ata_read_spec w) b limit Hgeo s k Hr) as Hf.
  rewrite Hfree in Hf. eapply runs_bind; [exact Hf|]. intros s1 Hs1.
  eapply (runs_bind _ _ _ tt _ (λ s', ata_repr s' k)); [by apply runs_ret|]. intros s2 Hs2.
  apply runs_bind_hang. apply ata_set_fat_entry_hangs with limit k; [done..|].
  assert (Hc : c ∈ free_list k b) by (rewrite Hfree; left).
  by apply elem_of_free_list in Hc as [? _].
Qed.

End stack.

(** ** A drive that holds a volume *)

Module DriveVolume.

#[local] Existing Instances Drive.drive_ports Drive.drive_spec.

Definition drive : Drive.t :=
  Drive.Mk {[ 0 := vol1 0; 1 := vol1 1; 2 := vol1 2; 3 := vol1 3; 4 := vol1 4 ]}
    (MkTF 0 0 0 0 0) [] None false.

Definition sys : Sys Drive.t := MkSys (set_DISK_WAKER (Some None) ata_init) drive.

Definition contents : disk := Drive.read_lba drive.

Lemma contents_ok : disk_ok contents.
Proof.
  intros n. unfold contents, Drive.read_lba, drive. cbn [Drive.d_sectors].
  destruct (_ !! n) as [x|] eqn:Hn; [|apply sector_ok_dec_now; vm_compute; reflexivity].
  assert (Hall : map_Forall (λ _ d, sector_ok d)
    ({[ 0 := vol1 0; 1 := vol1 1; 2 := vol1 2; 3 := vol1 3; 4 := vol1 4 ]} : gmap Z (list Z))).
  { repeat apply map_Forall_insert_2; [..|apply map_Forall_empty];
      apply sector_ok_dec_now; vm_compute; reflexivity. }
  exact (Hall n x Hn).
Qed.

Lemma sys_repr : ata_repr sys contents.
Proof.
  split; [|by split; [|eexists]]. exists (MkTF 0 0 0 0 0).
  split_and!; try done. split; [apply contents_ok|done].
Qed.

Lemma geometry : geometry_ok (boot_of 1) (dev_sectors (D := Drive.t)) 128.
Proof. split; vm_compute; intuition congruence. Qed.

Lemma write_command_quiet d :
  Drive.selected (Drive.d_tf d) = true →
  irq (outb STATUS_COMMAND_PORT CMD_WRITE_SECTORS d) = false.
Proof.
  intros Hsel. cbn [irq outb Drive.drive_ports]. unfold Drive.drive_outb.
  rewrite !decide_False by done. rewrite decide_True by done. rewrite Hsel.
  rewrite decide_False by done. by rewrite decide_True.
Qed.

Lemma drive_quiet : data_out_quiet (D := Drive.t).
Proof.
  intros [a d] s1 k lba data ([tf Hd] & _ & _) Hlba Hstart. cbn [dev] in Hd.
  injection Hstart as <-. cbn [dev]. pose proof (dev_sectors_bound (D := Drive.t)).
  destruct (lba_taskfile_u8 lba) as (? & ? & ? & ?). apply write_command_quiet.
  apply (dev_set_count _ _ _ 1) in Hd; [|done].
  apply (dev_set_low _ _ _ (lba_low lba)) in Hd; [|done].
  apply (dev_set_mid _ _ _ (lba_mid lba)) in Hd; [|done].
  apply (dev_set_high _ _ _ (lba_high lba)) in Hd; [|done].
  apply (dev_set_device _ _ _ (device_val lba)) in Hd; [|done].
  cbn [tf_count tf_low tf_mid tf_high tf_device] in Hd. fold (lba_taskfile lba) in Hd.
  assert (Hsel : Drive.selected (lba_taskfile lba) = true).
  { unfold Drive.selected. rewrite lba_taskfile_lba by lia.
    rewrite !bool_decide_true; [done| |apply device_val_select|done].
    rewrite Z.mod_small by lia. exact Hlba. }
  destruct Hd as [Htf _]. rewrite <-Htf in Hsel. exact Hsel.
Qed.

Lemma ata_list_directory_witness :
  runs (ata_fs_list_directory (H1 := debug) 7 (boot_of 1) 2) sys
    (Ok [MkEntry (stored_name test_name) 0x20 3 5]) (λ s', ata_repr s' contents).
Proof.
  pose proof (ata_list_directory (D := Drive.t) (H1 := debug) 7 (boot_of 1) 128 sys contents 2 [2]
    geometry sys_repr) as Hl.
  replace (dir_entries contents (boot_of 1) [2]) with
    [MkEntry (stored_name test_name) 0x20 3 5] in Hl by (vm_compute; reflexivity).
  apply Hl; [|decide_now|decide_now]. constructor. vm_compute. congruence.
Defined.

Lemma ata_create_file_hangs_witness :
  runs (ata_fs_create_file (H1 := debug) 7 (boot_of 1) 2 new_name new_data)
    sys Hang (λ _, True).
Proof.
  apply (ata_create_file_hangs (D := Drive.t) (H1 := debug) 7 (boot_of 1) 128 sys contents 2
    new_name new_data 4 (tail (free_list contents (boot_of 1))));
    [apply drive_quiet|apply geometry|apply sys_repr|vm_compute; reflexivity|decide_now|done].
Defined.

End DriveVolume.
