(* ===== verification/Keyboard.v ===== *)
(** * The keyboard task ([src/task/keyboard.rs])

    The scancode queue filled by the interrupt handler and emptied by
    [ScancodeStream], the wake-up protocol between them one atomic access at a
    time, and the loop of [print_keypresses] over a decoder that is a
    parameter (the crate [pc_keyboard]). *)

From S2P Require Import Prelude Vga.

Module Keyboard.

(** ** State *)

(** The statics: the queue is in a [OnceCell], [WAKER] holds at most one waker
    (its task's number); [woken] records the calls of [wake] in order and
    [warnings] the messages printed by [add_scancode]. *)
Record t : Type := Mk {
  SCANCODE_QUEUE : option (list Z);
  WAKER : option Z;
  woken : list Z;
  warnings : list string;
}.

Definition statics_init : t := Mk None None [] [].

(** The capacity given to [ArrayQueue::new]. *)
Definition QUEUE_SIZE : nat := 100.

Definition set_queue (q : list Z) (st : t) : t :=
  Mk (Some q) (WAKER st) (woken st) (warnings st).

Definition warn (msg : string) (st : t) : t :=
  Mk (SCANCODE_QUEUE st) (WAKER st) (woken st) (warnings st ++ [msg]).

(** [AtomicWaker]: [register] stores a waker, [wake] takes it and wakes it,
    [take] takes it. *)
Definition register (w : Z) (st : t) : t :=
  Mk (SCANCODE_QUEUE st) (Some w) (woken st) (warnings st).
Definition wake (st : t) : t :=
  Mk (SCANCODE_QUEUE st) None (woken st ++ option_list (WAKER st)) (warnings st).
Definition take_waker (st : t) : t :=
  Mk (SCANCODE_QUEUE st) None (woken st) (warnings st).

(** ** Operations *)

Definition add_scancode (scancode : Z) (st : t) : t :=
  match SCANCODE_QUEUE st with
  | Some q =>
    if decide (QUEUE_SIZE ≤ length q)%nat
    then warn "WARNING: Scancode queue full; dropping input" st
    else wake (set_queue (q ++ [scancode]) st)
  | None => warn "WARNING: scancode queue uninitialised" st
  end.

Definition ScancodeStream_new : io t unit :=
  st ← get;
  match SCANCODE_QUEUE st with
  | None => put (set_queue [] st)
  | Some _ => lift Panic
  end.

(** [queue.pop()] *)
Definition pop : io t (option Z) :=
  st ← get;
  match SCANCODE_QUEUE st with
  | Some (c :: q) => _ ← put (set_queue q st); mret (Some c)
  | Some [] => mret None
  | None => lift Panic
  end.

(** [ScancodeStream::poll_next]; the stream never ends, [None] is
    [Poll::Pending]. *)
Definition poll_next (w : Z) : io t (option Z) :=
  r ← pop;
  match r with
  | Some scancode => mret (Some scancode)
  | None =>
    st ← get; _ ← put (register w st);
    r ← pop;
    match r with
    | Some scancode => st ← get; _ ← put (take_waker st); mret (Some scancode)
    | None => mret None
    end
  end.

(** ** The consumer and the interrupt handler, interleaved

    The consumer polls until it gets [Pending] and is polled again once its
    waker has been woken; [add_scancode] runs between any two of its accesses.
    [seen] is the number of wakeups when the poll began, [got] what the
    consumer has received, [accepted] and [dropped] what the handler was given. *)

Inductive pc : Type := KPop | KRegister | KPop2 | KTake (c : Z) | KPending.

Record conf : Type := Conf {
  st : t; at_pc : pc; seen : nat; got : list Z; accepted : list Z; dropped : list Z;
}.

Definition in_flight (p : pc) : list Z := match p with KTake c => [c] | _ => [] end.

Definition notified (c : conf) : Prop := (seen c < length (woken (st c)))%nat.

Section stream.
Context (w : Z).

Inductive step : conf → conf → Prop :=
  | step_pop_some s n g a d c q :
      SCANCODE_QUEUE s = Some (c :: q) →
      step (Conf s KPop n g a d) (Conf (set_queue q s) KPop (length (woken s)) (g ++ [c]) a d)
  | step_pop_none s n g a d :
      SCANCODE_QUEUE s = Some [] →
      step (Conf s KPop n g a d) (Conf s KRegister n g a d)
  | step_register s n g a d :
      step (Conf s KRegister n g a d) (Conf (register w s) KPop2 n g a d)
  | step_pop2_some s n g a d c q :
      SCANCODE_QUEUE s = Some (c :: q) →
      step (Conf s KPop2 n g a d) (Conf (set_queue q s) (KTake c) n g a d)
  | step_pop2_none s n g a d :
      SCANCODE_QUEUE s = Some [] →
      step (Conf s KPop2 n g a d) (Conf s KPending n g a d)
  | step_take s n g a d c :
      step (Conf s (KTake c) n g a d)
        (Conf (take_waker s) KPop (length (woken s)) (g ++ [c]) a d)
  | step_repoll s n g a d :
      (n < length (woken s))%nat →
      step (Conf s KPending n g a d) (Conf s KPop (length (woken s)) g a d).

(** The interrupt handler's turn. *)
Inductive irq_step : conf → conf → Prop :=
  | step_irq s p n g a d c q :
      SCANCODE_QUEUE s = Some q →
      irq_step (Conf s p n g a d)
        (Conf (add_scancode c s) p n g
           (if decide (QUEUE_SIZE ≤ length q)%nat then a else a ++ [c])
           (if decide (QUEUE_SIZE ≤ length q)%nat then d ++ [c] else d)).

Definition any_step (x y : conf) : Prop := step x y ∨ irq_step x y.

Definition start (s : t) : conf := Conf s KPop (length (woken s)) [] [] [].

Definition armed (c : conf) : Prop := WAKER (st c) = Some w ∨ notified c.

(** The invariant of the interleaving. *)
Definition inv (c : conf) : Prop :=
  (∃ q, SCANCODE_QUEUE (st c) = Some q ∧ accepted c = got c ++ in_flight (at_pc c) ++ q ∧
     (length q ≤ QUEUE_SIZE)%nat ∧ (at_pc c = KPending → q ≠ [] → notified c)) ∧
  (seen c ≤ length (woken (st c)))%nat ∧
  (at_pc c = KPop2 ∨ at_pc c = KPending → armed c).

Lemma keyboard_irq_step_inv c c' : irq_step c c' → inv c → inv c'.
Proof.
  intros Hstep ((q0 & Hq0 & Hacc & Hlen & Hpend) & Hseen & Harm).
  destruct Hstep as [s p n g a d c q Hq]. cbn in *.
  assert (q0 = q) as -> by congruence.
  unfold inv, armed, notified, add_scancode in *. cbn in *. rewrite Hq. case_decide as Hfull; cbn.
  - split_and!; [|done|done]. exists q. split_and!; done.
  - split_and!.
    + exists (q ++ [c]). split_and!; [done| |rewrite length_app; simpl; lia|].
      { rewrite Hacc. by rewrite !app_assoc. }
      intros Hp _. destruct (Harm (or_intror Hp)) as [->|?]; rewrite length_app; simpl; lia.
    + rewrite length_app. lia.
    + intros Hp. right. destruct (Harm Hp) as [->|?]; rewrite length_app; simpl; lia.
Qed.

Lemma keyboard_step_inv c c' : step c c' → inv c → inv c'.
Proof.
  intros Hstep ((q0 & Hq0 & Hacc & Hlen & Hpend) & Hseen & Harm).
  destruct Hstep as [s n g a d c q Hq|s n g a d Hq|s n g a d|s n g a d c q Hq|s n g a d Hq|
    s n g a d c|s n g a d Hn]; unfold inv, armed, notified in *; cbn in *;
    try (assert (q0 = c :: q) as -> by congruence);
    try (assert (q0 = []) as -> by congruence);
    (split_and!; [eexists; split_and!; [done|..]|..]);
    rewrite <-?app_assoc; simpl in *; try done; try lia;
    try (intros [?|?]; done).
  - intros _. by left.
  - intros [?|_]; [done|]. by apply Harm; left.
Qed.

Lemma keyboard_any_step_inv c c' : rtc any_step c c' → inv c → inv c'.
Proof.
  induction 1 as [|x y z [Hs|Hs] _ IH]; intros Hinv; [done|..]; apply IH.
  - by eapply keyboard_step_inv.
  - by eapply keyboard_irq_step_inv.
Qed.

Lemma keyboard_start_inv s : SCANCODE_QUEUE s = Some [] → inv (start s).
Proof.
  intros Hq. split_and!; [|done|by intros [?|?]].
  exists []. split_and!; [done..|simpl; lia|done].
Qed.

(** C18. In every interleaving of the keyboard interrupt with poll_next, the
    scancodes the stream has delivered are a prefix of those the queue
    accepted, in order; what is missing is in the queue, which holds at most
    100, or about to be returned. *)
Theorem scancodes_in_order s c :
  SCANCODE_QUEUE s = Some [] → rtc any_step (start s) c →
  ∃ q, SCANCODE_QUEUE (st c) = Some q ∧ accepted c = got c ++ in_flight (at_pc c) ++ q ∧
    (length q ≤ QUEUE_SIZE)%nat.
Proof.
  intros Hq Hsteps. apply keyboard_any_step_inv in Hsteps; [|by apply keyboard_start_inv].
  destruct Hsteps as ((q & ? & ? & ? & _) & _). by exists q.
Qed.

(** C17. The keyboard task never sleeps over input: with the interrupt handler
    running between any two accesses of poll_next, the task can always make a
    step unless the queue is empty and its waker is registered. *)
Theorem consumer_never_stuck s c :
  SCANCODE_QUEUE s = Some [] → rtc any_step (start s) c →
  (∃ c', step c c') ∨
  (at_pc c = KPending ∧ SCANCODE_QUEUE (st c) = Some [] ∧ WAKER (st c) = Some w).
Proof.
  intros Hq Hsteps. apply keyboard_any_step_inv in Hsteps; [|by apply keyboard_start_inv].
  destruct c as [x p n g a d], Hsteps as ((q & Hx & _ & _ & Hpend) & _ & Harm). cbn in *.
  destruct p.
  - left. destruct q as [|c q]; eexists; [by apply step_pop_none|by eapply step_pop_some].
  - left. eexists. apply step_register.
  - left. destruct q as [|c q]; eexists; [by apply step_pop2_none|by eapply step_pop2_some].
  - left. eexists. apply step_take.
  - destruct (decide (n < length (woken x))%nat) as [Hn|Hn]; [left; eexists; by apply step_repoll|].
    right. split_and!; [done| |by destruct (Harm (or_intror eq_refl))].
    destruct q; [done|]. exfalso. by apply Hn, Hpend.
Qed.

(** The accesses of the consumer compose to [poll_next]. *)
Lemma poll_next_steps s s' n g a d r :
  poll_next w s = (s', Ok r) →
  rtc step (Conf s KPop n g a d)
    match r with
    | Some c => Conf s' KPop (length (woken s)) (g ++ [c]) a d
    | None => Conf s' KPending n g a d
    end.
Proof.
  unfold poll_next, pop, mbind, io_bind, get, put, mret, io_ret, lift.
  destruct (SCANCODE_QUEUE s) as [[|c q]|] eqn:Hq; cbn; rewrite ?Hq; try done.
  - intros [= <- <-]. eapply rtc_l; [by apply step_pop_none|].
    eapply rtc_l; [apply step_register|]. by apply rtc_once, step_pop2_none.
  - intros [= <- <-]. by apply rtc_once, step_pop_some.
Qed.

End stream.

(** ** [print_keypresses] *)

Inductive DecodedKey (KeyCode : Type) : Type :=
  | Unicode (char : Z)
  | RawKey (key : KeyCode).
Arguments Unicode {KeyCode}.
Arguments RawKey {KeyCode}.

(** The decoder of the crate [pc_keyboard]: [add_byte] returns an error, no
    event or an event; [fmt_debug] is the [Debug] output of a key code. *)
Class Decoder (K Event KeyCode : Type) : Type := {
  kb_new : K;
  add_byte : Z → K → K * outcome (option Event);
  process_keyevent : Event → K → K * option (DecodedKey KeyCode);
  fmt_debug : KeyCode → list Z;
}.

(** The UTF-8 bytes of a character, which [print!] hands to the console. *)
Definition encode_utf8 (c : Z) : list Z :=
  if decide (c < 0x80) then [c]
  else if decide (c < 0x800) then [Z.lor 0xC0 (Z.shiftr c 6); Z.lor 0x80 (Z.land c 0x3F)]
  else if decide (c < 0x10000) then
    [Z.lor 0xE0 (Z.shiftr c 12); Z.lor 0x80 (Z.land (Z.shiftr c 6) 0x3F);
     Z.lor 0x80 (Z.land c 0x3F)]
  else [Z.lor 0xF0 (Z.shiftr c 18); Z.lor 0x80 (Z.land (Z.shiftr c 12) 0x3F);
        Z.lor 0x80 (Z.land (Z.shiftr c 6) 0x3F); Z.lor 0x80 (Z.land c 0x3F)].

Section keypresses.
Context {K Event KeyCode : Type} `{Decoder K Event KeyCode}.

(** What one scancode prints. *)
Definition key_output (scancode : Z) (kb : K) : K * option (list Z) :=
  let '(kb, r) := add_byte scancode kb in
  match r with
  | Ok (Some key_event) =>
    let '(kb, key) := process_keyevent key_event kb in
    (kb, match key with
         | Some (Unicode char) => Some (encode_utf8 char)
         | Some (RawKey key) => Some (fmt_debug key)
         | None => None
         end)
  | _ => (kb, None)
  end.

(** The body of the loop, on the decoder and the console. *)
Definition handle_scancode (scancode : Z) : io (K * Writer.t) unit :=
  s ← get;
  let '(kb, out) := key_output scancode s.1 in
  match out with
  | None => put (kb, s.2)
  | Some str =>
    let '(console, r) := Writer.print [str] s.2 in
    _ ← put (kb, console); lift r
  end.

(** The loop over the scancodes the stream delivers. *)
Definition print_keypresses (scancodes : list Z) : io (K * Writer.t) unit :=
  for_each scancodes handle_scancode.

(** The output of a sequence of scancodes. *)
Fixpoint typed (scancodes : list Z) (kb : K) : list Z :=
  match scancodes with
  | [] => []
  | c :: l => default [] (key_output c kb).2 ++ typed l (key_output c kb).1
  end.

Lemma handle_scancode_shows c kb console T :
  Writer.shows console T →
  ∃ console', handle_scancode c (kb, console) = (((key_output c kb).1, console'), Ok tt) ∧
    Writer.colour console' = Writer.colour console ∧
    Writer.shows console'
      (Writer.term_string (Writer.colour console) T (default [] (key_output c kb).2)).
Proof.
  intros Hs. unfold handle_scancode, mbind, io_bind, get. cbn [fst snd].
  destruct (key_output c kb) as [kb1 [str|]]; cbn [fst snd default]; [|by exists console].
  destruct (Writer.write_string_shows str console T Hs) as (console1 & Heq & Hc & Hs1).
  exists console1. split; [|done]. unfold Writer.print. cbn [for_each].
  unfold mbind, io_bind. by rewrite Heq.
Qed.

(** print_keypresses shows what is typed: for every sequence of scancodes the
    console shows the terminal that received the output of the decoded keys,
    in order. *)
Theorem print_keypresses_shows kb console T scancodes :
  Writer.shows console T →
  ∃ kb' console', print_keypresses scancodes (kb, console) = ((kb', console'), Ok tt) ∧
    Writer.shows console' (Writer.term_string (Writer.colour console) T (typed scancodes kb)).
Proof.
  revert kb console T. induction scancodes as [|c l IH]; intros kb console T Hs.
  { by exists kb, console. }
  destruct (handle_scancode_shows c kb console T Hs) as (console1 & Heq & Hc & Hs1).
  destruct (IH (key_output c kb).1 console1 _ Hs1) as (kb' & console' & Heq' & Hs').
  exists kb', console'. cbn [typed]. rewrite Writer.term_string_app, <-Hc at 1.
  split; [|by rewrite Hc in Hs' |- *].
  unfold print_keypresses in *. cbn [for_each]. unfold mbind, io_bind. by rewrite Heq.
Qed.

End keypresses.

(** ** Witnesses *)

Definition ready : t := (ScancodeStream_new statics_init).1.

Lemma scancodes_in_order_witness :
  ∃ c q, rtc (any_step 7) (start ready) c ∧ accepted c = got c ++ in_flight (at_pc c) ++ q ∧
    got c = [30].
Proof.
  pose (s1 := add_scancode 30 ready).
  pose (c := Conf (set_queue [] s1) KPop (length (woken s1)) [30] [30] []).
  assert (Hsteps : rtc (any_step 7) (start ready) c).
  { eapply rtc_l; [right; by apply (step_irq ready KPop 0 [] [] [] 30 [])|].
    rewrite !decide_False by (unfold QUEUE_SIZE; simpl; lia).
    apply rtc_once. left. by apply (step_pop_some 7 s1 0 [] [30] [] 30 []). }
  destruct (scancodes_in_order 7 ready c eq_refl Hsteps) as (q & _ & Hacc & _).
  by exists c, q.
Defined.

Lemma consumer_never_stuck_witness :
  ∃ c, rtc (any_step 7) (start ready) c ∧ at_pc c = KPending ∧ WAKER (st c) = Some 7.
Proof.
  pose (c := Conf (register 7 ready) KPending 0 [] [] []).
  assert (Hsteps : rtc (any_step 7) (start ready) c).
  { eapply rtc_l; [left; by apply step_pop_none|].
    eapply rtc_l; [left; apply step_register|]. apply rtc_once. left. by apply step_pop2_none. }
  exists c. split; [done|].
  destruct (consumer_never_stuck 7 ready c eq_refl Hsteps) as [[c' Hc']|(H1 & _ & H2)]; [|done].
  inversion Hc' as [| | | | | |? ? ? ? ? Hn]; subst. simpl in Hn. lia.
Defined.

(** A decoder that types a letter per scancode. *)
Definition letter_decoder : Decoder unit Z Z := {|
  kb_new := tt;
  add_byte c kb := (kb, Ok (Some c));
  process_keyevent c kb := (kb, Some (Unicode (c + 35)));
  fmt_debug _ := [];
|}.

Lemma print_keypresses_shows_witness :
  ∃ console', @print_keypresses _ _ _ letter_decoder [30; 48] (tt, Writer.blank_screen) =
    ((tt, console'), Ok tt).
Proof.
  destruct (@print_keypresses_shows _ _ _ letter_decoder tt Writer.blank_screen
    (Writer.MkTerm (replicate 24 (Writer.blank_row 14)) []) [30; 48]) as ([] & console' & Heq & _).
  - apply Writer.blank_screen_shows.
  - by exists console'.
Defined.

End Keyboard.
