(* ===== verification/Executor.v ===== *)
(** * Tasks and the executor ([src/task/mod.rs], [src/task/executor.rs])

    The executor's map of tasks, its queue of ready tasks and its cache of
    wakers, over futures that are a parameter, and going to sleep against
    interrupts, one instruction at a time. *)

From S2P Require Import Prelude.

(** ** Futures

    Polling a future with the waker of task [id] changes the world the futures
    share and gives the future's next state, the tasks woken meanwhile (by the
    future itself or by interrupts) and whether it is finished; or it panics. *)
Class Future (F W : Type) : Type := {
  poll : Z → F → io W (F * list Z * bool);
}.

(** ** Task identifiers *)

(** [TaskId::new]: [fetch_add] on the counter wraps around. *)
Definition TaskId_new : io Z Z := n ← get; _ ← put (wrap 64 (n + 1)); mret n.

(** [Task::new], [n] times: the identifiers of the tasks. *)
Definition Task_ids (n : nat) : io Z (list Z) :=
  fold_io (λ ids _, id ← TaskId_new; mret (ids ++ [id])) [] (seq 0 n).

Lemma Task_ids_distinct n :
  Z.of_nat n < 2 ^ 64 → Task_ids n 0 = (Z.of_nat n, Ok (seqZ 0 (Z.of_nat n))).
Proof.
  intros Hn. unfold Task_ids.
  assert (Hloop : ∀ m i ids, (i + m ≤ n)%nat →
    fold_io (λ ids _, id ← TaskId_new; mret (ids ++ [id])) ids (seq i m) (Z.of_nat i) =
    (Z.of_nat (i + m), Ok (ids ++ seqZ (Z.of_nat i) (Z.of_nat m)))).
  { induction m as [|m IH]; intros i ids Hi; cbn [seq fold_io].
    - rewrite Nat.add_0_r, app_nil_r. done.
    - unfold mbind, io_bind, TaskId_new, mbind, io_bind, get, put, mret, io_ret.
      rewrite wrap_small by (unfold in_width; lia).
      replace (Z.of_nat i + 1) with (Z.of_nat (S i)) by lia. rewrite IH by lia.
      rewrite (seqZ_cons (Z.of_nat i)) by lia. rewrite <-app_assoc. simpl.
      repeat f_equal; lia. }
  apply (Hloop n 0%nat []). lia.
Qed.

Module Executor.

(** The capacity given to [ArrayQueue::new]. *)
Definition QUEUE_SIZE : nat := 100.

Record t (F : Type) : Type := Mk {
  tasks : gmap Z F;
  task_queue : list Z;
  waker_cache : gset Z;
}.
Arguments Mk {F}.
Arguments tasks {F}.
Arguments task_queue {F}.
Arguments waker_cache {F}.

Section ops.
Context {F W : Type} `{Future F W}.

Definition new : t F := Mk ∅ [] ∅.

(** [task_queue.push(id).expect(..)], also [TaskWaker::wake_task]. *)
Definition wake_task (id : Z) : io (t F * W) unit :=
  '(ex, w) ← get;
  if decide (QUEUE_SIZE ≤ length (task_queue ex))%nat then lift Panic
  else put (Mk (tasks ex) (task_queue ex ++ [id]) (waker_cache ex), w).

Definition spawn (id : Z) (f : F) : io (t F * W) unit :=
  '(ex, w) ← get;
  _ ← put (Mk (<[id := f]> (tasks ex)) (task_queue ex) (waker_cache ex), w);
  match tasks ex !! id with
  | Some _ => lift Panic
  | None => wake_task id
  end.

(** One iteration of the loop of [run_ready_tasks] for the task [id] that has
    been popped, [q] being the rest of the queue. *)
Definition run_task (id : Z) (q : list Z) : io (t F * W) unit :=
  '(ex, w) ← get;
  match tasks ex !! id with
  | None => put (Mk (tasks ex) q (waker_cache ex), w)
  | Some f =>
    let '(w', r) := poll id f w in
    _ ← put (Mk (tasks ex) q ({[id]} ∪ waker_cache ex), w');
    '(f', woken, ready) ← lift r;
    _ ← put (Mk (<[id := f']> (tasks ex)) q ({[id]} ∪ waker_cache ex), w');
    _ ← for_each woken wake_task;
    if (ready : bool) then
      '(ex, w) ← get;
      put (Mk (delete id (tasks ex)) (task_queue ex) (waker_cache ex ∖ {[id]}), w)
    else mret tt
  end.

Fixpoint run_ready_tasks (fuel : nat) : io (t F * W) unit :=
  match fuel with
  | O => lift Hang
  | S fuel =>
    '(ex, w) ← get;
    match task_queue ex with
    | [] => mret tt
    | id :: q => _ ← run_task id q; run_ready_tasks fuel
    end
  end.

(** [run_until_idle], for at most [n] rounds; [windows] are the wakeups that
    arrive in the successive periods with interrupts enabled. *)
Fixpoint run_until_idle (n fuel : nat) (windows : list (list Z)) : io (t F * W) unit :=
  match n with
  | O => lift Hang
  | S n =>
    _ ← run_ready_tasks fuel;
    '(ex, w) ← get;
    if decide (task_queue ex = []) then
      if decide (dom (tasks ex) = ∅) then mret tt
      else
        _ ← for_each (default [] (list.head windows)) wake_task;
        run_until_idle n fuel (tail windows)
    else run_until_idle n fuel windows
  end.

End ops.

(** ** Running the ready tasks *)

(** A world that also records which tasks are polled. *)
#[local] Instance logged {F W} `{Future F W} : Future F (W * list Z) := {|
  poll id f w := let '(w', r) := poll id f w.1 in ((w', w.2 ++ [id]), r)
|}.

Section run.
Context {F W : Type} `{Future F W}.

Lemma wake_tasks_ok (ex : t F) (w : W) ids :
  (length (task_queue ex) + length ids ≤ QUEUE_SIZE)%nat →
  for_each ids wake_task (ex, w) =
    ((Mk (tasks ex) (task_queue ex ++ ids) (waker_cache ex), w), Ok tt).
Proof.
  revert ex. induction ids as [|id ids IH]; intros [ts q c] Hlen; cbn in Hlen |- *.
  - by rewrite app_nil_r.
  - unfold mbind, io_bind at 1, wake_task at 1, mbind, io_bind, get. cbn.
    rewrite decide_False by lia. cbn. rewrite IH by (cbn; rewrite length_app; cbn; lia).
    cbn. by rewrite <-app_assoc.
Qed.

(** The executor after task [id] has been polled. *)
Definition after_poll (ex : t F) (id : Z) (f' : F) (q : list Z) (ready : bool) : t F :=
  if ready
  then Mk (delete id (tasks ex)) q (waker_cache ex ∖ {[id]})
  else Mk (<[id := f']> (tasks ex)) q ({[id]} ∪ waker_cache ex).

Lemma run_task_ok ex (w : W) id q f f' w' woken ready :
  tasks ex !! id = Some f → poll id f w = (w', Ok (f', woken, ready)) →
  (length q + length woken ≤ QUEUE_SIZE)%nat →
  run_task id q (ex, w) = ((after_poll ex id f' (q ++ woken) ready, w'), Ok tt).
Proof.
  intros Hf Hp Hlen. unfold run_task, mbind, io_bind, get. rewrite Hf, Hp.
  unfold put at 1, lift. unfold put at 1. rewrite wake_tasks_ok by done. cbn.
  destruct ready; [|done]. unfold put. cbn. unfold after_poll.
  rewrite delete_insert_eq. do 3 f_equal. set_solver.
Qed.

Definition cache_ok (ex : t F) : Prop := waker_cache ex ⊆ dom (tasks ex).

Lemma after_poll_dom ex id f' q ready d :
  id ∈ dom (tasks ex) → d ≠ id →
  d ∈ dom (tasks (after_poll ex id f' q ready)) ↔ d ∈ dom (tasks ex).
Proof. intros. destruct ready; cbn; rewrite ?dom_delete, ?dom_insert; set_solver. Qed.

Lemma after_poll_cache ex id f' q ready :
  cache_ok ex → cache_ok (after_poll ex id f' q ready).
Proof.
  unfold cache_ok. intros Hc. destruct ready; cbn; rewrite ?dom_delete, ?dom_insert; set_solver.
Qed.

End run.

(** The futures do not panic, and [credit w] bounds the wakeups they still
    cause in world [w]. *)
Definition credits {F W} `{Future F W} (credit : W → nat) : Prop :=
  ∀ id (f : F) w, ∃ f' w' woken ready,
    poll id f w = (w', Ok (f', woken, ready)) ∧ (length woken + credit w' ≤ credit w)%nat.

Section drains.
Context {F W : Type} `{Future F W} (credit : W → nat) (Hcredit : credits (F := F) credit).

Definition work (ex : t F) (w : W * list Z) : nat := length (task_queue ex) + credit w.1.

(** What a run from [ex] and log [log] achieves. *)
Record ran (ex : t F) (log : list Z) (ex' : t F) (log' : list Z) : Prop := {
  ran_queue : task_queue ex' = [];
  ran_cache : cache_ok ex';
  ran_tasks : dom (tasks ex') ⊆ dom (tasks ex);
  ran_log : ∃ l, log' = log ++ l;
  ran_polled id : id ∈ task_queue ex → id ∈ dom (tasks ex) → id ∈ log';
  ran_waiting id : id ∉ log' → tasks ex' !! id = tasks ex !! id;
}.

Lemma logged_poll id (f f' : F) (w : W) log w' woken ready :
  poll id f w = (w', Ok (f', woken, ready)) →
  poll id f (w, log) = ((w', log ++ [id]), Ok (f', woken, ready)).
Proof. intros Hp. cbn [poll logged fst snd]. by rewrite Hp. Qed.

(** Skipping an identifier without task. *)
Lemma ran_skip ex log ex' log' id q :
  tasks ex !! id = None → task_queue ex = id :: q →
  ran (Mk (tasks ex) q (waker_cache ex)) log ex' log' → ran ex log ex' log'.
Proof.
  intros Hid Hq [Hq' Hc Ht Hl Hp Hw]. split; cbn in *; try done.
  intros d Hd Hin. rewrite Hq in Hd. apply elem_of_cons in Hd as [->|Hd]; [|by apply Hp].
  by apply elem_of_dom in Hin as [? ?]; congruence.
Qed.

(** Polling one task. *)
Lemma ran_poll ex log ex' log' id q f' q' ready :
  id ∈ dom (tasks ex) → task_queue ex = id :: q → (∀ d, d ∈ q → d ∈ q') →
  ran (after_poll ex id f' q' ready) (log ++ [id]) ex' log' → ran ex log ex' log'.
Proof.
  intros Hid Hq Hsub [Hq' Hc Ht [l Hl] Hp Hw].
  assert (Hin : id ∈ log') by (rewrite Hl, <-app_assoc; apply elem_of_app; right; left).
  split; try done.
  - intros d Hd%Ht. destruct (decide (d = id)) as [->|Hne]; [done|].
    by apply after_poll_dom in Hd.
  - exists ([id] ++ l). by rewrite Hl, app_assoc.
  - intros d Hd Hdom. destruct (decide (d = id)) as [->|Hne]; [done|].
    rewrite Hq in Hd. apply elem_of_cons in Hd as [->|Hd]; [done|].
    apply Hp; [|by apply after_poll_dom]. destruct ready; cbn; auto.
  - intros d Hd. rewrite Hw by done. assert (d ≠ id) by congruence.
    destruct ready; cbn; [by rewrite lookup_delete_ne|by rewrite lookup_insert_ne].
Qed.

Lemma run_ready_tasks_total ex (w : W) log fuel :
  cache_ok ex → (work ex (w, log) ≤ QUEUE_SIZE)%nat → (work ex (w, log) < fuel)%nat →
  ∃ ex' w' log',
    run_ready_tasks fuel (ex, (w, log)) = ((ex', (w', log')), Ok tt) ∧ ran ex log ex' log'.
Proof.
  revert ex w log. induction fuel as [|fuel IH]; intros ex w log Hc Hle Hlt; [lia|].
  unfold work in *. cbn [run_ready_tasks fst] in *. unfold mbind, io_bind, get.
  destruct (task_queue ex) as [|id q] eqn:Hq.
  { exists ex, w, log. split; [done|]. split; try done; [by exists []; rewrite app_nil_r|].
    rewrite Hq. by intros id ?%not_elem_of_nil. }
  simpl in Hle, Hlt. destruct (tasks ex !! id) as [f|] eqn:Hf.
  - destruct (Hcredit id f w) as (f' & w' & woken & ready & Hp & Hcr).
    rewrite (run_task_ok _ _ _ _ _ _ _ _ _ Hf (logged_poll _ _ _ _ log _ _ _ Hp)) by lia.
    destruct (IH (after_poll ex id f' (q ++ woken) ready) w' (log ++ [id]))
      as (ex' & w2 & log' & Heq & Hran).
    + by apply after_poll_cache.
    + destruct ready; cbn; rewrite length_app; lia.
    + destruct ready; cbn; rewrite length_app; lia.
    + exists ex', w2, log'. split; [done|]. eapply ran_poll; [|done| |done].
      * apply elem_of_dom. by exists f.
      * intros d Hd. apply elem_of_app. by left.
  - unfold run_task, mbind at 1, io_bind at 1, get at 1. rewrite Hf. unfold put at 1.
    destruct (IH (Mk (tasks ex) q (waker_cache ex)) w log) as (ex' & w2 & log' & Heq & Hran);
      [done|cbn; lia|cbn; lia|].
    exists ex', w2, log'. split; [done|]. by eapply ran_skip.
Qed.

(** C19. run_ready_tasks terminates when the futures wake tasks finitely often: as
    long as the outstanding work fits the queue it returns without a panic,
    with the queue empty, every queued task that exists polled and the waker
    cache covering live tasks only. *)
Theorem run_ready_tasks_drains ex (w : W) log fuel :
  cache_ok ex → (work ex (w, log) ≤ QUEUE_SIZE)%nat → (work ex (w, log) < fuel)%nat →
  ∃ ex' w' log',
    run_ready_tasks fuel (ex, (w, log)) = ((ex', (w', log')), Ok tt) ∧ ran ex log ex' log'.
Proof. apply run_ready_tasks_total. Qed.

End drains.

(** ** Spawning *)

Section spawning.
Context {F W : Type}.

Lemma spawn_ok ex (w : W) id (f : F) :
  id ∉ dom (tasks ex) → (length (task_queue ex) < QUEUE_SIZE)%nat →
  spawn id f (ex, w) =
    ((Mk (<[id := f]> (tasks ex)) (task_queue ex ++ [id]) (waker_cache ex), w), Ok tt).
Proof.
  intros Hid Hlen. unfold spawn, mbind, io_bind, get, put. cbn.
  apply not_elem_of_dom in Hid. rewrite Hid. unfold wake_task, mbind, io_bind, get. cbn.
  by rewrite decide_False by lia.
Qed.

(** Spawning a list of tasks. *)
Definition spawn_all (l : list (Z * F)) : io (t F * W) unit :=
  for_each l (λ p, spawn p.1 p.2).

Lemma spawn_all_ok ex (w : W) l :
  NoDup l.*1 → (∀ id, id ∈ l.*1 → id ∉ dom (tasks ex)) →
  (length (task_queue ex) + length l ≤ QUEUE_SIZE)%nat → cache_ok ex →
  ∃ ex', spawn_all l (ex, w) = ((ex', w), Ok tt) ∧
    task_queue ex' = task_queue ex ++ l.*1 ∧ cache_ok ex' ∧
    dom (tasks ex') = dom (tasks ex) ∪ list_to_set l.*1.
Proof.
  revert ex. induction l as [|[id f] l IH]; intros ex Hnd Hfresh Hlen Hc.
  { exists ex. split_and!; [done| |done|]; cbn; rewrite ?app_nil_r; set_solver. }
  rewrite fmap_cons in *. apply NoDup_cons in Hnd as [Hid Hnd]. simpl in Hlen, Hid.
  destruct (IH (Mk (<[id := f]> (tasks ex)) (task_queue ex ++ [id]) (waker_cache ex)))
    as (ex' & Heq & Hq & Hc' & Hd).
  - done.
  - intros d Hd. cbn. rewrite dom_insert, elem_of_union, elem_of_singleton.
    intros [->|Hin]; [done|]. by eapply Hfresh; [right|].
  - cbn. rewrite length_app. simpl. lia.
  - unfold cache_ok in *. cbn. rewrite dom_insert. set_solver.
  - exists ex'. split_and!; [|rewrite Hq; cbn; by rewrite <-app_assoc|done|].
    + unfold spawn_all in *. cbn [for_each]. unfold mbind, io_bind. cbn [fst snd].
      rewrite spawn_ok; [done| |lia]. apply Hfresh. left.
    + rewrite Hd. cbn. rewrite dom_insert_L. set_solver.
Qed.

End spawning.

(** Tasks spawned with distinct identifiers on a new executor are all polled
    by run_ready_tasks, which returns with an empty queue. *)
Theorem spawned_tasks_run {F W} `{Future F W} (credit : W → nat) l (w : W) fuel :
  credits (F := F) credit → NoDup l.*1 →
  (length l + credit w ≤ QUEUE_SIZE)%nat → (length l + credit w < fuel)%nat →
  ∃ ex' w' log',
    (_ ← spawn_all l; run_ready_tasks (H := logged) fuel) (new, (w, [])) = ((ex', (w', log')), Ok tt) ∧
    task_queue ex' = [] ∧ waker_cache ex' ⊆ dom (tasks ex') ∧ ∀ id, id ∈ l.*1 → id ∈ log'.
Proof.
  intros Hcr Hnd Hle Hlt.
  destruct (@spawn_all_ok F (W * list Z) new (w, []) l Hnd) as (ex & Heq & Hq & Hc & Hd);
    [set_solver|simpl; lia|done|]. cbn in Hq, Hd.
  destruct (run_ready_tasks_total credit Hcr ex w [] fuel) as (ex' & w' & log' & Hrun & Hran).
  - done.
  - unfold work. rewrite Hq, length_fmap. simpl. lia.
  - unfold work. rewrite Hq, length_fmap. simpl. lia.
  - exists ex', w', log'. unfold mbind, io_bind. rewrite Heq. destruct Hran.
    split_and!; [done..|]. intros id Hid. apply ran_polled0; [by rewrite Hq|].
    rewrite Hd. set_solver.
Qed.

(** ** Witnesses

    Futures that count down, waking themselves as long as the world's credit
    lasts. *)
Definition countdown : Future nat nat := {|
  poll id f w :=
    match f, w with
    | O, _ => (w, Ok (O, [], true))
    | S f, S w => (w, Ok (f, [id], false))
    | S f, O => (O, Ok (f, [], false))
    end
|}.

Lemma countdown_credits : credits (H := countdown) (λ w, w).
Proof. intros id [|f] [|w]; do 4 eexists; (split; [reflexivity|simpl; lia]). Qed.

Lemma run_ready_tasks_drains_witness :
  ∃ ex' w' log',
    run_ready_tasks (H := logged (H := countdown)) 10
      (Mk {[ 4 := 1%nat; 9 := 0%nat ]} [4; 9; 5] ∅, (2%nat, [])) = ((ex', (w', log')), Ok tt) ∧
    9 ∈ log' ∧ 4 ∈ log'.
Proof.
  destruct (run_ready_tasks_drains (H := countdown) (λ w, w) countdown_credits
    (Mk {[ 4 := 1%nat; 9 := 0%nat ]} [4; 9; 5] ∅) 2%nat [] 10)
    as (ex' & w' & log' & Heq & Hran); [set_solver|compute; lia|compute; lia|].
  exists ex', w', log'. split; [done|].
  split; apply (ran_polled _ _ _ _ Hran); cbn; set_solver.
Defined.

Lemma spawned_tasks_run_witness :
  ∃ ex' w' log',
    (_ ← spawn_all [(0, 2%nat); (1, 0%nat); (2, 1%nat)];
     run_ready_tasks (H := logged (H := countdown)) 10)
      (new, (3%nat, [])) = ((ex' : t nat, (w', log')), Ok tt) ∧ 2 ∈ log'.
Proof.
  destruct (spawned_tasks_run (H := countdown) (λ w, w) [(0, 2%nat); (1, 0%nat); (2, 1%nat)]
    3%nat 10) as (ex' & w' & log' & Heq & _ & _ & Hlog).
  - apply countdown_credits.
  - apply (bool_decide_unpack _). by vm_compute.
  - compute. lia.
  - compute. lia.
  - exists ex', w', log'. split; [exact Heq|]. apply Hlog. clear. cbn. set_solver.
Defined.

End Executor.

(** ** Going to sleep

    The processor's interrupt flag and halted state while [Executor::run]
    alternates between [run_ready_tasks] and [sleep_if_idle]; an interrupt
    handler may run, and push woken tasks, whenever interrupts are enabled. *)

Module Sleep.

Inductive pc : Type := Running | Disable | CheckQueue | EnableHlt | Enable | Halt.

Record machine : Type := Machine {
  queue : list Z;
  interrupts : bool;
  halted : bool;
  at_pc : pc;
}.

Inductive cpu_step : machine → machine → Prop :=
  | cpu_poll id q woken i h :
      cpu_step (Machine (id :: q) i h Running) (Machine (q ++ woken) i h Running)
  | cpu_drained i h :
      cpu_step (Machine [] i h Running) (Machine [] i h Disable)
  | cpu_disable q i h :
      cpu_step (Machine q i h Disable) (Machine q false h CheckQueue)
  | cpu_check q i h :
      cpu_step (Machine q i h CheckQueue)
        (Machine q i h (if decide (q = []) then EnableHlt else Enable))
  | cpu_enable q i h :
      cpu_step (Machine q i h Enable) (Machine q true h Running)
  | cpu_enable_and_hlt q i h :
      cpu_step (Machine q i h EnableHlt) (Machine q true true Halt)
  | cpu_resume q i :
      cpu_step (Machine q i false Halt) (Machine q i false Running).

Inductive irq_step : machine → machine → Prop :=
  | irq q woken h p :
      irq_step (Machine q true h p) (Machine (q ++ woken) true false p).

Definition any_step (x y : machine) : Prop := cpu_step x y ∨ irq_step x y.

(** [sleep_if_idle] without interruption. *)
Definition sleep_if_idle (m : machine) : machine :=
  if decide (queue m = []) then Machine (queue m) true true Halt
  else Machine (queue m) true (halted m) Running.

Lemma sleep_if_idle_steps q i h :
  rtc cpu_step (Machine q i h Disable) (sleep_if_idle (Machine q i h Disable)).
Proof.
  eapply rtc_l; [apply cpu_disable|]. eapply rtc_l; [apply cpu_check|].
  unfold sleep_if_idle. cbn. case_decide; apply rtc_once; constructor.
Qed.

Definition inv (m : machine) : Prop :=
  match at_pc m with
  | CheckQueue | Enable => interrupts m = false ∧ halted m = false
  | EnableHlt => interrupts m = false ∧ halted m = false ∧ queue m = []
  | Halt => interrupts m = true ∧ (halted m = true → queue m = [])
  | _ => interrupts m = true ∧ halted m = false
  end.

Lemma cpu_step_inv x y : cpu_step x y → inv x → inv y.
Proof. destruct 1; unfold inv; cbn; try tauto. case_decide; tauto. Qed.

Lemma irq_step_keeps x y : irq_step x y → inv x → inv y.
Proof. destruct 1 as [q woken h p]. unfold inv. destruct p; cbn; intuition congruence. Qed.

(** C20. Going to sleep loses no wakeup: in every interleaving of the executor's
    instructions with interrupts, the processor is halted only with an empty
    task queue and interrupts enabled, and otherwise can make a step. *)
Theorem sleeps_only_when_idle m :
  rtc any_step (Machine [] true false Running) m →
  (halted m = true → queue m = [] ∧ interrupts m = true ∧ at_pc m = Halt) ∧
  (halted m = false → ∃ m', cpu_step m m').
Proof.
  intros Hsteps.
  assert (Hinv : inv m).
  { assert (H0 : inv (Machine [] true false Running)) by done. revert H0.
    induction Hsteps as [|x y z [Hxy|Hxy] _ IH]; [done|..]; intros Hx; apply IH.
    - by eapply cpu_step_inv.
    - by eapply irq_step_keeps. }
  destruct m as [q i h p]. unfold inv in Hinv. cbn in *. split; intros ->.
  - destruct p; intuition congruence.
  - destruct p; [destruct q as [|id q]; [|exists (Machine (q ++ []) i false Running)]|..];
      try eexists; constructor.
Qed.

Lemma sleeps_only_when_idle_witness :
  ∃ m, rtc any_step (Machine [] true false Running) m ∧ halted m = true ∧ queue m = [].
Proof.
  assert (Hsteps : rtc any_step (Machine [] true false Running) (Machine [] true true Halt)).
  { eapply rtc_l; [left; apply cpu_drained|]. eapply rtc_l; [left; apply cpu_disable|].
    eapply rtc_l; [left; apply cpu_check|]. apply rtc_once. left. apply cpu_enable_and_hlt. }
  exists (Machine [] true true Halt). split_and!; [done..|].
  apply (sleeps_only_when_idle _ Hsteps). done.
Defined.

End Sleep.
