(* ===== verification/Code.v ===== *)
(** * Interruptible code

    A program as the sequence of its accesses to the state it shares with the
    interrupt handlers.  [run] performs the accesses one after the other;
    interrupts may come between any two of them, and [safe] says that the
    program runs to its end all the same, as long as they keep an invariant. *)

From S2P Require Import Prelude.

(** The continuation of an access gets the value it read. *)
Inductive code (S A : Type) : Type :=
  | Ret (a : A)
  | Access {B : Type} (m : io S B) (k : B → code S A).
Arguments Ret {S A}.
Arguments Access {S A B}.

Fixpoint code_bind_fix {S A B} (k : A → code S B) (c : code S A) : code S B :=
  match c with
  | Ret a => k a
  | Access m k' => Access m (λ b, code_bind_fix k (k' b))
  end.

#[global] Instance code_ret S : MRet (code S) := λ A a, Ret a.
#[global] Instance code_bind S : MBind (code S) := λ A B k c, code_bind_fix k c.

(** A single access. *)
Definition atomic {S A} (m : io S A) : code S A := Access m Ret.

Fixpoint for_each_code {S A} (l : list A) (body : A → code S unit) : code S unit :=
  match l with
  | [] => mret tt
  | a :: l => _ ← body a; for_each_code l body
  end.

(** ** Running without interrupts *)

Fixpoint run {S A} (c : code S A) : io S A :=
  match c with
  | Ret a => mret a
  | Access m k => b ← m; run (k b)
  end.

Section run.
Context {S : Type}.

Lemma run_bind {A B} (c : code S A) (k : A → code S B) s :
  run (c ≫= k) s = (run c ≫= λ a, run (k a)) s.
Proof.
  revert s. induction c as [a|X m k' IH]; intros s; [done|].
  cbn. unfold mbind, io_bind. destruct (m s) as [s1 [b| | |]]; try done. apply IH.
Qed.

Lemma runs_code_bind {A B} (c : code S A) (k : A → code S B) s a r P Q :
  runs (run c) s (Ok a) P → (∀ s', P s' → runs (run (k a)) s' r Q) →
  runs (run (c ≫= k)) s r Q.
Proof.
  intros Hc Hk. destruct (runs_bind _ (λ a, run (k a)) s a r P Q Hc Hk) as (s' & Heq & HQ).
  exists s'. by rewrite run_bind.
Qed.

Lemma runs_atomic {A} (m : io S A) s r Q : runs m s r Q → runs (run (atomic m)) s r Q.
Proof.
  intros (s' & Heq & HQ). exists s'. split; [|done]. cbn. unfold mbind, io_bind.
  rewrite Heq. by destruct r.
Qed.

Lemma run_atomic {A} (m : io S A) s s' a : m s = (s', Ok a) → run (atomic m) s = (s', Ok a).
Proof. intros Hm. cbn. unfold mbind, io_bind. by rewrite Hm. Qed.

Lemma runs_code_ret {A} (a : A) s (Q : S → Prop) : Q s → runs (run (mret a : code S A)) s (Ok a) Q.
Proof. intros HQ. by exists s. Qed.

End run.

(** ** Running with interrupts

    [I x] is the invariant the interrupts keep, for a part [x] of the state
    that only the program changes, along [R]. *)
Section safe.
Context {S X : Type} (I : X → S → Prop) (R : X → X → Prop).

Fixpoint safe {A} (Q : A → X → Prop) (c : code S A) (x : X) : Prop :=
  match c with
  | Ret a => Q a x
  | Access m k => ∀ s, I x s → ∃ s' b x', m s = (s', Ok b) ∧ I x' s' ∧ R x x' ∧ safe Q (k b) x'
  end.

Lemma safe_bind {A B} (Q : B → X → Prop) (c : code S A) (k : A → code S B) x :
  safe (λ a x, safe Q (k a) x) c x → safe Q (c ≫= k) x.
Proof.
  revert x. induction c as [a|Y m k' IH]; intros x Hc; [exact Hc|].
  intros s Hs. destruct (Hc s Hs) as (s' & b & x' & Hm & Hs' & Hx & Hk).
  exists s', b, x'. split_and!; [done..|]. by apply IH.
Qed.

Lemma safe_mono {A} (Q Q' : A → X → Prop) (c : code S A) x :
  safe Q c x → (∀ a x, Q a x → Q' a x) → safe Q' c x.
Proof.
  intros Hc HQ. revert x Hc. induction c as [a|Y m k IH]; intros x Hc; [by apply HQ|].
  intros s Hs. destruct (Hc s Hs) as (s' & b & x' & Hm & Hs' & Hx & Hk).
  exists s', b, x'. split_and!; [done..|]. by apply IH.
Qed.

Lemma safe_for_each {A} (l : list A) (body : A → code S unit) x :
  (∀ a, safe (λ _ x', x' = x) (body a) x) → safe (λ _ x', x' = x) (for_each_code l body) x.
Proof.
  intros Hb. induction l as [|a l IH]; [done|]. apply safe_bind.
  eapply safe_mono; [apply Hb|]. by intros _ x' ->.
Qed.

End safe.
