(* ===== verification/SimpleExecutor.v ===== *)
(** * The simple executor ([src/task/simple_executor.rs])

    A queue of tasks polled in turn with a waker that does nothing. *)

From S2P Require Import Prelude Executor.

Module SimpleExecutor.

(** The queue of tasks is the whole state; the waker does nothing. *)
Definition t (F : Type) : Type := list F.

Section ops.
Context {F W : Type} `{Future F W}.

Definition new : t F := [].

Definition spawn (f : F) : io (t F * W) unit := '(q, w) ← get; put (q ++ [f], w).

Fixpoint run (fuel : nat) : io (t F * W) unit :=
  match fuel with
  | O => lift Hang
  | S fuel =>
    '(q, w) ← get;
    match q with
    | [] => mret tt
    | f :: q =>
      let '(w', r) := poll 0 f w in
      _ ← put (q, w');
      '(f', _, ready) ← lift r;
      _ ← put (if (ready : bool) then q else q ++ [f'], w');
      run fuel
    end
  end.

(** [run] returns when no future panics and every future is finished after
    finitely many polls. *)
Theorem simple_run_completes (polls : F → nat) q w :
  (∀ f w, ∃ f' w' woken ready, poll 0 f w = (w', Ok (f', woken, ready)) ∧
    (ready = false → polls f' < polls f)%nat) →
  ∃ w', run (S (sum_list_with (λ f, S (polls f)) q)) (q, w) = (([], w'), Ok tt).
Proof.
  intros Hp. remember (S (sum_list_with (λ f, S (polls f)) q)) as fuel eqn:Hfuel.
  assert (Hle : (sum_list_with (λ f, S (polls f)) q < fuel)%nat) by lia. clear Hfuel.
  revert q w Hle. induction fuel as [|fuel IH]; intros q w Hle; [lia|].
  cbn [run]. unfold mbind, io_bind, get. destruct q as [|f q]; [by exists w|].
  destruct (Hp f w) as (f' & w' & woken & ready & -> & Hdec). unfold put, lift. simpl in Hle.
  destruct ready; apply IH; [lia|]. rewrite sum_list_with_app. simpl.
  specialize (Hdec eq_refl). lia.
Qed.

End ops.

Lemma simple_run_completes_witness :
  ∃ w', run (H := Executor.countdown) 8 ([2%nat; 0%nat; 1%nat], 0%nat) = (([], w'), Ok tt).
Proof.
  destruct (simple_run_completes (H := Executor.countdown) (λ f, f) [2%nat; 0%nat; 1%nat] 0%nat)
    as [w' Hrun].
  - intros [|f] [|w]; do 4 eexists; (split; [reflexivity|lia || done]).
  - exists w'. vm_compute in Hrun |- *. congruence.
Defined.

End SimpleExecutor.
