(* ===== verification/Memory.v ===== *)
(** * Memory: frames, page tables, the heap's pages ([src/memory.rs] and
    [init_heap] of [src/allocator.rs])

    What the crates [x86_64] and [bootloader] provide is a parameter: the
    frame that contains an address, the fields of a virtual address and of a
    page-table entry, and the mapper. *)

From S2P Require Import Prelude Alloc.

Definition PAGE_SIZE : Z := 4096.

(** ** Frame allocators *)

(** The trait [FrameAllocator]; a frame is its start address. *)
Class FrameAllocator (A : Type) : Type := { allocate_frame : io A (option Z) }.

Module EmptyFrameAllocator.

#[export] Instance empty_frames : FrameAllocator unit := {| allocate_frame := mret None |}.

End EmptyFrameAllocator.

(** [PhysFrame::containing_address(PhysAddr::new(addr))] *)
Class PhysFrames : Type := { containing_address : Z → outcome Z }.

(** Addresses of at most 52 bits are valid, and a frame starts at a multiple
    of the page size. *)
Class PhysFramesSpec `{PhysFrames} : Prop :=
  containing_address_spec addr :
    in_width 52 addr → containing_address addr = Ok (addr / PAGE_SIZE * PAGE_SIZE).

Module BootInfoFrameAllocator.

(** A region of the boot loader's memory map: its address range and whether
    its type is [MemoryRegionType::Usable]. *)
Record MemoryRegion : Type := Region { start_addr : Z; end_addr : Z; usable : bool }.

Record t : Type := Mk { memory_map : list MemoryRegion; next : Z }.

Definition init (memory_map : list MemoryRegion) : t := Mk memory_map 0.

(** [(s..e).step_by(4096)] *)
Definition step_by (s e : Z) : list Z :=
  (λ i, s + PAGE_SIZE * i) <$> seqZ 0 ((e - s + PAGE_SIZE - 1) / PAGE_SIZE).

(** The addresses [usable_frames] iterates over. *)
Definition frame_addresses (memory_map : list MemoryRegion) : list Z :=
  let usable_regions := filter (λ r, usable r) memory_map in
  usable_regions ≫= λ r, step_by (start_addr r) (end_addr r).

Section ops.
Context `{PhysFrames} `{Profile}.

(** [nth] on the iterator of frames, which converts the addresses it passes. *)
Fixpoint nth_frame (n : nat) (addrs : list Z) {struct addrs} : outcome (option Z) :=
  match addrs with
  | [] => Ok None
  | addr :: addrs =>
    frame ← containing_address addr;
    match n with
    | O => Ok (Some frame)
    | S n => nth_frame n addrs
    end
  end.

Definition allocate : io t (option Z) :=
  self ← get;
  frame ← lift (nth_frame (Z.to_nat (next self)) (frame_addresses (memory_map self)));
  n ← lift (add_w 64 (next self) 1);
  _ ← put (Mk (memory_map self) n);
  mret frame.

#[export] Instance boot_info_frames : FrameAllocator t := {| allocate_frame := allocate |}.

End ops.

(** ** The frames are usable and never handed out twice *)

(** The regions of the map are made of whole frames and do not overlap, as the
    boot loader reports them. *)
Definition region_ok (r : MemoryRegion) : Prop :=
  0 ≤ start_addr r ≤ end_addr r ∧ end_addr r ≤ 2 ^ 52 ∧
  (PAGE_SIZE | start_addr r) ∧ (PAGE_SIZE | end_addr r).

Definition region_of (r : MemoryRegion) : region := (start_addr r, end_addr r - start_addr r).

Definition map_ok (m : list MemoryRegion) : Prop :=
  Forall region_ok m ∧ separate (region_of <$> m).

Lemma elem_of_step_by r a :
  region_ok r → a ∈ step_by (start_addr r) (end_addr r) ↔
    start_addr r ≤ a ∧ a + PAGE_SIZE ≤ end_addr r ∧ (PAGE_SIZE | a).
Proof.
  intros (Hle & _ & [s Hs] & [e He]). unfold step_by. rewrite list_elem_of_fmap.
  setoid_rewrite elem_of_seqZ. unfold PAGE_SIZE in *.
  assert (Hn : (end_addr r - start_addr r + 4096 - 1) / 4096 = e - s).
  { rewrite Hs, He. replace (e * 4096 - s * 4096 + 4096 - 1) with ((e - s) * 4096 + 4095) by lia.
    rewrite Z.div_add_l by lia. change (4095 / 4096) with 0. lia. }
  rewrite Hn. split.
  - intros (i & -> & Hi). split_and!; [lia|lia|]. exists (s + i). lia.
  - intros (Ha & Hb & [k Hk]). exists (k - s). split; lia.
Qed.

Lemma NoDup_step_by s e : NoDup (step_by s e).
Proof. apply NoDup_fmap_2; [|apply NoDup_seqZ]. unfold PAGE_SIZE. intros ???. lia. Qed.

(** Every frame lies inside one usable region. *)
Lemma frame_in_region m a :
  Forall region_ok m → a ∈ frame_addresses m →
  ∃ r, r ∈ m ∧ usable r ∧ start_addr r ≤ a ∧ a + PAGE_SIZE ≤ end_addr r ∧ (PAGE_SIZE | a).
Proof.
  unfold frame_addresses. intros Hm (r & Ha & Hr)%list_elem_of_bind.
  apply list_elem_of_filter in Hr as [Hu Hr]. rewrite Forall_forall in Hm.
  apply elem_of_step_by in Ha; [|by apply Hm]. exists r. tauto.
Qed.

Lemma frame_addresses_cons r m :
  frame_addresses (r :: m) =
    (if usable r then step_by (start_addr r) (end_addr r) else []) ++ frame_addresses m.
Proof. unfold frame_addresses. rewrite filter_cons. by destruct (usable r). Qed.

Lemma NoDup_frame_addresses m : map_ok m → NoDup (frame_addresses m).
Proof.
  intros [Hok Hsep]. induction m as [|r m IH]; [constructor|].
  apply Forall_cons in Hok as [Hr Hok]. rewrite fmap_cons in Hsep. destruct Hsep as [Hd Hsep].
  rewrite frame_addresses_cons. apply NoDup_app. split_and!; [| |by apply IH].
  { destruct (usable r); [apply NoDup_step_by|constructor]. }
  intros a Ha Ha'. destruct (usable r); [|by apply not_elem_of_nil in Ha].
  apply elem_of_step_by in Ha as (H1 & H2 & _); [|done].
  apply frame_in_region in Ha' as (r' & Hr' & _ & H3 & H4 & _); [|done].
  rewrite Forall_forall in Hd.
  pose proof (Hd (region_of r') ltac:(by apply list_elem_of_fmap; exists r')) as Hdisj.
  unfold disjoint_regions, region_of, PAGE_SIZE in *. cbn in Hdisj. lia.
Qed.

Section proofs.
Context `{PhysFramesSpec} `{Profile}.

Lemma frame_address_exact m a :
  Forall region_ok m → a ∈ frame_addresses m → containing_address a = Ok a.
Proof.
  intros Hm Ha. pose proof (frame_in_region m a Hm Ha) as (r & Hr & _ & Hlo & Hhi & [k ->]).
  rewrite Forall_forall in Hm. destruct (Hm r Hr) as (? & ? & _).
  rewrite containing_address_spec by (unfold in_width, PAGE_SIZE in *; lia).
  unfold PAGE_SIZE. by rewrite Z.div_mul by lia.
Qed.

Lemma nth_frame_ok n l :
  (∀ a, a ∈ l → containing_address a = Ok a) → nth_frame n l = Ok (l !! n).
Proof.
  revert n. induction l as [|a l IH]; intros n Hl; [by destruct n|]. cbn [nth_frame].
  rewrite Hl by left. rewrite ok_bind. destruct n; [done|].
  apply IH. intros. apply Hl. by right.
Qed.

Lemma allocate_frame_ok m n :
  map_ok m → in_width 64 (n + 1) → 0 ≤ n →
  allocate (Mk m n) = (Mk m (n + 1), Ok (frame_addresses m !! Z.to_nat n)).
Proof.
  intros [Hm _] Hw Hn. unfold allocate, mbind, io_bind, get, lift.
  cbn [memory_map next]. rewrite nth_frame_ok by (intros; by eapply frame_address_exact).
  unfold add_w. by rewrite arith_ok.
Qed.

(** [n] successive calls. *)
Definition allocate_frames (n : nat) : io t (list (option Z)) :=
  fold_io (λ fs _, f ← allocate_frame; mret (fs ++ [f])) [] (seq 0 n).

(** C25. The frame allocator hands out physical memory safely: n calls return the
    first n entries of one list of frames (and None after its end); the frames
    of the list are pairwise distinct, page aligned, and each lies inside a
    region the boot loader reports as usable. *)
Theorem frames_usable_and_distinct m n :
  map_ok m → in_width 64 (Z.of_nat n) →
  allocate_frames n (init m) =
    (Mk m (Z.of_nat n), Ok ((λ i, frame_addresses m !! i) <$> seq 0 n)) ∧
  NoDup (frame_addresses m) ∧
  Forall (λ f, ∃ r, r ∈ m ∧ usable r ∧ start_addr r ≤ f ∧ f + PAGE_SIZE ≤ end_addr r ∧
                 (PAGE_SIZE | f)) (frame_addresses m).
Proof.
  intros Hm Hn. split_and!.
  - unfold allocate_frames.
    assert (Hloop : ∀ j i fs, (i + j ≤ n)%nat →
      fold_io (λ fs _, f ← allocate_frame; mret (fs ++ [f])) fs (seq i j) (Mk m (Z.of_nat i)) =
      (Mk m (Z.of_nat (i + j)), Ok (fs ++ ((λ i, frame_addresses m !! i) <$> seq i j)))).
    { induction j as [|j IH]; intros i fs Hi; cbn [seq fold_io].
      - by rewrite Nat.add_0_r, fmap_nil, app_nil_r.
      - unfold mbind, io_bind. cbn [allocate_frame boot_info_frames].
        rewrite allocate_frame_ok by (done || (unfold in_width in *; lia)).
        unfold mret, io_ret. replace (Z.of_nat i + 1) with (Z.of_nat (S i)) by lia.
        rewrite IH by lia. rewrite Nat2Z.id, fmap_cons, <-app_assoc.
        by replace (i + S j)%nat with (S i + j)%nat by lia. }
    apply (Hloop n 0%nat []). lia.
  - by apply NoDup_frame_addresses.
  - apply Forall_forall. intros f Hf. apply frame_in_region; [apply Hm|done].
Qed.

End proofs.
End BootInfoFrameAllocator.

(** ** Address translation *)

(** [PageTableEntry::frame] *)
Inductive FrameResult : Type :=
  | Frame (start_address : Z)
  | FrameNotPresent
  | HugeFrame.

(** Addition of an offset to a [VirtAddr] and to a [PhysAddr], [VirtAddr::p4_index]
    to [VirtAddr::p1_index] (by level), the page offset, and
    [PageTableEntry::frame] on the entry's 64 bits. *)
Class PagingApi : Type := {
  virt_add : Z → Z → outcome Z;
  phys_add : Z → Z → outcome Z;
  p_index : nat → Z → Z;
  page_offset : Z → Z;
  entry_frame : Z → FrameResult;
}.

(** Canonical addresses: bits 48 to 63 are copies of bit 47. *)
Definition canonical (a : Z) : Prop := 0 ≤ a < 2 ^ 47 ∨ 2 ^ 64 - 2 ^ 47 ≤ a < 2 ^ 64.
#[global] Instance canonical_dec a : Decision (canonical a).
Proof. unfold canonical. apply _. Defined.

(** The fields of a virtual address and of an entry as the architecture
    defines them: nine index bits per level above a 12-bit offset; bit 0 of an
    entry is the present bit, bit 7 marks a larger page, bits 12 to 51 are the
    frame.  Additions whose result is canonical, or fits 52 bits, succeed. *)
Class PagingSpec `{PagingApi} : Prop := {
  virt_add_spec a n : 0 ≤ n → canonical (a + n) → virt_add a n = Ok (a + n);
  phys_add_spec a n : 0 ≤ a → 0 ≤ n → a + n < 2 ^ 52 → phys_add a n = Ok (a + n);
  p_index_spec n a : (1 ≤ n ≤ 4)%nat →
    p_index n a = a / 2 ^ (12 + 9 * (Z.of_nat n - 1)) mod 512;
  page_offset_spec a : page_offset a = a mod 4096;
  entry_frame_spec e :
    entry_frame e =
      if Z.testbit e 0 then
        if Z.testbit e 7 then HugeFrame else Frame (Z.land e 0x000FFFFFFFFFF000)
      else FrameNotPresent;
}.

Section translate.
Context `{PagingApi}.

(** The loop of [translate_addr_inner]; [read] is the 64-bit word at a virtual
    address. *)
Fixpoint translate_loop (read : Z → Z) (physical_memory_offset : Z)
    (table_indexes : list Z) (frame : Z) : outcome (option Z) :=
  match table_indexes with
  | [] => Ok (Some frame)
  | index :: table_indexes =>
    virt ← virt_add physical_memory_offset frame;
    let entry := read (virt + 8 * index) in
    match entry_frame entry with
    | Frame frame => translate_loop read physical_memory_offset table_indexes frame
    | FrameNotPresent => Ok None
    | HugeFrame => Panic
    end
  end.

(** [level_4_table_frame] is what [Cr3::read] returns. *)
Definition translate_addr (read : Z → Z) (level_4_table_frame : Z)
    (addr physical_memory_offset : Z) : outcome (option Z) :=
  let table_indexes := [p_index 4 addr; p_index 3 addr; p_index 2 addr; p_index 1 addr] in
  frame ← translate_loop read physical_memory_offset table_indexes level_4_table_frame;
  match frame with
  | Some frame => pa ← phys_add frame (page_offset addr); Ok (Some pa)
  | None => Ok None
  end.

(** The virtual address of the active level 4 table. *)
Definition active_level_4_table (level_4_table_frame physical_memory_offset : Z) : outcome Z :=
  virt_add physical_memory_offset level_4_table_frame.

End translate.

(** The bits of an entry that hold the frame. *)
Definition entry_address (e : Z) : Z := Z.land e 0x000FFFFFFFFFF000.

(** The translation the processor performs with [n] levels of tables left, for
    addresses mapped by 4 KiB pages through entries with bit 7 clear. *)
Inductive mmu_maps (phys : Z → Z) (va : Z) : nat → Z → Z → Prop :=
  | mmu_page frame : mmu_maps phys va 0 frame (frame + va mod 4096)
  | mmu_table n table e pa :
      e = phys (table + 8 * (va / 2 ^ (12 + 9 * Z.of_nat n) mod 512)) →
      Z.testbit e 0 = true → Z.testbit e 7 = false →
      mmu_maps phys va n (entry_address e) pa →
      mmu_maps phys va (S n) table pa.

Section translate_proofs.
Context `{PagingSpec} (phys read : Z → Z) (offset : Z).
(** The first [size] bytes of physical memory are mapped at [offset]. *)
Context (size : Z).
Context (Hread : ∀ p, 0 ≤ p < size → read (offset + p) = phys p).
Context (Hoffset : ∀ p, 0 ≤ p < size → canonical (offset + p)).

(** The tables the processor visits for [va], from [table] with [n] levels
    left, lie in that memory. *)
Fixpoint walk_inside (va : Z) (n : nat) (table : Z) : Prop :=
  match n with
  | O => True
  | S m =>
    0 ≤ table ∧ table + PAGE_SIZE ≤ size ∧
    let e := phys (table + 8 * (va / 2 ^ (12 + 9 * Z.of_nat m) mod 512)) in
    (Z.testbit e 0 = true → Z.testbit e 7 = false → walk_inside va m (entry_address e))
  end.

(** The indexes of the levels [n .. 1]. *)
Fixpoint indexes (n : nat) (va : Z) : list Z :=
  match n with O => [] | S m => p_index n va :: indexes m va end.

Lemma entry_address_range e : 0 ≤ entry_address e ≤ 0x000FFFFFFFFFF000.
Proof.
  unfold entry_address. split; [apply Z.land_nonneg; by right|].
  assert (Hle : 0x000FFFFFFFFFF000 - Z.land e 0x000FFFFFFFFFF000 =
                Z.ldiff 0x000FFFFFFFFFF000 (Z.land e 0x000FFFFFFFFFF000)).
  { apply Z.sub_nocarry_ldiff, Z.bits_inj'. intros n Hn.
    rewrite Z.ldiff_spec, Z.land_spec, Z.bits_0.
    by destruct (Z.testbit e n), (Z.testbit _ n). }
  enough (0 ≤ Z.ldiff 0x000FFFFFFFFFF000 (Z.land e 0x000FFFFFFFFFF000)) by lia.
  apply Z.ldiff_nonneg. by left.
Qed.

Lemma translate_loop_maps n va frame :
  (n ≤ 4)%nat → walk_inside va n frame → 0 ≤ frame ≤ 0x000FFFFFFFFFF000 →
  match translate_loop read offset (indexes n va) frame with
  | Ok (Some f) => mmu_maps phys va n frame (f + va mod 4096) ∧ 0 ≤ f ≤ 0x000FFFFFFFFFF000
  | Ok None | Panic => ∀ pa, ¬ mmu_maps phys va n frame pa
  | _ => False
  end.
Proof.
  revert frame. induction n as [|n IH]; intros frame Hn Hw Hf; [split; [apply mmu_page|lia]|].
  cbn [walk_inside] in Hw. destruct Hw as (Hlo & Hhi & Hw). unfold PAGE_SIZE in Hhi.
  cbn [indexes translate_loop]. rewrite virt_add_spec, ok_bind by (lia || (apply Hoffset; lia)).
  rewrite entry_frame_spec, p_index_spec by lia.
  replace (Z.of_nat (S n) - 1) with (Z.of_nat n) by lia.
  pose proof (Z.mod_pos_bound (va / 2 ^ (12 + 9 * Z.of_nat n)) 512 ltac:(lia)).
  rewrite <-Z.add_assoc, Hread by lia. cbv zeta in Hw.
  set (e := phys _) in *. destruct (Z.testbit e 0) eqn:H0e.
  - destruct (Z.testbit e 7) eqn:H7e.
    { intros pa Hpa. inversion Hpa; subst e; subst; congruence. }
    change (Z.land e _) with (entry_address e). pose proof (entry_address_range e).
    specialize (IH (entry_address e) ltac:(lia) (Hw eq_refl eq_refl) ltac:(lia)).
    destruct (translate_loop _ _ _ _) as [[f|]| | |]; try done.
    + destruct IH. split; [|done]. by eapply mmu_table.
    + intros pa Hpa. inversion Hpa; subst. by eapply IH.
    + intros pa Hpa. inversion Hpa; subst. by eapply IH.
  - intros pa Hpa. inversion Hpa; subst e; subst; congruence.
Qed.

Lemma mmu_maps_det va n frame pa1 pa2 :
  mmu_maps phys va n frame pa1 → mmu_maps phys va n frame pa2 → pa1 = pa2.
Proof.
  intros H1. revert pa2. induction H1 as [frame|n table e pa He _ _ _ IH]; intros pa2 H2;
    inversion H2; subst; [done|]. by apply IH.
Qed.

(** C27. translate_addr agrees with the processor's walk of the page tables, when
    the first bytes of physical memory are mapped at the offset and the tables
    that the walk of the address visits lie in them: it returns a physical
    address exactly when the tables map the virtual address to it by a 4 KiB
    page through entries with bit 7 clear, and otherwise ends in None or in
    the panic for huge pages. *)
Theorem translate_addr_correct va table :
  walk_inside va 4 table → 0 ≤ table ≤ 0x000FFFFFFFFFF000 →
  (∀ pa, translate_addr read table va offset = Ok (Some pa) ↔ mmu_maps phys va 4 table pa) ∧
  ((∀ pa, ¬ mmu_maps phys va 4 table pa) →
   translate_addr read table va offset = Ok None ∨ translate_addr read table va offset = Panic).
Proof.
  intros Ht Ht'. pose proof (translate_loop_maps 4 va table ltac:(lia) Ht Ht') as Hl.
  unfold translate_addr.
  change [p_index 4 va; p_index 3 va; p_index 2 va; p_index 1 va] with (indexes 4 va).
  destruct (translate_loop _ _ _ _) as [[f|]| | |]; rewrite ?ok_bind; try done.
  - destruct Hl as [Hl Hf]. pose proof (Z.mod_pos_bound va 4096 ltac:(lia)).
    rewrite page_offset_spec, phys_add_spec, ok_bind by lia. split.
    + intros pa. split; [by intros [= <-]|]. intros Hpa. do 2 f_equal. by eapply mmu_maps_det.
    + intros Hn. by destruct (Hn _ Hl).
  - split; [|by left]. intros pa. split; [done|]. by intros ?%Hl.
  - split; [|by right]. intros pa. split; [done|]. by intros ?%Hl.
Qed.

End translate_proofs.

(** ** Witnesses *)

Module MemoryExamples.

#[export] Instance frames : PhysFrames := {|
  containing_address addr :=
    if decide (0 ≤ addr < 2 ^ 52) then Ok (addr / PAGE_SIZE * PAGE_SIZE) else Panic
|}.

#[export] Instance frames_spec : PhysFramesSpec.
Proof. intros addr Ha. unfold in_width in Ha. cbn. by rewrite decide_True by lia. Qed.

#[export] Instance paging : PagingApi := {|
  virt_add a n := if decide (canonical (a + n)) then Ok (a + n) else Panic;
  phys_add a n := if decide (0 ≤ a + n < 2 ^ 52) then Ok (a + n) else Panic;
  p_index n a := a / 2 ^ (12 + 9 * (Z.of_nat n - 1)) mod 512;
  page_offset a := a mod 4096;
  entry_frame e :=
    if Z.testbit e 0 then
      if Z.testbit e 7 then HugeFrame else Frame (Z.land e 0x000FFFFFFFFFF000)
    else FrameNotPresent;
|}.

#[export] Instance paging_spec : PagingSpec.
Proof.
  split; try done; intros a n; intros; unfold virt_add, phys_add, paging;
    by rewrite decide_True by (done || lia).
Qed.

#[export] Existing Instance debug.

(** A reserved page, then 256 usable frames. *)
Definition sample_map : list BootInfoFrameAllocator.MemoryRegion :=
  [BootInfoFrameAllocator.Region 0 0x1000 false;
   BootInfoFrameAllocator.Region 0x100000 0x200000 true].

Lemma sample_map_ok : BootInfoFrameAllocator.map_ok sample_map.
Proof.
  split; [|split; [|by repeat constructor]].
  - repeat constructor; cbn; try lia; unfold PAGE_SIZE;
      first [by exists 0|by exists 1|by exists 256|by exists 512].
  - repeat constructor. unfold disjoint_regions. cbn. lia.
Qed.

Lemma frames_usable_and_distinct_witness :
  BootInfoFrameAllocator.allocate_frames 2 (BootInfoFrameAllocator.init sample_map) =
    (BootInfoFrameAllocator.Mk sample_map 2, Ok [Some 0x100000; Some 0x101000]).
Proof.
  exact (proj1 (BootInfoFrameAllocator.frames_usable_and_distinct sample_map 2 sample_map_ok
    ltac:(unfold in_width; lia))).
Defined.

(** The offset of the kernel's configuration, sign-extended as [VirtAddr::new]
    does. *)
Definition kernel_offset : Z := 0xFFFFF00000000000.

(** Four tables at 0x1000 to 0x4000 that map page 0x5000 to frame 0x7000. *)
Definition tables (p : Z) : Z :=
  if decide (p = 0x1000) then 0x2003
  else if decide (p = 0x2000) then 0x3003
  else if decide (p = 0x3000) then 0x4003
  else if decide (p = 0x4028) then 0x7003
  else 0.

Lemma translate_addr_correct_witness :
  translate_addr (λ v, tables (v - kernel_offset)) 0x1000 0x5123 kernel_offset = Ok (Some 0x7123).
Proof.
  refine (proj2 (proj1 (translate_addr_correct tables (λ v, tables (v - kernel_offset)) kernel_offset 0x8000
    _ _ 0x5123 0x1000 _ _) 0x7123) _).
  - intros p _. f_equal. lia.
  - intros p Hp. right. unfold kernel_offset. lia.
  - do 4 (split; [done|split; [done|cbv zeta; intros _ _]]). exact I.
  - lia.
  - eapply mmu_table; [reflexivity|done..|]. eapply mmu_table; [reflexivity|done..|].
    eapply mmu_table; [reflexivity|done..|]. eapply mmu_table; [reflexivity|done..|].
    exact (mmu_page tables 0x5123 0x7000).
Defined.

End MemoryExamples.
