(* ===== verification/InitHeap.v ===== *)
(** * Mapping the heap ([init_heap] of [src/allocator.rs])

    The page loop of [init_heap] over a mapper (the crate [x86_64]) and a frame
    allocator, and the initialisation of the global allocator. *)

From S2P Require Import Prelude Alloc LinkedList FixedSizeBlock Memory.

(** ** Interfaces *)

(** [Page::range_inclusive] of the pages that contain two addresses, the page
    flags, and [Mapper::map_to], which may take frames for page tables. *)
Class Mapper (M A : Type) : Type := {
  page_range_inclusive : Z → Z → list Z;
  PRESENT : Z;
  WRITABLE : Z;
  map_to : Z → Z → Z → io (M * A) unit;
}.

(** [fa_frames a l]: the allocator will hand out the frames [l], in order. *)
Class FrameAllocatorSpec (A : Type) `{FrameAllocator A} : Type := {
  fa_frames : A → list Z → Prop;
  fa_some a f l : fa_frames a (f :: l) →
    ∃ a', allocate_frame a = (a', Ok (Some f)) ∧ fa_frames a' l;
  fa_none a : fa_frames a [] → ∃ a', allocate_frame a = (a', Ok None);
}.

(** A page range is made of consecutive pages.  [mapped m p] is the frame page
    [p] is mapped to, [can_map m p] that it is not mapped and not part of a
    larger page; mapping it succeeds when three frames are left for tables. *)
Class MapperSpec (M A : Type) `{FrameAllocatorSpec A, !Mapper M A} : Type := {
  mapped : M → Z → option Z;
  can_map : M → Z → Prop;
  page_range_spec s e : s ≤ e →
    page_range_inclusive s e =
      (λ i, s / PAGE_SIZE * PAGE_SIZE + PAGE_SIZE * i) <$>
        seqZ 0 (e / PAGE_SIZE - s / PAGE_SIZE + 1);
  map_to_spec m a l page frame :
    can_map m page → fa_frames a l → (3 ≤ length l)%nat →
    ∃ m' a' k, map_to page frame (Z.lor PRESENT WRITABLE) (m, a) = ((m', a'), Ok tt) ∧
      (k ≤ 3)%nat ∧ fa_frames a' (drop k l) ∧ mapped m' page = Some frame ∧
      ∀ p, p ≠ page → mapped m' p = mapped m p ∧ (can_map m p → can_map m' p);
}.

(** ** The operation *)

Section ops.
Context {M A H : Type} `{FrameAllocator A, !Mapper M A, !FallbackHeap H}.

Definition map_page (page : Z) : io (M * A * FixedSizeBlockAllocator.t H) unit :=
  '(m, a, h) ← get;
  let '(a, r) := allocate_frame a in
  _ ← put (m, a, h);
  frame ← lift r;
  match frame with
  | None => io_err "FrameAllocationFailed"
  | Some frame =>
    let flags := Z.lor PRESENT WRITABLE in
    let '((m, a), r) := map_to page frame flags (m, a) in
    _ ← put (m, a, h);
    lift r
  end.

Definition init_heap : io (M * A * FixedSizeBlockAllocator.t H) unit :=
  let heap_start := HEAP_START in
  let heap_end := heap_start + HEAP_SIZE - 1 in
  _ ← for_each (page_range_inclusive heap_start heap_end) map_page;
  '(m, a, h) ← get;
  let '(h, r) := FixedSizeBlockAllocator.init HEAP_START HEAP_SIZE h in
  _ ← put (m, a, h);
  lift r.

(** [create_example_mapping] maps a page to the VGA buffer's frame. *)
Definition create_example_mapping `{PhysFrames} (page : Z) : io (M * A) unit :=
  frame ← lift (containing_address 0xb8000);
  let flags := Z.lor PRESENT WRITABLE in
  s ← get;
  let '(s, r) := map_to page frame flags s in
  _ ← put s;
  match r with Err _ => lift Panic | _ => lift r end.

End ops.

(** ** Every heap page gets a frame of its own *)

Section proofs.
Context {M A H : Type} `{MapperSpec M A, !FallbackHeap H}.

Definition heap_pages : list Z := (λ i, HEAP_START + PAGE_SIZE * i) <$> seqZ 0 25.

Lemma heap_page_range :
  page_range_inclusive HEAP_START (HEAP_START + HEAP_SIZE - 1) = heap_pages.
Proof. rewrite page_range_spec by (unfold HEAP_SIZE; lia). reflexivity. Qed.

Lemma map_page_ok m a (h : FixedSizeBlockAllocator.t H) f l page :
  can_map m page → fa_frames a (f :: l) → (3 ≤ length l)%nat →
  ∃ m' a' k, map_page page (m, a, h) = ((m', a', h), Ok tt) ∧ (k ≤ 3)%nat ∧
    fa_frames a' (drop k l) ∧ mapped m' page = Some f ∧
    ∀ p, p ≠ page → mapped m' p = mapped m p ∧ (can_map m p → can_map m' p).
Proof.
  intros Hc Hf Hl. destruct (fa_some a f l Hf) as (a1 & Hal & Hf1).
  destruct (map_to_spec m a1 l page f Hc Hf1 Hl) as (m' & a' & k & Hmap & Hrest).
  exists m', a', k. split; [|done]. unfold map_page, mbind, io_bind, get. rewrite Hal. cbn. by rewrite Hmap.
Qed.

Lemma map_pages_ok pages m a (h : FixedSizeBlockAllocator.t H) l :
  NoDup pages → Forall (can_map m) pages → fa_frames a l → (4 * length pages ≤ length l)%nat →
  ∃ m' a' fs, for_each pages map_page (m, a, h) = ((m', a', h), Ok tt) ∧
    fs `sublist_of` l ∧ Forall2 (λ p f, mapped m' p = Some f) pages fs ∧
    ∀ p, p ∉ pages → mapped m' p = mapped m p.
Proof.
  revert m a l. induction pages as [|page pages IH]; intros m a l Hnd Hcan Hf Hlen.
  { exists m, a, []. split_and!; [done|apply sublist_nil_l|constructor|done]. }
  apply NoDup_cons in Hnd as [Hnin Hnd]. apply Forall_cons in Hcan as [Hc Hcan].
  destruct l as [|f l]; [simpl in Hlen; lia|]. simpl in Hlen.
  destruct (map_page_ok m a h f l page Hc Hf ltac:(lia)) as (m1 & a1 & k & Heq & Hk & Hf1 & Hp & Ho).
  destruct (IH m1 a1 (drop k l)) as (m' & a' & fs & Heq' & Hsub & Hall & Hout);
    [done| |done|rewrite length_drop; lia|].
  { rewrite Forall_forall in Hcan. apply Forall_forall. intros p Hin.
    apply Ho; [by intros ->|by apply Hcan]. }
  exists m', a', (f :: fs). split_and!.
  - cbn [for_each]. unfold mbind, io_bind. by rewrite Heq.
  - apply sublist_skip. etrans; [done|]. apply sublist_drop.
  - constructor; [|done]. rewrite Hout by done. done.
  - intros p [Hne Hp']%not_elem_of_cons. rewrite Hout by done. by apply Ho.
Qed.

(** The page loop and the initialisation of the allocator. *)
Lemma init_heap_ok m a l (h : FixedSizeBlockAllocator.t H) :
  Forall (can_map m) heap_pages → fa_frames a l → (100 ≤ length l)%nat →
  ∃ m' a' h' fs,
    init_heap (m, a, h) = ((m', a', h'), Ok tt) ∧
    FixedSizeBlockAllocator.init HEAP_START HEAP_SIZE h = (h', Ok tt) ∧
    fs `sublist_of` l ∧ Forall2 (λ p f, mapped m' p = Some f) heap_pages fs ∧
    ∀ p, p ∉ heap_pages → mapped m' p = mapped m p.
Proof.
  intros Hcan Hf Hlen.
  assert (Hpages : NoDup heap_pages) by (apply (bool_decide_unpack _); vm_compute; exact I).
  destruct (map_pages_ok heap_pages m a h l Hpages Hcan Hf) as (m' & a' & fs & Heq & Hrest).
  { change (length heap_pages) with 25%nat. lia. }
  eexists m', a', _, fs. split_and!; [|reflexivity|apply Hrest..].
  unfold init_heap. rewrite heap_page_range. unfold mbind, io_bind. by rewrite Heq.
Qed.

Lemma heap_pages_mapped m fs va :
  Forall2 (λ p f, mapped m p = Some f) heap_pages fs → HEAP_START ≤ va < HEAP_START + HEAP_SIZE →
  is_Some (mapped m (va / PAGE_SIZE * PAGE_SIZE)).
Proof.
  intros Hall Hva. assert (Hin : va / PAGE_SIZE * PAGE_SIZE ∈ heap_pages).
  { apply list_elem_of_fmap. exists ((va - HEAP_START) / PAGE_SIZE).
    unfold HEAP_START, HEAP_SIZE, PAGE_SIZE in *. rewrite elem_of_seqZ.
    Z.to_euclidean_division_equations; lia. }
  apply list_elem_of_lookup in Hin as [i Hi].
  destruct (Forall2_lookup_l _ _ _ _ _ Hall Hi) as (f & _ & ->). by eexists.
Qed.

(** C24. init_heap gives the whole heap physical memory: with one hundred frames
    left it succeeds, every page of the heap is mapped to a frame of its own
    taken from the frame allocator, so that every heap address is mapped, no
    other page changes, and the global allocator is initialised with the
    heap's range. *)
Theorem init_heap_maps_heap m a l (h : FixedSizeBlockAllocator.t H) :
  Forall (can_map m) heap_pages → fa_frames a l → NoDup l → (100 ≤ length l)%nat →
  ∃ m' a' h' fs,
    init_heap (m, a, h) = ((m', a', h'), Ok tt) ∧
    FixedSizeBlockAllocator.init HEAP_START HEAP_SIZE h = (h', Ok tt) ∧
    NoDup fs ∧ fs ⊆ l ∧ Forall2 (λ p f, mapped m' p = Some f) heap_pages fs ∧
    (∀ va, HEAP_START ≤ va < HEAP_START + HEAP_SIZE → is_Some (mapped m' (va / PAGE_SIZE * PAGE_SIZE))) ∧
    ∀ p, p ∉ heap_pages → mapped m' p = mapped m p.
Proof.
  intros Hcan Hf Hnd Hlen.
  destruct (init_heap_ok m a l h Hcan Hf Hlen) as (m' & a' & h' & fs & Heq & Hh & Hsub & Hall & Hout).
  exists m', a', h', fs. split_and!; [done|done|by apply (sublist_NoDup fs l)| |done| |done].
  - intros x Hx. by apply (elem_of_sublist fs l).
  - intros va Hva. by eapply heap_pages_mapped.
Qed.

(** Without a frame [init_heap] fails before the allocator is initialised. *)
Theorem init_heap_out_of_frames m a (h : FixedSizeBlockAllocator.t H) :
  fa_frames a [] → ∃ a', init_heap (m, a, h) = ((m, a', h), Err "FrameAllocationFailed").
Proof.
  intros Hf. destruct (fa_none a Hf) as [a' Hal]. exists a'.
  unfold init_heap. rewrite heap_page_range. unfold heap_pages.
  rewrite seqZ_cons, fmap_cons by lia. unfold mbind at 1, io_bind at 1. cbn [for_each].
  unfold mbind at 1, io_bind at 1, map_page at 1, mbind, io_bind, get. by rewrite Hal.
Qed.

(** The example page is mapped to the text buffer. *)
Theorem create_example_mapping_maps `{!PhysFrames, !PhysFramesSpec} m a l page :
  can_map m page → fa_frames a l → (3 ≤ length l)%nat →
  ∃ m' a', create_example_mapping page (m, a) = ((m', a'), Ok tt) ∧
    mapped m' page = Some 0xb8000.
Proof.
  intros Hc Hf Hl. destruct (map_to_spec m a l page 0xb8000 Hc Hf Hl)
    as (m' & a' & k & Heq & _ & _ & Hp & _).
  exists m', a'. split; [|done]. unfold create_example_mapping, mbind, io_bind, lift.
  rewrite containing_address_spec by (unfold in_width; lia).
  change (0xb8000 / PAGE_SIZE * PAGE_SIZE) with 0xb8000. unfold get. by rewrite Heq.
Qed.

End proofs.

(** ** The frame allocator of the kernel *)

Section boot_info.
Context `{PhysFramesSpec} `{Profile}.
Import BootInfoFrameAllocator.

Definition boot_frames_left (a : t) (l : list Z) : Prop :=
  let frames := frame_addresses (memory_map a) in
  map_ok (memory_map a) ∧ 0 ≤ next a ≤ Z.of_nat (length frames) ∧
  in_width 64 (Z.of_nat (length frames) + 1) ∧ l = drop (Z.to_nat (next a)) frames.

Lemma boot_allocate a l :
  boot_frames_left a l →
  allocate_frame a = (Mk (memory_map a) (next a + 1), Ok (head l)).
Proof.
  intros (Hm & Hn & Hw & ->). destruct a as [m n]. cbn in *. unfold in_width in *.
  rewrite allocate_frame_ok by (done || unfold in_width; lia).
  by rewrite head_lookup, lookup_drop, Nat.add_0_r.
Qed.

#[export] Instance boot_info_spec : FrameAllocatorSpec t.
Proof.
  exists boot_frames_left.
  - intros a f l Hl. eexists. split; [by rewrite (boot_allocate a (f :: l))|].
    destruct a as [m n], Hl as (Hm & Hn & Hw & Heq). cbn [memory_map next] in *.
    assert (f_lt : (Z.to_nat n < length (frame_addresses m))%nat).
    { apply (f_equal length) in Heq. rewrite length_drop, length_cons in Heq. lia. }
    split_and!; [done|cbn [memory_map next]; lia..|done|]. cbn [memory_map next].
    replace (Z.to_nat (n + 1)) with (Z.to_nat n + 1)%nat by lia.
    by rewrite <-drop_drop, <-Heq.
  - intros a Hl. eexists. by rewrite (boot_allocate a []).
Defined.

End boot_info.

(** ** Witness *)

Module InitHeapExamples.
Import MemoryExamples.
#[local] Existing Instances BootInfoFrameAllocator.boot_info_frames boot_info_spec.
#[local] Existing Instance FixedSizeBlockAllocator.linked_list_fallback.

(** A mapper that keeps its mappings in a map and needs no tables. *)
#[export] Instance map_mapper : Mapper (gmap Z Z) BootInfoFrameAllocator.t := {|
  page_range_inclusive s e :=
    (λ i, s / PAGE_SIZE * PAGE_SIZE + PAGE_SIZE * i) <$>
      seqZ 0 (e / PAGE_SIZE - s / PAGE_SIZE + 1);
  PRESENT := 1;
  WRITABLE := 2;
  map_to page frame flags s :=
    match s.1 !! page with
    | Some _ => (s, Err "PageAlreadyMapped")
    | None => ((<[page := frame]> s.1, s.2), Ok tt)
    end;
|}.

#[export] Instance map_mapper_spec : MapperSpec (gmap Z Z) BootInfoFrameAllocator.t.
Proof.
  exists (λ m p, m !! p) (λ m p, m !! p = None).
  - done.
  - intros m a l page frame Hc Hf Hl. exists (<[page := frame]> m), a, 0%nat.
    split_and!; [cbn; by rewrite Hc|lia|by rewrite drop_0|by rewrite lookup_insert_eq|].
    intros p Hp. by rewrite lookup_insert_ne by done.
Defined.

Lemma sample_frames_left :
  fa_frames (BootInfoFrameAllocator.init sample_map)
    (BootInfoFrameAllocator.frame_addresses sample_map).
Proof.
  split_and!; [apply sample_map_ok|cbn; lia| |unfold in_width; vm_compute; split; congruence|done].
  cbn. lia.
Qed.

Definition empty_heap : FixedSizeBlockAllocator.t LinkedListAllocator.t :=
  FixedSizeBlockAllocator.new.

Lemma init_heap_maps_heap_witness :
  ∃ s', init_heap (∅ : gmap Z Z, BootInfoFrameAllocator.init sample_map, empty_heap)
        = (s', Ok tt) ∧ is_Some (mapped (A := BootInfoFrameAllocator.t) s'.1.1 (HEAP_START + 0x5000)).
Proof.
  destruct (init_heap_maps_heap (∅ : gmap Z Z) (BootInfoFrameAllocator.init sample_map)
    (BootInfoFrameAllocator.frame_addresses sample_map) empty_heap)
    as (m' & a' & h' & fs & Heq & _ & _ & _ & _ & Hva & _).
  - apply Forall_forall. intros p _. apply lookup_empty.
  - apply sample_frames_left.
  - apply BootInfoFrameAllocator.NoDup_frame_addresses, sample_map_ok.
  - apply (bool_decide_unpack _). vm_compute. exact I.
  - exists (m', a', h'). split; [done|]. apply (Hva (HEAP_START + 0x5000)).
    unfold HEAP_SIZE. lia.
Defined.

End InitHeapExamples.
