(* ===== verification/Interrupts.v ===== *)
(** * Interrupts ([src/interrupts.rs])

    The vectors, the interrupt descriptor table and the handlers, over the
    console, the keyboard task's statics and the ATA driver; the interrupt
    controllers (the crate [pic8259]) only record the acknowledgements. *)

From S2P Require Import Prelude Format Vga Ata Drive Keyboard.

Module Interrupts.

Definition PIC_1_OFFSET : Z := 32.
Definition PIC_2_OFFSET : Z := PIC_1_OFFSET + 8.

Inductive InterruptIndex : Type := Timer | Keyboard | PrimaryATA.

Definition as_u8 (i : InterruptIndex) : Z :=
  match i with
  | Timer => PIC_1_OFFSET
  | Keyboard => PIC_1_OFFSET + 1
  | PrimaryATA => PIC_1_OFFSET + 14
  end.

Inductive handler : Type :=
  | breakpoint_handler
  | page_fault_handler
  | double_fault_handler
  | timer_interrupt_handler
  | keyboard_interrupt_handler
  | ata_primary_interrupt_handler.

(** The descriptor table; the processor raises a breakpoint as vector 3, a
    double fault as 8 and a page fault as 14. *)
Definition IDT (vector : Z) : option handler :=
  if decide (vector = 3) then Some breakpoint_handler
  else if decide (vector = 14) then Some page_fault_handler
  else if decide (vector = 8) then Some double_fault_handler
  else if decide (vector = as_u8 Timer) then Some timer_interrupt_handler
  else if decide (vector = as_u8 Keyboard) then Some keyboard_interrupt_handler
  else if decide (vector = as_u8 PrimaryATA) then Some ata_primary_interrupt_handler
  else None.

(** The state the handlers touch.  [port_0x60] is the byte the keyboard
    controller offers, [eoi] the vectors acknowledged so far. *)
Record t (D : Type) : Type := Mk {
  console : Writer.t;
  keyboard : Keyboard.t;
  disk_sys : Sys D;
  port_0x60 : Z;
  eoi : list Z;
}.
Arguments Mk {D}.
Arguments console {D}.
Arguments keyboard {D}.
Arguments disk_sys {D}.
Arguments port_0x60 {D}.
Arguments eoi {D}.

(** What the exceptions print, as formatted by the crate [x86_64]. *)
Record Exception : Type := MkException {
  stack_frame : list Z;
  accessed_address : list Z;
  error_code : list Z;
}.

Section ops.
Context {D : Type} `{PortDevice D}.

Definition on_console (m : io Writer.t unit) : io (t D) unit :=
  st ← get;
  let '(c, r) := m (console st) in
  _ ← put (Mk c (keyboard st) (disk_sys st) (port_0x60 st) (eoi st));
  lift r.

Definition print (args : list (list Z)) : io (t D) unit := on_console (Writer.print args).
Definition println (args : list (list Z)) : io (t D) unit := on_console (Writer.println args).

Definition notify_end_of_interrupt (vector : Z) : io (t D) unit :=
  st ← get;
  put (Mk (console st) (keyboard st) (disk_sys st) (port_0x60 st) (eoi st ++ [vector])).

(** [add_scancode] with its warning on the console. *)
Definition add_scancode (scancode : Z) : io (t D) unit :=
  st ← get;
  let kb := Keyboard.add_scancode scancode (keyboard st) in
  _ ← put (Mk (console st) kb (disk_sys st) (port_0x60 st) (eoi st));
  for_each (drop (length (Keyboard.warnings (keyboard st))) (Keyboard.warnings kb))
    (λ msg, println [text msg]).

(** The message of [on_primary_ata_interrupt], from the registers it reads. *)
Definition ata_message (s : Sys D) : option (list (list Z)) :=
  let '(d1, status) := inb STATUS_COMMAND_PORT (dev s) in
  if decide (Z.land status STATUS_ERR ≠ 0) then
    Some [text "ATA error: "; show_alt_x (inb ERROR_PORT d1).2]
  else if decide (Z.land status STATUS_DRQ ≠ 0) then
    let is_write := negb (WRITE_COMPLETE (drv s)) && OPERATION_COMPLETE (drv s) in
    Some [text (if is_write then "ATA sector write complete (LBA: "
                else "ATA sector read complete (LBA: ");
          show_dec (PENDING_LBA (drv s)); text ")"]
  else None.

(** [on_primary_ata_interrupt] with its message on the console. *)
Definition ata_interrupt : io (t D) unit :=
  st ← get;
  let '(d, r) := on_primary_ata_interrupt (disk_sys st) in
  _ ← put (Mk (console st) (keyboard st) d (port_0x60 st) (eoi st));
  _ ← lift r;
  match ata_message (disk_sys st) with Some args => println args | None => mret tt end.

Definition run_handler (h : handler) (e : Exception) : io (t D) unit :=
  match h with
  | breakpoint_handler => println [text "EXCEPTION: BREAKPOINT" ++ newline; stack_frame e]
  | page_fault_handler =>
    _ ← println [text "EXCEPTION: PAGE FAULT"];
    _ ← println [text "Accessed Address: "; accessed_address e];
    _ ← println [text "Error code: "; error_code e];
    _ ← println [stack_frame e];
    lift Hang
  | double_fault_handler => lift Panic
  | timer_interrupt_handler =>
    _ ← print [text "."];
    notify_end_of_interrupt (as_u8 Timer)
  | keyboard_interrupt_handler =>
    st ← get;
    let scancode := port_0x60 st in
    _ ← add_scancode scancode;
    notify_end_of_interrupt (as_u8 Keyboard)
  | ata_primary_interrupt_handler =>
    _ ← ata_interrupt;
    notify_end_of_interrupt (as_u8 PrimaryATA)
  end.

(** A vector without a present descriptor ends in the double-fault handler. *)
Definition dispatch (vector : Z) (e : Exception) : io (t D) unit :=
  run_handler (default double_fault_handler (IDT vector)) e.

End ops.

(** ** Interrupt requests *)

(** The vector the two chained controllers raise for request line [n], once
    remapped to the offsets. *)
Definition irq_vector (n : Z) : Z :=
  if decide (n < 8) then PIC_1_OFFSET + n else PIC_2_OFFSET + (n - 8).

(** The lines of the timer, the keyboard and the primary ATA channel. *)
Definition irq_line (i : InterruptIndex) : Z :=
  match i with Timer => 0 | Keyboard => 1 | PrimaryATA => 14 end.

Section proofs.
Context {D : Type} `{PortDevice D}.

Definition buffers_ok (s : Sys D) : Prop :=
  length (SECTOR_BUFFER (drv s)) = SECTOR_SIZE ∧
  length (SECTOR_WRITE_BUFFER (drv s)) = SECTOR_SIZE.

(** ... and the driver's wakers are [dw] and [wk]. *)
Definition driver_at (dw : option (option Waker)) (wk : list Waker) (s : Sys D) : Prop :=
  buffers_ok s ∧ DISK_WAKER (drv s) = dw ∧ Ata.woken (drv s) = wk.

(** A loop of transfers stays inside the buffers, whatever the device sends. *)
Lemma transfer_total (P : Sys D → Prop) (body : nat → io (Sys D) unit) l s :
  (∀ i s, i ∈ l → P s → ∃ s', body i s = (s', Ok tt) ∧ P s') →
  P s → ∃ s', for_each l body s = (s', Ok tt) ∧ P s'.
Proof.
  intros Hb. revert s. induction l as [|i l IH]; intros s Hs; [by exists s|].
  destruct (Hb i s) as (s1 & Heq & Hs1); [left|done|].
  destruct (IH ltac:(intros; apply Hb; [by right|done]) s1 Hs1) as (s' & Heq' & Hs').
  exists s'. split; [|done]. cbn [for_each]. unfold mbind, io_bind. by rewrite Heq.
Qed.

Lemma receive_word_total dw wk i (s : Sys D) :
  (i < 256)%nat → driver_at dw wk s → ∃ s', receive_word i s = (s', Ok tt) ∧ driver_at dw wk s'.
Proof.
  intros Hi [[Hr Hw] Hk]. destruct s as [a d]. cbn in Hr, Hw. unfold SECTOR_SIZE in *.
  unfold receive_word, port_read16, statics, update, mbind, io_bind, get, put, lift, mret, io_ret.
  cbn [dev drv]. destruct (inw DATA_PORT d) as [d' w]. cbn [dev drv].
  rewrite !idx_total by lia. eexists. split; [done|]. split; [split; cbn; [|done]|done].
  by rewrite !length_insert.
Qed.

Lemma send_word_total dw wk i (s : Sys D) :
  (i < 256)%nat → driver_at dw wk s → ∃ s', send_word i s = (s', Ok tt) ∧ driver_at dw wk s'.
Proof.
  intros Hi [[Hr Hw] Hk]. destruct s as [a d]. cbn in Hr, Hw. unfold SECTOR_SIZE in *.
  unfold send_word, port_write16, statics, mbind, io_bind, get, put, lift, mret, io_ret.
  cbn [dev drv]. rewrite !idx_total by lia. eexists. by split.
Qed.

(** What an interrupt does to the driver: nothing, or it wakes the reader. *)
Definition interrupted (dw : option (option Waker)) (wk : list Waker) (s : Sys D) : Prop :=
  driver_at dw wk s ∨ ∃ k, dw = Some (Some k) ∧ driver_at (Some None) (wk ++ [k]) s.

Lemma driver_at_wake dw wk (s : Sys D) a :
  SECTOR_BUFFER a = SECTOR_BUFFER (drv s) → SECTOR_WRITE_BUFFER a = SECTOR_WRITE_BUFFER (drv s) →
  DISK_WAKER a = DISK_WAKER (drv s) → Ata.woken a = Ata.woken (drv s) →
  driver_at dw wk s → interrupted dw wk (MkSys (wake a) (dev s)).
Proof.
  intros Hr Hw Hd Hk [[Hb1 Hb2] [Hdw Hwk]]. rewrite <-Hr in Hb1. rewrite <-Hw in Hb2.
  rewrite <-Hd in Hdw. rewrite <-Hk in Hwk. unfold wake. rewrite Hdw.
  destruct dw as [[k|]|]; [right|left; by repeat split..]. exists k. split; [done|].
  repeat split; cbn; [done|done|]. by rewrite Hwk.
Qed.

Lemma on_primary_ata_interrupt_total dw wk (s : Sys D) :
  driver_at dw wk s → ∃ s', on_primary_ata_interrupt s = (s', Ok tt) ∧ interrupted dw wk s'.
Proof.
  intros Hs. destruct s as [a d]. unfold on_primary_ata_interrupt.
  unfold mbind at 1, io_bind at 1, port_read at 1, mbind at 1, io_bind at 1, get at 1. cbn [dev].
  destruct (inb STATUS_COMMAND_PORT d) as [d1 status].
  unfold put at 1, mbind at 1, io_bind at 1, mret at 1, io_ret at 1. cbn [drv]. case_decide.
  { unfold port_read, update, mbind, io_bind, get, put, mret, io_ret. cbn [dev drv].
    destruct (inb ERROR_PORT d1) as [d2 e]. cbn [dev drv]. eexists. split; [done|by left]. }
  case_decide; [|eexists; split; [done|by left]].
  unfold mbind at 1, io_bind at 1, statics at 1, mbind at 1, io_bind at 1, get at 1.
  unfold mret at 1, io_ret at 1. cbn [drv].
  assert (Hs1 : driver_at dw wk (MkSys a d1)) by done.
  destruct (negb _ && _).
  - destruct (transfer_total (driver_at dw wk) send_word (seq 0 256) (MkSys a d1))
      as (s1 & Heq & Hs1'); [|done|].
    { intros i s Hi%elem_of_seq. apply send_word_total. lia. }
    unfold mbind, io_bind. rewrite Heq. eexists. split; [done|].
    by apply (driver_at_wake dw wk s1).
  - destruct (transfer_total (driver_at dw wk) receive_word (seq 0 256) (MkSys a d1))
      as (s1 & Heq & Hs1'); [|done|].
    { intros i s Hi%elem_of_seq. apply receive_word_total. lia. }
    unfold mbind, io_bind. rewrite Heq. eexists. split; [done|].
    by apply (driver_at_wake dw wk s1).
Qed.

Lemma interrupted_buffers dw wk (s : Sys D) : interrupted dw wk s → buffers_ok s.
Proof. by intros [[? _]|(k & _ & ? & _)]. Qed.

Definition sys_ok (s : t D) : Prop := Writer.wf (console s) ∧ buffers_ok (disk_sys s).

(** [s'] differs from [s] in its console at most. *)
Definition same_but_console (s s' : t D) : Prop :=
  keyboard s' = keyboard s ∧ disk_sys s' = disk_sys s ∧
  port_0x60 s' = port_0x60 s ∧ eoi s' = eoi s.

Lemma on_console_ok m (s : t D) c :
  m (console s) = (c, Ok tt) →
  on_console m s = (Mk c (keyboard s) (disk_sys s) (port_0x60 s) (eoi s), Ok tt).
Proof. intros Hm. unfold on_console, mbind, io_bind, get. by rewrite Hm. Qed.

(** Printing changes the console only, and never fails. *)
Lemma print_total args (s : t D) :
  sys_ok s → ∃ s', print args s = (s', Ok tt) ∧ sys_ok s' ∧ same_but_console s s'.
Proof.
  intros [Hw Hb]. destruct (Writer.print_wf args (console s) Hw) as (c & Heq & Hc & _).
  eexists. split; [by apply on_console_ok|done].
Qed.

Lemma warnings_total msgs (s : t D) :
  sys_ok s → ∃ s', for_each msgs (λ msg, println [text msg]) s = (s', Ok tt) ∧ sys_ok s' ∧
    same_but_console s s'.
Proof.
  revert s. induction msgs as [|m msgs IH]; intros s Hs; [by exists s|].
  destruct (print_total ([text m] ++ [[0x0a]]) s Hs) as (s1 & Heq & Hs1 & ? & ? & ? & ?).
  destruct (IH s1 Hs1) as (s2 & Heq2 & Hs2 & ? & ? & ? & ?).
  exists s2. split_and!; [|apply Hs2..|split_and!; congruence].
  cbn [for_each]. unfold mbind, io_bind.
  change (println [text m] s) with (print ([text m] ++ [[0x0a]]) s). by rewrite Heq.
Qed.

Lemma add_scancode_total c (s : t D) :
  sys_ok s → ∃ s', add_scancode c s = (s', Ok tt) ∧ sys_ok s' ∧
    keyboard s' = Keyboard.add_scancode c (keyboard s) ∧ disk_sys s' = disk_sys s ∧
    eoi s' = eoi s.
Proof.
  intros Hs. unfold add_scancode, mbind, io_bind, get, put.
  edestruct warnings_total as (s' & Heq & Hs' & ? & ? & ? & ?); [|rewrite Heq; by exists s'].
  exact Hs.
Qed.

Lemma ata_interrupt_total (s : t D) :
  sys_ok s → ∃ s', ata_interrupt s = (s', Ok tt) ∧ sys_ok s' ∧ keyboard s' = keyboard s ∧
    on_primary_ata_interrupt (disk_sys s) = (disk_sys s', Ok tt) ∧ eoi s' = eoi s.
Proof.
  intros [Hw Hb].
  destruct (on_primary_ata_interrupt_total _ _ _ (conj Hb (conj eq_refl eq_refl)))
    as (d & Heq & Hd%interrupted_buffers).
  unfold ata_interrupt, mbind, io_bind, get, put, lift. rewrite Heq.
  destruct (ata_message (disk_sys s)) as [args|]; [|by eexists].
  destruct (print_total (args ++ [[0x0a]]) (Mk (console s) (keyboard s) d (port_0x60 s) (eoi s)))
    as (s' & Heq' & Hs' & ? & Hd' & ? & ?); [done|].
  exists s'. split_and!; try done. by rewrite Hd'.
Qed.

(** What a handled request does to the component it belongs to. *)
Definition irq_effect (i : InterruptIndex) (s s' : t D) : Prop :=
  match i with
  | Timer => keyboard s' = keyboard s ∧ disk_sys s' = disk_sys s
  | Keyboard =>
    keyboard s' = Keyboard.add_scancode (port_0x60 s) (keyboard s) ∧ disk_sys s' = disk_sys s
  | PrimaryATA =>
    keyboard s' = keyboard s ∧ on_primary_ata_interrupt (disk_sys s) = (disk_sys s', Ok tt)
  end.

Lemma notify_eq v (s : t D) :
  notify_end_of_interrupt v s =
  (Mk (console s) (keyboard s) (disk_sys s) (port_0x60 s) (eoi s ++ [v]), Ok tt).
Proof. done. Qed.

Lemma irq_handled i e (s : t D) :
  sys_ok s →
  ∃ s', dispatch (irq_vector (irq_line i)) e s = (s', Ok tt) ∧ sys_ok s' ∧
    eoi s' = eoi s ++ [irq_vector (irq_line i)] ∧ irq_effect i s s'.
Proof.
  intros Hs. destruct i.
  - destruct (print_total [text "."] s Hs) as (s1 & Heq & Hs1 & ? & ? & ? & He).
    change (dispatch (irq_vector (irq_line Timer)) e s) with
      ((_ ← print [text "."]; notify_end_of_interrupt (as_u8 Timer)) s).
    unfold mbind, io_bind. rewrite Heq, notify_eq, He. by eexists.
  - destruct (add_scancode_total (port_0x60 s) s Hs) as (s1 & Heq & Hs1 & ? & ? & He).
    change (dispatch (irq_vector (irq_line Keyboard)) e s) with
      ((_ ← add_scancode (port_0x60 s); notify_end_of_interrupt (as_u8 Keyboard)) s).
    unfold mbind, io_bind. rewrite Heq, notify_eq, He. by eexists.
  - destruct (ata_interrupt_total s Hs) as (s1 & Heq & Hs1 & ? & ? & He).
    change (dispatch (irq_vector (irq_line PrimaryATA)) e s) with
      ((_ ← ata_interrupt; notify_end_of_interrupt (as_u8 PrimaryATA)) s).
    unfold mbind, io_bind. rewrite Heq, notify_eq, He. by eexists.
Qed.

(** A request of line [irq_line i]; [c] is the byte at port 0x60 when it comes. *)
Definition request (e : Exception) (r : InterruptIndex * Z) : io (t D) unit :=
  st ← get;
  _ ← put (Mk (console st) (keyboard st) (disk_sys st) r.2 (eoi st));
  dispatch (irq_vector (irq_line r.1)) e.

(** The scancodes among the requests, in order. *)
Definition scancodes (rs : list (InterruptIndex * Z)) : list Z :=
  rs ≫= λ r, match r.1 with Keyboard => [r.2] | _ => [] end.


(** Vectors that no descriptor covers, the spurious request of line 7 among
    them, stop the kernel in the double-fault handler. *)
Theorem unhandled_irq_panics n e (s : t D) :
  0 ≤ n < 16 → n ≠ 0 → n ≠ 1 → n ≠ 14 → dispatch (irq_vector n) e s = (s, Panic).
Proof.
  intros Hn H0 H1 H14. unfold dispatch. enough (IDT (irq_vector n) = None) as -> by done.
  unfold IDT, irq_vector, as_u8, PIC_2_OFFSET, PIC_1_OFFSET.
  repeat case_decide; try lia; done.
Qed.

End proofs.

(** ** Witness *)

Definition quiet_kernel : t Drive.t :=
  Mk Writer.blank_screen (Keyboard.set_queue [] Keyboard.statics_init) Drive.sample_sys 0 [].

Lemma quiet_kernel_ok : sys_ok quiet_kernel.
Proof. split; [apply Writer.blank_screen_wf|done]. Qed.

#[local] Existing Instances Drive.drive_ports.


End Interrupts.
