(* ===== verification/Gdt.v ===== *)
(** * Segment tables and fault delivery ([src/gdt.rs])

    The task state segment with the double-fault stack, the descriptor table
    and [init], over the descriptors of the crate [x86_64]; then the
    processor's delivery of exceptions, which finds that stack through the
    tables of [gdt.rs] and [interrupts.rs]. *)

From S2P Require Import Prelude Memory Interrupts.

Definition DOUBLE_FAULT_IST_INDEX : Z := 0.

Definition STACK_SIZE : Z := 4096 * 5.

(** [TaskStateSegment]: the seven entries of its interrupt stack table. *)
Record TaskStateSegment : Type := MkTSS { interrupt_stack_table : list Z }.

Definition TaskStateSegment_new : TaskStateSegment := MkTSS (replicate 7 0).

(** The static [TSS]; [stack] is the address of the static [STACK]. *)
Definition TSS `{PagingApi} (stack : Z) : outcome TaskStateSegment :=
  let tss := TaskStateSegment_new in
  let stack_start := stack in
  stack_end ← virt_add stack_start STACK_SIZE;
  _ ← idx (interrupt_stack_table tss) (Z.to_nat DOUBLE_FAULT_IST_INDEX);
  Ok (MkTSS (<[Z.to_nat DOUBLE_FAULT_IST_INDEX := stack_end]> (interrupt_stack_table tss))).

(** ** The descriptor table *)

(** [GlobalDescriptorTable] and the descriptors it is filled with. *)
Class GdtApi (G Descriptor : Type) : Type := {
  gdt_new : G;
  add_entry : Descriptor → io G Z;
  kernel_code_segment : Descriptor;
  tss_segment : TaskStateSegment → Descriptor;
}.

(** [add_entry] returns the selector of the new descriptor and keeps the
    others; a new table has room for a code and a task state segment. *)
Class GdtSpec (G Descriptor : Type) `{GdtApi G Descriptor} : Type := {
  descriptor : G → Z → option Descriptor;
  room : G → nat;
  gdt_new_room : (3 ≤ room gdt_new)%nat;
  add_entry_spec g d : (2 ≤ room g)%nat →
    ∃ g' sel, add_entry d g = (g', Ok sel) ∧ (room g ≤ room g' + 2)%nat ∧
      (d = kernel_code_segment → (room g ≤ room g' + 1)%nat) ∧
      descriptor g sel = None ∧ descriptor g' sel = Some d ∧
      ∀ sel', sel' ≠ sel → descriptor g' sel' = descriptor g sel';
}.

Record Selectors : Type := MkSelectors { code_selector : Z; tss_selector : Z }.

(** The static [GDT]. *)
Definition GDT {G Descriptor} `{GdtApi G Descriptor} (tss : TaskStateSegment) :
    outcome (G * Selectors) :=
  let '(g, r) := (code_selector ← add_entry kernel_code_segment;
                  tss_selector ← add_entry (tss_segment tss);
                  mret (MkSelectors code_selector tss_selector)) gdt_new in
  sel ← r;
  Ok (g, sel).

(** The processor's registers that [init] loads. *)
Record Registers (G : Type) : Type := MkRegs { gdtr : option G; cs : Z; tr : Z }.
Arguments MkRegs {G}.
Arguments gdtr {G}.
Arguments cs {G}.
Arguments tr {G}.

Definition gdt_init {G Descriptor} `{GdtApi G Descriptor} `{PagingApi} (stack : Z) :
    io (Registers G) unit :=
  tss ← lift (TSS stack);
  '(g, sel) ← lift (GDT tss);
  r ← get;
  _ ← put (MkRegs (Some g) (cs r) (tr r));
  r ← get;
  _ ← put (MkRegs (gdtr r) (code_selector sel) (tr r));
  r ← get;
  put (MkRegs (gdtr r) (cs r) (tss_selector sel)).

(** ** Delivery of exceptions

    What the processor does with vector [v] at stack pointer [rsp]: it pushes
    a frame on the stack of the interrupt stack table that the descriptor
    names, or on the current one, aligned to 16 bytes. *)

(** [set_stack_index] in the initialisation of [IDT]. *)
Definition stack_index (v : Z) : option Z :=
  if decide (v = 8) then Some DOUBLE_FAULT_IST_INDEX else None.

(** Five words, and an error code for a double fault or a page fault. *)
Definition frame_size (v : Z) : Z := if decide (v = 8 ∨ v = 14) then 48 else 40.

Inductive delivered : Type :=
  | Entered (h : Interrupts.handler) (rsp : Z)
  | TripleFault.

Section deliver.
(** [writable a n]: the [n] bytes at [a] are mapped and writable. *)
Context (writable : Z → Z → bool) (tss : TaskStateSegment).

Definition frame_address (v rsp : Z) : Z :=
  let top := match stack_index v with
             | Some i => interrupt_stack_table tss !!! Z.to_nat i
             | None => rsp
             end in
  top / 16 * 16 - frame_size v.

Definition enter (v rsp : Z) (otherwise : delivered) : delivered :=
  let a := frame_address v rsp in
  if writable a (frame_size v)
  then Entered (default Interrupts.double_fault_handler (Interrupts.IDT v)) a
  else otherwise.

(** A vector without a descriptor becomes a double fault, as does a page fault
    while a page fault is delivered; a fault while a double fault is delivered
    stops the machine. *)
Definition deliver (v rsp : Z) : delivered :=
  let double_fault := enter 8 rsp TripleFault in
  match Interrupts.IDT v with
  | None => double_fault
  | Some _ =>
    if decide (v = 8) then double_fault
    else if decide (v = 14) then enter 14 rsp double_fault
    else enter v rsp (enter 14 rsp double_fault)
  end.

End deliver.

(** ** Correctness *)

Section proofs.
Context {G Descriptor : Type} `{GdtSpec G Descriptor} `{PagingSpec}.

(** The pages of [STACK] are mapped. *)
Definition stack_mapped (writable : Z → Z → bool) (stack : Z) : Prop :=
  ∀ a n, stack ≤ a → 0 ≤ n → a + n ≤ stack + STACK_SIZE → writable a n = true.

Lemma TSS_ok stack :
  canonical (stack + STACK_SIZE) →
  ∃ tss, TSS stack = Ok tss ∧ interrupt_stack_table tss !!! 0%nat = stack + STACK_SIZE.
Proof.
  intros Hc. unfold TSS. rewrite virt_add_spec by (done || unfold STACK_SIZE; lia).
  rewrite ok_bind. cbn. by eexists.
Qed.

Lemma double_fault_frame writable tss stack rsp :
  stack_mapped writable stack → interrupt_stack_table tss !!! 0%nat = stack + STACK_SIZE →
  ∃ a, enter writable tss 8 rsp TripleFault = Entered Interrupts.double_fault_handler a ∧
    stack ≤ a ∧ a + frame_size 8 ≤ stack + STACK_SIZE.
Proof.
  intros Hm Hi. unfold enter.
  set (a := frame_address tss 8 rsp).
  assert (Ha : a = (stack + STACK_SIZE) / 16 * 16 - 48).
  { unfold a, frame_address. change (stack_index 8) with (Some 0). cbv iota beta zeta.
    change (Z.to_nat 0) with 0%nat. by rewrite Hi. }
  assert (stack ≤ a ∧ a + frame_size 8 ≤ stack + STACK_SIZE) as [Hlo Hhi].
  { rewrite Ha. change (frame_size 8) with 48. unfold STACK_SIZE.
    Z.to_euclidean_division_equations; lia. }
  exists a. rewrite Hm by (done || (change (frame_size 8) with 48; lia)). done.
Qed.

Lemma GDT_ok tss :
  ∃ g sel, GDT tss = Ok (g, sel) ∧ descriptor g (code_selector sel) = Some kernel_code_segment ∧
    descriptor g (tss_selector sel) = Some (tss_segment tss).
Proof.
  pose proof gdt_new_room.
  destruct (add_entry_spec gdt_new kernel_code_segment)
    as (g1 & s1 & Heq1 & _ & Hr & _ & Hd1 & _); [lia|]. specialize (Hr eq_refl).
  destruct (add_entry_spec g1 (tss_segment tss))
    as (g2 & s2 & Heq2 & _ & _ & Hn & Hd2 & Hold); [lia|].
  exists g2, (MkSelectors s1 s2). split_and!; [|cbn|done].
  - unfold GDT, mbind, io_bind, outcome_bind. rewrite Heq1. by rewrite Heq2.
  - rewrite Hold; [done|]. congruence.
Qed.

(** C14. The tables gdt::init loads keep the kernel alive when its stack
    overflows: the code segment selector and the task register refer to the
    kernel code segment and to the TSS of the loaded table, and with these
    tables no exception at any stack pointer ends in a triple fault; an
    exception whose frame cannot be pushed, and a page fault that cannot be
    delivered, enters the double-fault handler on a frame inside the static
    STACK. *)
Theorem double_fault_has_stack (writable : Z → Z → bool) stack (r : Registers G) :
  canonical (stack + STACK_SIZE) → stack_mapped writable stack →
  ∃ tss g r', gdt_init stack r = (r', Ok tt) ∧ gdtr r' = Some g ∧
    descriptor g (cs r') = Some kernel_code_segment ∧
    descriptor g (tr r') = Some (tss_segment tss) ∧
    ∀ v rsp, deliver writable tss v rsp ≠ TripleFault ∧
      (writable (frame_address tss 14 rsp) (frame_size 14) = false →
       writable (frame_address tss v rsp) (frame_size v) = false →
       ∃ a, deliver writable tss v rsp = Entered Interrupts.double_fault_handler a ∧
         stack ≤ a ∧ a + frame_size 8 ≤ stack + STACK_SIZE).
Proof.
  intros Hc Hm. destruct (TSS_ok stack Hc) as (tss & Htss & Hist).
  destruct (GDT_ok tss) as (g & sel & Hg & Hcode & Htr).
  exists tss, g, (MkRegs (Some g) (code_selector sel) (tss_selector sel)).
  split_and!; [|done..|].
  { unfold gdt_init, mbind, io_bind, lift, get, put. by rewrite Htss, Hg. }
  intros v rsp. destruct (double_fault_frame writable tss stack rsp Hm Hist) as (a & Ha & Hb).
  unfold deliver. rewrite Ha. split.
  - destruct (Interrupts.IDT v); [|done]. repeat case_decide; [done|..];
      unfold enter; repeat case_match; done.
  - intros Hpf Hv. exists a. split; [|done]. destruct (Interrupts.IDT v); [|done].
    repeat case_decide; [done|..]; unfold enter at 1; [by rewrite Hpf|].
    rewrite Hv. unfold enter. by rewrite Hpf.
Qed.

End proofs.

(** ** Witness

    A table that keeps its descriptors in a list, a TSS taking two slots. *)

Module GdtExamples.
Import MemoryExamples.

Inductive desc : Type := Code | Task (t : TaskStateSegment).

#[export] Instance list_gdt : GdtApi (list (option desc)) desc := {|
  gdt_new := [None];
  add_entry d g :=
    let slots := match d with Code => [Some d] | Task _ => [Some d; None] end in
    if decide (length g + length slots ≤ 8)%nat
    then (g ++ slots, Ok (8 * Z.of_nat (length g))) else (g, Panic);
  kernel_code_segment := Code;
  tss_segment := Task;
|}.

(** The descriptor at a selector, a multiple of eight. *)
Definition lookup (g : list (option desc)) (sel : Z) : option desc :=
  if decide (0 ≤ sel ∧ sel mod 8 = 0) then mjoin (g !! Z.to_nat (sel / 8)) else None.

Lemma lookup_slot (g : list (option desc)) i : lookup g (8 * Z.of_nat i) = mjoin (g !! i).
Proof.
  unfold lookup. rewrite decide_True by (rewrite Z.mul_comm, Z_mod_mult; lia).
  by rewrite Z.mul_comm, Z.div_mul, Nat2Z.id by lia.
Qed.

#[export] Instance list_gdt_spec : GdtSpec (list (option desc)) desc.
Proof.
  exists lookup (λ g, 8 - length g)%nat; [simpl; lia|].
  intros g d Hr. set (slots := match d with Code => [Some d] | Task _ => [Some d; None] end).
  assert (Hs : ∃ rest, slots = Some d :: rest ∧ (length rest ≤ 1)%nat ∧
    (d = Code → rest = []) ∧ Forall (λ x, x = None) rest).
  { destruct d; eexists; split_and!; [reflexivity|simpl; lia|done|by constructor|
      reflexivity|simpl; lia|done|by repeat constructor]. }
  destruct Hs as (rest & Hs & Hlen & Hcode & Hnone).
  exists (g ++ slots), (8 * Z.of_nat (length g)). split_and!.
  - cbn [add_entry list_gdt]. fold slots. rewrite decide_True; [done|]. rewrite Hs. simpl. lia.
  - rewrite length_app, Hs. simpl. lia.
  - intros ->. rewrite length_app, Hs, (Hcode eq_refl). simpl. lia.
  - rewrite lookup_slot, lookup_ge_None_2 by lia. done.
  - rewrite lookup_slot, lookup_app_r, Nat.sub_diag, Hs by lia. done.
  - intros sel Hne. unfold lookup. case_decide as Hsel; [|done].
    assert (Z.to_nat (sel / 8) ≠ length g).
    { intros Heq. apply Hne. rewrite <-Heq. Z.to_euclidean_division_equations; lia. }
    destruct (decide (Z.to_nat (sel / 8) < length g)%nat); [by rewrite lookup_app_l|].
    rewrite lookup_app_r, (lookup_ge_None_2 g) by lia. rewrite Hs, lookup_cons_ne_0 by lia.
    destruct (rest !! _) as [x|] eqn:Hx; [|done].
    rewrite Forall_forall in Hnone. by rewrite (Hnone x) by by eapply list_elem_of_lookup_2.
Qed.

(** A stack that has run into its guard page below 0x10000. *)
Definition above_guard (a n : Z) : bool := bool_decide (0x10000 ≤ a).

Lemma double_fault_has_stack_witness :
  ∃ tss a, deliver above_guard tss 14 0x10010 = Entered Interrupts.double_fault_handler a ∧
    0x200000 ≤ a < 0x205000.
Proof.
  destruct (double_fault_has_stack above_guard 0x200000 (MkRegs (G := list (option desc)) None 0 0))
    as (tss & g & r' & _ & _ & _ & _ & Hdel).
  - left. unfold STACK_SIZE. lia.
  - intros a n Ha Hn _. unfold above_guard. apply bool_decide_eq_true. lia.
  - destruct (Hdel 14 0x10010) as [_ (a & Ha & Hlo & Hhi)]; [reflexivity..|].
    exists tss, a. split; [done|]. change (frame_size 8) with 48 in Hhi.
    unfold STACK_SIZE in Hhi. lia.
Defined.

End GdtExamples.
