(* ===== verification/Locks.v ===== *)
(** * Spin locks and interrupts ([Locked] of [src/allocator.rs], [_print] of
    [src/vga_buffer.rs] and [src/serial.rs], [PICS] of [src/interrupts.rs])

    On one processor a spin lock held by interrupted code is never released
    while the handler spins on it.  The kernel's code is reduced to its
    accesses to locks and to the interrupt flag; a check of these sequences is
    a type system whose well-typed programs do not deadlock, and the kernel's
    sequences pass it. *)

From S2P Require Import Prelude.

(** ** Programs *)

Inductive lock : Type := WRITER | SERIAL1 | PICS | ALLOCATOR.

#[global] Instance lock_eq_dec : EqDecision lock.
Proof. solve_decision. Defined.
#[global] Instance lock_countable : Countable lock.
Proof.
  refine (inj_countable' (λ l, match l with WRITER => 0 | SERIAL1 => 1 | PICS => 2 | ALLOCATOR => 3 end)%nat
    (λ n, match n with 0 => WRITER | 1 => SERIAL1 | 2 => PICS | _ => ALLOCATOR end)%nat _).
  by intros [].
Defined.

(** [Work] is any code between two of the other instructions. *)
Inductive instr : Type :=
  | Cli
  | Sti
  | Acquire (l : lock)
  | Release (l : lock)
  | Work.

(** [x86_64::instructions::interrupts::without_interrupts]: interrupts are
    enabled again if they were enabled. *)
Definition without_interrupts (enabled : bool) (body : list instr) : list instr :=
  if enabled then [Cli] ++ body ++ [Sti] else body.

(** A [MutexGuard] that lives for the statement. *)
Definition with_lock (l : lock) : list instr := [Acquire l; Work; Release l].

(** [_print] of the console and of the serial port. *)
Definition print_code (enabled : bool) : list instr := without_interrupts enabled (with_lock WRITER).
Definition serial_print_code (enabled : bool) : list instr :=
  without_interrupts enabled (with_lock SERIAL1).

(** [alloc] and [dealloc] through [Locked]. *)
Definition locked_code : list instr := with_lock ALLOCATOR.

Definition end_of_interrupt_code : list instr := with_lock PICS.

(** [rusty_os::init] *)
Definition init_code : list instr := [Work; Work] ++ with_lock PICS ++ [Sti].

(** [AtomicWaker::wake] takes the registered waker, calls it and drops it.  The
    drop returns memory to the heap when the waker was the last reference to
    its [TaskWaker], that is, when [waker_cache] no longer has it because the
    task has ended; [frees] says that this can happen. *)
Definition wake_codes (frees : bool) : list (list instr) :=
  [Work] :: (if frees then [[Work] ++ locked_code] else []).

Definition timer_codes : list (list instr) := [print_code false ++ end_of_interrupt_code].

(** [add_scancode] warns or wakes. *)
Definition keyboard_codes (frees : bool) : list (list instr) :=
  (print_code false ++ end_of_interrupt_code) ::
  ((λ w, w ++ end_of_interrupt_code) <$> wake_codes frees).

(** [on_primary_ata_interrupt]: an error, no data, or a sector. *)
Definition ata_codes (frees : bool) : list (list instr) :=
  ([Work] ++ print_code false ++ end_of_interrupt_code) ::
  ([Work] ++ end_of_interrupt_code) ::
  ((λ w, [Work] ++ print_code false ++ w ++ end_of_interrupt_code) <$> wake_codes frees).

Definition handler_codes (frees : bool) : list (list instr) :=
  timer_codes ++ keyboard_codes frees ++ ata_codes frees.

(** [sleep_if_idle]: interrupts are enabled again on both branches. *)
Definition sleep_code : list instr := [Cli; Work; Sti].

(** What the kernel does once interrupts are enabled. *)
Inductive op : Type := Print | SerialPrint | HeapCall | Sleep | Compute.

Definition op_code (o : op) : list instr :=
  match o with
  | Print => print_code true
  | SerialPrint => serial_print_code true
  | HeapCall => locked_code
  | Sleep => sleep_code
  | Compute => [Work]
  end.

(** [kernel_main]: a greeting with interrupts disabled, [init], then any
    sequence of operations. *)
Definition kernel_code (ops : list op) : list instr :=
  print_code false ++ init_code ++ (ops ≫= op_code).

(** ** The processor *)

Record cpu : Type := Cpu {
  enabled : bool;
  held : gset lock;
  main : list instr;
  isr : option (list instr);
}.

(** One instruction on the interrupt flag and the locks; there is none for a
    lock that is taken: the processor spins. *)
Inductive exec : instr → bool * gset lock → bool * gset lock → Prop :=
  | exec_cli i h : exec Cli (i, h) (false, h)
  | exec_sti i h : exec Sti (i, h) (true, h)
  | exec_acquire l i h : l ∉ h → exec (Acquire l) (i, h) (i, {[l]} ∪ h)
  | exec_release l i h : exec (Release l) (i, h) (i, h ∖ {[l]})
  | exec_work i h : exec Work (i, h) (i, h).

Inductive code_step : cpu → cpu → Prop :=
  | step_main x p i h i' h' :
      exec x (i, h) (i', h') → code_step (Cpu i h (x :: p) None) (Cpu i' h' p None)
  | step_isr x p m i h i' h' :
      exec x (i, h) (i', h') → code_step (Cpu i h m (Some (x :: p))) (Cpu i' h' m (Some p))
  | step_iret m i h : code_step (Cpu i h m (Some [])) (Cpu true h m None).

Section machine.
Context (handlers : list (list instr)).

Inductive interrupt : cpu → cpu → Prop :=
  | interrupt_enter p m h :
      p ∈ handlers → interrupt (Cpu true h m None) (Cpu false h m (Some p)).

Definition cpu_step (x y : cpu) : Prop := code_step x y ∨ interrupt x y.

End machine.

Definition finished (c : cpu) : Prop := main c = [] ∧ isr c = None.

(** ** The lock discipline

    [isr_locks] are the locks handlers may take.  Outside handlers they are
    held with interrupts disabled only; no lock is taken twice, and all are
    released in the end. *)

Section discipline.
Context (isr_locks : gset lock).

Fixpoint check (enabled : bool) (held : gset lock) (p : list instr) : bool :=
  match p with
  | [] => bool_decide (held = ∅)
  | Cli :: p => check false held p
  | Sti :: p => bool_decide (held ∩ isr_locks = ∅) && check true held p
  | Acquire l :: p =>
    bool_decide (l ∉ held) && (bool_decide (l ∉ isr_locks) || negb enabled) &&
    check enabled ({[l]} ∪ held) p
  | Release l :: p => bool_decide (l ∈ held) && check enabled (held ∖ {[l]}) p
  | Work :: p => check enabled held p
  end.

(** A handler keeps interrupts disabled and takes [isr_locks] only. *)
Definition isr_instr (x : instr) : bool :=
  match x with
  | Cli | Sti => false
  | Acquire l => bool_decide (l ∈ isr_locks)
  | Release _ | Work => true
  end.

Definition check_handler (p : list instr) : bool := forallb isr_instr p && check false ∅ p.

(** A processor whose code obeys the discipline; the locks of the interrupted
    code and those of the handler are apart. *)
Definition typed (c : cpu) : Prop :=
  match isr c with
  | None => check (enabled c) (held c) (main c) = true ∧
            (enabled c = true → held c ∩ isr_locks = ∅)
  | Some p => ∃ outer inner, held c = outer ∪ inner ∧ outer ∩ isr_locks = ∅ ∧
                inner ⊆ isr_locks ∧ enabled c = false ∧ check true outer (main c) = true ∧
                forallb isr_instr p = true ∧ check false inner p = true
  end.

Lemma typed_code_step x y : code_step x y → typed x → typed y.
Proof.
  destruct 1 as [x p i h i' h' Hx|x p m i h i' h' Hx|m i h]; cbn.
  - intros [Hc Hi]. inversion Hx; subst; cbn in Hc |- *;
      rewrite ?andb_true_iff, ?orb_true_iff, ?bool_decide_eq_true, ?negb_true_iff in Hc;
      split; try tauto; try done; intros Hen.
    + destruct Hc as [[_ [Hl|Hl]] _]; [|congruence]. specialize (Hi Hen). set_solver.
    + specialize (Hi Hen). set_solver.
  - intros (outer & inner & -> & Ho & Hin & -> & Hm & Hp & Hc). cbn in Hp.
    apply andb_true_iff in Hp as [Hx' Hp]. inversion Hx; subst; cbn in Hc, Hx' |- *; try done.
    + rewrite bool_decide_eq_true in Hx'. rewrite !andb_true_iff in Hc.
      exists outer, ({[l]} ∪ inner). split_and!; try done; [set_solver|set_solver|tauto].
    + rewrite andb_true_iff, bool_decide_eq_true in Hc. destruct Hc as [Hl Hc].
      exists outer, (inner ∖ {[l]}). split_and!; try done; set_solver.
    + by exists outer, inner.
  - intros (outer & inner & -> & Ho & Hin & _ & Hm & _ & Hc).
    apply bool_decide_eq_true in Hc as ->. by rewrite (right_id_L ∅ (∪)).
Qed.

Lemma typed_interrupt handlers x y :
  Forall (λ p, check_handler p = true) handlers → interrupt handlers x y → typed x → typed y.
Proof.
  intros Hh [p m h Hp] [Hc Hi]. cbn in *. rewrite Forall_forall in Hh.
  apply Hh in Hp. unfold check_handler in Hp. apply andb_true_iff in Hp as [Hp1 Hp2].
  specialize (Hi eq_refl). exists h, ∅. split_and!; try done; set_solver.
Qed.

Lemma typed_progress c : typed c → finished c ∨ ∃ c', code_step c c'.
Proof.
  destruct c as [i h m [p|]]; cbn.
  - intros (outer & inner & -> & Ho & Hin & -> & Hm & Hp & Hc). right.
    destruct p as [|x p]; [eexists; apply step_iret|].
    cbn in Hp. apply andb_true_iff in Hp as [Hx Hp].
    destruct x as [| |l|l|]; try (eexists; eapply step_isr; constructor; fail).
    cbn in Hc, Hx. rewrite !andb_true_iff, bool_decide_eq_true in Hc.
    rewrite bool_decide_eq_true in Hx. eexists. eapply step_isr. constructor. set_solver.
  - intros [Hc _]. destruct m as [|x m]; [by left|]. right.
    destruct x as [| |l|l|]; try (eexists; eapply step_main; constructor; fail).
    cbn in Hc. rewrite !andb_true_iff, bool_decide_eq_true in Hc.
    eexists. eapply step_main. constructor. tauto.
Qed.

Lemma typed_reachable handlers x y :
  Forall (λ p, check_handler p = true) handlers →
  rtc (cpu_step handlers) x y → typed x → typed y.
Proof.
  intros Hh Hsteps. induction Hsteps as [|x y z [Hxy|Hxy] _ IH]; [done|..]; intros Hx; apply IH.
  - by eapply typed_code_step.
  - by eapply typed_interrupt.
Qed.

(** The lock discipline is sound: code and handlers that pass the check stay
    well typed and never deadlock. In every state that is reachable with
    interrupts at any point, the processor has finished or its current code
    can make a step, that is, it never spins on a lock that cannot be
    released. *)
Lemma lock_discipline_sound handlers enabled p c :
  check enabled ∅ p = true → Forall (λ q, check_handler q = true) handlers →
  rtc (cpu_step handlers) (Cpu enabled ∅ p None) c →
  typed c ∧ (finished c ∨ ∃ c', code_step c c').
Proof.
  intros Hp Hh Hsteps.
  assert (Hc : typed c).
  { apply (typed_reachable handlers _ _ Hh Hsteps). split; [done|]. cbn. set_solver. }
  split; [done|by apply typed_progress].
Qed.

End discipline.

(** ** The kernel's code *)

Definition kernel_isr_locks : gset lock := {[WRITER; PICS]}.

(** Operations leave the flag and the locks as they found them. *)
Lemma check_op o p :
  check kernel_isr_locks true ∅ (op_code o ++ p) = check kernel_isr_locks true ∅ p.
Proof.
  destruct o; vm_compute; reflexivity.
Qed.

Lemma check_ops ops : check kernel_isr_locks true ∅ (ops ≫= op_code) = true.
Proof. induction ops as [|o ops IH]; [done|]. cbn [mbind list_bind]. by rewrite check_op. Qed.

Lemma check_boot p :
  check kernel_isr_locks false ∅ (print_code false ++ init_code ++ p) =
  check kernel_isr_locks true ∅ p.
Proof. vm_compute. reflexivity. Qed.

Lemma handlers_ok : Forall (λ p, check_handler kernel_isr_locks p = true) (handler_codes false).
Proof. repeat constructor. Qed.

Lemma kernel_typed ops c :
  rtc (cpu_step (handler_codes false)) (Cpu false ∅ (kernel_code ops) None) c →
  typed kernel_isr_locks c.
Proof.
  intros Hsteps. eapply (lock_discipline_sound _ _ false (kernel_code ops)); [|apply handlers_ok|done].
  unfold kernel_code. by rewrite check_boot, check_ops.
Qed.

Lemma typed_enabled_free c :
  typed kernel_isr_locks c → enabled c = true → (WRITER ∉ held c) ∧ (PICS ∉ held c).
Proof.
  unfold typed, kernel_isr_locks. destruct (isr c) as [p|].
  - intros (? & ? & _ & _ & _ & ? & _). congruence.
  - intros [_ Hh] Hen. specialize (Hh Hen). set_solver.
Qed.

(** The flag and the locks after [p], without interrupts. *)
Fixpoint flags (i : bool) (h : gset lock) (p : list instr) : bool * gset lock :=
  match p with
  | [] => (i, h)
  | Cli :: p => flags false h p
  | Sti :: p => flags true h p
  | Acquire l :: p => flags i ({[l]} ∪ h) p
  | Release l :: p => flags i (h ∖ {[l]}) p
  | Work :: p => flags i h p
  end.

Lemma run_main handlers isr_locks i h p q :
  check isr_locks i h (p ++ q) = true →
  rtc (cpu_step handlers) (Cpu i h (p ++ q) None) (Cpu (flags i h p).1 (flags i h p).2 q None).
Proof.
  revert i h. induction p as [|x p IH]; intros i h Hc; [done|].
  destruct x; cbn in Hc |- *; rewrite ?andb_true_iff, ?bool_decide_eq_true in Hc;
    (eapply rtc_l; [left; apply step_main; constructor; tauto|apply IH; tauto]).
Qed.

(** A heap call is interrupted while it holds the allocator's lock. *)
Lemma heap_call_interrupted handlers p :
  p ∈ handlers →
  rtc (cpu_step handlers) (Cpu false ∅ (kernel_code [HeapCall]) None)
    (Cpu false {[ALLOCATOR]} [Work; Release ALLOCATOR] (Some p)).
Proof.
  intros Hp. eapply rtc_r.
  - apply (run_main handlers kernel_isr_locks false ∅
      (print_code false ++ init_code ++ [Acquire ALLOCATOR]) [Work; Release ALLOCATOR]).
    vm_compute. reflexivity.
  - right. by apply interrupt_enter.
Qed.

(** A handler that then uses the heap spins forever. *)
Lemma spins_forever handlers m p c' :
  ¬ cpu_step handlers (Cpu false {[ALLOCATOR]} m (Some (Acquire ALLOCATOR :: p))) c'.
Proof.
  intros [Hs|Hs]; [|inversion Hs]. inversion Hs as [| |]; subst.
  match goal with H : exec _ _ _ |- _ => inversion H; subst end. set_solver.
Qed.

Lemma freeing_wake_deadlocks :
  ∃ c, rtc (cpu_step (handler_codes true)) (Cpu false ∅ (kernel_code [HeapCall]) None) c ∧
    (¬ finished c) ∧ ∀ c', ¬ cpu_step (handler_codes true) c c'.
Proof.
  exists (Cpu false {[ALLOCATOR]} [Work; Release ALLOCATOR] (Some (locked_code ++ end_of_interrupt_code))).
  split_and!; [|by intros [? ?]|intros c'; apply spins_forever].
  eapply rtc_r; [apply (heap_call_interrupted _ ([Work] ++ locked_code ++ end_of_interrupt_code))|].
  - cbn. set_solver.
  - left. apply step_isr. constructor.
Qed.

