(* ===== verification/Serial.v ===== *)
(** * The serial port ([src/serial.rs])

    [SERIAL1], its lazy initialisation and [_print], over the port of the crate
    [uart_16550]. *)

From S2P Require Import Prelude Format.

(** [SerialPort::new], [SerialPort::init] and [fmt::Write::write_str]. *)
Class SerialPort (U : Type) : Type := {
  sp_new : Z → U;
  sp_init : U → U;
  sp_write_str : list Z → io U unit;
}.

(** The crate sends backspace and delete as three bytes each. *)
Definition plain (s : list Z) : Prop := Forall (λ b, b ≠ 8 ∧ b ≠ 0x7f) s.

(** [sent u]: the bytes sent so far.  Other bytes are sent as they are. *)
Class SerialPortSpec (U : Type) `{SerialPort U} : Type := {
  sent : U → list Z;
  sp_init_spec port : sent (sp_init (sp_new port)) = [];
  sp_write_str_spec u s : plain s →
    ∃ u', sp_write_str s u = (u', Ok tt) ∧ sent u' = sent u ++ s;
}.

Section ops.
Context {U : Type} `{SerialPort U}.

(** The state of [lazy_static]: [SERIAL1] is initialised by its first use. *)
Definition SERIAL1 (s : option U) : U :=
  match s with
  | Some u => u
  | None => sp_init (sp_new 0x3F8)
  end.

(** [_print]; [write_fmt] hands [write_str] the pieces of the format string. *)
Definition serial_print (args : list (list Z)) : io (option U) unit :=
  s ← get;
  let '(u, r) := for_each args sp_write_str (SERIAL1 s) in
  _ ← put (Some u);
  match r with
  | Err _ => lift Panic
  | r => lift r
  end.

Definition serial_println (args : list (list Z)) : io (option U) unit :=
  serial_print (args ++ [newline]).

End ops.

Section proofs.
Context {U : Type} `{SerialPortSpec U}.

(** What has been sent, also before the first use. *)
Definition serial_sent (s : option U) : list Z := sent (SERIAL1 s).

Lemma write_pieces args u :
  Forall plain args →
  ∃ u', for_each args sp_write_str u = (u', Ok tt) ∧ sent u' = sent u ++ concat args.
Proof.
  revert u. induction args as [|a args IH]; intros u Hp.
  { exists u. by rewrite app_nil_r. }
  apply Forall_cons in Hp as [Ha Hp]. destruct (sp_write_str_spec u a Ha) as (u1 & Heq & Hs).
  destruct (IH u1 Hp) as (u2 & Heq2 & Hs2). exists u2. split.
  - cbn [for_each]. unfold mbind, io_bind. by rewrite Heq.
  - rewrite Hs2, Hs. cbn. by rewrite app_assoc.
Qed.

Lemma serial_print_sends args s :
  Forall plain args →
  ∃ s', serial_print args s = (s', Ok tt) ∧ serial_sent s' = serial_sent s ++ concat args.
Proof.
  intros Hp. destruct (write_pieces args (SERIAL1 s) Hp) as (u & Heq & Hs).
  exists (Some u). unfold serial_print, mbind, io_bind, get. by rewrite Heq.
Qed.

End proofs.
