(* ===== verification/TestRunner.v ===== *)
(** * The test runner ([src/lib.rs])

    [Testable], [test_runner], [test_panic_handler] and [exit_qemu], over the
    serial port and the system under test; what they report is compared with a
    reference definition. *)

From S2P Require Import Prelude Format Serial.

Inductive QemuExitCode : Type := Success | Failed.

Definition exit_code_as_u32 (c : QemuExitCode) : Z :=
  match c with Success => 0x10 | Failed => 0x11 end.

(** The serial port, the values written to port 0xf4 and the system the tests
    run on. *)
Record Bench (U S : Type) : Type := MkBench {
  serial : option U;
  port_0xf4 : list Z;
  sys : S;
}.
Arguments MkBench {U S}.
Arguments serial {U S}.
Arguments port_0xf4 {U S}.
Arguments sys {U S}.

(** A test function and its [core::any::type_name]. *)
Record Testable (S : Type) : Type := MkTest { type_name : list Z; test_fn : io S unit }.
Arguments MkTest {S}.
Arguments type_name {S}.
Arguments test_fn {S}.

Section ops.
Context {U S : Type} `{SerialPort U}.

Definition on_serial (m : io (option U) unit) : io (Bench U S) unit :=
  b ← get;
  let '(u, r) := m (serial b) in
  _ ← put (MkBench u (port_0xf4 b) (sys b));
  lift r.

Definition on_sys (m : io S unit) : io (Bench U S) unit :=
  b ← get;
  let '(s, r) := m (sys b) in
  _ ← put (MkBench (serial b) (port_0xf4 b) s);
  lift r.

Definition exit_qemu (exit_code : QemuExitCode) : io (Bench U S) unit :=
  b ← get;
  put (MkBench (serial b) (port_0xf4 b ++ [exit_code_as_u32 exit_code]) (sys b)).

(** [hlt_loop] never returns. *)
Definition hlt_loop : io (Bench U S) unit := lift Hang.

(** [Testable::run] *)
Definition Testable_run (test : Testable S) : io (Bench U S) unit :=
  _ ← on_serial (serial_print [type_name test; text "..." ++ [0x09]]);
  _ ← on_sys (test_fn test);
  on_serial (serial_println [text "[ok]"]).

Definition test_runner (tests : list (Testable S)) : io (Bench U S) unit :=
  _ ← on_serial (serial_println [text "Running "; show_dec (Z.of_nat (length tests)); text " tests"]);
  _ ← for_each tests Testable_run;
  exit_qemu Success.

(** [info] is the formatted [PanicInfo]. *)
Definition test_panic_handler (info : list Z) : io (Bench U S) unit :=
  _ ← on_serial (serial_println [text "[failed]" ++ newline]);
  _ ← on_serial (serial_println [text "Error: "; info; newline]);
  _ ← exit_qemu Failed;
  hlt_loop.

(** [test_kernel_main] after [init]: a panic ends in the panic handler. *)
Definition test_kernel_main (tests : list (Testable S)) (info : list Z) : io (Bench U S) unit :=
  λ b, match test_runner tests b with
       | (b', Panic) => test_panic_handler info b'
       | (b', Ok _) => hlt_loop b'
       | r => r
       end.

End ops.

(** ** The reference report

    What a run of the tests on [s] reports, and its verdict. *)
Section report.
Context {S : Type} (info : list Z).

Fixpoint report (tests : list (Testable S)) (s : S) : list Z * QemuExitCode :=
  match tests with
  | [] => ([], Success)
  | test :: tests =>
    let head := type_name test ++ text "..." ++ [0x09] in
    match test_fn test s with
    | (s', Ok _) =>
      let '(out, code) := report tests s' in (head ++ text "[ok]" ++ newline ++ out, code)
    | (s', _) =>
      (head ++ text "[failed]" ++ newline ++ newline ++
       text "Error: " ++ info ++ newline ++ newline, Failed)
    end
  end.

(** All tests return. *)
Fixpoint all_pass (tests : list (Testable S)) (s : S) : Prop :=
  match tests with
  | [] => True
  | test :: tests => ∃ s', test_fn test s = (s', Ok tt) ∧ all_pass tests s'
  end.

Lemma report_success tests s : (report tests s).2 = Success ↔ all_pass tests s.
Proof.
  revert s. induction tests as [|test tests IH]; intros s; [done|]. cbn [report all_pass].
  destruct (test_fn test s) as [s' [[]|e| |]]; try (split; [done|by intros (? & ? & _)]).
  specialize (IH s'). destruct (report tests s') as [out code]. cbn in *.
  rewrite IH. split; [by exists s'|]. by intros (? & [= <-] & ?).
Qed.

(** A run without failure. *)
Lemma report_all_pass tests s :
  all_pass tests s →
  (report tests s).1 =
    tests ≫= λ test, type_name test ++ text "..." ++ [0x09] ++ text "[ok]" ++ newline.
Proof.
  revert s. induction tests as [|test tests IH]; intros s; [done|]. intros (s' & Hf & Hp).
  cbn [report mbind list_bind]. rewrite Hf. specialize (IH s' Hp).
  destruct (report tests s') as [out code]. cbn [fst] in *. rewrite IH. by rewrite <-!app_assoc.
Qed.

End report.

(** A test that ends: it returns or panics. *)
Definition ends {S} (test : Testable S) (s : S) : Prop :=
  ∃ s', test_fn test s = (s', Ok tt) ∨ test_fn test s = (s', Panic).

(** Every test that is run from [s] ends. *)
Fixpoint all_end {S} (tests : list (Testable S)) (s : S) : Prop :=
  match tests with
  | [] => True
  | test :: tests => ends test s ∧ ∀ s', test_fn test s = (s', Ok tt) → all_end tests s'
  end.

Lemma all_pass_end {S} (tests : list (Testable S)) s : all_pass tests s → all_end tests s.
Proof.
  revert s. induction tests as [|test tests IH]; intros s; [done|]. intros (s' & Hf & Hp). split.
  - exists s'. by left.
  - intros s'' Hf'. rewrite Hf in Hf'. injection Hf' as <-. by apply IH.
Qed.

(** The process status with which QEMU's isa-debug-exit device ends. *)
Definition qemu_status (code : Z) : Z := 2 * code + 1.

(** [test-success-exit-code] of the package's configuration. *)
Definition TEST_SUCCESS_EXIT_CODE : Z := 33.

Section proofs.
Context {U S : Type} `{SerialPortSpec U}.

(** [b'] is [b] after [out] has been sent. *)
Definition sends (b b' : Bench U S) (out : list Z) : Prop :=
  serial_sent (serial b') = serial_sent (serial b) ++ out ∧
  port_0xf4 b' = port_0xf4 b ∧ sys b' = sys b.

Lemma on_serial_sends args (b : Bench U S) :
  Forall plain args →
  ∃ b', on_serial (serial_print args) b = (b', Ok tt) ∧ sends b b' (concat args).
Proof.
  intros Hp. destruct (serial_print_sends args (serial b) Hp) as (s & Heq & Hs).
  exists (MkBench s (port_0xf4 b) (sys b)). unfold on_serial, mbind, io_bind, get.
  by rewrite Heq.
Qed.

Lemma plain_show_dec n : 0 ≤ n → plain (show_dec n).
Proof.
  unfold show_dec. generalize 20%nat. intros fuel Hn. revert n Hn.
  induction fuel as [|fuel IH]; intros n Hn; [constructor|]. cbn [digits].
  apply Forall_app. split; [case_decide; [constructor|apply IH, Z.div_pos; lia]|].
  repeat constructor; unfold digit; pose proof (Z.mod_pos_bound n 10); case_decide; lia.
Qed.

Lemma test_panic_handler_ok info (b : Bench U S) :
  plain info →
  ∃ b', test_panic_handler info b = (b', Hang) ∧
    serial_sent (serial b') = serial_sent (serial b) ++ text "[failed]" ++ newline ++ newline ++
      text "Error: " ++ info ++ newline ++ newline ∧
    port_0xf4 b' = port_0xf4 b ++ [0x11] ∧ sys b' = sys b.
Proof.
  intros Hi. unfold test_panic_handler, serial_println.
  destruct (on_serial_sends ([text "[failed]" ++ newline] ++ [newline]) b)
    as (b1 & Heq1 & Hs1 & Hp1 & Hy1); [by repeat constructor|].
  destruct (on_serial_sends ([text "Error: "; info; newline] ++ [newline]) b1)
    as (b2 & Heq2 & Hs2 & Hp2 & Hy2); [repeat (constructor; [done || by repeat constructor|]); constructor|].
  eexists. unfold mbind, io_bind. rewrite Heq1, Heq2. split; [done|]. cbn [serial port_0xf4 sys].
  split_and!; [|by rewrite Hp2, Hp1|by rewrite Hy2].
  rewrite Hs2, Hs1. cbn [concat app]. by rewrite <-!app_assoc, ?app_nil_r.
Qed.

Definition failure (info : list Z) : list Z :=
  text "[failed]" ++ newline ++ newline ++ text "Error: " ++ info ++ newline ++ newline.

(** One test: its name is sent; then it passes, or panics. *)
Lemma Testable_run_cases test (b : Bench U S) :
  ends test (sys b) → plain (type_name test) →
  let head := type_name test ++ text "..." ++ [0x09] in
  ∃ b', port_0xf4 b' = port_0xf4 b ∧
    ((Testable_run test b = (b', Ok tt) ∧ test_fn test (sys b) = (sys b', Ok tt) ∧
      serial_sent (serial b') = serial_sent (serial b) ++ head ++ text "[ok]" ++ newline) ∨
     (Testable_run test b = (b', Panic) ∧ test_fn test (sys b) = (sys b', Panic) ∧
      serial_sent (serial b') = serial_sent (serial b) ++ head)).
Proof.
  intros He Hn head. unfold Testable_run, serial_println.
  destruct (on_serial_sends [type_name test; text "..." ++ [0x09]] b)
    as (b1 & Heq1 & Hs1 & Hp1 & Hy1); [repeat (constructor; [done || by repeat constructor|]); constructor|].
  destruct He as [s' Hs'].
  set (b2 := MkBench (serial b1) (port_0xf4 b1) s').
  assert (Hsent : serial_sent (serial b1) = serial_sent (serial b) ++ head).
  { rewrite Hs1. done. }
  destruct Hs' as [Hf|Hf].
  - destruct (on_serial_sends ([text "[ok]"] ++ [newline]) b2)
      as (b3 & Heq3 & Hs3 & Hp3 & Hy3); [by repeat constructor|].
    exists b3. split; [by rewrite Hp3|]. left. unfold on_sys at 1, mbind, io_bind, get.
    rewrite Heq1, Hy1, Hf. unfold put, lift. fold b2. split_and!; [done|by rewrite Hy3|].
    rewrite Hs3. cbn [serial b2]. rewrite Hsent, <-!app_assoc. done.
  - exists b2. split; [done|]. right. unfold on_sys at 1, mbind, io_bind, get.
    rewrite Heq1, Hy1, Hf. done.
Qed.

Lemma run_tests_report tests info (b : Bench U S) :
  all_end tests (sys b) → Forall (λ test, plain (type_name test)) tests →
  let '(out, code) := report info tests (sys b) in
  ∃ b' r, for_each tests Testable_run b = (b', r) ∧ port_0xf4 b' = port_0xf4 b ∧
    ((r = Ok tt ∧ code = Success ∧ serial_sent (serial b') = serial_sent (serial b) ++ out) ∨
     (r = Panic ∧ code = Failed ∧
      serial_sent (serial b') ++ failure info = serial_sent (serial b) ++ out)).
Proof.
  revert b. induction tests as [|test tests IH]; intros b He Hn; cbn [report].
  { exists b, (Ok tt). split_and!; [done..|]. left. by rewrite app_nil_r. }
  destruct He as [He1 He]. apply Forall_cons in Hn as [Hn1 Hn].
  destruct (Testable_run_cases test b He1 Hn1) as (b1 & Hp1 & [(Heq & Hf & Hs)|(Heq & Hf & Hs)]);
    rewrite Hf; cbn [for_each]; unfold mbind, io_bind; rewrite Heq.
  - specialize (IH b1 (He _ Hf) Hn). destruct (report info tests (sys b1)) as [out code].
    destruct IH as (b' & r & -> & Hp & Hor). exists b', r. split_and!; [done|congruence|].
    rewrite Hs in Hor. rewrite <-!app_assoc in *. exact Hor.
  - exists b1, Panic. split_and!; [done..|]. right. split_and!; [done..|].
    rewrite Hs. unfold failure. by rewrite <-!app_assoc.
Qed.

Lemma test_run tests info (b : Bench U S) :
  all_end tests (sys b) → Forall (λ test, plain (type_name test)) tests → plain info →
  ∃ b', test_kernel_main tests info b = (b', Hang) ∧
    serial_sent (serial b') = serial_sent (serial b) ++ text "Running " ++
      show_dec (Z.of_nat (length tests)) ++ text " tests" ++ newline ++ (report info tests (sys b)).1 ∧
    port_0xf4 b' = port_0xf4 b ++ [exit_code_as_u32 (report info tests (sys b)).2].
Proof.
  intros He Hn Hi. unfold test_kernel_main, test_runner, serial_println.
  destruct (on_serial_sends ([text "Running "; show_dec (Z.of_nat (length tests)); text " tests"] ++ [newline]) b)
    as (b1 & Heq1 & Hs1 & Hp1 & Hy1).
  { repeat (constructor; [first [apply plain_show_dec; lia|by repeat constructor]|]). constructor. }
  pose proof (run_tests_report tests info b1 ltac:(by rewrite Hy1) Hn) as Hr. rewrite Hy1 in Hr.
  destruct (report info tests (sys b)) as [out code].
  destruct Hr as (b2 & r & Heq2 & Hp2 & [(-> & -> & Hs2)|(-> & -> & Hs2)]);
    unfold mbind, io_bind; rewrite Heq1, Heq2; cbn [fst snd].
  - eexists. split; [done|]. cbn [serial port_0xf4]. split.
    + rewrite Hs2, Hs1. cbn [concat app]. by rewrite <-!app_assoc.
    + by rewrite Hp2, Hp1.
  - destruct (test_panic_handler_ok info b2 Hi) as (b3 & -> & Hs3 & Hp3 & _).
    exists b3. split_and!; [done| |by rewrite Hp3, Hp2, Hp1].
    rewrite Hs3. fold (failure info). rewrite Hs2, Hs1. cbn [concat app]. by rewrite <-!app_assoc.
Qed.

(** A test run reports exactly what happened: for tests that return or panic,
    the serial port receives the number of tests, a line for every test that
    returned, in order, and the panic message of the first that did not; one exit
    code is written to port 0xf4, and it makes QEMU end with the status that
    counts as success in the package's configuration exactly when all tests
    pass. *)
Theorem test_run_reports tests info (b : Bench U S) :
  all_end tests (sys b) → Forall (λ test, plain (type_name test)) tests → plain info →
  ∃ b', test_kernel_main tests info b = (b', Hang) ∧
    serial_sent (serial b') = serial_sent (serial b) ++ text "Running " ++
      show_dec (Z.of_nat (length tests)) ++ text " tests" ++ newline ++ (report info tests (sys b)).1 ∧
    (∃ code, port_0xf4 b' = port_0xf4 b ++ [code] ∧
      (qemu_status code = TEST_SUCCESS_EXIT_CODE ↔ all_pass tests (sys b))).
Proof.
  intros He Hn Hi. destruct (test_run tests info b He Hn Hi) as (b' & Heq & Hs & Hp).
  exists b'. split_and!; [done..|]. eexists. split; [done|].
  rewrite <-(report_success info). by destruct (report info tests (sys b)) as [out []].
Qed.

End proofs.
