(* ===== verification/TestSuite.v ===== *)
(** * The crate's own tests

    The test cases of [src/vga_buffer.rs] and [src/interrupts.rs] run by the
    test runner on the console and the interrupt table. *)

From S2P Require Import Prelude Format Vga Ata Drive Interrupts Serial TestRunner.

Module TestSuite.

Section tests.
Context {D : Type} `{PortDevice D}.

(** [x86_64::instructions::interrupts::int3] raises vector 3. *)
Definition test_breakpoint_exception (e : Interrupts.Exception) : io (Interrupts.t D) unit :=
  Interrupts.dispatch 3 e.

Definition test_println_simple : io (Interrupts.t D) unit :=
  Interrupts.println [text "test_println_simple output"].

Definition test_println_many : io (Interrupts.t D) unit :=
  for_each (seq 0 200) (λ _, Interrupts.println [text "test_println_many output"]).

Definition output_line : list Z := text "Some test string that fits on a single line".

Definition test_println_output : io (Interrupts.t D) unit :=
  let s := output_line in
  Interrupts.on_console (
    _ ← Writer.println [newline; s];
    for_each (zip (seq 0 (length s)) s) (λ ic,
      screen_char ← Writer.read_char (BUFFER_HEIGHT - 2) ic.1;
      if decide (ascii_char screen_char = ic.2) then mret tt else lift Panic)).

(** The test cases of the two modules, and all of the library's. *)
Definition interrupts_tests (e : Interrupts.Exception) : list (Testable (Interrupts.t D)) :=
  [MkTest (text "rusty_os::interrupts::test_breakpoint_exception") (test_breakpoint_exception e)].

Definition vga_buffer_tests : list (Testable (Interrupts.t D)) :=
  [MkTest (text "rusty_os::vga_buffer::test_println_simple") test_println_simple;
   MkTest (text "rusty_os::vga_buffer::test_println_many") test_println_many;
   MkTest (text "rusty_os::vga_buffer::test_println_output") test_println_output].

Definition library_tests (e : Interrupts.Exception) : list (Testable (Interrupts.t D)) :=
  interrupts_tests e ++ vga_buffer_tests.

(** ** They pass *)

(** A test that passes and keeps the system in order. *)
Definition passes (test : io (Interrupts.t D) unit) : Prop :=
  ∀ s, Interrupts.sys_ok s → ∃ s', test s = (s', Ok tt) ∧ Interrupts.sys_ok s'.

Lemma print_passes args : passes (Interrupts.print args).
Proof. intros s Hs. destruct (Interrupts.print_total args s Hs) as (s' & ? & ? & _). by exists s'. Qed.

Lemma for_each_passes {A} (l : list A) body :
  (∀ a, passes (body a)) → passes (for_each l body).
Proof.
  intros Hb. induction l as [|a l IH]; intros s Hs; [by exists s|].
  destruct (Hb a s Hs) as (s1 & Heq & Hs1). destruct (IH s1 Hs1) as (s2 & Heq2 & Hs2).
  exists s2. split; [|done]. cbn [for_each]. unfold mbind, io_bind. by rewrite Heq.
Qed.

(** Comparing the cells of a row with the line they show. *)
Lemma compare_row w c (s : list Z) k :
  (∀ i b, s !! i = Some b →
    (Writer.buffer w !! (BUFFER_HEIGHT - 2)%nat) ≫= (.!! (k + i)%nat) = Some (MkChar b c)) →
  for_each (zip (seq k (length s)) s) (λ ic,
    screen_char ← Writer.read_char (BUFFER_HEIGHT - 2) ic.1;
    if decide (ascii_char screen_char = ic.2) then mret tt else lift Panic) w = (w, Ok tt).
Proof.
  revert k. induction s as [|b s IH]; intros k Hrow; [done|].
  cbn [length seq zip zip_with for_each fst snd]. unfold mbind at 1, io_bind at 1.
  specialize (Hrow 0%nat b eq_refl) as H0. rewrite Nat.add_0_r in H0.
  destruct (Writer.buffer w !! (BUFFER_HEIGHT - 2)%nat) as [r|] eqn:Hr; [|done]. cbn in H0.
  unfold Writer.read_char, mbind, io_bind, get, lift. unfold idx at 1. rewrite Hr.
  rewrite (idx_ok _ _ _ H0). cbn [ascii_char]. rewrite decide_True by done.
  apply IH. intros i b' Hi. rewrite <-(Hrow (S i) b' Hi). by rewrite Nat.add_succ_comm.
Qed.

Lemma test_println_output_passes : passes test_println_output.
Proof.
  intros s [Hw Hb].
  destruct (Writer.println_shows_line (Interrupts.console s) output_line)
    as (w' & Heq & Hw' & _ & Hrow); [done|by repeat constructor|compute; lia|].
  exists (Interrupts.Mk w' (Interrupts.keyboard s) (Interrupts.disk_sys s)
    (Interrupts.port_0x60 s) (Interrupts.eoi s)). split; [|by split].
  apply Interrupts.on_console_ok. unfold mbind at 1, io_bind at 1. unfold newline. rewrite Heq.
  exact (compare_row w' _ output_line 0 Hrow).
Qed.

Lemma library_tests_passes e : Forall (λ test, passes (test_fn test)) (library_tests e).
Proof.
  repeat constructor.
  - apply print_passes.
  - apply print_passes.
  - apply for_each_passes. intros _. apply print_passes.
  - apply test_println_output_passes.
Qed.

Lemma all_pass_from tests s :
  Forall (λ test, passes (test_fn test)) tests → Interrupts.sys_ok s → all_pass tests s.
Proof.
  intros Ht. revert s. induction Ht as [|test tests Htest _ IH]; intros s Hs; [done|].
  destruct (Htest s Hs) as (s' & Heq & Hs'). exists s'. split; [done|by apply IH].
Qed.

(** C29. The crate's own test suite passes: in whatever order the test harness
    lists the four test cases, test_runner on any system with a well-formed
    console runs all of them to the end and the only value written to the exit
    port is the code for success; the serial port receives a line for each. *)
Theorem library_tests_pass {U} `{SerialPortSpec U} e info tests (b : Bench U (Interrupts.t D)) :
  tests ≡ₚ library_tests e → Interrupts.sys_ok (sys b) → plain info →
  ∃ b', test_kernel_main tests info b = (b', Hang) ∧
    port_0xf4 b' = port_0xf4 b ++ [exit_code_as_u32 Success] ∧
    serial_sent (serial b') = serial_sent (serial b) ++ text "Running 4 tests" ++ newline ++
      (tests ≫= λ test, type_name test ++ text "..." ++ [0x09] ++ text "[ok]" ++ newline).
Proof.
  intros Hperm Hs Hi.
  assert (Hp : all_pass tests (sys b)).
  { apply all_pass_from; [|done]. rewrite Hperm. apply library_tests_passes. }
  destruct (test_run tests info b) as (b' & Heq & Hout & Hport); [by apply all_pass_end| |done|].
  { rewrite Hperm. by repeat constructor. }
  exists b'. split; [done|]. rewrite (proj2 (report_success info _ _) Hp) in Hport.
  split; [done|]. rewrite Hout, (report_all_pass info _ _ Hp), (Permutation_length Hperm). done.
Qed.

End tests.

(** ** Witnesses

    A port that keeps the bytes it is given. *)

Definition log_port : SerialPort (list Z) := {|
  sp_new _ := [];
  sp_init u := u;
  sp_write_str s u := (u ++ s, Ok tt);
|}.
#[local] Existing Instance log_port.

#[local] Instance log_port_spec : SerialPortSpec (list Z).
Proof. exists (λ u, u); [done|]. intros u s _. by eexists. Defined.

#[local] Existing Instance Drive.drive_ports.

Definition bench : Bench (list Z) (Interrupts.t Drive.t) := MkBench None [] Interrupts.quiet_kernel.

Lemma library_tests_pass_witness :
  let e := Interrupts.MkException (text "frame") [] [] in
  ∃ b', test_kernel_main (vga_buffer_tests ++ interrupts_tests e) [] bench = (b', Hang) ∧
    port_0xf4 b' = [0x10].
Proof.
  intros e. destruct (library_tests_pass e [] (vga_buffer_tests ++ interrupts_tests e) bench
    (Permutation_app_comm _ _) Interrupts.quiet_kernel_ok ltac:(constructor)) as (b' & Heq & Hp & _).
  exists b'. split; [exact Heq|exact Hp].
Defined.

(** A passing and a failing test. *)
Definition sample_tests : list (Testable unit) :=
  [MkTest (text "a") (mret tt); MkTest (text "b") (lift Panic); MkTest (text "c") (mret tt)].

Lemma test_run_reports_witness :
  ∃ b', test_kernel_main (U := list Z) sample_tests (text "oops") (MkBench None [] tt) = (b', Hang) ∧
    serial_sent (serial b') =
      text "Running 3 tests" ++ newline ++ text "a..." ++ [0x09] ++ text "[ok]" ++ newline ++
      text "b..." ++ [0x09] ++ text "[failed]" ++ newline ++ newline ++
      text "Error: oops" ++ newline ++ newline.
Proof.
  destruct (test_run_reports (U := list Z) sample_tests (text "oops") (MkBench None [] tt))
    as (b' & Heq & Hs & _).
  - split; [exists tt; by left|]. intros s' _. split; [exists s'; by right|]. by intros ? [=].
  - by repeat constructor.
  - by repeat constructor.
  - exists b'. split; [done|]. rewrite Hs. reflexivity.
Defined.

End TestSuite.
