(* ===== verification/World.v ===== *)
(** * Printing programs

    Computations on the state that interrupt handlers and tasks share, the
    record of [Interrupts]: running a component's operation on its part of the
    state, and what a computation that prints leaves on the console, as total
    correctness triples over the terminal that the console shows. *)

From S2P Require Import Prelude Format Vga Ata Keyboard Interrupts.

Section world.
Context {D : Type} `{PortDevice D}.

Abbreviation World := (Interrupts.t D).

Definition on_disk {A} (m : io (Sys D) A) : io World A :=
  st ← get;
  let '(d, r) := m (Interrupts.disk_sys st) in
  _ ← put (Interrupts.Mk (Interrupts.console st) (Interrupts.keyboard st) d
             (Interrupts.port_0x60 st) (Interrupts.eoi st));
  lift r.

Definition on_keyboard {A} (m : io Keyboard.t A) : io World A :=
  st ← get;
  let '(kb, r) := m (Interrupts.keyboard st) in
  _ ← put (Interrupts.Mk (Interrupts.console st) kb (Interrupts.disk_sys st)
             (Interrupts.port_0x60 st) (Interrupts.eoi st));
  lift r.

(** The colour of [WRITER], and a terminal of that colour that receives text. *)
Definition YELLOW : Z := ColourCode_new Yellow Black.
Definition feed (T : Writer.term) (out : list Z) : Writer.term := Writer.term_string YELLOW T out.

Lemma feed_app T x y : feed (feed T x) y = feed T (x ++ y).
Proof. symmetry. apply Writer.term_string_app. Qed.

Lemma feed_nil T : feed T [] = T.
Proof. done. Qed.

(** [holds T kb d s]: the console of [s] shows [T], the keyboard's statics are
    [kb] and the disk [d]. *)
Record holds (T : Writer.term) (kb : Keyboard.t) (d : Sys D) (s : World) : Prop := {
  holds_shows : Writer.shows (Interrupts.console s) T;
  holds_colour : Writer.colour (Interrupts.console s) = YELLOW;
  holds_keyboard : Interrupts.keyboard s = kb;
  holds_disk : Interrupts.disk_sys s = d;
}.

Lemma runs_print args T kb d s :
  holds T kb d s → runs (Interrupts.print args) s (Ok tt) (holds (feed T (concat args)) kb d).
Proof.
  intros [Hs Hc Hk Hd].
  destruct (Writer.print_shows args (Interrupts.console s) T Hs) as (c & Heq & Hc' & Hs').
  rewrite Hc in Hc', Hs'. eexists. split; [by apply Interrupts.on_console_ok|]. by split.
Qed.

Lemma runs_println args T kb d s :
  holds T kb d s →
  runs (Interrupts.println args) s (Ok tt) (holds (feed T (concat args ++ newline)) kb d).
Proof.
  intros Hs. pose proof (runs_print (args ++ [newline]) T kb d s Hs) as Hr.
  rewrite concat_app in Hr. cbn [concat] in Hr. by rewrite app_nil_r in Hr.
Qed.

Lemma runs_on_disk {A} (m : io (Sys D) A) T kb d d' r s :
  holds T kb d s → m d = (d', r) → runs (on_disk m) s r (holds T kb d').
Proof.
  intros [Hs Hc Hk Hd] Hm. eexists. split.
  - unfold on_disk, mbind, io_bind, get. by rewrite Hd, Hm.
  - by split.
Qed.

Lemma runs_on_keyboard {A} (m : io Keyboard.t A) T kb kb' d r s :
  holds T kb d s → m kb = (kb', r) → runs (on_keyboard m) s r (holds T kb' d).
Proof.
  intros [Hs Hc Hk Hd] Hm. eexists. split.
  - unfold on_keyboard, mbind, io_bind, get. by rewrite Hk, Hm.
  - by split.
Qed.

(** A statement of a printing program, followed by the rest. *)
Lemma runs_println_bind {B} args (k : unit → io World B) T kb d s r Q :
  holds T kb d s →
  (∀ s', holds (feed T (concat args ++ newline)) kb d s' → runs (k tt) s' r Q) →
  runs (Interrupts.println args ≫= k) s r Q.
Proof. intros Hs Hk. eapply runs_bind; [by apply runs_println|exact Hk]. Qed.

Lemma runs_on_disk_bind {A B} (m : io (Sys D) A) (k : A → io World B) a T kb d d' s r Q :
  holds T kb d s → m d = (d', Ok a) →
  (∀ s', holds T kb d' s' → runs (k a) s' r Q) →
  runs (on_disk m ≫= k) s r Q.
Proof. intros Hs Hm Hk. eapply runs_bind; [by eapply runs_on_disk|exact Hk]. Qed.

Lemma holds_wf T kb d s : holds T kb d s → Writer.wf (Interrupts.console s).
Proof. intros [Hs _ _ _]. by eapply Writer.shows_wf. Qed.

Lemma holds_eq T T' kb d d' s : holds T kb d s → T = T' → d = d' → holds T' kb d' s.
Proof. by intros ? <- <-. Qed.

(** A loop that prints [out a] for every element. *)
Lemma runs_print_loop {A} (l : list A) body out T kb d s :
  (∀ a T s, a ∈ l → holds T kb d s → runs (body a) s (Ok tt) (holds (feed T (out a)) kb d)) →
  holds T kb d s → runs (for_each l body) s (Ok tt) (holds (feed T (l ≫= out)) kb d).
Proof.
  intros Hb. revert T s. induction l as [|a l IH]; intros T s Hs; [by apply runs_ret|].
  cbn [for_each mbind list_bind]. eapply runs_bind; [apply Hb; [left|done]|].
  intros s' Hs'. rewrite <-feed_app. apply IH; [|done]. intros. apply Hb; [by right|done].
Qed.

End world.

(** Run the next statement of a printing program. *)
Ltac run_println := eapply runs_println_bind; [eassumption|intros ? ?; cbv beta].
Ltac run_disk := eapply runs_on_disk_bind; [eassumption|reflexivity|intros ? ?; cbv beta].

(** Two ways of writing the same output. *)
Ltac same_output := rewrite ?feed_app; cbn [concat]; rewrite <-?app_assoc; reflexivity.
