(* ===== verification/Tasks.v ===== *)
(** * The kernel's tasks ([src/main.rs], [src/ata.rs], [src/task/keyboard.rs])

    The three tasks [kernel_main] spawns, as the state machines of their
    [async] functions: one poll runs to the next [await] that is pending.  The
    operations of the ATA driver appear here with their messages.  The tasks
    are interruptible code: every port access, every operation on a static and
    every [println!], which disables interrupts, is an access of its own. *)

From S2P Require Import Prelude Format Vga Ata Keyboard Interrupts Executor Code World.

Section tasks.
Context {D : Type} `{PortDevice D}.
Context {K Event KeyCode : Type} `{Keyboard.Decoder K Event KeyCode}.

Abbreviation World := (Interrupts.t D).

(** ** Accesses to the shared state *)

Definition say (args : list (list Z)) : code World unit := atomic (Interrupts.println args).
Definition disk {A} (m : io (Sys D) A) : code World A := atomic (on_disk m).
Definition keys {A} (m : io Keyboard.t A) : code World A := atomic (on_keyboard m).

(** ** The disk's future *)

(** [read_sector_async] up to its [await]. *)
Definition read_sector_msg (lba : Z) : code World unit :=
  _ ← say [text "[ATA] read_sector_async(LBA "; show_dec lba; text ")"];
  status ← disk (port_read STATUS_COMMAND_PORT);
  _ ← say [text "[ATA] Current status before read: "; show_alt_04x status];
  _ ← disk (update (set_PENDING_LBA lba));
  _ ← disk (update (set_OPERATION_COMPLETE false));
  _ ← say [text "[ATA] Setting: count=1, lba_low="; show_02x (lba_low lba);
        text ", lba_mid="; show_02x (lba_mid lba); text ", lba_high="; show_02x (lba_high lba);
        text ", upper="; show_02x (lba_upper lba)];
  _ ← disk (port_write SECTOR_COUNT_PORT 1);
  _ ← disk (port_write LBA_LOW_PORT (lba_low lba));
  _ ← disk (port_write LBA_MID_PORT (lba_mid lba));
  _ ← disk (port_write LBA_HIGH_PORT (lba_high lba));
  _ ← say [text "[ATA] Device register: "; show_alt_04x (device_val lba)];
  _ ← disk (port_write DEVICE_PORT (device_val lba));
  _ ← say [text "[ATA] Issuing READ command (0x20)"];
  disk (port_write STATUS_COMMAND_PORT CMD_READ_SECTORS).

(** [OPERATION_COMPLETE.load() && PENDING_LBA.load() == self.lba] *)
Definition load_read_done (lba : Z) : code World bool :=
  a ← disk statics;
  if OPERATION_COMPLETE a then
    a ← disk statics;
    mret (bool_decide (PENDING_LBA a = lba))
  else mret false.

(** The [return Poll::Ready(buffer)] of [SectorRead::poll]; the copy of the
    buffer is one access. *)
Definition take_sector : code World (option (list Z)) :=
  _ ← disk (update (set_OPERATION_COMPLETE false));
  a ← disk statics;
  mret (Some (SECTOR_BUFFER a)).

(** [SectorRead::poll], access by access. *)
Definition sector_read_poll (lba : Z) (w : Waker) : code World (option (list Z)) :=
  complete ← load_read_done lba;
  if (complete : bool) then take_sector
  else
    _ ← disk (update (register_waker w));
    complete ← load_read_done lba;
    if (complete : bool) then take_sector else mret None.

(** The rest of [read_sector_async], polled. *)
Definition read_sector_resume (lba : Z) (w : Waker) : code World (option (list Z)) :=
  r ← sector_read_poll lba w;
  match r with
  | None => mret None
  | Some result =>
    b0 ← atomic (lift (idx result 0)); b1 ← atomic (lift (idx result 1));
    b2 ← atomic (lift (idx result 2)); b3 ← atomic (lift (idx result 3));
    _ ← say [text "[ATA] Read complete: "; show_02x b0; text " "; show_02x b1;
          text " "; show_02x b2; text " "; show_02x b3; text "..."];
    mret (Some result)
  end.

(** ** The tasks *)

(** Where a task waits: before its first poll, or at its [await]. *)
Inductive TaskState : Type :=
  | ExampleTask
  | DiskStart
  | DiskWait
  | KeyStart
  | KeyWait (keyboard : K)
  | Finished.

Definition async_number : Z := 42.

Definition example_task : code World unit := say [text "async number: "; show_dec async_number].

(** [test_disk_read] from its [await] on. *)
Definition disk_resume (w : Waker) : code World bool :=
  r ← read_sector_resume 0 w;
  match r with
  | None => mret false
  | Some sector_data =>
    _ ← say [text "Sector 0 first 16 bytes:"];
    bytes ← atomic (lift (if decide (16 ≤ length sector_data)%nat
                          then Ok (slice 0 16 sector_data) else Panic));
    _ ← for_each_code (zip (seq 0 16) bytes) (λ ib,
          _ ← say [show_02x ib.2; text " "];
          if decide ((ib.1 + 1) mod 8 = 0)%nat then say [] else mret tt);
    _ ← say [newline; text "Disk read test complete"];
    mret true
  end.

(** [test_disk_read] up to its first pending [await]. *)
Definition disk_start (w : Waker) : code World bool :=
  _ ← say [text "Attempting to read sector 0 from disk..."];
  _ ← read_sector_msg 0;
  disk_resume w.

(** [ScancodeStream::poll_next], access by access. *)
Definition scancode_poll_next (w : Waker) : code World (option Z) :=
  r ← keys Keyboard.pop;
  match r with
  | Some scancode => mret (Some scancode)
  | None =>
    _ ← keys (st ← get; put (Keyboard.register w st));
    r ← keys Keyboard.pop;
    match r with
    | Some scancode =>
      _ ← keys (st ← get; put (Keyboard.take_waker st));
      mret (Some scancode)
    | None => mret None
    end
  end.

(** How a piece of a task ends: at the head of its loop, at a pending [await],
    or at the end of the task. *)
Inductive turn : Type :=
  | Again (f : TaskState)
  | Pending (f : TaskState)
  | Ready.

(** An iteration of the loop of [print_keypresses]. *)
Definition key_turn (w : Waker) (keyboard : K) : code World turn :=
  r ← scancode_poll_next w;
  match r with
  | None => mret (Pending (KeyWait keyboard))
  | Some scancode =>
    let '(keyboard, out) := Keyboard.key_output scancode keyboard in
    _ ← (match out with Some str => atomic (Interrupts.print [str]) | None => mret tt end);
    mret (Again (KeyWait keyboard))
  end.

(** What a poll of task [id] in state [f] runs. *)
Definition resume (id : Z) (f : TaskState) : code World turn :=
  match f with
  | ExampleTask => _ ← example_task; mret Ready
  | DiskStart => r ← disk_start id; mret (if (r : bool) then Ready else Pending DiskWait)
  | DiskWait => r ← disk_resume id; mret (if (r : bool) then Ready else Pending DiskWait)
  | KeyStart => _ ← keys Keyboard.ScancodeStream_new; mret (Again (KeyWait Keyboard.kb_new))
  | KeyWait keyboard => key_turn id keyboard
  | Finished => atomic (lift Panic)
  end.

(** A task that waits or is finished, and wakes no one. *)
Definition waits (f : TaskState) : TaskState * list Z * bool := (f, [], false).
Definition done_ : TaskState * list Z * bool := (Finished, [], true).

(** A poll that is not interrupted. *)
Fixpoint poll_loop (fuel : nat) (id : Z) (f : TaskState) : io World (TaskState * list Z * bool) :=
  match fuel with
  | O => lift Hang
  | S fuel =>
    r ← run (resume id f);
    match r with
    | Again f => poll_loop fuel id f
    | Pending f => mret (waits f)
    | Ready => mret done_
    end
  end.

(** The start of the keyboard task, an iteration for each of the at most
    [QUEUE_SIZE] scancodes in the queue and the last one, which finds none. *)
Definition POLL_FUEL : nat := 2 + Keyboard.QUEUE_SIZE.

Definition poll_task (id : Z) (f : TaskState) : io World (TaskState * list Z * bool) :=
  poll_loop POLL_FUEL id f.

#[export] Instance kernel_tasks : Future TaskState World := {| poll := poll_task |}.

(** ** The futures' polls

    Without interrupts, the accesses of the two futures make up their [poll]
    functions. *)

#[local] Ltac run_accesses :=
  repeat (progress (cbn; unfold mbind, code_bind, io_bind, get, put, mret, io_ret, code_ret, lift)).

Lemma run_sector_read_poll lba w s :
  run (sector_read_poll lba w) s = on_disk (SectorRead_poll lba w) s.
Proof.
  destruct s as [c kb [a d] p eo].
  unfold sector_read_poll, load_read_done, take_sector, disk, on_disk, SectorRead_poll, read_done,
    statics, update, register_waker. run_accesses.
  destruct (OPERATION_COMPLETE a) eqn:Ho, (bool_decide (PENDING_LBA a = lba)) eqn:Hp,
    (DISK_WAKER a) eqn:Hw; repeat (progress (run_accesses; rewrite ?Ho, ?Hp, ?Hw)); done.
Qed.

Lemma run_scancode_poll_next w s :
  run (scancode_poll_next w) s = on_keyboard (Keyboard.poll_next w) s.
Proof.
  destruct s as [c [q wk wo wa] d p eo].
  unfold scancode_poll_next, keys, on_keyboard, Keyboard.poll_next, Keyboard.pop. run_accesses.
  destruct q as [[|]|]; run_accesses; done.
Qed.

(** ** What they print *)

Definition read_sector_text (lba status : Z) : list Z :=
  text "[ATA] read_sector_async(LBA " ++ show_dec lba ++ text ")" ++ newline ++
  text "[ATA] Current status before read: " ++ show_alt_04x status ++ newline ++
  text "[ATA] Setting: count=1, lba_low=" ++ show_02x (lba_low lba) ++
  text ", lba_mid=" ++ show_02x (lba_mid lba) ++ text ", lba_high=" ++ show_02x (lba_high lba) ++
  text ", upper=" ++ show_02x (lba_upper lba) ++ newline ++
  text "[ATA] Device register: " ++ show_alt_04x (device_val lba) ++ newline ++
  text "[ATA] Issuing READ command (0x20)" ++ newline.

Lemma code_say_bind {B} args (k : unit → code World B) T kb d s r Q :
  holds T kb d s →
  (∀ s', holds (feed T (concat args ++ newline)) kb d s' → runs (run (k tt)) s' r Q) →
  runs (run (say args ≫= k)) s r Q.
Proof. intros Hs Hk. eapply runs_code_bind; [by apply runs_atomic, runs_println|exact Hk]. Qed.

Lemma code_disk_bind {A B} (m : io (Sys D) A) (k : A → code World B) a T kb d d' s r Q :
  holds T kb d s → m d = (d', Ok a) →
  (∀ s', holds T kb d' s' → runs (run (k a)) s' r Q) →
  runs (run (disk m ≫= k)) s r Q.
Proof. intros Hs Hm Hk. eapply runs_code_bind; [by eapply runs_atomic, runs_on_disk|exact Hk]. Qed.

(** A loop that prints [out a] for every element. *)
Lemma code_print_loop {A} (l : list A) body out T kb d (s : World) :
  (∀ a T (s : World), holds T kb d s → runs (run (body a)) s (Ok tt) (holds (feed T (out a)) kb d)) →
  holds T kb d s → runs (run (for_each_code l body)) s (Ok tt) (holds (feed T (l ≫= out)) kb d).
Proof.
  intros Hb. revert T s. induction l as [|a l IH]; intros T s Hs; [by apply runs_code_ret|].
  cbn [for_each_code]. eapply runs_code_bind; [by apply Hb|].
  intros s' Hs'. cbn [mbind list_bind]. rewrite <-feed_app. by apply IH.
Qed.

#[local] Ltac code_say := eapply code_say_bind; [eassumption|intros ? ?; cbv beta].
#[local] Ltac code_disk := eapply code_disk_bind; [eassumption|reflexivity|intros ? ?; cbv beta].

(** The messages do not change what the driver does: with them,
    [read_sector_async] acts on the disk as [read_sector_start]. *)
Lemma read_sector_msg_ok lba T kb d s :
  holds T kb d s →
  runs (run (read_sector_msg lba)) s (Ok tt)
    (holds (feed T (read_sector_text lba (inb STATUS_COMMAND_PORT (dev d)).2)) kb
           (read_sector_start lba d).1).
Proof.
  intros Hs. destruct d as [a dd]. destruct (inb STATUS_COMMAND_PORT dd) as [d1 status] eqn:Hin.
  assert (Hread : port_read STATUS_COMMAND_PORT (MkSys a dd) = (MkSys a d1, Ok status)).
  { unfold port_read, mbind, io_bind, get. cbn [dev]. by rewrite Hin. }
  unfold read_sector_msg. code_say.
  eapply code_disk_bind; [eassumption|exact Hread|intros ? ?; cbv beta].
  code_say. code_disk. code_disk. code_say. do 4 code_disk. code_say. code_disk. code_say.
  eapply runs_mono; [eapply runs_atomic, runs_on_disk; [eassumption|reflexivity]|].
  intros s2 Hs2. eapply holds_eq; [exact Hs2| |].
  - cbn [dev]. rewrite Hin. unfold read_sector_text. same_output.
  - unfold read_sector_start, mbind, io_bind. by rewrite Hread.
Qed.

(** The first bytes of a sector, as [read_sector_async] and [test_disk_read]
    print them. *)
Definition sector_text (data : list Z) : list Z :=
  text "[ATA] Read complete: " ++ show_02x (data !!! 0%nat) ++ text " " ++
  show_02x (data !!! 1%nat) ++ text " " ++ show_02x (data !!! 2%nat) ++ text " " ++
  show_02x (data !!! 3%nat) ++ text "..." ++ newline ++
  text "Sector 0 first 16 bytes:" ++ newline ++
  (zip (seq 0 16) (slice 0 16 data) ≫= λ ib,
    show_02x ib.2 ++ text " " ++ newline ++
    if decide ((ib.1 + 1) mod 8 = 0)%nat then newline else []) ++
  newline ++ text "Disk read test complete" ++ newline.

(** A poll of the disk's future that gives [r]. *)
Lemma runs_sector_read_poll lba w r T kb d d' s :
  holds T kb d s → SectorRead_poll lba w d = (d', Ok r) →
  runs (run (sector_read_poll lba w)) s (Ok r) (holds T kb d').
Proof.
  intros Hs Hp. destruct (runs_on_disk _ _ _ _ _ _ _ Hs Hp) as (s' & Heq & Hs').
  exists s'. by rewrite run_sector_read_poll.
Qed.

(** A poll of the disk task whose sector has not arrived. *)
Lemma disk_resume_pending w T kb d s :
  holds T kb d s → read_done 0 (drv d) = false →
  runs (run (disk_resume w)) s (Ok false)
    (holds T kb (MkSys (register_waker w (drv d)) (dev d))).
Proof.
  intros Hs Hd. destruct d as [a dd]. cbn [drv dev] in *.
  assert (Hpoll : SectorRead_poll 0 w (MkSys a dd) = (MkSys (register_waker w a) dd, Ok None)).
  { unfold SectorRead_poll, statics, update, mbind, io_bind, get, put, mret, io_ret. cbn [drv dev].
    assert (Hd' : read_done 0 (register_waker w a) = false).
    { unfold register_waker. by destruct (DISK_WAKER a). }
    rewrite Hd. cbn [drv dev]. by rewrite Hd'. }
  unfold disk_resume. eapply (runs_code_bind _ _ _ None).
  - unfold read_sector_resume. eapply runs_code_bind; [by eapply runs_sector_read_poll|].
    intros s' Hs'. apply runs_code_ret. exact Hs'.
  - intros s' Hs'. by apply runs_code_ret.
Qed.

(** A poll of the disk task whose sector is in the buffer. *)
Lemma disk_resume_ready w T kb d s :
  holds T kb d s → read_done 0 (drv d) = true → length (SECTOR_BUFFER (drv d)) = SECTOR_SIZE →
  runs (run (disk_resume w)) s (Ok true)
    (holds (feed T (sector_text (SECTOR_BUFFER (drv d)))) kb
           (MkSys (set_OPERATION_COMPLETE false (drv d)) (dev d))).
Proof.
  intros Hs Hd Hlen. destruct d as [a dd]. cbn [drv dev] in *. unfold SECTOR_SIZE in Hlen.
  assert (Hpoll : SectorRead_poll 0 w (MkSys a dd) =
    (MkSys (set_OPERATION_COMPLETE false a) dd, Ok (Some (SECTOR_BUFFER a)))).
  { unfold SectorRead_poll, statics, update, mbind, io_bind, get, put, mret, io_ret. cbn [drv dev].
    by rewrite Hd. }
  unfold disk_resume. eapply runs_code_bind.
  { unfold read_sector_resume. eapply runs_code_bind; [by eapply runs_sector_read_poll|].
    intros s' Hs'. cbv beta iota. rewrite !idx_total by lia.
    do 4 (eapply runs_code_bind; [apply runs_atomic, runs_lift; exact Hs'|clear dependent s'; intros s' Hs'; cbv beta]).
    code_say. apply runs_code_ret. eassumption. }
  intros s' Hs'. cbv beta iota. code_say. rewrite decide_True by lia.
  eapply runs_code_bind; [by apply runs_atomic, runs_lift|intros ? ?; cbv beta].
  eapply runs_code_bind.
  { apply (code_print_loop _ _ (λ ib, show_02x ib.2 ++ text " " ++ newline ++
      if decide ((ib.1 + 1) mod 8 = 0)%nat then newline else [])); [|eassumption].
    intros ib T' s1 Hs1. code_say. case_decide.
    - eapply runs_mono; [by apply runs_atomic, runs_println|]. intros s2 Hs2.
      eapply holds_eq; [exact Hs2| |done]. same_output.
    - apply runs_code_ret. eapply holds_eq; [eassumption| |done]. same_output. }
  intros s1 Hs1. cbv beta. code_say. apply runs_code_ret. eapply holds_eq; [eassumption| |done].
  unfold sector_text. same_output.
Qed.

(** A disk task that has just been started waits for its sector. *)
Lemma disk_start_ok w T kb d s :
  holds T kb d s →
  runs (run (disk_start w)) s (Ok false)
    (holds (feed T (text "Attempting to read sector 0 from disk..." ++ newline ++
                    read_sector_text 0 (inb STATUS_COMMAND_PORT (dev d)).2)) kb
           (MkSys (register_waker w (drv (read_sector_start 0 d).1)) (dev (read_sector_start 0 d).1))).
Proof.
  intros Hs. unfold disk_start. code_say.
  eapply runs_code_bind; [by apply read_sector_msg_ok|]. intros s1 Hs1. cbv beta.
  eapply runs_mono; [apply disk_resume_pending; [exact Hs1|]|].
  - destruct d as [a dd]. unfold read_sector_start, port_read, mbind, io_bind, get. cbn [dev].
    by destruct (inb STATUS_COMMAND_PORT dd).
  - intros s2 Hs2. eapply holds_eq; [exact Hs2| |done]. same_output.
Qed.

(** The decoder after a sequence of scancodes. *)
Definition decoded (q : list Z) (kb : K) : K := foldl (λ kb c, (Keyboard.key_output c kb).1) kb q.

(** A poll ends with its last piece. *)
Lemma poll_pending id f f' s Q :
  runs (run (resume id f)) s (Ok (Pending f')) Q → runs (poll id f) s (Ok (waits f')) Q.
Proof. intros Hr. eapply (runs_bind (run (resume id f))); [exact Hr|]. intros. by apply runs_ret. Qed.

Lemma poll_done id f s Q :
  runs (run (resume id f)) s (Ok Ready) Q → runs (poll id f) s (Ok done_) Q.
Proof. intros Hr. eapply (runs_bind (run (resume id f))); [exact Hr|]. intros. by apply runs_ret. Qed.

Lemma poll_disk id f c s r Q :
  (f = DiskStart ∧ c = disk_start id) ∨ (f = DiskWait ∧ c = disk_resume id) →
  runs (run c) s (Ok r) Q → runs (poll id f) s (Ok (if r then done_ else waits DiskWait)) Q.
Proof.
  intros Hf Hr.
  assert (Hres : runs (run (resume id f)) s (Ok (if r then Ready else Pending DiskWait)) Q).
  { destruct Hf as [[-> ->]|[-> ->]]; cbn [resume];
      (eapply runs_code_bind; [exact Hr|intros s' Hs'; by apply runs_code_ret]). }
  destruct r; [by apply poll_done|by apply poll_pending].
Qed.

(** The next piece of a poll. *)
Lemma poll_again fuel id f f' s r P Q :
  runs (run (resume id f)) s (Ok (Again f')) P →
  (∀ s', P s' → runs (poll_loop fuel id f') s' r Q) → runs (poll_loop (S fuel) id f) s r Q.
Proof. intros Hr Hk. eapply (runs_bind (run (resume id f))); [exact Hr|exact Hk]. Qed.

(** An iteration of the keyboard task's loop, with a scancode in the queue and
    without. *)
Lemma key_turn_some w kb c q T st d s :
  holds T st d s → Keyboard.SCANCODE_QUEUE st = Some (c :: q) →
  runs (run (key_turn w kb)) s (Ok (Again (KeyWait (Keyboard.key_output c kb).1)))
    (holds (feed T (default [] (Keyboard.key_output c kb).2)) (Keyboard.set_queue q st) d).
Proof.
  intros Hs Hq. unfold key_turn.
  destruct (runs_on_keyboard (Keyboard.poll_next w) T st (Keyboard.set_queue q st) d (Ok (Some c)) s Hs)
    as (s1 & Heq & Hs1).
  { unfold Keyboard.poll_next, Keyboard.pop, mbind, io_bind, get. by rewrite Hq. }
  eapply (runs_code_bind _ _ _ (Some c)); [exists s1; by rewrite run_scancode_poll_next|].
  intros s2 Hs2. cbv beta iota. destruct (Keyboard.key_output c kb) as [kb1 out]. cbn [fst snd].
  destruct out as [str|]; [|by apply runs_code_ret].
  eapply runs_code_bind; [by apply runs_atomic, runs_print|]. intros s3 Hs3. apply runs_code_ret.
  cbn [concat] in Hs3. by rewrite app_nil_r in Hs3.
Qed.

Lemma key_turn_none w kb T st d s :
  holds T st d s → Keyboard.SCANCODE_QUEUE st = Some [] →
  runs (run (key_turn w kb)) s (Ok (Pending (KeyWait kb))) (holds T (Keyboard.register w st) d).
Proof.
  intros Hs Hq. unfold key_turn.
  destruct (runs_on_keyboard (Keyboard.poll_next w) T st (Keyboard.register w st) d (Ok None) s Hs)
    as (s1 & Heq & Hs1).
  { unfold Keyboard.poll_next, Keyboard.pop, mbind, io_bind, get. rewrite Hq.
    unfold mret, io_ret, put. cbn [Keyboard.register Keyboard.SCANCODE_QUEUE]. by rewrite Hq. }
  eapply (runs_code_bind _ _ _ None); [exists s1; by rewrite run_scancode_poll_next|].
  intros s2 Hs2. by apply runs_code_ret.
Qed.

(** The keyboard task empties the queue, prints what it decodes to and waits
    with its waker registered. *)
Lemma key_loop_ok fuel w kb q T st d s :
  holds T st d s → Keyboard.SCANCODE_QUEUE st = Some q → (length q < fuel)%nat →
  runs (poll_loop fuel w (KeyWait kb)) s (Ok (waits (KeyWait (decoded q kb))))
    (holds (feed T (Keyboard.typed q kb)) (Keyboard.register w (Keyboard.set_queue [] st)) d).
Proof.
  revert fuel kb T st s. induction q as [|c q IH]; intros fuel kb T st s Hs Hq Hf;
    (destruct fuel as [|fuel]; [simpl in Hf; lia|]).
  - eapply (runs_bind (run (key_turn w kb))); [by apply key_turn_none|].
    intros s1 Hs1. apply runs_ret. unfold Keyboard.set_queue. by rewrite <-Hq; destruct st.
  - eapply poll_again; [by apply (key_turn_some w kb c q)|]. intros s1 Hs1. simpl in Hf.
    eapply runs_mono; [apply IH; [exact Hs1|done|lia]|].
    intros s2 Hs2. eapply holds_eq; [exact Hs2| |done]. rewrite feed_app. cbn [Keyboard.typed].
    by destruct (Keyboard.key_output c kb).
Qed.

(** The first poll of the keyboard task. *)
Lemma key_start_ok w T st d s :
  holds T st d s → Keyboard.SCANCODE_QUEUE st = None →
  runs (poll w KeyStart) s (Ok (waits (KeyWait Keyboard.kb_new)))
    (holds T (Keyboard.register w (Keyboard.set_queue [] st)) d).
Proof.
  intros Hs Hq. cbn [poll kernel_tasks]. unfold poll_task, POLL_FUEL. cbn [Nat.add].
  eapply (poll_again _ _ _ (KeyWait Keyboard.kb_new)).
  { cbn [resume]. eapply runs_code_bind.
    - eapply runs_atomic, runs_on_keyboard; [exact Hs|].
      unfold Keyboard.ScancodeStream_new, mbind, io_bind, get. by rewrite Hq.
    - intros s1 Hs1. apply runs_code_ret. exact Hs1. }
  intros s1 Hs1. eapply runs_mono; [apply (key_loop_ok _ w Keyboard.kb_new [] T _ d s1 Hs1); [done|simpl; lia]|].
  done.
Qed.

End tasks.
