(* ===== verification/Kernel.v ===== *)
(** * The running kernel ([src/main.rs])

    The executor with the kernel's three tasks and the interrupt handlers that
    wake them, and the rounds of [Executor::run]. *)

From S2P Require Import Prelude Format Vga Ata Keyboard Interrupts Executor World Tasks.
Import Executor.

Section kernel.
Context {D : Type} `{PortDevice D}.
Context {K Event KeyCode : Type} `{Keyboard.Decoder K Event KeyCode}.

Abbreviation World := (Interrupts.t D).
Abbreviation Ex := (Executor.t (TaskState (K := K))).

(** The wakers called between two states of the world. *)
Definition new_wakes (w w' : World) : list Z :=
  drop (length (Keyboard.woken (Interrupts.keyboard w))) (Keyboard.woken (Interrupts.keyboard w')) ++
  drop (length (Ata.woken (drv (Interrupts.disk_sys w)))) (Ata.woken (drv (Interrupts.disk_sys w'))).

(** An interrupt request: its handler runs, and the wakers it calls push their
    tasks on the executor's queue. *)
Definition irq (e : Interrupts.Exception) (r : Interrupts.InterruptIndex * Z) :
    io (Ex * World) unit :=
  '(ex, w) ← get;
  let '(w', res) := Interrupts.request e r w in
  _ ← put (ex, w');
  _ ← lift res;
  for_each (new_wakes w w') wake_task.

(** A round of [Executor::run]: the interrupts that end the sleep, then
    [run_ready_tasks]. *)
Definition run_round (e : Interrupts.Exception) (fuel : nat)
    (rs : list (Interrupts.InterruptIndex * Z)) : io (Ex * World) unit :=
  _ ← for_each rs (irq e);
  run_ready_tasks fuel.

(** The identifiers [Task::new] gives to the first three tasks. *)
Definition task_ids : list Z := match Task_ids 3 0 with (_, Ok ids) => ids | _ => [] end.

(** The tasks [kernel_main] spawns. *)
Definition spawn_tasks : io (Ex * World) unit :=
  spawn_all (zip task_ids [ExampleTask; DiskStart; KeyStart]).

(** ** Interrupt requests and the console *)

Definition warn_text (c : Z) (kb : Keyboard.t) : list Z :=
  drop (length (Keyboard.warnings kb)) (Keyboard.warnings (Keyboard.add_scancode c kb)) ≫=
    λ msg, text msg ++ newline.

Definition ata_text (d : Sys D) : list Z :=
  match Interrupts.ata_message d with Some args => concat args ++ newline | None => [] end.

Lemma runs_notify v T kb d (s : World) :
  holds T kb d s → runs (Interrupts.notify_end_of_interrupt v) s (Ok tt) (holds T kb d).
Proof. intros []. eexists. split; [apply Interrupts.notify_eq|]. by split. Qed.

Lemma request_runs e i c T kb d (s : World) Q :
  holds T kb d s →
  (∀ s', holds T kb d s' → Interrupts.port_0x60 s' = c →
     runs (Interrupts.dispatch (Interrupts.irq_vector (Interrupts.irq_line i)) e) s' (Ok tt) Q) →
  runs (Interrupts.request e (i, c)) s (Ok tt) Q.
Proof.
  intros [] Hd. unfold Interrupts.request.
  destruct (Hd (Interrupts.Mk (Interrupts.console s) (Interrupts.keyboard s)
    (Interrupts.disk_sys s) c (Interrupts.eoi s))) as (s' & Heq & HQ); [by split|done|].
  exists s'. by split.
Qed.

Lemma request_timer e c T kb d (s : World) :
  holds T kb d s →
  runs (Interrupts.request e (Interrupts.Timer, c)) s (Ok tt) (holds (feed T (text ".")) kb d).
Proof.
  intros Hs. eapply request_runs; [exact Hs|]. intros s1 Hs1 _.
  change (runs (_ ← Interrupts.print [text "."];
    Interrupts.notify_end_of_interrupt (Interrupts.as_u8 Interrupts.Timer)) s1 (Ok tt)
    (holds (feed T (text ".")) kb d)).
  eapply runs_bind; [by apply runs_print|]. intros s2 Hs2. by apply runs_notify.
Qed.

Lemma request_keyboard e c T kb d (s : World) :
  holds T kb d s →
  runs (Interrupts.request e (Interrupts.Keyboard, c)) s (Ok tt)
    (holds (feed T (warn_text c kb)) (Keyboard.add_scancode c kb) d).
Proof.
  intros Hs. eapply request_runs; [exact Hs|]. intros s1 Hs1 Hc.
  change (runs (_ ← Interrupts.add_scancode (Interrupts.port_0x60 s1);
    Interrupts.notify_end_of_interrupt (Interrupts.as_u8 Interrupts.Keyboard)) s1 (Ok tt)
    (holds (feed T (warn_text c kb)) (Keyboard.add_scancode c kb) d)).
  rewrite Hc. eapply runs_bind; [|intros s2 Hs2; apply runs_notify; exact Hs2].
  destruct Hs1 as [Hsh Hcol Hk Hd].
  assert (Hs2 : holds T (Keyboard.add_scancode c kb) d
    (Interrupts.Mk (Interrupts.console s1) (Keyboard.add_scancode c (Interrupts.keyboard s1))
      (Interrupts.disk_sys s1) (Interrupts.port_0x60 s1) (Interrupts.eoi s1)))
    by (rewrite Hk; by split).
  destruct (runs_print_loop (drop (length (Keyboard.warnings kb))
    (Keyboard.warnings (Keyboard.add_scancode c kb))) (λ msg, Interrupts.println [text msg])
    (λ msg, text msg ++ newline) T (Keyboard.add_scancode c kb) d _
    ltac:(intros; eapply runs_mono; [by apply runs_println|]; intros ? Hx;
          cbn [concat] in Hx; by rewrite app_nil_r in Hx) Hs2) as (s' & Heq & HQ).
  exists s'. split; [|done]. unfold Interrupts.add_scancode, mbind, io_bind, get, put.
  rewrite Hk in Heq |- *. exact Heq.
Qed.

Lemma request_ata e c T kb d d' (s : World) :
  holds T kb d s → on_primary_ata_interrupt d = (d', Ok tt) →
  runs (Interrupts.request e (Interrupts.PrimaryATA, c)) s (Ok tt)
    (holds (feed T (ata_text d)) kb d').
Proof.
  intros Hs Hi. eapply request_runs; [exact Hs|]. intros s1 Hs1 _.
  change (runs (_ ← Interrupts.ata_interrupt;
    Interrupts.notify_end_of_interrupt (Interrupts.as_u8 Interrupts.PrimaryATA)) s1 (Ok tt)
    (holds (feed T (ata_text d)) kb d')).
  eapply runs_bind; [|intros s2 Hs2; apply runs_notify; exact Hs2].
  destruct Hs1 as [Hsh Hcol Hk Hd].
  assert (Hs2 : holds T kb d' (Interrupts.Mk (Interrupts.console s1) (Interrupts.keyboard s1)
    d' (Interrupts.port_0x60 s1) (Interrupts.eoi s1))) by by split.
  unfold ata_text, Interrupts.ata_interrupt. unfold runs, mbind, io_bind, get, put, lift.
  rewrite Hd, Hi. destruct (Interrupts.ata_message d) as [args|].
  - by apply runs_println.
  - by apply runs_ret.
Qed.

Lemma irq_eq e r ex (w w' : World) wakes :
  Interrupts.request e r w = (w', Ok tt) → new_wakes w w' = wakes →
  (length (task_queue ex) + length wakes ≤ QUEUE_SIZE)%nat →
  irq e r (ex, w) = ((Mk (tasks ex) (task_queue ex ++ wakes) (waker_cache ex), w'), Ok tt).
Proof.
  intros Hr Hn Hlen. unfold irq, mbind, io_bind, get. rewrite Hr. unfold put at 1, lift.
  rewrite Hn. by apply wake_tasks_ok.
Qed.

(** [add_scancode] wakes the registered task, or no one. *)
Lemma add_scancode_wakes c kb :
  ∃ l, Keyboard.woken (Keyboard.add_scancode c kb) = Keyboard.woken kb ++ l ∧
    ((l = [] ∧ Keyboard.WAKER (Keyboard.add_scancode c kb) = Keyboard.WAKER kb) ∨
     (l = option_list (Keyboard.WAKER kb) ∧ Keyboard.WAKER (Keyboard.add_scancode c kb) = None)).
Proof.
  unfold Keyboard.add_scancode. destruct (Keyboard.SCANCODE_QUEUE kb); [case_decide|].
  - exists []. rewrite app_nil_r. by split; [|left].
  - eexists. split; [done|by right].
  - exists []. rewrite app_nil_r. by split; [|left].
Qed.

(** ** From the spawning of the tasks on *)

(** The world when [kernel_main] spawns its tasks: nothing is registered, and
    the keyboard task has not created its queue. *)
Record ready_world (w : World) : Prop := {
  ready_console : ∃ T, holds T (Interrupts.keyboard w) (Interrupts.disk_sys w) w;
  ready_buffers : Interrupts.buffers_ok (Interrupts.disk_sys w);
  ready_key_queue : Keyboard.SCANCODE_QUEUE (Interrupts.keyboard w) = None;
  ready_key_waker : Keyboard.WAKER (Interrupts.keyboard w) = None;
  ready_disk_waker k : DISK_WAKER (drv (Interrupts.disk_sys w)) ≠ Some (Some k);
}.

Definition spawned : Ex :=
  Mk (<[2 := KeyStart]> (<[1 := DiskStart]> (<[0 := ExampleTask]> ∅))) [0; 1; 2] ∅.

Lemma spawn_tasks_ok (w : World) : spawn_tasks (new, w) = ((spawned, w), Ok tt).
Proof.
  unfold spawn_tasks, spawn_all. change task_ids with [0; 1; 2]. cbn [zip zip_with for_each fst snd].
  unfold mbind, io_bind. by rewrite !spawn_ok by (cbn; set_solver || (unfold QUEUE_SIZE; simpl; lia)).
Qed.

End kernel.
