(* ===== verification/Preempt.v ===== *)
(** * The kernel under interrupts ([src/main.rs], [src/task/executor.rs])

    [Executor::run] one access at a time: an interrupt may arrive between any
    two accesses of the task that is being polled, run its handler and push
    the task it wakes on the queue that the executor is emptying.  The kernel
    does not panic as long as the interrupts that can wake a task leave the
    executor time to empty that queue, and it can be made to panic otherwise. *)

From S2P Require Import Prelude Format Vga Ata Keyboard Interrupts Executor Code World Tasks Kernel.
Import Executor.

Section preempt.
Context {D : Type} `{PortDevice D}.
Context {K Event KeyCode : Type} `{Keyboard.Decoder K Event KeyCode}.

Abbreviation World := (Interrupts.t D).
Abbreviation Task := (TaskState (K := K)).
Abbreviation Turn := (turn (K := K)).
Abbreviation Ex := (Executor.t Task).

(** ** The executor's loop

    [current] is the task that is being polled, with what is left of the poll. *)
Record Running : Type := MkRun {
  executor : Ex;
  world : World;
  current : option (Z * code World Turn);
}.

(** The [match] on the result of the poll, or the next iteration of the task's
    own loop. *)
Definition after_turn (ex : Ex) (w : World) (id : Z) (t : Turn) : Running :=
  match t with
  | Again f => MkRun ex w (Some (id, resume id f))
  | Pending f => MkRun (Mk (<[id := f]> (tasks ex)) (task_queue ex) (waker_cache ex)) w None
  | Ready => MkRun (Mk (delete id (tasks ex)) (task_queue ex) (waker_cache ex ∖ {[id]})) w None
  end.

(** The next step of the loop of [run_ready_tasks]: [pop] and the lookup of the
    task and its waker, an access of the poll, or what follows the poll.  With
    an empty queue the processor sleeps. *)
Definition go : io Running unit :=
  s ← get;
  let ex := executor s in
  match current s with
  | None =>
    match task_queue ex with
    | [] => mret tt
    | id :: q =>
      match tasks ex !! id with
      | None => put (MkRun (Mk (tasks ex) q (waker_cache ex)) (world s) None)
      | Some f =>
        put (MkRun (Mk (tasks ex) q ({[id]} ∪ waker_cache ex)) (world s) (Some (id, resume id f)))
      end
    end
  | Some (id, Access m k) =>
    let '(w, r) := m (world s) in
    _ ← put (MkRun ex w (Some (id, Access m k)));
    b ← lift r;
    put (MkRun ex w (Some (id, k b)))
  | Some (id, Ret t) => put (after_turn ex (world s) id t)
  end.

(** An interrupt request, whatever the executor is doing. *)
Definition interrupt (e : Interrupts.Exception) (r : Interrupts.InterruptIndex * Z) : io Running unit :=
  s ← get;
  let '((ex, w), res) := irq e r (executor s, world s) in
  _ ← put (MkRun ex w (current s));
  lift res.

Inductive event : Type :=
  | Irq (r : Interrupts.InterruptIndex * Z)
  | Go.

Definition run_event (e : Interrupts.Exception) (ev : event) : io Running unit :=
  match ev with
  | Irq r => interrupt e r
  | Go => go
  end.

(** ** The pace of interrupts *)

(** The executor sleeps. *)
Definition idle (s : Running) : bool :=
  match current s, task_queue (executor s) with None, [] => true | _, _ => false end.

(** The interrupts whose handlers wake a task. *)
Definition waking (ev : event) : bool :=
  match ev with
  | Irq (Interrupts.Keyboard, _) | Irq (Interrupts.PrimaryATA, _) => true
  | _ => false
  end.

(** The task queue has room for the three tasks and this many more. *)
Definition MAX_BURST : nat := QUEUE_SIZE - 3.

(** After [n] such interrupts since the executor last slept, the events never
    bring more than [MAX_BURST] of them before it sleeps again. *)
Fixpoint paced (e : Interrupts.Exception) (n : nat) (evs : list event) (s : Running) : Prop :=
  match evs with
  | [] => True
  | ev :: evs =>
    let n := ((if idle s then 0 else n) + (if waking ev then 1 else 0))%nat in
    (n ≤ MAX_BURST)%nat ∧ paced e n evs (run_event e ev s).1
  end.

(** The number of such interrupts among the events. *)
Definition presses (evs : list event) : nat := length (filter (λ ev, waking ev = true) evs).

(** Few interrupts altogether are paced. *)
Lemma paced_few e n evs s : (n + presses evs ≤ MAX_BURST)%nat → paced e n evs s.
Proof.
  revert n s. induction evs as [|ev evs IH]; intros n s Hn; [done|]. unfold presses in Hn.
  rewrite filter_cons in Hn. cbn [paced].
  destruct (waking ev); simpl in Hn; (split; [destruct (idle s); lia|]);
    apply IH; unfold presses; destruct (idle s); lia.
Qed.

(** ** The invariant of the world

    [started] says whether the keyboard task has created the scancode queue.
    The keyboard's waker is task 2's, and the disk's task 1's. *)

Definition keys_ok (started : bool) (kb : Keyboard.t) : Prop :=
  (if started
   then ∃ q, Keyboard.SCANCODE_QUEUE kb = Some q ∧ (length q ≤ Keyboard.QUEUE_SIZE)%nat
   else Keyboard.SCANCODE_QUEUE kb = None) ∧
  ∀ k, Keyboard.WAKER kb = Some k → k = 2.

Definition disk_ok (d : Sys D) : Prop :=
  Interrupts.buffers_ok d ∧ ∀ k, DISK_WAKER (drv d) = Some (Some k) → k = 1.

Definition world_ok (started : bool) (w : World) : Prop :=
  (∃ T, holds T (Interrupts.keyboard w) (Interrupts.disk_sys w) w) ∧
  keys_ok started (Interrupts.keyboard w) ∧ disk_ok (Interrupts.disk_sys w).

Lemma world_ok_holds started T kb d (w : World) :
  holds T kb d w → keys_ok started kb → disk_ok d → world_ok started w.
Proof. intros [? ? <- <-] Hk Hd. split; [by exists T|done]. Qed.

(** The states of the tasks. *)
Definition task_ok (id : Z) (f : Task) (started : bool) : Prop :=
  match f with
  | ExampleTask => id = 0
  | DiskStart | DiskWait => id = 1
  | KeyStart => id = 2 ∧ started = false
  | KeyWait _ => id = 2 ∧ started = true
  | Finished => False
  end.

Definition turn_ok (id : Z) (t : Turn) (started : bool) : Prop :=
  match t with
  | Again f | Pending f => task_ok id f started
  | Ready => True
  end.

(** Only task 2 creates the queue. *)
Definition starts (id : Z) (started started' : bool) : Prop :=
  started' = started ∨ (id = 2 ∧ started' = true).

Lemma task_ok_starts id id' f started started' :
  starts id started started' → id' ≠ id → task_ok id' f started → task_ok id' f started'.
Proof. intros [->|[-> ->]] Hne; [done|]. destruct f; cbn; intuition congruence. Qed.

(** ** The tasks' code keeps it *)

Section code.
Context (id : Z).

Abbreviation safe := (Code.safe world_ok (starts id)).

Lemma safe_say {B} (Q : B → bool → Prop) args (k : unit → code World B) x :
  safe Q (k tt) x → safe Q (say args ≫= k) x.
Proof.
  intros Hk w ([T Hw] & Hkb & Hd). destruct (runs_println args T _ _ w Hw) as (w' & Heq & Hw').
  exists w', tt, x. split_and!; [done|by eapply world_ok_holds|by left|done].
Qed.

Lemma safe_print {B} (Q : B → bool → Prop) args (k : unit → code World B) x :
  safe Q (k tt) x → safe Q (atomic (Interrupts.print args) ≫= k) x.
Proof.
  intros Hk w ([T Hw] & Hkb & Hd). destruct (runs_print args T _ _ w Hw) as (w' & Heq & Hw').
  exists w', tt, x. split_and!; [done|by eapply world_ok_holds|by left|done].
Qed.

Lemma safe_disk {A B} (P : A → Prop) (Q : B → bool → Prop) (m : io (Sys D) A) (k : A → code World B) x :
  (∀ d, disk_ok d → ∃ d' a, m d = (d', Ok a) ∧ disk_ok d' ∧ P a) →
  (∀ a, P a → safe Q (k a) x) → safe Q (disk m ≫= k) x.
Proof.
  intros Hm Hk w ([T Hw] & Hkb & Hd). destruct (Hm _ Hd) as (d' & a & Heq & Hd' & Ha).
  destruct (runs_on_disk m T _ _ d' (Ok a) w Hw Heq) as (w' & Heq' & Hw').
  exists w', a, x. split_and!; [done|by eapply world_ok_holds|by left|by apply Hk].
Qed.

Lemma safe_keys {A B} (P : A → Prop) (Q : B → bool → Prop) (m : io Keyboard.t A) (k : A → code World B) x x' :
  starts id x x' →
  (∀ kb, keys_ok x kb → ∃ kb' a, m kb = (kb', Ok a) ∧ keys_ok x' kb' ∧ P a) →
  (∀ a, P a → safe Q (k a) x') → safe Q (keys m ≫= k) x.
Proof.
  intros Hx Hm Hk w ([T Hw] & Hkb & Hd). destruct (Hm _ Hkb) as (kb' & a & Heq & Hkb' & Ha).
  destruct (runs_on_keyboard m T _ kb' _ (Ok a) w Hw Heq) as (w' & Heq' & Hw').
  exists w', a, x'. split_and!; [done|by eapply world_ok_holds|done|by apply Hk].
Qed.

Lemma safe_lift {A B} (Q : B → bool → Prop) (a : A) (k : A → code World B) x :
  safe Q (k a) x → safe Q (atomic (lift (Ok a)) ≫= k) x.
Proof. intros Hk w Hw. exists w, a, x. split_and!; [done..|by left|done]. Qed.

(** ** The disk task *)

Lemma port_read_ok p d : disk_ok d → ∃ d' v, port_read p d = (d', Ok v) ∧ disk_ok d' ∧ True.
Proof.
  intros Hd. unfold port_read, mbind, io_bind, get. destruct (inb p (dev d)) as [d1 v].
  by exists (MkSys (drv d) d1), v.
Qed.

Lemma port_write_ok p v d : disk_ok d → ∃ d' u, port_write p v d = (d', Ok u) ∧ disk_ok d' ∧ True.
Proof. intros Hd. by exists (MkSys (drv d) (outb p v (dev d))), tt. Qed.

Lemma statics_ok d :
  disk_ok d → ∃ d' a, statics d = (d', Ok a) ∧ disk_ok d' ∧ length (SECTOR_BUFFER a) = SECTOR_SIZE.
Proof. intros Hd. exists d, (drv d). split_and!; [done..|apply Hd]. Qed.

Lemma update_ok f d :
  (∀ a, SECTOR_BUFFER (f a) = SECTOR_BUFFER a) →
  (∀ a, SECTOR_WRITE_BUFFER (f a) = SECTOR_WRITE_BUFFER a) →
  (∀ a k, DISK_WAKER (f a) = Some (Some k) → DISK_WAKER a = Some (Some k) ∨ k = 1) →
  disk_ok d → ∃ d' u, update f d = (d', Ok u) ∧ disk_ok d' ∧ True.
Proof.
  intros Hb Hwb Hk [[Hb1 Hb2] Hd]. exists (MkSys (f (drv d)) (dev d)), tt. split_and!; [done| |done].
  split; [split; cbn; congruence|]. intros k [?| ->]%Hk; [by apply Hd|done].
Qed.

#[local] Ltac disk_step :=
  eapply safe_disk;
    [first [apply port_read_ok|apply port_write_ok|apply statics_ok|
            intros ? ?; apply update_ok; [done|done|by left|assumption]]|cbv beta; intros ? ?].

Lemma read_sector_msg_safe lba (Q : unit → bool → Prop) x :
  Q tt x → safe Q (read_sector_msg lba) x.
Proof.
  intros HQ. unfold read_sector_msg. apply safe_say. disk_step. apply safe_say.
  do 2 disk_step. apply safe_say. do 4 disk_step. apply safe_say. disk_step. apply safe_say.
  apply (safe_disk (λ _, True) Q _ Ret); [apply port_write_ok|by intros []].
Qed.

Lemma load_read_done_safe lba (Q : bool → bool → Prop) x :
  (∀ b, Q b x) → safe Q (load_read_done lba) x.
Proof.
  intros HQ. unfold load_read_done. disk_step. destruct (OPERATION_COMPLETE _); [|apply HQ].
  disk_step. apply HQ.
Qed.

Lemma take_sector_safe (Q : option (list Z) → bool → Prop) x :
  (∀ l, length l = SECTOR_SIZE → Q (Some l) x) → safe Q take_sector x.
Proof. intros HQ. unfold take_sector. do 2 disk_step. by apply HQ. Qed.

Lemma sector_read_poll_safe lba (Q : option (list Z) → bool → Prop) x :
  id = 1 → (∀ l, length l = SECTOR_SIZE → Q (Some l) x) → Q None x →
  safe Q (sector_read_poll lba id) x.
Proof.
  intros Hid HQ HN. apply safe_bind, load_read_done_safe. intros []; [by apply take_sector_safe|].
  eapply safe_disk; [|cbv beta; intros _ _].
  { intros d Hd. apply update_ok; [..|exact Hd]; intros a; unfold register_waker;
      destruct (DISK_WAKER a) eqn:Hw; cbn; try done; [intros k [= <-]; by right|].
    intros k. by rewrite Hw. }
  apply safe_bind, load_read_done_safe. intros []; [by apply take_sector_safe|done].
Qed.

Lemma disk_resume_safe (Q : bool → bool → Prop) x :
  id = 1 → (∀ b, Q b x) → safe Q (disk_resume id) x.
Proof.
  intros Hid HQ. apply safe_bind, safe_bind, sector_read_poll_safe; [done| |apply HQ].
  intros l Hl. unfold SECTOR_SIZE in Hl. cbv beta iota. rewrite !idx_total by lia.
  do 4 apply safe_lift. apply safe_say. cbv beta iota. apply safe_say.
  rewrite decide_True by lia. apply safe_lift, safe_bind.
  eapply safe_mono; [apply safe_for_each|intros _ x' ->; apply safe_say, HQ].
  intros ib. apply safe_say. case_decide; [|done]. by apply (safe_say _ _ Ret).
Qed.

(** ** The keyboard task *)

Lemma pop_ok kb :
  keys_ok true kb → ∃ kb' r, Keyboard.pop kb = (kb', Ok r) ∧ keys_ok true kb' ∧ True.
Proof.
  intros [(q & Hq & Hlen) Hw]. unfold Keyboard.pop, mbind, io_bind, get. rewrite Hq.
  destruct q as [|c q]; [by exists kb, None; split_and!; [|split; [exists []|]|]|].
  eexists _, (Some c). split_and!; [done| |done]. split; [|done]. exists q. simpl in Hlen.
  split; [done|lia].
Qed.

Lemma modify_ok (f : Keyboard.t → Keyboard.t) kb :
  Keyboard.SCANCODE_QUEUE (f kb) = Keyboard.SCANCODE_QUEUE kb →
  (∀ k, Keyboard.WAKER (f kb) = Some k → k = 2) →
  keys_ok true kb → ∃ kb' u, (st ← get; put (f st)) kb = (kb', Ok u) ∧ keys_ok true kb' ∧ True.
Proof.
  intros Hq Hw [Hkb _]. exists (f kb), tt. split_and!; [done| |done]. split; [by rewrite Hq|done].
Qed.

Lemma scancode_poll_next_safe (Q : option Z → bool → Prop) :
  id = 2 → (∀ r, Q r true) → safe Q (scancode_poll_next id) true.
Proof.
  intros Hid HQ. eapply safe_keys; [by left|apply pop_ok|]. intros [c|] _; [apply HQ|].
  eapply safe_keys; [by left| |].
  { intros kb. apply modify_ok; [done|]. intros k [= <-]. done. }
  intros _ _. eapply safe_keys; [by left|apply pop_ok|]. intros [c|] _; [|apply HQ].
  eapply safe_keys; [by left| |intros _ _; apply HQ]. intros kb. by apply modify_ok.
Qed.

Lemma resume_safe f x : task_ok id f x → safe (turn_ok id) (resume id f) x.
Proof.
  destruct f as [| | | |kb|]; cbn [task_ok resume].
  - intros _. by apply safe_say.
  - intros Hid. unfold disk_start. apply safe_bind, safe_say, safe_bind, read_sector_msg_safe.
    apply disk_resume_safe; [done|]. by intros [].
  - intros Hid. apply safe_bind, disk_resume_safe; [done|]. by intros [].
  - intros [Hid ->]. apply (safe_keys (λ _, True) _ _ _ false true); [by right| |done].
    intros kb [Hq Hw]. unfold Keyboard.ScancodeStream_new, mbind, io_bind, get. rewrite Hq.
    eexists _, tt. split_and!; [done| |done]. split; [|done]. exists []. split; [done|simpl; lia].
  - intros [Hid ->]. apply safe_bind, scancode_poll_next_safe; [done|]. intros [c|]; [|done].
    destruct (Keyboard.key_output c kb) as [kb' [str|]]; [|done]. by apply safe_print.
  - done.
Qed.

End code.

(** ** The invariant of the executor

    [n] interrupts that wake a task have arrived since it last slept. *)

Definition current_id (s : Running) : option Z := fst <$> current s.

Record run_inv (n : nat) (started : bool) (s : Running) : Prop := {
  ri_world : world_ok started (world s);
  ri_queue : (length (task_queue (executor s)) ≤ 3 + n)%nat;
  ri_tasks id f : tasks (executor s) !! id = Some f → current_id s ≠ Some id → task_ok id f started;
  ri_current : match current s with
               | Some (id, c) => Code.safe world_ok (starts id) (turn_ok id) c started
               | None => True
               end;
}.

(** The task [id] has run a step. *)
Lemma run_inv_step n x x' s id c c' w :
  run_inv n x s → current s = Some (id, c) → starts id x x' → world_ok x' w →
  Code.safe world_ok (starts id) (turn_ok id) c' x' →
  run_inv n x' (MkRun (executor s) w (Some (id, c'))).
Proof.
  intros [_ Hq Ht _] Hc Hx Hw Hs. split; cbn; [done..| |done].
  intros id' f Hf Hne. eapply task_ok_starts; [done|congruence|]. apply Ht; [done|].
  unfold current_id. rewrite Hc. exact Hne.
Qed.

(** The poll of task [id] is over. *)
Lemma run_inv_end n x s id c ts cache :
  run_inv n x s → current s = Some (id, c) →
  (∀ id' f, ts !! id' = Some f → task_ok id' f x ∨ (id' ≠ id ∧ tasks (executor s) !! id' = Some f)) →
  run_inv n x (MkRun (Mk ts (task_queue (executor s)) cache) (world s) None).
Proof.
  intros [Hw Hq Ht _] Hc Hts. split; cbn; [done..| |done].
  intros id' f [?|[Hne Hf]]%Hts _; [done|]. apply Ht; [done|].
  unfold current_id. rewrite Hc. cbn. congruence.
Qed.

Lemma go_pop n x s :
  run_inv n x s → current s = None → ∃ s', go s = (s', Ok tt) ∧ run_inv n x s'.
Proof.
  intros [Hw Hq Ht _] Hc. unfold go, mbind, io_bind, get. rewrite Hc.
  assert (Ht' : ∀ id f, tasks (executor s) !! id = Some f → task_ok id f x).
  { intros id f Hf. apply Ht; [done|]. unfold current_id. by rewrite Hc. }
  destruct (task_queue (executor s)) as [|id q] eqn:Hque.
  { exists s. split; [done|]. split; [done|by rewrite Hque|done|by rewrite Hc]. }
  cbn in Hq. destruct (tasks (executor s) !! id) as [f|] eqn:Hf; (eexists; split; [done|]).
  - split; cbn; [done|lia|by intros; apply Ht'|]. apply resume_safe. by apply Ht'.
  - split; cbn; [done|lia|by intros; apply Ht'|done].
Qed.

Lemma go_ok n x s : run_inv n x s → ∃ s' x', go s = (s', Ok tt) ∧ run_inv n x' s'.
Proof.
  intros Hi. destruct (current s) as [[id c]|] eqn:Hc.
  2:{ destruct (go_pop n x s Hi Hc) as (s' & ? & ?). by exists s', x. }
  pose proof (ri_current _ _ _ Hi) as Hs. rewrite Hc in Hs.
  unfold go, mbind, io_bind, get. rewrite Hc. destruct c as [t|B m k].
  - cbn in Hs. destruct t as [f|f|]; (eexists _, x; split; [done|]).
    + eapply run_inv_step; [done..|by left|apply Hi|by apply resume_safe].
    + eapply run_inv_end; [done..|]. intros id' g [[<- <-]|[Hne Hg]]%lookup_insert_Some; [by left|].
      right. by split.
    + eapply run_inv_end; [done..|]. intros id' g [Hne Hg]%lookup_delete_Some. right. by split.
  - destruct (Hs _ (ri_world _ _ _ Hi)) as (w' & b & x' & Hm & Hw' & Hx & Hk). rewrite Hm.
    eexists _, x'. split; [done|]. by eapply run_inv_step.
Qed.

(** ** Interrupts keep it *)

Lemma keys_ok_add_scancode c x kb : keys_ok x kb → keys_ok x (Keyboard.add_scancode c kb).
Proof.
  unfold keys_ok, Keyboard.add_scancode. intros [Hq Hw]. destruct x.
  - destruct Hq as (q & Hq & Hlen). rewrite Hq. case_decide; (split; [|done]); [by exists q|].
    exists (q ++ [c]). split; [done|]. rewrite length_app. simpl. lia.
  - rewrite Hq. by split.
Qed.

(** A request keeps the invariant of the world and wakes at most one task. *)
Lemma request_keeps e r x (w : World) :
  world_ok x w →
  ∃ w', Interrupts.request e r w = (w', Ok tt) ∧ world_ok x w' ∧
    (length (new_wakes w w') ≤ if waking (Irq r) then 1 else 0)%nat.
Proof.
  intros ([T Hw] & Hk & Hd). destruct r as [[] c].
  - destruct (request_timer e c T _ _ w Hw) as (w' & Hr & Hw'). exists w'.
    split_and!; [done|by eapply world_ok_holds|]. unfold new_wakes.
    destruct Hw' as [_ _ -> ->]. by rewrite !drop_all.
  - destruct (request_keyboard e c T _ _ w Hw) as (w' & Hr & Hw'). exists w'.
    split_and!; [done|by eapply world_ok_holds; [|apply keys_ok_add_scancode|]|].
    unfold new_wakes. destruct Hw' as [_ _ -> ->].
    destruct (add_scancode_wakes c (Interrupts.keyboard w)) as (l & -> & Hor).
    rewrite drop_app_length, drop_all, app_nil_r. cbn.
    destruct Hor as [[-> _]|[-> _]]; [simpl; lia|]. destruct (Keyboard.WAKER _); simpl; lia.
  - destruct (Interrupts.on_primary_ata_interrupt_total _ _ (Interrupts.disk_sys w)
      (conj (proj1 Hd) (conj eq_refl eq_refl))) as (d' & Hon & Hint).
    destruct (request_ata e c T _ _ d' w Hw Hon) as (w' & Hr & Hw'). exists w'.
    pose proof (Interrupts.interrupted_buffers _ _ _ Hint) as Hb.
    destruct Hint as [(_ & Hdw & Hwk)|(k & Hk' & _ & Hdw & Hwk)];
      (split_and!; [done|eapply world_ok_holds; [done..|split; [done|]]|]).
    + rewrite Hdw. apply Hd.
    + unfold new_wakes. destruct Hw' as [_ _ -> ->]. by rewrite Hwk, !drop_all; simpl; lia.
    + by rewrite Hdw.
    + unfold new_wakes. destruct Hw' as [_ _ -> ->]. by rewrite Hwk, drop_all, drop_app_length.
Qed.

Lemma interrupt_ok e r n x s :
  run_inv n x s → let n' := (n + if waking (Irq r) then 1 else 0)%nat in
  (n' ≤ MAX_BURST)%nat → ∃ s', interrupt e r s = (s', Ok tt) ∧ run_inv n' x s'.
Proof.
  intros [Hw Hq Ht Hc] n' Hn. destruct (request_keeps e r x _ Hw) as (w' & Hr & Hw' & Hlen).
  unfold MAX_BURST, QUEUE_SIZE in Hn.
  unfold interrupt, mbind, io_bind, get.
  rewrite (irq_eq e r (executor s) (world s) w' _ Hr eq_refl) by (unfold QUEUE_SIZE; lia).
  eexists. split; [done|]. split; cbn; [done| |done..]. rewrite length_app. lia.
Qed.

(** ** Events *)

Lemma run_inv_idle n x s : run_inv n x s → run_inv (if idle s then 0 else n) x s.
Proof.
  unfold idle. intros [Hw Hq Ht Hc]. destruct (current s) eqn:Hcur; [by split; rewrite ?Hcur|].
  destruct (task_queue (executor s)) eqn:Hque; [|by split; rewrite ?Hcur, ?Hque].
  split; [done| |done|by rewrite Hcur]. rewrite Hque. simpl. lia.
Qed.

Lemma run_event_ok e ev n x s :
  run_inv n x s → let n' := (n + if waking ev then 1 else 0)%nat in
  (n' ≤ MAX_BURST)%nat → ∃ s' x', run_event e ev s = (s', Ok tt) ∧ run_inv n' x' s'.
Proof.
  intros Hi n' Hn. destruct ev as [r|].
  - destruct (interrupt_ok e r n x s Hi Hn) as (s' & ? & ?). by exists s', x.
  - subst n'. cbn [waking]. rewrite Nat.add_0_r. by apply (go_ok n x).
Qed.

Lemma run_events_ok e evs n x s :
  run_inv n x s → (n ≤ MAX_BURST)%nat → paced e n evs s →
  ∃ s' n' x', for_each evs (run_event e) s = (s', Ok tt) ∧ (n' ≤ MAX_BURST)%nat ∧ run_inv n' x' s'.
Proof.
  revert n x s. induction evs as [|ev evs IH]; intros n x s Hi Hn Hp; [by exists s, n, x|].
  cbn [paced] in Hp. destruct Hp as [Hn' Hp].
  destruct (run_event_ok e ev _ x s (run_inv_idle n x s Hi) Hn') as (s1 & x1 & Heq & Hi1).
  rewrite Heq in Hp. destruct (IH _ x1 s1 Hi1 Hn' Hp) as (s2 & n2 & x2 & Heq2 & ? & ?).
  exists s2, n2, x2. split; [|done]. cbn [for_each]. unfold mbind, io_bind. by rewrite Heq.
Qed.

Lemma spawned_ok (w : World) : ready_world w → run_inv 0 false (MkRun spawned w None).
Proof.
  intros [Hc Hb Hkq Hkw Hdw]. split; cbn [executor world current]; [|simpl; lia| |done].
  - split; [done|]. split; [split; [done|by rewrite Hkw]|]. split; [done|].
    intros k Hk. by destruct (Hdw k).
  - intros id f Hf _. unfold spawned in Hf. cbn [tasks] in Hf. rewrite !lookup_insert_Some in Hf.
    destruct Hf as [[<- <-]|[_ [[<- <-]|[_ [[<- <-]|[_ Hf]]]]]]; [done..|].
    by rewrite lookup_empty in Hf.
Qed.

(** C4. The running kernel does not panic: once kernel_main has spawned its tasks,
    timer, keyboard and disk interrupts may arrive between any two accesses of
    the tasks to the state they share with the handlers, also in the middle of
    a poll, in any order and with any data; as long as no more than 97
    keyboard and disk interrupts arrive before the executor next finds its
    queue empty, the kernel runs through. The task queue and the scancode
    queue stay within their capacity, no task waits in the state after its
    end, a waker registered with the keyboard is that of the keyboard task and
    one registered with the disk that of the disk task. *)
Theorem kernel_never_panics e (w : World) :
  ready_world w →
  ∃ ex, spawn_tasks (new, w) = ((ex, w), Ok tt) ∧
  ∀ evs, paced e 0 evs (MkRun ex w None) →
  ∃ s', for_each evs (run_event e) (MkRun ex w None) = (s', Ok tt) ∧
    (length (task_queue (executor s')) ≤ QUEUE_SIZE)%nat ∧
    (∀ q, Keyboard.SCANCODE_QUEUE (Interrupts.keyboard (world s')) = Some q →
       (length q ≤ Keyboard.QUEUE_SIZE)%nat) ∧
    (∀ id f, tasks (executor s') !! id = Some f → current_id s' ≠ Some id → f ≠ Finished) ∧
    (∀ k, Keyboard.WAKER (Interrupts.keyboard (world s')) = Some k → k = 2) ∧
    (∀ k, DISK_WAKER (drv (Interrupts.disk_sys (world s'))) = Some (Some k) → k = 1) ∧
    Writer.wf (Interrupts.console (world s')).
Proof.
  intros Hw. exists spawned. split; [apply spawn_tasks_ok|]. intros evs Hp.
  destruct (run_events_ok e evs 0 false _ (spawned_ok w Hw) ltac:(lia) Hp)
    as (s' & n & x & Heq & Hn & [([T HT] & [Hkq Hkw] & _ & Hdw) Hq Ht _]).
  exists s'. unfold MAX_BURST, QUEUE_SIZE in *. split_and!; [done|lia| | |done|done|by eapply holds_wf].
  - intros q Hsq. destruct x; [|congruence]. destruct Hkq as (q' & Hq' & ?). congruence.
  - intros id f Hf Hne ->. exact (Ht _ _ Hf Hne).
Qed.


(** ** A burst of key presses

    Without interrupts, the steps of a poll make up [run]. *)

Lemma events_app {S A} (l1 l2 : list A) (body : A → io S unit) s s1 r :
  for_each l1 body s = (s1, Ok tt) → for_each l2 body s1 = r → for_each (l1 ++ l2) body s = r.
Proof. intros H1 <-. rewrite for_each_app. unfold mbind, io_bind. by rewrite H1. Qed.

Lemma events_cons e ev evs (s s1 : Running) r :
  run_event e ev s = (s1, Ok tt) → for_each evs (run_event e) s1 = r →
  for_each (ev :: evs) (run_event e) s = r.
Proof. intros Hev <-. cbn [for_each]. unfold mbind, io_bind. by rewrite Hev. Qed.

Lemma go_access {B} ex (w w' : World) id (m : io World B) k b :
  m w = (w', Ok b) → go (MkRun ex w (Some (id, Access m k))) = (MkRun ex w' (Some (id, k b)), Ok tt).
Proof. intros Hm. unfold go, mbind, io_bind, get. cbn. by rewrite Hm. Qed.

Lemma go_run e ex (w w' : World) id c t :
  run c w = (w', Ok t) →
  ∃ n, for_each (replicate n Go) (run_event e) (MkRun ex w (Some (id, c))) =
    (MkRun ex w' (Some (id, Ret t)), Ok tt).
Proof.
  revert w. induction c as [t'|B m k IH]; intros w; cbn [run].
  - intros [= -> ->]. by exists O.
  - unfold mbind, io_bind. destruct (m w) as [w1 [b| | |]] eqn:Hm; try done. intros Hr.
    destruct (IH b w1 Hr) as [n Hn]. exists (S n). cbn [replicate for_each run_event].
    unfold mbind, io_bind. by rewrite (go_access _ _ _ _ _ _ _ Hm).
Qed.

(** A poll that is not interrupted, from the queue to its end. *)
Lemma go_poll e ts id q cache f (w w' : World) t :
  ts !! id = Some f → run (resume id f) w = (w', Ok t) →
  ∃ n, for_each (replicate n Go) (run_event e) (MkRun (Mk ts (id :: q) cache) w None) =
    (after_turn (Mk ts q ({[id]} ∪ cache)) w' id t, Ok tt).
Proof.
  intros Hf Hr.
  destruct (go_run e (Mk ts q ({[id]} ∪ cache)) w w' id (resume id f) t Hr) as [n Hn].
  exists (1 + (n + 1))%nat. rewrite !replicate_add.
  eapply events_app; [|eapply events_app; [exact Hn|]].
  - cbn [replicate for_each run_event]. unfold mbind, io_bind, go, mbind, io_bind, get.
    cbn [current executor task_queue tasks waker_cache world]. by rewrite Hf.
  - done.
Qed.

(** The keyboard task is at the head of its loop, with no scancode queued. *)
Definition at_turn (q : list Z) (s : Running) : Prop :=
  ∃ T st d kb, holds T st d (world s) ∧ Keyboard.SCANCODE_QUEUE st = Some [] ∧
    task_queue (executor s) = q ∧ current s = Some (2, key_turn 2 kb).

Lemma reach_turn e (w : World) :
  ready_world w →
  ∃ n s, for_each (replicate n Go) (run_event e) (MkRun spawned w None) = (s, Ok tt) ∧ at_turn [] s.
Proof.
  intros [[T Hw] _ Hq _ _].
  destruct (runs_println [text "async number: "; show_dec async_number] T _ _ w Hw) as (w1 & Heq1 & Hw1).
  destruct (disk_start_ok 1 _ _ _ w1 Hw1) as (w2 & Heq2 & Hw2).
  destruct (runs_on_keyboard Keyboard.ScancodeStream_new _ _
    (Keyboard.set_queue [] (Interrupts.keyboard w)) _ (Ok tt) w2 Hw2) as (w3 & Heq3 & Hw3).
  { unfold Keyboard.ScancodeStream_new, mbind, io_bind, get. by rewrite Hq. }
  destruct (go_poll e (tasks spawned) 0 [1; 2] ∅ ExampleTask w w1 Ready) as [n1 Hn1]; [done| |].
  { cbn [resume]. rewrite run_bind. unfold mbind, io_bind, example_task, say. by rewrite (run_atomic _ _ _ _ Heq1). }
  destruct (go_poll e (delete 0 (tasks spawned)) 1 [2] (({[0]} ∪ ∅) ∖ {[0]}) DiskStart w1 w2
    (Pending DiskWait)) as [n2 Hn2]; [done| |].
  { cbn [resume]. rewrite run_bind. unfold mbind, io_bind. by rewrite Heq2. }
  destruct (go_poll e (<[1 := DiskWait]> (delete 0 (tasks spawned))) 2 [] ({[1]} ∪ (({[0]} ∪ ∅) ∖ {[0]}))
    KeyStart w2 w3 (Again (KeyWait Keyboard.kb_new))) as [n3 Hn3]; [done| |].
  { cbn [resume]. rewrite run_bind. unfold mbind, io_bind, keys. by rewrite (run_atomic _ _ _ _ Heq3). }
  exists (n1 + (n2 + n3))%nat. eexists. rewrite !replicate_add. split.
  - eapply events_app; [exact Hn1|]. eapply events_app; [exact Hn2|exact Hn3].
  - eexists _, _, _, Keyboard.kb_new. by split_and!; [exact Hw3|..].
Qed.

(** One more scancode arrives between the registration of the waker and the
    second [pop]: the task is woken while it is running, and goes on. *)
Definition press (c : Z) : list event := [Go; Go; Irq (Interrupts.Keyboard, c)].

Lemma press_steps e c q s :
  at_turn q s →
  ∃ s1 w' T st d kb, for_each [Go; Go] (run_event e) s = (s1, Ok tt) ∧
    Interrupts.request e (Interrupts.Keyboard, c) (world s1) = (w', Ok tt) ∧
    new_wakes (world s1) w' = [2] ∧ executor s1 = executor s ∧
    holds T st d w' ∧ Keyboard.SCANCODE_QUEUE st = Some [c] ∧
    ∃ k, current s1 = Some (2, Access (on_keyboard Keyboard.pop) k) ∧
      k (Some c) = (_ ← keys (st ← get; put (Keyboard.take_waker st));
                    let '(kb, out) := Keyboard.key_output c kb in
                    _ ← (match out with Some str => atomic (Interrupts.print [str]) | None => mret tt end);
                    mret (Again (KeyWait kb))).
Proof.
  destruct s as [ex w cur]. intros (T & st & d & kb & Hw & Hq & _ & Hc). cbn in Hw, Hc. subst cur.
  destruct (runs_on_keyboard Keyboard.pop T st st d (Ok None) w Hw) as (w1 & Heq1 & Hw1).
  { unfold Keyboard.pop, mbind, io_bind, get. by rewrite Hq. }
  destruct (runs_on_keyboard (st ← get; put (Keyboard.register 2 st)) T st (Keyboard.register 2 st) d
    (Ok tt) w1 Hw1) as (w2 & Heq2 & Hw2); [done|].
  destruct (request_keyboard e c T _ _ w2 Hw2) as (w3 & Heq3 & Hw3).
  assert (Hadd : Keyboard.add_scancode c (Keyboard.register 2 st) =
    Keyboard.wake (Keyboard.set_queue [c] (Keyboard.register 2 st))).
  { unfold Keyboard.add_scancode. cbn. by rewrite Hq. }
  eexists _, w3, _, _, d, kb. split.
  { eapply events_cons; [exact (go_access _ _ _ _ _ _ _ Heq1)|].
    eapply events_cons; [exact (go_access _ _ _ _ _ _ _ Heq2)|reflexivity]. }
  split_and!; [exact Heq3| |done|exact Hw3|by rewrite Hadd|].
  - unfold new_wakes. cbn [world]. destruct Hw2 as [_ _ -> ->], Hw3 as [_ _ -> ->].
    rewrite Hadd. cbn. by rewrite drop_app_length, drop_all.
  - eexists. by split.
Qed.

(** The events are steps of the kernel and interrupts for the key [c]. *)
Definition only_presses (c : Z) (evs : list event) : Prop :=
  Forall (λ ev, ev = Go ∨ ev = Irq (Interrupts.Keyboard, c)) evs.

Lemma presses_app evs1 evs2 : presses (evs1 ++ evs2) = (presses evs1 + presses evs2)%nat.
Proof. unfold presses. by rewrite filter_app, length_app. Qed.

Lemma presses_go n : presses (replicate n Go) = 0%nat.
Proof. induction n as [|n IH]; [done|exact IH]. Qed.

Lemma only_presses_go c n : only_presses c (replicate n Go).
Proof. apply Forall_replicate. by left. Qed.

(** The rest of the iteration: the waker is taken and the key printed. *)
Lemma key_rest c kb T st d (w : World) :
  holds T st d w →
  runs (run (_ ← keys (st ← get; put (Keyboard.take_waker st));
             let '(kb, out) := Keyboard.key_output c kb in
             _ ← (match out with Some str => atomic (Interrupts.print [str]) | None => mret tt end);
             mret (Again (KeyWait kb)))) w
    (Ok (Again (KeyWait (Keyboard.key_output c kb).1)))
    (λ w', ∃ T', holds T' (Keyboard.take_waker st) d w').
Proof.
  intros Hw. eapply runs_code_bind; [by eapply runs_atomic, runs_on_keyboard|].
  intros w1 Hw1. cbv beta. destruct (Keyboard.key_output c kb) as [kb1 [str|]].
  - eapply runs_code_bind; [by apply runs_atomic, runs_print|]. intros w2 Hw2.
    apply runs_code_ret. by eexists.
  - eapply runs_code_bind; [by apply runs_code_ret|]. intros w2 Hw2. apply runs_code_ret. by eexists.
Qed.

Lemma press_ok e c q s :
  at_turn q s → (length q < QUEUE_SIZE)%nat →
  ∃ evs s', only_presses c evs ∧ presses evs = 1%nat ∧
    for_each evs (run_event e) s = (s', Ok tt) ∧ at_turn (q ++ [2]) s'.
Proof.
  intros Hs Hlen. pose proof Hs as (_ & _ & _ & _ & _ & _ & Hque & _).
  destruct (press_steps e c q s Hs) as (s1 & w' & T & st & d & kb & Hgo & Hr & Hn & Hex & Hw & Hq & k & Hc & Hk).
  destruct s1 as [ex w1 cur]. cbn [executor world current] in Hr, Hn, Hex, Hc. subst ex cur.
  destruct (runs_on_keyboard Keyboard.pop T st (Keyboard.set_queue [] st) d (Ok (Some c)) w' Hw)
    as (w2 & Heq2 & Hw2).
  { unfold Keyboard.pop, mbind, io_bind, get. by rewrite Hq. }
  destruct (key_rest c kb _ _ _ w2 Hw2) as (w3 & Heq3 & T3 & Hw3). rewrite <-Hk in Heq3.
  set (ex' := Mk (tasks (executor s)) (task_queue (executor s) ++ [2]) (waker_cache (executor s))).
  destruct (go_run e ex' w2 w3 2 _ _ Heq3) as [n Hn'].
  exists ([Go; Go] ++ [Irq (Interrupts.Keyboard, c); Go] ++ replicate n Go ++ replicate 1 Go).
  eexists. split_and!.
  - apply Forall_app_2; [apply (only_presses_go c 2)|]. apply Forall_app_2.
    + constructor; [by right|apply (only_presses_go c 1)].
    + apply Forall_app_2; apply only_presses_go.
  - rewrite !presses_app, !presses_go. done.
  - eapply events_app; [exact Hgo|]. eapply events_app; [|eapply events_app; [exact Hn'|done]].
    eapply events_cons.
    + cbn [run_event]. unfold interrupt, mbind, io_bind, get. cbn [executor world current].
      rewrite (irq_eq e _ _ _ w' [2] Hr Hn) by (rewrite Hque; simpl; lia). done.
    + eapply events_cons; [exact (go_access _ _ _ _ _ _ _ Heq2)|done].
  - eexists T3, _, d, _. split_and!; [exact Hw3|done|cbn; by rewrite Hque|done].
Qed.

Lemma full_press_panics e c q s :
  at_turn q s → length q = QUEUE_SIZE →
  ∃ s', for_each (press c) (run_event e) s = (s', Panic).
Proof.
  intros Hs Hlen. pose proof Hs as (_ & _ & _ & _ & _ & _ & Hque & _).
  destruct (press_steps e c q s Hs) as (s1 & w' & T & st & d & kb & Hgo & Hr & Hn & Hex & _).
  eexists. apply (events_app [Go; Go] [Irq (Interrupts.Keyboard, c)] _ _ _ _ Hgo).
  cbn [for_each run_event]. unfold mbind at 1, io_bind at 1, interrupt, mbind at 1, io_bind at 1, get.
  unfold irq, mbind, io_bind, get. rewrite Hr. unfold put at 1, lift. rewrite Hn. cbn [for_each].
  unfold wake_task, mbind, io_bind, get. rewrite Hex, Hque, decide_True by lia. done.
Qed.

Lemma presses_fill e c n s :
  at_turn [] s → (n ≤ QUEUE_SIZE)%nat →
  ∃ evs s', only_presses c evs ∧ presses evs = n ∧
    for_each evs (run_event e) s = (s', Ok tt) ∧ at_turn (replicate n 2) s'.
Proof.
  intros Hs. induction n as [|n IH]; intros Hn; [by exists [], s; split_and!; [constructor|..]|].
  destruct IH as (evs & s1 & Ho & Hp & Hrun & Hs1); [lia|].
  destruct (press_ok e c _ s1 Hs1) as (evs' & s2 & Ho' & Hp' & Hrun' & Hs2); [rewrite length_replicate; lia|].
  exists (evs ++ evs'), s2. split_and!; [by apply Forall_app_2| |by eapply events_app|].
  - rewrite presses_app. lia.
  - by rewrite <-replicate_cons_app in Hs2.
Qed.


End preempt.
