(* ===== verification/KernelRun.v ===== *)
(** * A session with the kernel

    The rounds of [Executor::run] after [kernel_main] has spawned its tasks:
    the disk task prints the sector it asked for, and what is typed appears on
    the console. *)

From S2P Require Import Prelude Format Vga Ata Keyboard Interrupts Executor Code World Tasks Kernel.
Import Executor.

(** Requests of the timer and the keyboard, few enough for the scancode queue. *)
Definition key_round (rs : list (Interrupts.InterruptIndex * Z)) : Prop :=
  Forall (λ r, r.1 ≠ Interrupts.PrimaryATA) rs ∧
  (length (Interrupts.scancodes rs) ≤ Keyboard.QUEUE_SIZE)%nat.

(** The dots of the timer. *)
Definition dots (rs : list (Interrupts.InterruptIndex * Z)) : list Z :=
  rs ≫= λ r, match r.1 with Interrupts.Timer => text "." | _ => [] end.

Section keys.
Context {D : Type} `{PortDevice D}.
Context {K Event KeyCode : Type} `{Keyboard.Decoder K Event KeyCode}.

Abbreviation World := (Interrupts.t D).
Abbreviation Ex := (Executor.t (TaskState (K := K))).

(** What rounds of typing print. *)
Fixpoint session (rounds : list (list (Interrupts.InterruptIndex * Z))) (kb : K) : list Z :=
  match rounds with
  | [] => []
  | rs :: rounds =>
    dots rs ++ Keyboard.typed (Interrupts.scancodes rs) kb ++
    session rounds (decoded (Interrupts.scancodes rs) kb)
  end.

(** The keyboard task waits with decoder [kb] and the scancodes [q] queued: it
    is ready when there are any, and registered as the waker otherwise. *)
Record waiting (kb : K) (q : list Z) (T : Writer.term) (s : Ex * World) : Prop := {
  waiting_task : tasks s.1 !! 2 = Some (KeyWait kb);
  waiting_ready : task_queue s.1 = match q with [] => [] | _ => [2] end;
  waiting_world : ∃ st d, holds T st d s.2 ∧ Keyboard.SCANCODE_QUEUE st = Some q ∧
    Keyboard.WAKER st = match q with [] => Some 2 | _ => None end;
}.

Lemma waiting_timer e c kb q T s :
  waiting kb q T s →
  ∃ s', irq e (Interrupts.Timer, c) s = (s', Ok tt) ∧ waiting kb q (feed T (text ".")) s'.
Proof.
  destruct s as [ex w]. intros [Ht Hr (st & d & Hw & Hq & Hk)]. cbn [fst snd] in *.
  destruct (request_timer e c T st d w Hw) as (w' & Heq & Hw').
  rewrite (irq_eq e _ ex w w' []).
  - eexists. split; [done|]. split; cbn; [done|by rewrite app_nil_r|by exists st, d].
  - done.
  - unfold new_wakes. destruct Hw as [_ _ -> ->], Hw' as [_ _ -> ->]. by rewrite !drop_all.
  - rewrite Hr. destruct q; unfold QUEUE_SIZE; simpl; lia.
Qed.

Lemma waiting_key e c kb q T s :
  waiting kb q T s → (length q < Keyboard.QUEUE_SIZE)%nat →
  ∃ s', irq e (Interrupts.Keyboard, c) s = (s', Ok tt) ∧ waiting kb (q ++ [c]) T s'.
Proof.
  destruct s as [ex w]. intros [Ht Hr (st & d & Hw & Hq & Hk)] Hlen. cbn [fst snd] in *.
  destruct (request_keyboard e c T st d w Hw) as (w' & Heq & Hw').
  assert (Hadd : Keyboard.add_scancode c st = Keyboard.wake (Keyboard.set_queue (q ++ [c]) st)).
  { unfold Keyboard.add_scancode. rewrite Hq. by rewrite decide_False by lia. }
  assert (Hwarn : warn_text c st = []).
  { unfold warn_text. rewrite Hadd. cbn. by rewrite drop_all. }
  rewrite Hadd, Hwarn, feed_nil in Hw'.
  rewrite (irq_eq e _ ex w w' (option_list (Keyboard.WAKER st))).
  - eexists. split; [done|]. split; cbn [fst snd task_queue tasks]; [done| |].
    + rewrite Hr, Hk. by destruct q.
    + eexists _, d. split; [exact Hw'|]. split; [done|]. by destruct q.
  - done.
  - unfold new_wakes. destruct Hw as [_ _ -> ->], Hw' as [_ _ -> ->]. cbn.
    by rewrite drop_app_length, drop_all, app_nil_r.
  - rewrite Hr, Hk. destruct q; unfold QUEUE_SIZE; simpl; lia.
Qed.

Lemma waiting_irqs e rs kb q T s :
  waiting kb q T s → Forall (λ r, r.1 ≠ Interrupts.PrimaryATA) rs →
  (length q + length (Interrupts.scancodes rs) ≤ Keyboard.QUEUE_SIZE)%nat →
  ∃ s', for_each rs (irq e) s = (s', Ok tt) ∧
    waiting kb (q ++ Interrupts.scancodes rs) (feed T (dots rs)) s'.
Proof.
  revert q T s. induction rs as [|[i c] rs IH]; intros q T s Hs Hrs Hlen.
  { exists s. cbn. by rewrite app_nil_r. }
  apply Forall_cons in Hrs as [Hi Hrs]. cbn [for_each]. unfold mbind, io_bind.
  destruct i; cbn in Hi; [| |done].
  - destruct (waiting_timer e c kb q T s Hs) as (s1 & -> & Hs1).
    destruct (IH q _ s1 Hs1 Hrs) as (s' & Heq & Hs'); [exact Hlen|].
    exists s'. split; [done|]. by rewrite feed_app in Hs'.
  - cbn in Hlen. destruct (waiting_key e c kb q T s Hs) as (s1 & -> & Hs1); [lia|].
    destruct (IH (q ++ [c]) T s1 Hs1 Hrs) as (s' & Heq & Hs').
    { rewrite length_app. simpl. unfold Interrupts.scancodes. lia. }
    exists s'. split; [done|]. by rewrite <-app_assoc in Hs'.
Qed.

Lemma waiting_run kb q T s fuel :
  waiting kb q T s → (length q ≤ Keyboard.QUEUE_SIZE)%nat → (2 ≤ fuel)%nat →
  ∃ s', run_ready_tasks fuel s = (s', Ok tt) ∧
    waiting (decoded q kb) [] (feed T (Keyboard.typed q kb)) s'.
Proof.
  destruct s as [ex w]. intros [Ht Hr (st & d & Hw & Hq & Hk)] Hlen Hf. cbn [fst snd] in *.
  destruct fuel as [|[|fuel]]; [lia..|].
  cbn [run_ready_tasks]. unfold mbind, io_bind, get. rewrite Hr. destruct q as [|c q].
  { exists (ex, w). split; [done|]. split; [done..|]. by exists st, d. }
  destruct (key_loop_ok POLL_FUEL 2 kb (c :: q) T st d w Hw Hq) as (w' & Heq & Hw');
    [unfold POLL_FUEL; lia|].
  rewrite (run_task_ok ex w 2 [] (KeyWait kb) (KeyWait (decoded (c :: q) kb)) w' [] false Ht).
  - eexists. split; [done|]. split; cbn [fst snd].
    + cbn. by rewrite lookup_insert_eq.
    + done.
    + eexists _, d. by split.
  - exact Heq.
  - simpl. unfold QUEUE_SIZE. lia.
Qed.

(** Rounds of typing. *)
Lemma waiting_session e fuel rounds kb T s :
  waiting kb [] T s → Forall key_round rounds → (2 ≤ fuel)%nat →
  ∃ s' kb', for_each rounds (run_round e fuel) s = (s', Ok tt) ∧
    waiting kb' [] (feed T (session rounds kb)) s'.
Proof.
  revert kb T s. induction rounds as [|rs rounds IH]; intros kb T s Hs Hr Hf.
  { by exists s, kb. }
  apply Forall_cons in Hr as [[Hrs Hlen] Hr].
  destruct (waiting_irqs e rs kb [] T s Hs Hrs) as (s1 & Heq1 & Hs1); [simpl; lia|].
  destruct (waiting_run kb _ _ s1 fuel Hs1 Hlen Hf) as (s2 & Heq2 & Hs2).
  destruct (IH _ _ s2 Hs2 Hr Hf) as (s3 & kb' & Heq3 & Hs3).
  exists s3, kb'. split.
  - assert (Hround : run_round e fuel rs s = (s2, Ok tt)).
    { unfold run_round, mbind, io_bind. by rewrite Heq1. }
    cbn [for_each]. unfold mbind, io_bind. by rewrite Hround.
  - rewrite !feed_app in Hs3. exact Hs3.
Qed.

End keys.

(** ** The first rounds *)

Section first_rounds.
Context {D : Type} `{AtaDeviceSpec D}.
Context {K Event KeyCode : Type} `{Keyboard.Decoder K Event KeyCode}.

Abbreviation World := (Interrupts.t D).
Abbreviation Ex := (Executor.t (TaskState (K := K))).

(** What the first round prints; [status] is the drive's status register. *)
Definition first_text (status : Z) : list Z :=
  text "async number: 42" ++ newline ++
  text "Attempting to read sector 0 from disk..." ++ newline ++ read_sector_text 0 status.

(** What the disk's interrupt and the disk task print for sector [data]. *)
Definition disk_text (data : list Z) : list Z :=
  text "ATA sector read complete (LBA: 0)" ++ newline ++ sector_text data.

(** The executor after the first round. *)
Definition settled : Ex :=
  Mk (<[2 := KeyWait Keyboard.kb_new]> (<[1 := DiskWait]> (delete 0 (tasks spawned)))) []
     {[1; 2]}.

(** One poll of the run loop. *)
Lemma run_ready_poll fuel ex (w : World) id q f f' w' ready o :
  task_queue ex = id :: q → tasks ex !! id = Some f →
  poll id f w = (w', Ok (f', [], ready)) → (length q ≤ QUEUE_SIZE)%nat →
  run_ready_tasks fuel (after_poll ex id f' q ready, w') = o →
  run_ready_tasks (S fuel) (ex, w) = o.
Proof.
  intros Hq Hf Hp Hlen <-. cbn [run_ready_tasks]. unfold mbind at 1, io_bind at 1, get at 1.
  rewrite Hq. unfold mbind at 1, io_bind at 1.
  rewrite (run_task_ok ex w id q f f' w' [] ready Hf Hp) by (simpl; lia). by rewrite app_nil_r.
Qed.

Lemma first_round e T st a d (w : World) tf k :
  holds T st (MkSys a d) w → Keyboard.SCANCODE_QUEUE st = None → DISK_WAKER a = Some None →
  dev_idle d tf k → 0 < dev_sectors →
  ∃ w' d' status a', run_round e 4 [] (spawned, w) = ((settled, w'), Ok tt) ∧
    inb STATUS_COMMAND_PORT d = (d', status) ∧
    a' = set_DISK_WAKER (Some (Some 1)) (set_OPERATION_COMPLETE false (set_PENDING_LBA 0 a)) ∧
    ∃ d2, dev_data_in d2 k (word_at (k 0) <$> seq 0 256) ∧
      holds (feed T (first_text status)) (Keyboard.register 2 (Keyboard.set_queue [] st))
        (MkSys a' d2) w'.
Proof.
  intros Hw Hq Hdw Hidle Hpos. pose proof (dev_idle_status _ _ _ Hidle) as Hidle1.
  destruct (inb STATUS_COMMAND_PORT d) as [d1 status] eqn:Hst. cbn in Hidle1.
  set (a1 := set_OPERATION_COMPLETE false (set_PENDING_LBA 0 a)).
  destruct (issue_read_ok a1 d1 tf k 0 Hidle1 ltac:(lia)) as (d2 & Hcmd & _ & Hdata).
  destruct (poll_done 0 ExampleTask w (holds (feed T (text "async number: 42" ++ newline)) st (MkSys a d)))
    as (w1 & Heq1 & Hw1).
  { cbn [resume]. eapply runs_code_bind; [by apply runs_atomic, runs_println|].
    intros s1 Hs1. apply runs_code_ret. exact Hs1. }
  destruct (poll_disk 1 DiskStart _ w1 false _ (or_introl (conj eq_refl eq_refl))
    (disk_start_ok 1 _ _ _ w1 Hw1)) as (w2 & Heq2 & Hw2).
  rewrite (read_sector_start_eq 0 a d d1 d2 status Hst Hcmd) in Hw2. cbn [fst dev drv] in Hw2.
  rewrite Hst in Hw2. fold a1 in Hw2. unfold register_waker in Hw2.
  change (DISK_WAKER a1) with (DISK_WAKER a) in Hw2. rewrite Hdw in Hw2. cbn [snd] in Hw2.
  destruct (key_start_ok 2 _ st _ w2 Hw2 Hq) as (w4 & Heq4 & Hw4).
  exists w4, d1, status, (set_DISK_WAKER (Some (Some 1)) a1). split_and!; [|done..|].
  - unfold run_round, mbind at 1, io_bind at 1. cbn [for_each]. unfold mret, io_ret.
    eapply (run_ready_poll _ _ _ 0 [1; 2] ExampleTask Finished w1 true); [done|done| |simpl; unfold QUEUE_SIZE; lia|].
    { exact Heq1. }
    eapply (run_ready_poll _ _ _ 1 [2] DiskStart DiskWait w2 false); [done|done| |simpl; unfold QUEUE_SIZE; lia|].
    { exact Heq2. }
    eapply (run_ready_poll _ _ _ 2 [] KeyStart (KeyWait Keyboard.kb_new) w4 false);
      [done|done| |simpl; unfold QUEUE_SIZE; lia|].
    { exact Heq4. }
    cbn [run_ready_tasks]. unfold mbind, io_bind, get. cbn [task_queue after_poll].
    reflexivity.
  - exists d2. split; [done|]. eapply holds_eq; [exact Hw4| |done].
    unfold first_text. same_output.
Qed.

(** The disk's message when the sector's data is ready. *)
Lemma ata_text_read (a : Ata) (d : D) k w ws :
  dev_data_in d k (w :: ws) → OPERATION_COMPLETE a = false →
  ata_text (MkSys a d) =
    text "ATA sector read complete (LBA: " ++ show_dec (PENDING_LBA a) ++ text ")" ++ newline.
Proof.
  intros (d1 & status & Hst & Herr & Hdrq & _)%dev_data_status Hoc.
  unfold ata_text, Interrupts.ata_message. cbn [dev drv].
  rewrite Hst, Hoc, andb_false_r, decide_False, decide_True by (done || lia). cbn [concat].
  rewrite app_nil_r, <-!app_assoc. reflexivity.
Qed.

(** The disk's interrupt wakes the disk task, whose poll prints the sector. *)
Lemma disk_round e c T st a d (w : World) k :
  holds T st (MkSys a d) w → Keyboard.SCANCODE_QUEUE st = Some [] → Keyboard.WAKER st = Some 2 →
  DISK_WAKER a = Some (Some 1) → OPERATION_COMPLETE a = false → PENDING_LBA a = 0 →
  length (SECTOR_BUFFER a) = SECTOR_SIZE → sector_ok (k 0) →
  dev_data_in d k (word_at (k 0) <$> seq 0 256) →
  ∃ s', run_round e 4 [(Interrupts.PrimaryATA, c)] (settled, w) = (s', Ok tt) ∧
    waiting Keyboard.kb_new [] (feed T (disk_text (k 0))) s'.
Proof.
  intros Hw Hq Hk Hdw Hoc Hp Hbuf Hs Hdata.
  destruct (read_interrupt_ok a d k (k 0) Hs Hbuf Hoc Hdata) as (d' & tf & Hint & _).
  set (a' := wake (set_OPERATION_COMPLETE true (set_SECTOR_BUFFER (k 0) a))) in *.
  assert (read_done 0 a' = true ∧ SECTOR_BUFFER a' = k 0 ∧ Ata.woken a' = Ata.woken a ++ [1])
    as (Hr' & Hb' & Hwk').
  { unfold a', wake, read_done. cbn [DISK_WAKER set_OPERATION_COMPLETE set_SECTOR_BUFFER].
    rewrite Hdw. cbn. by rewrite Hp. }
  destruct (request_ata e c T st _ _ w Hw Hint) as (w1 & Heq1 & Hw1).
  rewrite (ata_text_read a d k (word_at (k 0) 0) (list_fmap _ _ (word_at (k 0)) (seq 1 255)) Hdata Hoc), Hp in Hw1.
  destruct (poll_disk 1 DiskWait _ w1 true _ (or_intror (conj eq_refl eq_refl))
    (disk_resume_ready 1 _ _ _ w1 Hw1 Hr' ltac:(cbn [drv]; rewrite Hb'; apply Hs)))
    as (w2 & Heq2 & Hw2).
  cbn [drv dev] in Hw2. rewrite Hb', feed_app in Hw2.
  eexists. split.
  - unfold run_round, mbind at 1, io_bind at 1. cbn [for_each]. unfold mbind at 1, io_bind at 1.
    rewrite (irq_eq e _ settled w w1 [1]); [|done| |unfold QUEUE_SIZE; simpl; lia].
    2:{ unfold new_wakes. destruct Hw as [_ _ -> ->], Hw1 as [_ _ -> ->]. cbn [drv].
        by rewrite Hwk', drop_app_length, drop_all. }
    unfold mret, io_ret.
    eapply (run_ready_poll _ _ _ 1 [] DiskWait Finished w2 true); [done|done| |simpl; unfold QUEUE_SIZE; lia|reflexivity].
    exact Heq2.
  - split; [done..|]. exists st, (MkSys (set_OPERATION_COMPLETE false a') d').
    split_and!; [|done..]. eapply holds_eq; [exact Hw2| |done].
    unfold disk_text. rewrite <-!app_assoc. reflexivity.
Qed.

(** From the spawned tasks on: the first round, the disk's interrupt, and rounds
    of typing. *)
Lemma session_rounds e c rounds T (w : World) tf k :
  ready_world w → holds T (Interrupts.keyboard w) (Interrupts.disk_sys w) w →
  DISK_WAKER (drv (Interrupts.disk_sys w)) = Some None →
  dev_idle (dev (Interrupts.disk_sys w)) tf k → 0 < dev_sectors →
  Forall key_round rounds →
  ∃ s' kb', for_each ([] :: [(Interrupts.PrimaryATA, c)] :: rounds) (run_round e 4) (spawned, w) =
      (s', Ok tt) ∧
    waiting kb' []
      (feed T (first_text (inb STATUS_COMMAND_PORT (dev (Interrupts.disk_sys w))).2 ++
               disk_text (k 0) ++ session rounds Keyboard.kb_new)) s'.
Proof.
  intros [_ [Hbuf _] Hkq _ _] Hw Hdw Hidle Hpos Hr.
  destruct (Interrupts.disk_sys w) as [a d] eqn:Hd. cbn [drv dev] in *.
  destruct (first_round e T _ a d w tf k Hw Hkq Hdw Hidle Hpos)
    as (w1 & d1 & status & a1 & Heq1 & Hst & -> & d2 & Hdata & Hw1).
  destruct (disk_round e c _ _ _ _ w1 k Hw1) as (s2 & Heq2 & Hs2);
    [done..|exact (dev_idle_disk _ _ _ Hidle 0)|exact Hdata|].
  destruct (waiting_session e 4 rounds _ _ s2 Hs2 Hr) as (s3 & kb' & Heq3 & Hs3); [lia|].
  exists s3, kb'. rewrite Hst. cbn [snd]. split; [|by rewrite !feed_app in Hs3].
  cbn [for_each]. unfold mbind, io_bind. by rewrite Heq1, Heq2.
Qed.

End first_rounds.
