(* ===== verification/Boot.v ===== *)
(** * Booting ([kernel_main] of [src/main.rs], [init] of [src/lib.rs])

    [kernel_main] from its first line to the executor: the segment and
    interrupt tables, the interrupt controllers, the page tables and the heap,
    the ATA driver and the spawning of the tasks.  Between its statements the
    handlers of the interrupts that have arrived run, once they are enabled. *)

From S2P Require Import Prelude Format Vga Alloc FixedSizeBlock Ata Keyboard Memory InitHeap Interrupts Gdt Executor World Tasks Kernel KernelRun.
Import Executor.

(** ** What the crates provide *)

(** [VirtAddr::new] *)
Class VirtAddrApi : Type := { virt_new : Z → outcome Z }.

(** Copies bit 47 of an address of 48 bits to the bits above. *)
Definition sign_extend (a : Z) : Z :=
  if decide (2 ^ 47 ≤ a < 2 ^ 48) then a + (2 ^ 64 - 2 ^ 48) else a.

Class VirtAddrSpec `{VirtAddrApi} : Prop :=
  virt_new_spec a : canonical (sign_extend a) → virt_new a = Ok (sign_extend a).

(** [ChainedPics] of the crate [pic8259]. *)
Class PicApi (P : Type) : Type := {
  ChainedPics_new : Z → Z → P;
  initialize : P → P;
}.

(** [line_vector p n]: the vector request line [n] raises. *)
Class PicSpec (P : Type) `{PicApi P} : Type := {
  line_vector : P → Z → option Z;
  initialize_spec o1 o2 n : 0 ≤ n < 16 →
    line_vector (initialize (ChainedPics_new o1 o2)) n =
      Some (if decide (n < 8) then o1 + n else o2 + (n - 8));
}.

(** [OffsetPageTable::new] *)
Class PageTables (M : Type) : Type := { OffsetPageTable_new : Z → Z → M }.

(** The layouts of what the boot puts on the heap, which the compiler and the
    crates choose: the buffers of the two [ArrayQueue]s, the [Arc]s of the
    disk's waker and of the task queue, the boxed futures and the node of the
    map of tasks. *)
Class BootLayouts (K : Type) : Type := {
  request_queue_layout : Layout;
  disk_waker_layout : Layout;
  task_queue_layout : Layout;
  task_queue_arc_layout : Layout;
  future_layout : TaskState (K := K) → Layout;
  tasks_node_layout : Layout;
}.

(** ** The state of the machine *)

(** [STACK_address] and [level_4_table_frame] are where the static [STACK] and,
    by the register CR3, the level 4 table are. *)
Record Machine (G P H : Type) : Type := MkMachine {
  STACK_address : Z;
  level_4_table_frame : Z;
  registers : Registers G;
  idt_loaded : bool;
  PICS : P;
  interrupts_enabled : bool;
  ALLOCATOR : FixedSizeBlockAllocator.t H;
}.
Arguments MkMachine {G P H}.
Arguments STACK_address {G P H}.
Arguments level_4_table_frame {G P H}.
Arguments registers {G P H}.
Arguments idt_loaded {G P H}.
Arguments PICS {G P H}.
Arguments interrupts_enabled {G P H}.
Arguments ALLOCATOR {G P H}.

Record BootInfo : Type := MkBootInfo {
  physical_memory_offset : Z;
  boot_memory_map : list BootInfoFrameAllocator.MemoryRegion;
}.

Section boot.
Context {D : Type} `{PortDevice D}.
Context {K Event KeyCode : Type} `{Keyboard.Decoder K Event KeyCode}.
Context {G Descriptor : Type} `{GdtApi G Descriptor} `{PagingApi} `{VirtAddrApi}.
Context {P : Type} `{PicApi P}.
Context {Heap : Type} `{FallbackHeap Heap}.
Context `{PhysFrames} `{Profile}.
#[local] Existing Instance BootInfoFrameAllocator.boot_info_frames.
Context {M : Type} `{PageTables M, !Mapper M BootInfoFrameAllocator.t}.
Context `{!BootLayouts K}.

Abbreviation World := (Interrupts.t D).
Abbreviation Mach := (Machine G P Heap).
Abbreviation Ex := (Executor.t (TaskState (K := K))).
Abbreviation irqs := (list (Interrupts.InterruptIndex * Z)).

Definition on_world {A} (m : io World A) : io (World * Mach) A :=
  '(w, c) ← get;
  let '(w, r) := m w in
  _ ← put (w, c);
  lift r.

Definition println_ (args : list (list Z)) : io (World * Mach) unit :=
  on_world (Interrupts.println args).

(** The interrupts that arrive before the next statement. *)
Definition pending (e : Interrupts.Exception) (rs : irqs) : io (World * Mach) unit :=
  '(w, c) ← get;
  if interrupts_enabled c then on_world (for_each rs (Interrupts.request e)) else mret tt.

(** ** [rusty_os::init] *)

Definition load_gdt : io (World * Mach) unit :=
  '(w, c) ← get;
  let '(r, o) := gdt_init (STACK_address c) (registers c) in
  _ ← put (w, MkMachine (STACK_address c) (level_4_table_frame c) r (idt_loaded c) (PICS c)
                (interrupts_enabled c) (ALLOCATOR c));
  lift o.

Definition init_idt : io (World * Mach) unit :=
  '(w, c) ← get;
  put (w, MkMachine (STACK_address c) (level_4_table_frame c) (registers c) true (PICS c)
            (interrupts_enabled c) (ALLOCATOR c)).

Definition initialize_pics : io (World * Mach) unit :=
  '(w, c) ← get;
  put (w, MkMachine (STACK_address c) (level_4_table_frame c) (registers c) (idt_loaded c)
            (initialize (PICS c)) (interrupts_enabled c) (ALLOCATOR c)).

Definition enable : io (World * Mach) unit :=
  '(w, c) ← get;
  put (w, MkMachine (STACK_address c) (level_4_table_frame c) (registers c) (idt_loaded c) (PICS c)
            true (ALLOCATOR c)).

Definition init : io (World * Mach) unit :=
  _ ← load_gdt;
  _ ← init_idt;
  _ ← initialize_pics;
  enable.

(** ** Memory *)

(** [memory::init] *)
Definition memory_init (physical_memory_offset : Z) : io (World * Mach) M :=
  '(w, c) ← get;
  level_4_table ← lift (active_level_4_table (level_4_table_frame c) physical_memory_offset);
  mret (OffsetPageTable_new level_4_table physical_memory_offset).

Definition set_ALLOCATOR (h : FixedSizeBlockAllocator.t Heap) (c : Mach) : Mach :=
  MkMachine (STACK_address c) (level_4_table_frame c) (registers c) (idt_loaded c) (PICS c)
    (interrupts_enabled c) h.

(** [allocator::init_heap(...).expect("heap initialization failed")] *)
Definition expect_heap (mapper : M) (frame_allocator : BootInfoFrameAllocator.t) :
    io (World * Mach) M :=
  '(w, c) ← get;
  let '((mapper, _, h), r) := init_heap (mapper, frame_allocator, ALLOCATOR c) in
  _ ← put (w, set_ALLOCATOR h c);
  _ ← (match r with Err _ => lift Panic | r => lift r end);
  mret mapper.

(** [Box::new] of a value with a layout; without memory it ends in the
    allocation error handler, which panics. *)
Definition Box_new (layout : Layout) : io (World * Mach) Z :=
  '(w, c) ← get;
  let '(h, r) := ga_alloc layout (ALLOCATOR c) in
  _ ← put (w, set_ALLOCATOR h c);
  p ← lift r;
  if decide (p = null) then lift Panic else mret p.

(** The layout of [41], an [i32]. *)
Definition i32_layout : Layout := MkLayout 4 4.

(** ** The driver, with its messages *)

Definition detect_drives_msg : io World unit :=
  _ ← on_disk (port_write DEVICE_PORT DEVICE_MASTER);
  status ← on_disk (port_read STATUS_COMMAND_PORT);
  if decide (status ≠ 0xFF)
  then Interrupts.println [text "ATA master drive detected (status: "; show_alt_x status; text ")"]
  else Interrupts.println [text "No ATA master drive detected"].

(** [AtaDriver::init]; the closures of [try_init_once] allocate. *)
Definition ata_init_msg (self : AtaDriver) : io (World * Mach) AtaDriver :=
  if initialized self then mret self
  else
    a ← on_world (on_disk statics);
    _ ← (match DISK_REQUEST_QUEUE a with
         | None =>
           _ ← Box_new request_queue_layout;
           on_world (on_disk (update (set_DISK_REQUEST_QUEUE (Some []))))
         | Some _ => lift Panic
         end);
    _ ← (match DISK_WAKER a with
         | None =>
           _ ← Box_new disk_waker_layout;
           on_world (on_disk (update (set_DISK_WAKER (Some None))))
         | Some _ => lift Panic
         end);
    _ ← on_world (on_disk soft_reset);
    _ ← on_world detect_drives_msg;
    _ ← println_ [text "ATA driver initialized"];
    mret (MkDriver true).

(** ** [kernel_main] *)

(** [Executor::new] *)
Definition Executor_new : io (World * Mach) Ex :=
  _ ← Box_new task_queue_layout;
  _ ← Box_new task_queue_arc_layout;
  mret new.

(** [executor.spawn(Task::new(future))]: the future is boxed, and the first
    task gives the map of tasks its node. *)
Definition spawn_on_world (ex : Ex) (task : Z * TaskState (K := K)) : io (World * Mach) Ex :=
  _ ← Box_new (future_layout task.2);
  _ ← (if decide (size (tasks ex) = 0%nat) then _ ← Box_new tasks_node_layout; mret tt else mret tt);
  '(w, c) ← get;
  let '((ex, w), r) := spawn task.1 task.2 (ex, w) in
  _ ← put (w, c);
  _ ← lift r;
  mret ex.

(** [gaps i]: the interrupts that arrive after the [i]th statement. *)
Definition boot (e : Interrupts.Exception) (gaps : nat → irqs) (boot_info : BootInfo) :
    io (World * Mach) (Z * M * Ex) :=
  _ ← println_ [text "Hello World"; text "!"];
  _ ← pending e (gaps 0%nat);
  _ ← init;
  _ ← pending e (gaps 1%nat);
  phys_mem_offset ← lift (virt_new (physical_memory_offset boot_info));
  mapper ← memory_init phys_mem_offset;
  let frame_allocator := BootInfoFrameAllocator.init (boot_memory_map boot_info) in
  mapper ← expect_heap mapper frame_allocator;
  _ ← pending e (gaps 2%nat);
  heap_value ← Box_new i32_layout;
  _ ← println_ [text "heap_value at "; show_ptr heap_value];
  _ ← pending e (gaps 3%nat);
  _ ← ata_init_msg AtaDriver_new;
  _ ← pending e (gaps 4%nat);
  _ ← println_ [text "It did not crash!"];
  _ ← pending e (gaps 5%nat);
  executor ← Executor_new;
  executor ← fold_io spawn_on_world executor (zip task_ids [ExampleTask; DiskStart; KeyStart]);
  mret (heap_value, mapper, executor).

(** ... followed by rounds of [Executor::run]. *)
Definition kernel_main (e : Interrupts.Exception) (gaps : nat → irqs) (fuel : nat)
    (rounds : list irqs) (boot_info : BootInfo) : io (World * Mach) Ex :=
  '(_, _, ex) ← boot e gaps boot_info;
  '(w, c) ← get;
  let '((ex, w), r) := for_each rounds (run_round e fuel) (ex, w) in
  _ ← put (w, c);
  _ ← lift r;
  mret ex.

(** What [boot] allocates, in order. *)
Definition boot_layouts : list Layout :=
  [i32_layout; request_queue_layout; disk_waker_layout; task_queue_layout; task_queue_arc_layout;
   future_layout ExampleTask; tasks_node_layout; future_layout DiskStart; future_layout KeyStart].

(** The panic handler. *)
Definition panic (info : list Z) : io (World * Mach) unit :=
  _ ← println_ [info];
  lift Hang.

End boot.

(** ** Booting succeeds *)

(** What the timer and the keyboard print before the keyboard task runs. *)
Definition gap_text (rs : list (Interrupts.InterruptIndex * Z)) : list Z :=
  rs ≫= λ r, match r.1 with
             | Interrupts.Timer => text "."
             | Interrupts.Keyboard => text "WARNING: scancode queue uninitialised" ++ newline
             | Interrupts.PrimaryATA => []
             end.

Definition no_disk (rs : list (Interrupts.InterruptIndex * Z)) : Prop :=
  Forall (λ r, r.1 ≠ Interrupts.PrimaryATA) rs.

(** What [AtaDriver::init] prints for the master drive's status. *)
Definition ata_init_text (status : Z) : list Z :=
  (if decide (status ≠ 0xFF)
   then text "ATA master drive detected (status: " ++ show_alt_x status ++ text ")"
   else text "No ATA master drive detected") ++ newline ++
  text "ATA driver initialized" ++ newline.

Definition boot_text (gaps : nat → list (Interrupts.InterruptIndex * Z)) (heap_value status : Z) :
    list Z :=
  gap_text (gaps 1%nat) ++ gap_text (gaps 2%nat) ++
  text "heap_value at " ++ show_ptr heap_value ++ newline ++ gap_text (gaps 3%nat) ++
  ata_init_text status ++ gap_text (gaps 4%nat) ++
  text "It did not crash!" ++ newline ++ gap_text (gaps 5%nat).

Section steps.
Context {D : Type} `{PortDevice D}.
Context {G P Heap : Type}.

Abbreviation World := (Interrupts.t D).
Abbreviation Mach := (Machine G P Heap).

(** The keyboard task has not run. *)
Definition booting (T : Writer.term) (d : Sys D) (w : World) : Prop :=
  ∃ kb, holds T kb d w ∧ Keyboard.SCANCODE_QUEUE kb = None ∧ Keyboard.WAKER kb = None.

(** ... and the rest of the machine is [c]. *)
Definition at_ (T : Writer.term) (d : Sys D) (c : Mach) (s : World * Mach) : Prop :=
  booting T d s.1 ∧ s.2 = c.

Lemma runs_on_world {A} (m : io World A) (Q : World → Prop) w (c : Mach) o :
  runs m w o Q → runs (on_world m) (w, c) o (λ s, Q s.1 ∧ s.2 = c).
Proof.
  intros (w' & Heq & HQ). exists (w', c). split; [|done].
  unfold on_world, mbind, io_bind, get. by rewrite Heq.
Qed.

Lemma at_println args T d (c : Mach) s :
  at_ T d c s → runs (println_ args) s (Ok tt) (at_ (feed T (concat args ++ newline)) d c).
Proof.
  destruct s as [w c']. intros [(kb & Hw & Hkb) [= ->]].
  eapply runs_mono; [apply runs_on_world; by apply runs_println|].
  intros s' [Hs' Hc]. split; [by exists kb|done].
Qed.

Lemma request_booting e r T d (w : World) :
  booting T d w → r.1 ≠ Interrupts.PrimaryATA →
  runs (Interrupts.request e r) w (Ok tt) (booting (feed T (gap_text [r])) d).
Proof.
  destruct r as [[] sc]; intros (kb & Hw & Hq & Hk) Hr; [| |done].
  - eapply runs_mono; [by apply request_timer|]. intros w' Hw'. by exists kb.
  - eapply runs_mono; [by apply request_keyboard|]. intros w' Hw'.
    assert (Hadd : Keyboard.add_scancode sc kb =
      Keyboard.warn "WARNING: scancode queue uninitialised" kb).
    { unfold Keyboard.add_scancode. by rewrite Hq. }
    unfold warn_text in Hw'. rewrite Hadd in Hw'. cbn [Keyboard.warnings Keyboard.warn] in Hw'.
    rewrite drop_app_length in Hw'. by eexists.
Qed.

Lemma requests_booting e rs T d (w : World) :
  booting T d w → no_disk rs →
  runs (for_each rs (Interrupts.request e)) w (Ok tt) (booting (feed T (gap_text rs)) d).
Proof.
  intros Hw Hrs. revert T w Hw. induction Hrs as [|r rs Hr Hrs IH]; intros T w Hw.
  { by apply runs_ret. }
  cbn [for_each]. eapply runs_bind; [by apply request_booting|]. intros w' Hw'.
  eapply runs_mono; [by apply IH|]. intros w2 Hw2. rewrite feed_app in Hw2.
  unfold gap_text in *. cbn [mbind list_bind] in *. by rewrite app_nil_r in Hw2.
Qed.

Lemma at_pending e rs T d (c : Mach) s :
  at_ T d c s → interrupts_enabled c = true → no_disk rs →
  runs (pending e rs) s (Ok tt) (at_ (feed T (gap_text rs)) d c).
Proof.
  destruct s as [w c']. intros [Hw [= ->]] He Hrs.
  unfold pending. eapply (runs_bind _ _ _ (w, c) _ (at_ T d c)).
  { by exists (w, c). }
  intros [w1 c1] [Hw1 [= ->]]. rewrite He.
  eapply runs_mono; [apply runs_on_world; by apply requests_booting|].
  by intros s' Hs'.
Qed.

Lemma at_disabled e rs T d (c : Mach) s :
  at_ T d c s → interrupts_enabled c = false → runs (pending e rs) s (Ok tt) (at_ T d c).
Proof.
  destruct s as [w c']. intros [Hw [= ->]] He. exists (w, c). split; [|done].
  unfold pending, mbind, io_bind, get. by rewrite He.
Qed.

(** A statement that leaves the world alone. *)
Lemma at_machine {A} (m : io (World * Mach) A) a T d (c c' : Mach) s :
  (∀ w, m (w, c) = ((w, c'), Ok a)) → at_ T d c s → runs m s (Ok a) (at_ T d c').
Proof. destruct s as [w c1]. intros Hm [Hw [= ->]]. exists (w, c'). by split. Qed.

(** The device after [AtaDriver::init]. *)
Definition reset_device (d : D) : D * Z :=
  inb STATUS_COMMAND_PORT (outb DEVICE_PORT DEVICE_MASTER
    (outb ALT_STATUS_CONTROL_PORT 0x00 (outb ALT_STATUS_CONTROL_PORT 0x04 d))).

(** The driver's statics after [AtaDriver::init]. *)
Definition driver_ready (a : Ata) : Ata :=
  set_DISK_WAKER (Some None) (set_DISK_REQUEST_QUEUE (Some []) a).

Lemma detect_drives_msg_ok T kb a d d' status (w : World) :
  holds T kb (MkSys a d) w → inb STATUS_COMMAND_PORT (outb DEVICE_PORT DEVICE_MASTER d) = (d', status) →
  runs detect_drives_msg w (Ok tt)
    (holds (feed T ((if decide (status ≠ 0xFF)
       then text "ATA master drive detected (status: " ++ show_alt_x status ++ text ")"
       else text "No ATA master drive detected") ++ newline)) kb (MkSys a d')).
Proof.
  intros Hw Hin. unfold detect_drives_msg. run_disk. eapply runs_on_disk_bind; [eassumption| |].
  - unfold port_read, mbind, io_bind, get. cbn [dev drv]. rewrite Hin. reflexivity.
  - intros w1 Hw1. cbv beta. case_decide; (eapply runs_mono; [by apply runs_println|]);
      intros w2 Hw2; (eapply holds_eq; [exact Hw2| |done]); same_output.
Qed.

End steps.

(** ** The heap *)

(** The request of the fallback heap behind a request for [l]. *)
Definition fallback_layout (l : Layout) : Layout :=
  match list_index l with
  | Some i => class_layout (BLOCK_SIZES !!! i)
  | None => l
  end.

(** A heap that serves requests one after the other. *)
Fixpoint serves {Heap} `{FallbackHeap Heap} (ls : list Layout) (h : Heap) : bool :=
  match ls with
  | [] => true
  | l :: ls =>
    match allocate_first_fit (fallback_layout l) h with
    | (h, Some _) => serves ls h
    | (_, None) => false
    end
  end.

(** A fresh heap is large enough for what the boot allocates. *)
Class FreshHeap (K Heap : Type) `{BootLayouts K}
    `{FallbackHeapSpec Heap HEAP_START (HEAP_START + HEAP_SIZE)} : Prop := {
  fresh_requests : Forall (λ l, request_ok l ∧ heap_accepts (fallback_layout l)) (boot_layouts (K := K));
  fresh_serves : serves (boot_layouts (K := K)) (heap_init HEAP_START HEAP_SIZE heap_empty) = true;
}.

Section heap.
Context {D : Type} `{PortDevice D}.
Context {G P Heap : Type} `{FallbackHeapSpec Heap HEAP_START (HEAP_START + HEAP_SIZE)}.
#[local] Existing Instance FixedSizeBlockAllocator.fixed_size_block_alloc_spec.

Abbreviation World := (Interrupts.t D).
Abbreviation Mach := (Machine G P Heap).
Abbreviation blocks_inv := (ga_inv (hs := HEAP_START) (he := HEAP_START + HEAP_SIZE)).

(** The global allocator before the first deallocation: its lists are empty. *)
Definition without_lists (h : Heap) : FixedSizeBlockAllocator.t Heap :=
  FixedSizeBlockAllocator.Mk (replicate (length BLOCK_SIZES) None) ∅ h.

Lemma alloc_without_lists l h h' p :
  allocate_first_fit (fallback_layout l) h = (h', Some p) →
  ga_alloc l (without_lists h) = (without_lists h', Ok p).
Proof.
  intros Hal. cbn [ga_alloc FixedSizeBlockAllocator.fixed_size_block_global_alloc].
  unfold FixedSizeBlockAllocator.alloc, FixedSizeBlockAllocator.fallback_alloc, mbind, io_bind, get, lift.
  unfold fallback_layout in Hal. destruct (list_index l) as [i|] eqn:Hi.
  - unfold list_index in Hi. apply FixedSizeBlockAllocator.position_Some in Hi as (s & Hs & _).
    rewrite (list_lookup_total_correct _ _ _ Hs) in Hal.
    cbn [FixedSizeBlockAllocator.list_heads without_lists].
    rewrite (idx_ok _ i None) by (apply lookup_replicate; split; [done|by eapply lookup_lt_Some]).
    rewrite (idx_ok _ i s) by done.
    destruct (FixedSizeBlockAllocator.block_sizes_ok i s Hs) as (_ & _ & _ & ->).
    cbn [FixedSizeBlockAllocator.fallback_allocator without_lists]. by rewrite Hal.
  - cbn [FixedSizeBlockAllocator.fallback_allocator without_lists]. by rewrite Hal.
Qed.

Lemma fallback_request l : request_ok l → request_ok (fallback_layout l).
Proof.
  intros Hl. unfold fallback_layout. destruct (list_index l) as [i|] eqn:Hi; [|done].
  unfold list_index in Hi. apply FixedSizeBlockAllocator.position_Some in Hi as (s & Hs & _).
  rewrite (list_lookup_total_correct _ _ _ Hs).
  by destruct (FixedSizeBlockAllocator.block_sizes_ok i s Hs) as (_ & _ & ? & _).
Qed.

Lemma served_not_null l h h' p live :
  blocks_inv (without_lists h) live → request_ok l → heap_accepts (fallback_layout l) →
  allocate_first_fit (fallback_layout l) h = (h', Some p) → p ≠ null.
Proof.
  intros (_ & lists & out & _ & _ & Hh & _) Hl%fallback_request Hacc Hal.
  pose proof (heap_allocate_spec _ out _ Hh Hl Hacc) as Hinv. cbn in Hinv. rewrite Hal in Hinv.
  apply heap_inv_live in Hinv as [Hb _]. by apply Forall_cons in Hb as [(Hp & _) _].
Qed.

(** [at_], with the blocks [live] allocated and a heap that serves [ls]. *)
Definition serving (T : Writer.term) (d : Sys D) (c : Mach) (live : list block) (ls : list Layout)
    (s : World * Mach) : Prop :=
  ∃ h, at_ T d (set_ALLOCATOR (without_lists h) c) s ∧ blocks_inv (without_lists h) live ∧
    Forall (λ l, request_ok l ∧ heap_accepts (fallback_layout l)) ls ∧ serves ls h = true.

Lemma Box_new_ok T d (c : Mach) live l h h' p (s : World * Mach) :
  at_ T d (set_ALLOCATOR (without_lists h) c) s → blocks_inv (without_lists h) live →
  request_ok l → heap_accepts (fallback_layout l) →
  allocate_first_fit (fallback_layout l) h = (h', Some p) →
  runs (Box_new l) s (Ok p) (at_ T d (set_ALLOCATOR (without_lists h') c)) ∧
  blocks_inv (without_lists h') (Block p l :: live).
Proof.
  destruct s as [w c']. intros [Hw [= ->]] Hinv Hl Hacc Hal.
  pose proof (alloc_without_lists l h h' p Hal) as Hga.
  destruct (ga_alloc_spec (hs := HEAP_START) (he := HEAP_START + HEAP_SIZE) _ live l Hinv Hl)
    as (h1 & p1 & Heq & Hcase).
  { cbn. unfold FixedSizeBlockAllocator.accepts. unfold fallback_layout in Hacc.
    by destruct (list_index l). }
  rewrite Hga in Heq. injection Heq as <- <-.
  assert (Hp : p ≠ null) by by eapply served_not_null.
  destruct Hcase as [[? _]|[_ Hinv']]; [done|]. split; [|done].
  exists (w, set_ALLOCATOR (without_lists h') c). split; [|done].
  unfold Box_new, mbind, io_bind, get. cbn [ALLOCATOR set_ALLOCATOR].
  rewrite Hga. unfold put, lift. by rewrite decide_False.
Qed.

Lemma serving_Box T d c live l ls s :
  serving T d c live (l :: ls) s →
  ∃ p, runs (Box_new l) s (Ok p) (serving T d c (Block p l :: live) ls).
Proof.
  intros (h & Hs & Hinv & Hreq & Hls). apply Forall_cons in Hreq as [[Hl Hacc] Hreq].
  cbn [serves] in Hls.
  destruct (allocate_first_fit (fallback_layout l) h) as [h' [p|]] eqn:Hal; [|done].
  destruct (Box_new_ok T d c live l h h' p s) as [Hrun Hinv']; [done..|].
  exists p. eapply runs_mono; [exact Hrun|]. intros s' Hs'. by exists h'.
Qed.

(** ... with blocks of the layouts [served] allocated since [live]. *)
Definition boxed (T : Writer.term) (d : Sys D) (c : Mach) (live : list block) (served ls : list Layout)
    (s : World * Mach) : Prop :=
  ∃ blocks, b_layout <$> blocks = served ∧ serving T d c (blocks ++ live) ls s.

Lemma boxed_Box {B} l (k : Z → io (World * Mach) B) T d c live served ls s r Q :
  boxed T d c live served (l :: ls) s →
  (∀ p s', boxed T d c live (l :: served) ls s' → runs (k p) s' r Q) →
  runs (Box_new l ≫= k) s r Q.
Proof.
  intros (blocks & Hb & Hs) Hk. destruct (serving_Box _ _ _ _ _ _ _ Hs) as [p Hp].
  eapply runs_bind; [exact Hp|]. intros s' Hs'. apply Hk. exists (Block p l :: blocks).
  split; [cbn; by rewrite Hb|exact Hs'].
Qed.

Lemma boxed_at {A} (m : io (World * Mach) A) a T T' d d' c live served ls s :
  (∀ h, at_ T d (set_ALLOCATOR h c) s → runs m s (Ok a) (at_ T' d' (set_ALLOCATOR h c))) →
  boxed T d c live served ls s → runs m s (Ok a) (boxed T' d' c live served ls).
Proof.
  intros Hm (blocks & Hb & h & Hs & Hrest). eapply runs_mono; [by apply Hm|].
  intros s' Hs'. exists blocks. split; [done|]. by exists h.
Qed.

Lemma boxed_println args T d c live served ls s :
  boxed T d c live served ls s →
  runs (println_ args) s (Ok tt) (boxed (feed T (concat args ++ newline)) d c live served ls).
Proof. apply boxed_at. intros h. by apply at_println. Qed.

Lemma boxed_pending e rs T d c live served ls s :
  boxed T d c live served ls s → interrupts_enabled c = true → no_disk rs →
  runs (pending e rs) s (Ok tt) (boxed (feed T (gap_text rs)) d c live served ls).
Proof. intros Hs He Hrs. revert Hs. apply boxed_at. intros h Hs. by apply at_pending. Qed.

Lemma boxed_world {A} (m : io World A) a T T' d d' c live served ls s :
  (∀ kb w, holds T kb d w → runs m w (Ok a) (holds T' kb d')) →
  boxed T d c live served ls s → runs (on_world m) s (Ok a) (boxed T' d' c live served ls).
Proof.
  intros Hm. apply boxed_at. intros h. destruct s as [w c']. intros [(kb & Hw & Hkb) [= ->]].
  eapply runs_mono; [apply runs_on_world; by apply Hm|]. intros s' [Hs' Hc].
  split; [by exists kb|done].
Qed.

Lemma boxed_disk {A} (m : io (Sys D) A) a T d d' c live served ls s :
  m d = (d', Ok a) → boxed T d c live served ls s →
  runs (on_world (on_disk m)) s (Ok a) (boxed T d' c live served ls).
Proof. intros Hm. apply boxed_world. intros kb w Hw. by eapply runs_on_disk. Qed.

(** ** The driver and the executor *)

Context {K : Type} `{!BootLayouts K}.

Lemma ata_init_msg_ok T a d c live served ls s :
  boxed T (MkSys a d) c live served (request_queue_layout :: disk_waker_layout :: ls) s →
  DISK_REQUEST_QUEUE a = None → DISK_WAKER a = None →
  runs (ata_init_msg AtaDriver_new) s (Ok (MkDriver true))
    (boxed (feed T (ata_init_text (reset_device d).2)) (MkSys (driver_ready a) (reset_device d).1) c
       live (disk_waker_layout :: request_queue_layout :: served) ls).
Proof.
  intros Hs Hq Hk. unfold ata_init_msg. cbn [initialized AtaDriver_new].
  eapply runs_bind; [by eapply boxed_disk|intros s1 Hs1; cbv beta]. cbn [drv]. rewrite Hq, Hk.
  eapply runs_bind; [by eapply boxed_Box; [done|intros p s2 Hs2; by eapply boxed_disk]|intros s2 Hs2; cbv beta].
  eapply runs_bind; [by eapply boxed_Box; [done|intros p s3 Hs3; by eapply boxed_disk]|intros s3 Hs3; cbv beta].
  eapply runs_bind; [by eapply boxed_disk|intros s4 Hs4; cbv beta].
  unfold ata_init_text. destruct (reset_device d) as [d' status] eqn:Hreset. cbn [fst snd].
  eapply runs_bind; [eapply boxed_world; [|exact Hs4]; intros kb w Hw;
    exact (detect_drives_msg_ok T kb (driver_ready a) _ d' status w Hw Hreset)|intros s5 Hs5; cbv beta].
  eapply runs_bind; [by apply boxed_println|intros s6 Hs6; cbv beta]. apply runs_ret.
  rewrite feed_app in Hs6. cbn [concat] in Hs6. rewrite app_nil_r, <-app_assoc in Hs6. exact Hs6.
Qed.

Lemma Executor_new_ok T d c live served ls s :
  boxed T d c live served (task_queue_layout :: task_queue_arc_layout :: ls) s →
  runs Executor_new s (Ok new) (boxed T d c live (task_queue_arc_layout :: task_queue_layout :: served) ls).
Proof.
  intros Hs. eapply boxed_Box; [exact Hs|]. intros p s1 Hs1. eapply boxed_Box; [exact Hs1|].
  intros p2 s2 Hs2. by apply runs_ret.
Qed.

(** The node of the map of tasks, for the first task. *)
Definition node_for (ex : Executor.t (TaskState (K := K))) : list Layout :=
  if decide (size (tasks ex) = 0%nat) then [tasks_node_layout] else [].

Lemma spawn_on_world_ok T d c live served ls s ex id f :
  boxed T d c live served (future_layout f :: node_for ex ++ ls) s →
  tasks ex !! id = None → (length (task_queue ex) < QUEUE_SIZE)%nat →
  runs (spawn_on_world ex (id, f)) s
    (Ok (Mk (<[id := f]> (tasks ex)) (task_queue ex ++ [id]) (waker_cache ex)))
    (boxed T d c live (node_for ex ++ future_layout f :: served) ls).
Proof.
  intros Hs Hid Hlen. eapply boxed_Box; [exact Hs|]. intros p s1 Hs1. cbn [fst snd].
  eapply (runs_bind _ _ _ tt _ (boxed T d c live (node_for ex ++ future_layout f :: served) ls)).
  - unfold node_for in *. case_decide; [|by apply runs_ret].
    eapply boxed_Box; [exact Hs1|]. intros p2 s2 Hs2. by apply runs_ret.
  - intros [w c'] Hs2. exists (w, c'). split; [|exact Hs2].
    unfold mbind, io_bind, get. by rewrite spawn_ok by (done || by apply not_elem_of_dom).
Qed.

Lemma spawn_three_ok T d c live served s :
  boxed T d c live served [future_layout ExampleTask; tasks_node_layout; future_layout DiskStart;
    future_layout KeyStart] s →
  runs (fold_io spawn_on_world new (zip task_ids [ExampleTask; DiskStart; KeyStart])) s (Ok spawned)
    (boxed T d c live (future_layout KeyStart :: future_layout DiskStart :: tasks_node_layout ::
       future_layout ExampleTask :: served) []).
Proof.
  intros Hs. change task_ids with [0; 1; 2]. cbn [zip zip_with fold_io].
  eapply runs_bind; [by eapply (spawn_on_world_ok _ _ _ _ _ [future_layout DiskStart; future_layout KeyStart]); [exact Hs|done|cbn; unfold QUEUE_SIZE; lia]|].
  intros s1 Hs1. cbv beta.
  eapply runs_bind; [by eapply (spawn_on_world_ok _ _ _ _ _ [future_layout KeyStart]); [exact Hs1|done|cbn; unfold QUEUE_SIZE; lia]|].
  intros s2 Hs2. cbv beta.
  eapply runs_bind; [by eapply (spawn_on_world_ok _ _ _ _ _ []); [exact Hs2|done|cbn; unfold QUEUE_SIZE; lia]|].
  intros s3 Hs3. by apply runs_ret.
Qed.

End heap.

Section boots.
Context {D : Type} `{PortDevice D}.
Context {K Event KeyCode : Type} `{Keyboard.Decoder K Event KeyCode}.
Context {G Descriptor : Type} `{GdtSpec G Descriptor} `{PagingSpec} `{!VirtAddrApi, !VirtAddrSpec}.
Context {P : Type} `{PicSpec P}.
Context {Heap : Type} `{!BootLayouts K} `{!FallbackHeap Heap, !FallbackHeapSpec Heap HEAP_START (HEAP_START + HEAP_SIZE), !FreshHeap K Heap}.
Context `{PhysFramesSpec} `{Profile}.
#[local] Existing Instances BootInfoFrameAllocator.boot_info_frames boot_info_spec.
#[local] Existing Instance FixedSizeBlockAllocator.fixed_size_block_alloc_spec.
Context {M : Type} `{PageTables M} `{!Mapper M BootInfoFrameAllocator.t, !MapperSpec M BootInfoFrameAllocator.t}.

Abbreviation World := (Interrupts.t D).
Abbreviation Mach := (Machine G P Heap).
Abbreviation Ex := (Executor.t (TaskState (K := K))).

(** The statics have their initial values; the screen may show anything. *)
Record powered_on (s : World * Mach) : Prop := {
  on_writer : ∃ buffer, Interrupts.console s.1 = Writer.WRITER buffer ∧ Writer.wf (Writer.WRITER buffer);
  on_keyboard_statics : Interrupts.keyboard s.1 = Keyboard.statics_init;
  on_driver : drv (Interrupts.disk_sys s.1) = ata_init;
  on_stack : canonical (STACK_address s.2 + STACK_SIZE);
  on_pics : PICS s.2 = ChainedPics_new Interrupts.PIC_1_OFFSET Interrupts.PIC_2_OFFSET;
  on_disabled : interrupts_enabled s.2 = false;
  on_allocator : ALLOCATOR s.2 = FixedSizeBlockAllocator.new;
}.

(** The boot loader has mapped the physical memory at the offset it reports,
    left the heap's pages unmapped, and reports enough usable frames. *)
Record boot_info_ok (c : Mach) (i : BootInfo) : Prop := {
  info_offset : canonical (sign_extend (physical_memory_offset i));
  info_table : 0 ≤ level_4_table_frame c ∧
    canonical (sign_extend (physical_memory_offset i) + level_4_table_frame c);
  info_map : BootInfoFrameAllocator.map_ok (boot_memory_map i);
  info_width : in_width 64
    (Z.of_nat (length (BootInfoFrameAllocator.frame_addresses (boot_memory_map i))) + 1);
  info_frames :
    (100 ≤ length (BootInfoFrameAllocator.frame_addresses (boot_memory_map i)))%nat;
  info_heap : Forall (can_map (OffsetPageTable_new
    (sign_extend (physical_memory_offset i) + level_4_table_frame c)
    (sign_extend (physical_memory_offset i)))) heap_pages;
}.

(** What [init] leaves: loaded tables, remapped controllers, interrupts on. *)
Record initialised (c : Mach) : Prop := {
  init_enabled : interrupts_enabled c = true;
  init_idt_loaded : idt_loaded c = true;
  init_gdt : ∃ tss g, gdtr (registers c) = Some g ∧
    descriptor g (cs (registers c)) = Some kernel_code_segment ∧
    descriptor g (tr (registers c)) = Some (tss_segment tss) ∧
    interrupt_stack_table tss !!! Z.to_nat DOUBLE_FAULT_IST_INDEX = STACK_address c + STACK_SIZE;
  init_pics i : line_vector (PICS c) (Interrupts.irq_line i) =
    Some (Interrupts.irq_vector (Interrupts.irq_line i));
}.

Lemma gdt_init_ok stack (r : Registers G) :
  canonical (stack + STACK_SIZE) →
  ∃ tss g r', gdt_init stack r = (r', Ok tt) ∧ gdtr r' = Some g ∧
    descriptor g (cs r') = Some kernel_code_segment ∧
    descriptor g (tr r') = Some (tss_segment tss) ∧
    interrupt_stack_table tss !!! 0%nat = stack + STACK_SIZE.
Proof.
  intros Hc. destruct (TSS_ok stack Hc) as (tss & Htss & Hist).
  destruct (GDT_ok tss) as (g & sel & Hg & Hcode & Htr).
  exists tss, g, (MkRegs (Some g) (code_selector sel) (tss_selector sel)).
  split_and!; [|done..]. unfold gdt_init, mbind, io_bind, lift, get, put. by rewrite Htss, Hg.
Qed.

Lemma init_ok (c : Mach) :
  canonical (STACK_address c + STACK_SIZE) →
  PICS c = ChainedPics_new Interrupts.PIC_1_OFFSET Interrupts.PIC_2_OFFSET →
  ∃ c', (∀ w : World, init (w, c) = ((w, c'), Ok tt)) ∧ initialised c' ∧
    level_4_table_frame c' = level_4_table_frame c ∧ ALLOCATOR c' = ALLOCATOR c.
Proof.
  intros Hst Hp. destruct (gdt_init_ok _ (registers c) Hst) as (tss & g & r' & Heq & Hg & Hc & Ht & Hi).
  eexists. split.
  - intros w. unfold init, load_gdt, init_idt, initialize_pics, enable, mbind, io_bind, get, put, lift.
    rewrite Heq. reflexivity.
  - split; [|done]. split; cbn; [done|done|by exists tss, g|].
    intros i. rewrite Hp, initialize_spec by (destruct i; cbn; lia). done.
Qed.

(** The whole heap is mapped. *)
Definition heap_mapped (m : M) : Prop :=
  ∀ va, HEAP_START ≤ va < HEAP_START + HEAP_SIZE → is_Some (mapped m (va / PAGE_SIZE * PAGE_SIZE)).

Lemma expect_heap_ok (c : Mach) i :
  boot_info_ok c i → ALLOCATOR c = FixedSizeBlockAllocator.new →
  ∃ m, (∀ w : World, expect_heap (OffsetPageTable_new
      (sign_extend (physical_memory_offset i) + level_4_table_frame c)
      (sign_extend (physical_memory_offset i)))
    (BootInfoFrameAllocator.init (boot_memory_map i)) (w, c) =
      ((w, set_ALLOCATOR (without_lists (heap_init HEAP_START HEAP_SIZE heap_empty)) c), Ok m)) ∧
    heap_mapped m.
Proof.
  intros Hi Ha. destruct (init_heap_ok _ (BootInfoFrameAllocator.init (boot_memory_map i))
    (BootInfoFrameAllocator.frame_addresses (boot_memory_map i)) (ALLOCATOR c) (info_heap _ _ Hi))
    as (m' & a' & h' & fs & Heq & Hh & _ & Hall & _).
  - split_and!; [apply (info_map _ _ Hi)|done|cbn; lia|apply (info_width _ _ Hi)|done].
  - apply (info_frames _ _ Hi).
  - exists m'. split; [|by intros va Hva; eapply heap_pages_mapped].
    intros w. unfold expect_heap, mbind, io_bind, get. rewrite Heq. rewrite Ha in Hh.
    by injection Hh as <-.
Qed.

(** The first block is the heap value's. *)
Lemma heap_value_ok :
  ∃ p, ∀ T d (c : Mach) (s : World * Mach),
    at_ T d (set_ALLOCATOR (without_lists (heap_init HEAP_START HEAP_SIZE heap_empty)) c) s →
    runs (Box_new i32_layout) s (Ok p)
      (boxed T d c [Block p i32_layout] [] (tail (boot_layouts (K := K)))).
Proof.
  pose proof (fresh_serves (K := K) (Heap := Heap)) as Hserves.
  pose proof (fresh_requests (K := K) (Heap := Heap)) as Hreq.
  cbn [boot_layouts serves] in Hserves. apply Forall_cons in Hreq as [[Hl Hacc] Hreq].
  destruct (allocate_first_fit (fallback_layout i32_layout) _) as [h' [p|]] eqn:Hal; [|done].
  exists p. intros T d c s Hs.
  destruct (Box_new_ok T d c [] i32_layout _ h' p s Hs) as [Hrun Hinv]; [|done..|].
  { by apply FixedSizeBlockAllocator.fixed_size_block_init_inv. }
  eapply runs_mono; [exact Hrun|]. intros s' Hs'. exists []. split; [done|]. by exists h'.
Qed.

(** The greeting, on whatever the screen showed. *)
Definition greeted (rows : list (list ScreenChar)) (rest : list ScreenChar) : Writer.term :=
  Writer.MkTerm (rows ++ [((λ b, MkChar b YELLOW) <$> text "Hello World!") ++ rest]) [].

Lemma greeting_ok (w : World) (c : Mach) buffer :
  Interrupts.console w = Writer.WRITER buffer → Writer.wf (Writer.WRITER buffer) →
  Interrupts.keyboard w = Keyboard.statics_init →
  ∃ rows rest, runs (println_ [text "Hello World"; text "!"]) (w, c) (Ok tt)
    (at_ (greeted rows rest) (Interrupts.disk_sys w) c).
Proof.
  intros Hw Hwf Hk.
  destruct (Writer.first_println_shows [text "Hello World"; text "!"] (Writer.WRITER buffer) Hwf)
    as (w' & rows & rest & Heq & Hc & Hs); [done|by apply (bool_decide_unpack _)|cbn; unfold BUFFER_WIDTH; lia|].
  exists rows, rest.
  eexists. split; [|split].
  - unfold println_, on_world, Interrupts.println, mbind, io_bind, get.
    rewrite (Interrupts.on_console_ok _ _ w'); [reflexivity|]. by rewrite Hw.
  - exists Keyboard.statics_init. split; [|done]. by split.
  - done.
Qed.

Lemma memory_init_ok (c : Mach) i (w : World) :
  boot_info_ok c i →
  memory_init (sign_extend (physical_memory_offset i)) (w, c) =
    ((w, c), Ok (OffsetPageTable_new
      (sign_extend (physical_memory_offset i) + level_4_table_frame c)
      (sign_extend (physical_memory_offset i)))).
Proof.
  intros [_ [Hf Hc] _ _ _ _]. unfold memory_init, active_level_4_table, mbind, io_bind, get, lift.
  by rewrite virt_add_spec.
Qed.

(** The statements of [boot] up to the heap. *)
Lemma boot_memory_runs {A} e gaps i T d (c0 c1 : Mach) m h s (k : M → io (World * Mach) A) r Q :
  runs (println_ [text "Hello World"; text "!"]) s (Ok tt) (at_ T d c0) →
  interrupts_enabled c0 = false → (∀ w : World, init (w, c0) = ((w, c1), Ok tt)) →
  interrupts_enabled c1 = true → boot_info_ok c1 i →
  (∀ w : World, expect_heap (OffsetPageTable_new
      (sign_extend (physical_memory_offset i) + level_4_table_frame c1)
      (sign_extend (physical_memory_offset i)))
    (BootInfoFrameAllocator.init (boot_memory_map i)) (w, c1) = ((w, set_ALLOCATOR h c1), Ok m)) →
  (∀ n, no_disk (gaps n)) →
  (∀ s', at_ (feed T (gap_text (gaps 1%nat) ++ gap_text (gaps 2%nat))) d (set_ALLOCATOR h c1) s' →
     runs (k m) s' r Q) →
  runs (_ ← println_ [text "Hello World"; text "!"];
        _ ← pending e (gaps 0%nat);
        _ ← init;
        _ ← pending e (gaps 1%nat);
        phys_mem_offset ← lift (virt_new (physical_memory_offset i));
        mapper ← memory_init phys_mem_offset;
        let frame_allocator := BootInfoFrameAllocator.init (boot_memory_map i) in
        mapper ← expect_heap mapper frame_allocator;
        _ ← pending e (gaps 2%nat);
        k mapper) s r Q.
Proof.
  intros Hhello Hdis Hinit He Hi Hheap Hg Hk.
  eapply runs_bind; [exact Hhello|intros s1 Hs1; cbv beta].
  eapply runs_bind; [by apply at_disabled|intros s2 Hs2; cbv beta].
  eapply runs_bind; [by eapply at_machine|intros s3 Hs3; cbv beta].
  eapply runs_bind; [by apply at_pending|intros s4 Hs4; cbv beta].
  rewrite (virt_new_spec _ (info_offset _ _ Hi)). apply runs_bind_lift.
  eapply runs_bind; [eapply at_machine; [by intros w; apply memory_init_ok|exact Hs4]|].
  intros s5 Hs5. cbv beta zeta.
  eapply runs_bind; [by eapply at_machine|intros s6 Hs6; cbv beta].
  eapply runs_bind; [by apply at_pending|intros s7 Hs7; cbv beta].
  apply Hk. by rewrite feed_app in Hs7.
Qed.

(** ... and from the heap value on. *)
Lemma boot_rest_runs e gaps T d (c : Mach) p (m : M) s :
  boxed T (MkSys ata_init d) c [Block p i32_layout] [] (tail (boot_layouts (K := K))) s →
  interrupts_enabled c = true → (∀ n, no_disk (gaps n)) →
  runs (_ ← println_ [text "heap_value at "; show_ptr p];
        _ ← pending e (gaps 3%nat);
        _ ← ata_init_msg (K := K) AtaDriver_new;
        _ ← pending e (gaps 4%nat);
        _ ← println_ [text "It did not crash!"];
        _ ← pending e (gaps 5%nat);
        executor ← Executor_new;
        executor ← fold_io spawn_on_world executor (zip task_ids [ExampleTask; DiskStart; KeyStart]);
        mret (p, m, executor)) s (Ok (p, m, spawned))
    (boxed (feed T (text "heap_value at " ++ show_ptr p ++ newline ++ gap_text (gaps 3%nat) ++
        ata_init_text (reset_device d).2 ++ gap_text (gaps 4%nat) ++
        text "It did not crash!" ++ newline ++ gap_text (gaps 5%nat)))
      (MkSys (driver_ready ata_init) (reset_device d).1) c
      [Block p i32_layout] (reverse (tail (boot_layouts (K := K)))) []).
Proof.
  intros Hs He Hg.
  eapply runs_bind; [by apply boxed_println|intros s1 Hs1; cbv beta].
  eapply runs_bind; [by apply boxed_pending|intros s2 Hs2; cbv beta].
  eapply runs_bind; [eapply ata_init_msg_ok; [exact Hs2|done|done]|intros s3 Hs3; cbv beta].
  eapply runs_bind; [by apply boxed_pending|intros s4 Hs4; cbv beta].
  eapply runs_bind; [by apply boxed_println|intros s5 Hs5; cbv beta].
  eapply runs_bind; [by apply boxed_pending|intros s6 Hs6; cbv beta].
  eapply runs_bind; [by apply Executor_new_ok|intros s7 Hs7; cbv beta].
  eapply runs_bind; [by apply spawn_three_ok|intros s8 Hs8; cbv beta].
  apply runs_ret. rewrite !feed_app in Hs8.
  cbn [concat] in Hs8. rewrite ?app_nil_r, <-?app_assoc in Hs8. exact Hs8.
Qed.

(** From power on to the executor. *)
Lemma boot_ok e gaps i (s : World * Mach) :
  powered_on s → boot_info_ok s.2 i → (∀ n, no_disk (gaps n)) →
  let d := reset_device (dev (Interrupts.disk_sys s.1)) in
  ∃ s' c p m rows rest,
    boot (K := K) (M := M) e gaps i s = (s', Ok (p, m, spawned)) ∧
    boxed (feed (greeted rows rest) (boot_text gaps p d.2)) (MkSys (driver_ready ata_init) d.1) c
      [Block p i32_layout] (reverse (tail (boot_layouts (K := K)))) [] s' ∧
    initialised c ∧ heap_mapped m.
Proof.
  destruct s as [w0 c0]. intros [(buffer & Hcon & Hwf) Hk Hdrv Hst Hpic Hdis Hal] Hi Hg d.
  cbn [fst snd] in *.
  destruct (greeting_ok w0 c0 buffer Hcon Hwf Hk) as (rows & rest & Hhello).
  destruct (init_ok c0 Hst Hpic) as (c1 & Hinit & Hc1 & Htab & Hal1).
  assert (Hi' : boot_info_ok c1 i).
  { destruct Hi as [? Ht ? ? ? Hp]. rewrite <-Htab in Ht, Hp. by split. }
  destruct (expect_heap_ok c1 i Hi') as (m & Hheap & Hm); [congruence|].
  pose proof (init_enabled _ Hc1) as He.
  destruct (Interrupts.disk_sys w0) as [a0 d0] eqn:Hd0. cbn [drv dev] in *. subst a0.
  destruct heap_value_ok as [p Hbox].
  assert (Hrun : runs (boot (K := K) (M := M) e gaps i) (w0, c0) (Ok (p, m, spawned))
    (boxed (feed (greeted rows rest) (boot_text gaps p (reset_device d0).2))
      (MkSys (driver_ready ata_init) (reset_device d0).1) c1
      [Block p i32_layout] (reverse (tail (boot_layouts (K := K)))) [])).
  { eapply (boot_memory_runs e gaps i _ _ c0 c1 m); [done..|]. intros s8 Hs8.
    eapply runs_bind; [by apply Hbox|intros s9 Hs9; cbv beta].
    eapply runs_mono; [by apply boot_rest_runs|]. intros s10 Hs10. rewrite feed_app in Hs10.
    unfold boot_text. rewrite <-?app_assoc in Hs10. exact Hs10. }
  destruct Hrun as (s' & Heq & Hs'). by exists s', c1, p, m, rows, rest.
Qed.

Lemma booting_ready T d (w : World) :
  booting T (MkSys (driver_ready ata_init) d) w →
  ready_world w ∧ holds T (Interrupts.keyboard w) (Interrupts.disk_sys w) w.
Proof.
  intros (kb & Hw & Hq & Hk). pose proof (holds_keyboard _ _ _ _ Hw) as Hkb.
  pose proof (holds_disk _ _ _ _ Hw) as Hd. rewrite Hkb, Hd. split; [|done].
  split; rewrite ?Hkb, ?Hd; [by exists T|done..].
Qed.

Lemma boxed_booting T d (c : Mach) live served ls (s : World * Mach) :
  boxed T d c live served ls s →
  ∃ blocks, booting T d s.1 ∧ s.2 = set_ALLOCATOR (ALLOCATOR s.2) c ∧ b_layout <$> blocks = served ∧
    ga_inv (hs := HEAP_START) (he := HEAP_START + HEAP_SIZE) (ALLOCATOR s.2) (blocks ++ live).
Proof. intros (blocks & Hb & h & [Hw ->] & Hinv & _). by exists blocks. Qed.

(** C9. The kernel boots: from power on, with whatever on the screen and with any
    timer and keyboard interrupts arriving between the statements of
    kernel_main, and a fallback heap that serves the blocks the boot asks for,
    kernel_main runs to the executor without a panic. The console then shows
    the greeting and the messages of the boot in order, with the dots and
    warnings of the interrupts; the tables are loaded with the double-fault
    stack, and the controllers raise the vectors the handlers are registered
    for; every page of the heap is mapped; the heap value, the queues, the
    disk waker, the futures and the map of tasks have blocks that are aligned,
    in the heap and disjoint, and the allocator keeps its invariant with them;
    the ATA statics are initialised; the three tasks are ready. *)
Theorem kernel_boots e gaps i (s : World * Mach) :
  powered_on s → boot_info_ok s.2 i → (∀ n, no_disk (gaps n)) →
  let d := reset_device (dev (Interrupts.disk_sys s.1)) in
  ∃ w c p mapper blocks rows rest,
    boot (K := K) (M := M) e gaps i s = ((w, c), Ok (p, mapper, spawned)) ∧
    booting (feed (greeted rows rest) (boot_text gaps p d.2))
      (MkSys (driver_ready ata_init) d.1) w ∧
    ready_world w ∧ initialised c ∧ heap_mapped mapper ∧
    b_layout <$> blocks ++ [Block p i32_layout] = reverse (boot_layouts (K := K)) ∧
    live_ok HEAP_START (HEAP_START + HEAP_SIZE) (blocks ++ [Block p i32_layout]) ∧
    ga_inv (hs := HEAP_START) (he := HEAP_START + HEAP_SIZE) (ALLOCATOR c) (blocks ++ [Block p i32_layout]).
Proof.
  intros Hs Hi Hg.
  destruct (boot_ok e gaps i s Hs Hi Hg) as ([w c'] & c & p & m & rows & rest & Heq & Hb & Hc & Hm).
  destruct (boxed_booting _ _ _ _ _ _ _ Hb) as (blocks & Hw & Hc' & Hl & Hinv). cbn [fst snd] in *.
  exists w, c', p, m, blocks, rows, rest. split_and!; [done|done|by eapply booting_ready| |done| | |done].
  - rewrite Hc'. by destruct Hc.
  - rewrite fmap_app, Hl. done.
  - by apply ga_inv_live in Hinv.
Qed.

End boots.

Section main.
Context {D : Type} `{AtaDeviceSpec D}.
Context {K Event KeyCode : Type} `{Keyboard.Decoder K Event KeyCode}.
Context {G Descriptor : Type} `{GdtSpec G Descriptor} `{PagingSpec} `{!VirtAddrApi, !VirtAddrSpec}.
Context {P : Type} `{PicSpec P}.
Context {Heap : Type} `{!BootLayouts K} `{!FallbackHeap Heap, !FallbackHeapSpec Heap HEAP_START (HEAP_START + HEAP_SIZE), !FreshHeap K Heap}.
Context `{PhysFramesSpec} `{Profile}.
#[local] Existing Instances BootInfoFrameAllocator.boot_info_frames boot_info_spec.
Context {M : Type} `{PageTables M} `{!Mapper M BootInfoFrameAllocator.t, !MapperSpec M BootInfoFrameAllocator.t}.

(** C1. The whole kernel, from power on: with a heap that serves what the boot
    allocates, kernel_main boots with any timer and keyboard interrupts on the
    way, and runs its tasks. If the disk has finished its reset, the first
    round of the executor runs the example task and asks for sector 0, the
    disk's interrupt wakes the disk task, which prints the bytes that are on
    the disk, and from then on every round of timer ticks and key presses (no
    more at a time than the scancode queue holds) appears on the console: a
    dot for each tick, and the characters the scancodes decode to, in the
    order they were typed. *)
Theorem kernel_main_session e gaps sc rounds i (s : Interrupts.t D * Machine G P Heap) d status tf k :
  powered_on s → boot_info_ok (M := M) s.2 i → (∀ n, no_disk (gaps n)) →
  reset_device (dev (Interrupts.disk_sys s.1)) = (d, status) →
  dev_idle d tf k → 0 < dev_sectors → Forall key_round rounds →
  ∃ ex w c kb p rows rest,
    kernel_main (K := K) (M := M) e gaps 4 ([] :: [(Interrupts.PrimaryATA, sc)] :: rounds) i s =
      ((w, c), Ok ex) ∧
    waiting kb []
      (feed (greeted rows rest)
        (boot_text gaps p status ++ first_text (inb STATUS_COMMAND_PORT d).2 ++
         disk_text (k 0) ++ session rounds Keyboard.kb_new)) (ex, w).
Proof.
  intros Hs Hi Hg Hreset Hidle Hpos Hr. destruct (boot_ok (K := K) e gaps i s Hs Hi Hg)
    as ([w c] & c1 & p & m & rows & rest & Heq & Hb & _).
  destruct (boxed_booting _ _ _ _ _ _ _ Hb) as (blocks & Hw & _).
  rewrite Hreset in Hw. cbn [fst snd] in Hw.
  pose proof Hw as (kb & Hw' & _). pose proof (holds_disk _ _ _ _ Hw') as Hd. clear Hw'.
  apply booting_ready in Hw as [Hready Hw]. clear kb.
  destruct (session_rounds e sc rounds _ w tf k Hready Hw) as ([ex w'] & kb & Heq' & Hwait);
    [by rewrite Hd..|done|done|].
  exists ex, w', c, kb, p, rows, rest. split.
  - unfold kernel_main, mbind, io_bind. rewrite Heq. unfold get. by rewrite Heq'.
  - rewrite feed_app in Hwait. by rewrite Hd in Hwait.
Qed.

End main.
