(* ===== verification/BootExamples.v ===== *)
(** * A machine that boots

    Instances of everything the kernel takes from its crates and its hardware,
    and the witnesses of the theorems on the running kernel: a drive, a
    decoder that knows letters, lists for the segment table, a map for the page
    tables and this repository's linked-list allocator behind the heap. *)

From S2P Require Import Prelude Format Vga Alloc LinkedList FixedSizeBlock Ata Drive Keyboard Memory InitHeap Interrupts Gdt Executor Code World Tasks Kernel Preempt KernelRun Boot.

Module BootExamples.
Import MemoryExamples GdtExamples InitHeapExamples.
#[local] Existing Instances Drive.drive_ports Drive.drive_spec Keyboard.letter_decoder.
#[local] Existing Instances FixedSizeBlockAllocator.linked_list_fallback FixedSizeBlockAllocator.linked_list_fallback_spec.
#[local] Existing Instances BootInfoFrameAllocator.boot_info_frames boot_info_spec.

#[local] Instance sign_extended : VirtAddrApi := {|
  virt_new a := if decide (canonical (sign_extend a)) then Ok (sign_extend a) else Panic
|}.

#[local] Instance sign_extended_spec : VirtAddrSpec.
Proof. intros a Ha. cbn. by rewrite decide_True. Qed.

(** Controllers that know their offsets once they are initialised. *)
#[local] Instance offset_pics : PicApi (Z * Z * bool) := {|
  ChainedPics_new o1 o2 := (o1, o2, false);
  initialize p := (p.1, true);
|}.

#[local] Instance offset_pics_spec : PicSpec (Z * Z * bool).
Proof.
  exists (λ (p : Z * Z * bool) (n : Z), if p.2 then Some (if decide (n < 8) then p.1.1 + n else p.1.2 + (n - 8)) else None).
  done.
Defined.

(** The boot loader has mapped none of the heap's pages. *)
#[local] Instance no_pages : PageTables (gmap Z Z) := {| OffsetPageTable_new _ _ := ∅ |}.

(** Layouts in the order of magnitude of the real ones: 32 and 100 slots of 16
    bytes, a queue with its cache-padded counters, futures that hold a sector. *)
#[local] Instance sample_layouts : BootLayouts unit := {|
  request_queue_layout := MkLayout 512 8;
  disk_waker_layout := MkLayout 40 8;
  task_queue_layout := MkLayout 1600 8;
  task_queue_arc_layout := MkLayout 512 128;
  future_layout f := match f with ExampleTask => MkLayout 8 4 | DiskStart => MkLayout 1100 8 | _ => MkLayout 64 8 end;
  tasks_node_layout := MkLayout 376 8;
|}.

#[local] Instance fresh_linked_list : FreshHeap unit LinkedListAllocator.t.
Proof.
  split; [|vm_compute; reflexivity].
  repeat (constructor; [split; [split; [split; [|done]|cbn; lia]|by vm_compute]|]); [..|constructor].
  - by exists 2.
  - by exists 3.
  - by exists 3.
  - by exists 3.
  - by exists 7.
  - by exists 2.
  - by exists 3.
  - by exists 3.
  - by exists 3.
Qed.

(** A screen full of a boot loader's messages. *)
Definition old_screen : list (list ScreenChar) :=
  replicate BUFFER_HEIGHT (replicate BUFFER_WIDTH (MkChar 0x2A 0x0F)).

Definition machine : Machine (list (option desc)) (Z * Z * bool) LinkedListAllocator.t :=
  MkMachine 0x200000 0x1000 (MkRegs None 0 0) false
    (ChainedPics_new Interrupts.PIC_1_OFFSET Interrupts.PIC_2_OFFSET) false
    FixedSizeBlockAllocator.new.

Definition powered : Interrupts.t Drive.t * Machine (list (option desc)) (Z * Z * bool) LinkedListAllocator.t :=
  (Interrupts.Mk (Writer.WRITER old_screen) Keyboard.statics_init (MkSys ata_init Drive.sample) 0 [],
   machine).

(** The offset of [Cargo.toml]. *)
Definition info : BootInfo := MkBootInfo 0x0000f00000000000 sample_map.

Lemma powered_ok : powered_on powered.
Proof.
  split; try done.
  - exists old_screen. split; [done|]. split; [done| |cbn; lia].
    apply Forall_replicate. by vm_compute.
  - left. cbn. unfold STACK_SIZE. lia.
Qed.

Lemma info_ok : boot_info_ok (M := gmap Z Z) (powered).2 info.
Proof.
  split.
  - by apply (bool_decide_unpack _).
  - split; [cbn; lia|]. by apply (bool_decide_unpack _).
  - apply sample_map_ok.
  - unfold in_width. vm_compute. split; congruence.
  - apply (bool_decide_unpack _). by vm_compute.
  - apply Forall_forall. intros p _. apply lookup_empty.
Qed.

Definition frame : Interrupts.Exception := Interrupts.MkException [] [] [].

(** A tick and a key press between all statements of the boot. *)
Definition busy (n : nat) : list (Interrupts.InterruptIndex * Z) :=
  [(Interrupts.Timer, 0); (Interrupts.Keyboard, 30)].

Lemma busy_no_disk n : no_disk (busy n).
Proof. by repeat constructor. Qed.

Lemma kernel_boots_witness :
  ∃ w c p m, boot (K := unit) (M := gmap Z Z) frame busy info powered = ((w, c), Ok (p, m, spawned)) ∧
    ready_world w ∧ heap_mapped (M := gmap Z Z) m.
Proof.
  destruct (kernel_boots (K := unit) (M := gmap Z Z) frame busy info powered powered_ok info_ok busy_no_disk)
    as (w & c & p & m & blocks & rows & rest & Heq & _ & Hr & _ & Hm & _).
  exists w, c, p, m. split; [exact Heq|]. split; [exact Hr|exact Hm].
Defined.

Lemma sample_reset_idle :
  dev_idle (reset_device Drive.sample).1 (MkTF 0 0 0 0 DEVICE_MASTER) Drive.sample_disk.
Proof.
  destruct (proj1 Drive.sample_repr) as (tf & _ & _ & _ & _ & [Hk _]).
  by split_and!.
Qed.

(** One tick and one key. *)
Definition one_key : list (list (Interrupts.InterruptIndex * Z)) :=
  [[(Interrupts.Timer, 0); (Interrupts.Keyboard, 30)]].

Lemma kernel_main_session_witness :
  ∃ ex w c kb p rows rest,
    kernel_main (K := unit) (M := gmap Z Z) frame busy 4
      ([] :: [(Interrupts.PrimaryATA, 0)] :: one_key) info powered = ((w, c), Ok ex) ∧
    waiting kb [] (feed (greeted rows rest)
      (boot_text busy p (reset_device Drive.sample).2 ++
       first_text (inb STATUS_COMMAND_PORT (reset_device Drive.sample).1).2 ++
       disk_text (Drive.sample_disk 0) ++ text ".A")) (ex, w).
Proof.
  destruct (kernel_main_session (K := unit) (M := gmap Z Z) frame busy 0 one_key info powered
    (reset_device Drive.sample).1 (reset_device Drive.sample).2 (MkTF 0 0 0 0 DEVICE_MASTER)
    Drive.sample_disk powered_ok info_ok busy_no_disk (surjective_pairing _) sample_reset_idle)
    as (ex & w & c & kb & p & rows & rest & Heq & Hw).
  - by vm_compute.
  - constructor; [|constructor]. split; [by repeat constructor|]. cbn. unfold Keyboard.QUEUE_SIZE. lia.
  - exists ex, w, c, kb, p, rows, rest. split; [exact Heq|exact Hw].
Defined.

Lemma quiet_ready : ready_world (Interrupts.Mk Writer.blank_screen Keyboard.statics_init
  (MkSys (driver_ready ata_init) Drive.sample) 0 []).
Proof.
  split; try done. eexists. split; [apply Writer.blank_screen_shows|done..].
Qed.

(** Interrupts before the first poll, in the middle of polls and after them. *)
Definition some_events : list event :=
  [Irq (Interrupts.PrimaryATA, 0); Go; Irq (Interrupts.Timer, 0); Go; Go; Go; Go;
   Irq (Interrupts.Keyboard, 30)] ++ replicate 20 Go ++
  [Irq (Interrupts.PrimaryATA, 0)] ++ replicate 20 Go ++ [Irq (Interrupts.Keyboard, 48)] ++ replicate 40 Go.

Lemma kernel_never_panics_witness :
  ∃ ex s', spawn_tasks (K := unit) (Executor.new, Interrupts.Mk Writer.blank_screen Keyboard.statics_init
      (MkSys (driver_ready ata_init) Drive.sample) 0 []) =
    ((ex, Interrupts.Mk Writer.blank_screen Keyboard.statics_init
      (MkSys (driver_ready ata_init) Drive.sample) 0 []), Ok tt) ∧
    for_each some_events (run_event frame) (MkRun ex (Interrupts.Mk Writer.blank_screen
      Keyboard.statics_init (MkSys (driver_ready ata_init) Drive.sample) 0 []) None) = (s', Ok tt).
Proof.
  destruct (kernel_never_panics (K := unit) frame _ quiet_ready) as (ex & Hsp & Hall).
  destruct (Hall some_events) as (s' & Heq & _).
  - apply paced_few. apply (bool_decide_unpack _). vm_compute. exact I.
  - exists ex, s'. split; [exact Hsp|exact Heq].
Defined.


End BootExamples.
